(* ===== verification/_CoqProject ===== *)
-Q . S2P
Prelude.v
Transitions.v
ConnectionLimiter.v
HallucinationGuard.v
Floats.v
Numbers.v
Json.v
TrustedProxyResolver.v
Log.v
AuthCache.v
ApiAuthClient.v
AuthManager.v
AuthThreads.v
SlotPool.v
InferenceLimiter.v
ModelCache.v
VadGate.v
AudioPreprocessor.v
Engine.v
Session.v
FlushLoop.v
Wedge.v
FlowControl.v
SessionSafety.v
Protocol.v
SessionEnd.v
SessionTypes.v
System.v
SystemSafety.v
MultipartParser.v
Config.v
AudioDecoder.v
HttpRouter.v
HandleTranscribe.v
SystemRequests.v
HandshakeWatchdog.v
SessionHandler.v
Server.v
Startup.v
