(* ===== verification/Prelude.v ===== *)
(** * Verification of jota-transcriber

    jota-transcriber is a speech-to-text server: clients stream audio over a
    WebSocket and receive transcriptions as they become available, or upload a
    file over HTTP; whisper.cpp does the recognition, FFmpeg the decoding.  This
    library models the server's own code as executable definitions, one file and
    one [Module] of the same name per component, and proves the theorems below
    about them.  Paths are those of the repository ([src/...]).

    ** The program and its model

    - [src/server.cpp]: [Config] is the configuration ([loadDotEnv],
      [configFromEnv], [parseArgs]: tables of options, applied in order).
      [Server] is the process: the accept loop of [main], the vector of session
      threads, the signal handler, [SessionTracker.h], the refresh of the trusted
      proxies and the shutdown, as a step relation [Server.step] on a [world].
      [Startup] is [main] from the command line to the accept loop, with every
      failure on the way, its log, the exit status and [printUsage].
    - [src/server/ConnectionLimiter.cpp], [ConnectionGuard.cpp]:
      [ConnectionLimiter]; its counters represent a multiset of open connections.
    - [src/server/TrustedProxyResolver.cpp]: [TrustedProxyResolver].
    - [src/server/SessionHandler.cpp], [buildRouter], [HttpRouter.cpp], the
      handlers: [HttpRouter] ([dispatch]), [SessionHandler] (one connection from
      its first byte to the release of its slot; the probes), [HandleTranscribe]
      (POST /v1/audio/transcriptions), [MultipartParser], [AudioDecoder].
    - [src/server/HandshakeWatchdog.h]: [HandshakeWatchdog], interleaved with the
      life of the descriptor in [handleSession].
    - [src/server/StreamingSession.h]: [Session] has the state and what each
      thread does in one critical section; [FlushLoop] interleaves the receive
      thread ([run], [handleEnd], the destructor) and the flush thread
      ([flushLoop]) as [FlushLoop.step], where a step is a critical section on
      [state_mutex_], one message written, or a wait that ends.  A message is
      [sent] when it has been handed to [ws_.write] or [ws_.close]: a failure of
      the write is caught and changes nothing in what the session does next, and a
      write that blocks is a step that does not come.  [releaseModel] may wait,
      with the mutex, for a timer task of the model cache.  Theorems about
      its runs are in [Wedge], [FlowControl] and [SessionSafety], in [SessionEnd] (termination),
      in [SessionTypes] (well-formed states) and in [Protocol], which has the
      protocol of the messages as a small state machine.
    - [src/whisper/StreamingWhisperEngine.cpp]: [Engine]; [VadGate.cpp]: [VadGate];
      [src/utils/]: [AudioPreprocessor], [HallucinationGuard].
    - [src/whisper/ModelCache.h]: [ModelCache], with the tasks of [std::async];
      [InferenceLimiter.h]: [InferenceLimiter], with its condition variable.
      [SlotPool] is the interface by which [HandleTranscribe] uses the limiter.
    - [System] puts the sessions, the requests, the model cache with its timers,
      the limiter and the authentication together: [System.step] runs any number
      of sessions ([FlushLoop.step] with the shared state plugged in) and requests
      in any order.  [SystemSafety] has the theorems about its runs;
      [SystemRequests] shows that [HandleTranscribe.handle] is such a sequence of
      request steps.
    - [src/auth/], [AuthManager.cpp]: [AuthCache], [ApiAuthClient], [AuthManager];
      [AuthThreads] interleaves the calls of [validate] of several threads;
      [src/log/Log.h]: [Log].
    - [Floats] and [Numbers]: the binary32 and binary64 arithmetic and the numeric
      conversions of the C++ standard library the source uses; [Json]: the
      interface of the JSON library.  This file: strings, exceptions, [size_t],
      and the tactics and lemmas the components share.  [Transitions]: runs of a
      step function, rule induction over them, and simulations.

    [Server] admits connections with [ConnectionLimiter.tryAcquire] and
    [TrustedProxyResolver.isTrusted]; each runs [SessionHandler.handleSession],
    which calls [HandleTranscribe.handle] or becomes a session.  A session calls
    [AuthManager.validate], [ModelCache.acquire], [Engine.processAudioChunk] and,
    in its flush thread, [Engine.transcribeSlidingWindow] under an inference slot.

    ** What the theorems show

    - A session: [session_refines_protocol] (its messages are a trace of the
      protocol), [final_text_spec] (the final text, from a log of the run's
      inferences), [final_is_last] (nothing follows it), [ended_session_terminates]
      (only a write to the peer or a timer of the model cache can hold up a session
      that has been told to stop; [ended_session_unwatched]: nothing then ends such
      a write), [session_well_typed], [flush_slot_released],
      [unauthenticated_gets_nothing], [rate_window]; and where it fails:
      [full_buffer_never_drains], [resume_overtakes_pause], [disconnect_derefs_null],
      [reconfiguration_leaks], [stale_size_is_due].
    - The whole process: [engines_on_live_model] (no engine and no request runs on
      a freed model), [slots_accounted] (the limiter's count and the reference
      count are exactly what is held), [quiescent_system] (nothing is held when
      nothing runs), [handle_refines_steps].  The runs are those of a living
      process: an exception in [flushLoop] and a null [engine_], which end it, are
      states without steps.
    - The engine: [transcribe_conserves_text], [commit_keeps_new_audio]
      ([late_segment_erases_new_audio] is the case it leaves open),
      [processAudioChunk_spec], [force_commit_buffer]; the gate:
      [gated_samples_origin], [toOriginalSamples_monotone], [trailing_gap]; the
      filters: [process_chunks], [isHallucination_spec].
    - Shared resources: [no_use_after_free], [pending_unload_happens],
      [destructor_frees_once], [stale_timer_survives], [path_switch_frees_held] for
      the model cache; [no_lost_wakeup], [concurrency_cap] for the inference slots;
      [slots_match_threads], [limiter_refines_open_connections], [limiter_caps] for
      the connections; [handle_balanced] and [handleSession_releases]: whatever
      fails, a request gives everything back; [decode_releases_all] for FFmpeg's
      objects, and the one exception that leaks them.
    - HTTP: [inference_requires], [saturated_503], [oversized_upload_dropped],
      [ready_iff_slot], [dispatch_first_match], [parse_render],
      [parse_terminates], [filename_first_is_the_name], [reader_in_bounds],
      [last_packet_lost].
    - Connections and start-up: [shutdown_misses_handshakes], [threads_accumulate],
      [watchdog_safe], [tls_shutdown_after_close], [main_serves],
      [usage_matches_parser] (the parser reads what the usage text names and
      little else), [half_configured_tls_is_plain], [last_option_wins],
      [dotenv_lookup]; the log: [write_read_header].
    - Authentication: [validate_fresh], [overlapping_calls_fresh] and
      [revoked_token_accepted] (overlapping calls), [static_token_takes_precedence],
      [constantTimeEqual_spec], [validate_allowed_iff], [parseUrl_roundtrip],
      [trusted_iff_last_known_good].

    ** Conventions

    A [std::string] is a list of [ascii]; a computation that may throw returns
    [result].  Integers are [Z]; arithmetic on [size_t] that the code lets wrap
    goes through [u64] and [usub], and the conversions to [int], [size_t] and
    [unsigned short] have their ranges.  A mutex-protected operation is a function
    on the state; threads are interleaved by step functions that return [None]
    when a step is not possible, and [run] replays a list of events, so that a
    theorem about all event lists is about all schedules.  Time is an argument,
    in nanoseconds of the steady clock, except in [ModelCache] and its timers
    (seconds).

    The only fuel is that of [MultipartParser.parse_loop]: the length of the body
    plus one, enough since every part shortens the rest, which is what
    [parse_terminates] proves; all other recursion is structural.
    [Floats] rounds after every operation: the model of the filters is that of a
    build without contraction into fused multiply-add.

    ** The environment, and what is left out

    whisper.cpp, FFmpeg, Boost.Asio/Beast, OpenSSL, DNS, the clock, the random
    generator and nlohmann/json are arguments of the definitions ([Engine.env],
    [AudioDecoder.ffmpeg], [HandleTranscribe.env], [SessionHandler.connection],
    [ApiAuthClient.Network], the answers passed to [refresh]) or the class
    [JsonLib] with the facts [JsonLaws], which [Json.TinyJson] implements.

    Not modelled: the log lines of the components, [SocketUtil.h] (one system
    call), [getaddrinfo] and [inet_ntop] behind [defaultResolver], and the data
    races of the compiled program: a step is atomic where the code holds a mutex.
    A failing memory allocation is an outcome in [AudioDecoder] and, for a thread
    that cannot be started, in [SessionHandler], [Server] and [Startup], not
    elsewhere.  [System] ends a request when it has given its reference back: the
    wait of [ModelCache::release] that may follow delays its reply only.
    [Server] takes a session thread as its stages, [SessionHandler] a WebSocket
    session as any transformation of the shared state. *)

From stdpp Require Import prelude strings list gmap pretty.
From Stdlib Require Import ZArith Lia.

(** * Notations *)

Declare Scope jota_scope.
Delimit Scope jota_scope with jota.
Open Scope Z_scope.
Open Scope jota_scope.

(** [std::string] is a sequence of bytes. *)
Abbreviation str := (list Ascii.ascii).

(** A string literal of the source. *)
Definition lit (s : string) : str := String.list_ascii_of_string s.

(** * Exceptions

    A C++ computation either returns or throws; a thrown [std::exception]
    is represented by its [what()] text. *)
Inductive result (A : Type) : Type :=
| Ok (a : A)
| Throw (what : str).
Arguments Ok {A} a.
Arguments Throw {A} what.

#[export] Instance result_ret : MRet result := @Ok.
#[export] Instance result_bind : MBind result :=
  λ A B f r, match r with Ok a => f a | Throw w => Throw w end.

Definition is_ok {A} (r : result A) : bool :=
  match r with Ok _ => true | Throw _ => false end.

(** * Machine integers *)

(** Wrap-around of [size_t]/[uint64_t] arithmetic. *)
Definition u64 (z : Z) : Z := z mod 2 ^ 64.

(** [a - b] on [size_t]. *)
Definition usub (a b : Z) : Z := u64 (a - b).

Lemma usub_small a b : 0 <= b <= a -> a < 2 ^ 64 -> usub a b = a - b.
Proof. intros. unfold usub, u64. apply Z.mod_small. lia. Qed.

Lemma usub_wrap a b : 0 <= a < b -> b <= 2 ^ 64 -> usub a b = 2 ^ 64 + a - b.
Proof.
  intros. unfold usub, u64. replace (a - b) with (2 ^ 64 + a - b + (-1) * 2 ^ 64) by lia.
  rewrite Z.mod_add by lia. apply Z.mod_small. lia.
Qed.

(** * Automation *)

(** Case analysis on the integer comparisons of the goal. *)
Ltac zcase :=
  repeat match goal with
  | |- context [?a <? ?b] => destruct (Z.ltb_spec a b)
  | |- context [?a <=? ?b] => destruct (Z.leb_spec a b)
  | |- context [?a >? ?b] => rewrite (Z.gtb_ltb a b)
  | |- context [?a >=? ?b] => rewrite (Z.geb_leb a b)
  | |- context [?a =? ?b] => destruct (Z.eqb_spec a b)
  end.

(** The same on the hypotheses. *)
Ltac zcase_in H :=
  repeat match type of H with
  | context [?a <? ?b] => destruct (Z.ltb_spec a b)
  | context [?a <=? ?b] => destruct (Z.leb_spec a b)
  | context [?a >? ?b] => rewrite (Z.gtb_ltb a b) in H
  | context [?a >=? ?b] => rewrite (Z.geb_leb a b) in H
  | context [?a =? ?b] => destruct (Z.eqb_spec a b)
  end.

(** Split every [match] of the goal, keeping the equations. *)
Ltac splits_all := repeat (case_match; simplify_eq/=).

Create HintDb jota discriminated.
#[export] Hint Constants Transparent : jota.

(** * Containers with [size_t] sizes *)

(** [v.size()] *)
Definition zlen {A} (l : list A) : Z := Z.of_nat (length l).

Section zlen.
Context {A : Type}.
Implicit Types l k : list A.

Lemma zlen_nil : zlen (@nil A) = 0.
Proof. done. Qed.
Lemma zlen_cons x l : zlen (x :: l) = 1 + zlen l.
Proof. unfold zlen. cbn [length]. lia. Qed.
Lemma zlen_app l k : zlen (l ++ k) = zlen l + zlen k.
Proof. unfold zlen. rewrite length_app. lia. Qed.
Lemma zlen_nonneg l : 0 <= zlen l.
Proof. unfold zlen. lia. Qed.
Lemma zlen_drop n l : 0 <= n -> zlen (drop (Z.to_nat n) l) = Z.max 0 (zlen l - n).
Proof. unfold zlen. rewrite length_drop. lia. Qed.
Lemma zlen_take n l : 0 <= n -> zlen (take (Z.to_nat n) l) = Z.min n (zlen l).
Proof. unfold zlen. rewrite length_take. lia. Qed.
Lemma zlen_replicate n (x : A) : 0 <= n -> zlen (replicate (Z.to_nat n) x) = n.
Proof. unfold zlen. rewrite length_replicate. lia. Qed.
Lemma zlen_zero l : zlen l = 0 <-> l = [].
Proof. unfold zlen. destruct l; cbn; split; intros; try done; lia. Qed.
End zlen.

Lemma zlen_fmap {A B} (f : A -> B) (l : list A) : zlen (f <$> l) = zlen l.
Proof. unfold zlen. by rewrite length_fmap. Qed.

Create Rewrite HintDb zlen.
#[export] Hint Rewrite @zlen_nil @zlen_cons @zlen_app @zlen_fmap : zlen.
#[export] Hint Rewrite @zlen_drop @zlen_take @zlen_replicate using lia : zlen.

(** Arithmetic on sizes. *)
Ltac zsize :=
  autorewrite with zlen in *;
  repeat match goal with
  | |- context [zlen ?l] => lazymatch goal with
                            | _ : 0 <= zlen l |- _ => fail
                            | _ => pose proof (zlen_nonneg l)
                            end
  | _ : context [zlen ?l] |- _ => lazymatch goal with
                                  | _ : 0 <= zlen l |- _ => fail
                                  | _ => pose proof (zlen_nonneg l)
                                  end
  end; try lia.

(** The last [n] elements of a sequence. *)
Definition last_n {A} (n : Z) (l : list A) : list A :=
  drop (Z.to_nat (zlen l - n)) l.

Lemma last_n_all {A} n (l : list A) : zlen l <= n -> last_n n l = l.
Proof. intros. unfold last_n. by replace (Z.to_nat (zlen l - n)) with 0%nat by lia. Qed.

Lemma zlen_last_n {A} n (l : list A) : 0 <= n -> zlen (last_n n l) = Z.min n (zlen l).
Proof. intros. unfold last_n, zlen. rewrite length_drop. lia. Qed.

(** * [std::string] operations *)

(** [s.rfind(p, 0) == 0] *)
Definition starts_with (p s : str) : bool := bool_decide (p `prefix_of` s).

Lemma starts_with_true p s : starts_with p s = true <-> exists k, s = p ++ k.
Proof. unfold starts_with. rewrite bool_decide_eq_true. done. Qed.

Lemma starts_with_app p s : starts_with p (p ++ s) = true.
Proof. apply starts_with_true. by eexists. Qed.

(** Offset of the first occurrence of [needle] in [s]. *)
Fixpoint find_first (needle s : str) : option nat :=
  if starts_with needle s then Some 0%nat
  else match s with
       | [] => None
       | _ :: s' => S <$> find_first needle s'
       end.

(** [s.find(needle, pos)]; [None] is [npos]. *)
Definition find_from (needle s : str) (pos : nat) : option nat :=
  if decide (pos <= length s)%nat
  then Nat.add pos <$> find_first needle (drop pos s)
  else None.

(** [s.substr(pos, n)] for [pos <= s.size()]. *)
Definition substr (s : str) (pos n : nat) : str := take n (drop pos s).

(** [needle] does not occur in [s]. *)
Definition absent (needle s : str) : Prop := find_first needle s = None.

Lemma find_first_Some needle s i :
  find_first needle s = Some i <->
  starts_with needle (drop i s) = true /\
  (i <= length s)%nat /\
  forall j, (j < i)%nat -> starts_with needle (drop j s) = false.
Proof.
  revert i. induction s as [|c s IH]; intros i; cbn [find_first].
  - destruct (starts_with needle []) eqn:E; split.
    + intros [= <-]. repeat split; [done|cbn; lia|lia].
    + intros (_ & Hi & _). cbn in Hi. by replace i with 0%nat by lia.
    + done.
    + intros (H & Hi & _). cbn in Hi. replace i with 0%nat in H by lia. cbn in H. congruence.
  - destruct (starts_with needle (c :: s)) eqn:E; split.
    + intros [= <-]. repeat split; [done|lia|lia].
    + intros (H & Hi & Hj). destruct i as [|i]; [done|].
      specialize (Hj 0%nat ltac:(lia)). cbn in Hj. congruence.
    + intros (k & (H & Hk & Hj)%IH & ->)%fmap_Some. cbn. repeat split; [done|lia|].
      intros [|j] ?; [done|]. apply Hj. lia.
    + intros (H & Hi & Hj). destruct i as [|i]; [cbn in H; congruence|].
      apply fmap_Some. exists i. split; [|done]. apply IH. cbn in *. repeat split; [done|lia|].
      intros j ?. apply (Hj (S j)). lia.
Qed.

(** Successive [std::getline(ss, item, delim)] on a stream holding [s]: the
    items extracted before the stream fails. *)
Fixpoint getlines (delim : Ascii.ascii) (cur s : str) : list str :=
  match s with
  | [] => match cur with [] => [] | _ => [cur] end
  | c :: s' => if decide (c = delim) then cur :: getlines delim [] s'
               else getlines delim (cur ++ [c]) s'
  end.

(** [std::isspace] in the "C" locale: space, \t \n \v \f \r. *)
Definition isspace (c : Ascii.ascii) : bool :=
  let n := Ascii.nat_of_ascii c in
  bool_decide (n = 32 \/ (9 <= n /\ n <= 13))%nat.

(** [::tolower] in the "C" locale. *)
Definition tolower (c : Ascii.ascii) : Ascii.ascii :=
  let n := Ascii.nat_of_ascii c in
  if bool_decide (65 <= n /\ n <= 90)%nat then Ascii.ascii_of_nat (n + 32) else c.

(** [std::to_string] of an integer. *)
Definition to_string (z : Z) : str := lit (pretty z).
