(* ===== verification/Transitions.v ===== *)
(** Deterministic labelled transition systems: every concurrent component of the
    development is a function [step : E -> S -> option S], where [None] means that
    the event cannot happen, and [exec] replays a list of events. *)

From stdpp Require Import prelude list.
From S2P Require Import Prelude.

Module Transitions.

Section system.
Context {E S : Type} (step : E -> S -> option S).

Fixpoint exec (es : list E) (s : S) : option S :=
  match es with
  | [] => Some s
  | e :: es => s' ← step e s; exec es s'
  end.

Lemma exec_app es es' s : exec (es ++ es') s = exec es s ≫= exec es'.
Proof. revert s. induction es as [|e es IH]; intros s; [done|]. cbn. destruct (step e s); cbn; auto. Qed.

Lemma exec_cons e es s s' :
  exec (e :: es) s = Some s' -> exists s1, step e s = Some s1 /\ exec es s1 = Some s'.
Proof. apply bind_Some. Qed.

Lemma exec_one e s s' : step e s = Some s' -> exec [e] s = Some s'.
Proof. intros H. cbn. by rewrite H. Qed.

Lemma exec_trans es es' s s1 s2 :
  exec es s = Some s1 -> exec es' s1 = Some s2 -> exec (es ++ es') s = Some s2.
Proof. intros H1 H2. by rewrite exec_app, H1. Qed.

(** Rule induction over the runs whose events satisfy [Q]. *)
Lemma exec_ind (P : S -> Prop) (Q : E -> Prop) es s s' :
  (forall e s s', Q e -> P s -> step e s = Some s' -> P s') ->
  Forall Q es -> P s -> exec es s = Some s' -> P s'.
Proof.
  intros HP HQ. revert s. induction HQ as [|e es Hq _ IH]; intros s Hs H; [by injection H as <-|].
  apply exec_cons in H as (s1 & H1 & H2). eauto.
Qed.

Lemma exec_invariant (P : S -> Prop) es s s' :
  (forall e s s', P s -> step e s = Some s' -> P s') -> P s -> exec es s = Some s' -> P s'.
Proof. intros HP. apply (exec_ind P (λ _, True)); [eauto|by apply Forall_true]. Qed.

(** A relation between the two ends of a run that every step respects. *)
Lemma exec_preserves (R : S -> S -> Prop) es s s' :
  (forall s, R s s) -> (forall a b c, R a b -> R b c -> R a c) ->
  (forall e s s', step e s = Some s' -> R s s') -> exec es s = Some s' -> R s s'.
Proof.
  intros Hr Ht Hs. revert s. induction es as [|e es IH]; intros s H; [by injection H as <-|].
  apply exec_cons in H as (s1 & H1 & H2). eauto.
Qed.

(** [s'] can be reached from [s] by at most [n] events. *)
Definition within (n : nat) (s s' : S) : Prop :=
  exists es, exec es s = Some s' /\ (length es <= n)%nat.

Lemma within_refl n s : within n s s.
Proof. exists []. split; [done|cbn; lia]. Qed.

Lemma within_step n e s s1 s2 : step e s = Some s1 -> within n s1 s2 -> within (1 + n) s s2.
Proof. intros H (es & H' & Hl). exists (e :: es). cbn. rewrite H. split; [done|lia]. Qed.

Lemma within_trans n m s s1 s2 : within n s s1 -> within m s1 s2 -> within (n + m) s s2.
Proof.
  intros (es & H & Hl) (es' & H' & Hl'). exists (es ++ es').
  rewrite length_app. split; [by eapply exec_trans|lia].
Qed.

Lemma within_weaken n m s s' : (n <= m)%nat -> within n s s' -> within m s s'.
Proof. intros Hn (es & H & Hl). exists es. split; [done|lia]. Qed.
End system.

(** ** Refinement

    Each concrete step is matched by some steps, possibly none, of the abstract
    system; then so is each run. *)
Section refinement.
Context {E S F T : Type} (step : E -> S -> option S) (spec : F -> T -> option T).
Context (R : S -> T -> Prop).

Definition simulates : Prop :=
  forall e s s' t, R s t -> step e s = Some s' -> exists fs t', exec spec fs t = Some t' /\ R s' t'.

Lemma simulation : simulates -> forall es s s' t,
  R s t -> exec step es s = Some s' -> exists fs t', exec spec fs t = Some t' /\ R s' t'.
Proof.
  intros Hsim. induction es as [|e es IH]; intros s s' t HR H; [injection H as <-; by exists [], t|].
  apply exec_cons in H as (s1 & H1 & H2).
  destruct (Hsim _ _ _ _ HR H1) as (fs & t1 & Ht & HR1).
  destruct (IH _ _ _ HR1 H2) as (fs' & t' & Ht' & HR').
  exists (fs ++ fs'), t'. split; [by eapply exec_trans|done].
Qed.
End refinement.

End Transitions.
