(* ===== verification/ConnectionLimiter.v ===== *)
(** The connection limiter of [src/server/ConnectionLimiter.cpp] and the RAII
    guard of [src/server/ConnectionGuard.cpp].

    [SlotSpec] is what the accept loop relies on: a multiset of client
    addresses, one occurrence per open connection.  [tryAcquire_refines] and
    [release_refines] show that the counters of the implementation represent
    that multiset; the trace theorems follow from the two lemmas. *)

From stdpp Require Import prelude strings list gmap gmultiset pretty.
From Stdlib Require Import ZArith Lia.
From S2P Require Import Prelude Transitions.

Module ConnectionLimiter.

(** The members of the class ([mutex_] is held by every operation). *)
Record t := mk {
  per_ip : gmap str Z;
  max_total : Z;
  max_per_ip : Z;
  total : Z
}.

Definition init (mt mp : Z) : t := mk ∅ mt mp 0.

Definition set_per_ip (m : gmap str Z) (s : t) : t :=
  mk m (max_total s) (max_per_ip s) (total s).

(** [tryAcquire]: [per_ip_[ip]] default-constructs a missing counter, also
    on the path that then rejects the connection. *)
Definition tryAcquire (ip : str) (trusted : bool) (s : t) : bool * t :=
  if total s >=? max_total s then (false, s)
  else
    let count := default 0 (per_ip s !! ip) in
    let s1 := set_per_ip (<[ip := count]> (per_ip s)) s in
    if negb trusted && (count >=? max_per_ip s1) then (false, s1)
    else (true, mk (<[ip := count + 1]> (per_ip s1)) (max_total s1) (max_per_ip s1)
                   (total s1 + 1)).

Definition release (ip : str) (s : t) : t :=
  let m :=
    match per_ip s !! ip with
    | Some c => if c >? 0
                then if c - 1 =? 0 then delete ip (per_ip s) else <[ip := c - 1]> (per_ip s)
                else per_ip s
    | None => per_ip s
    end in
  mk m (max_total s) (max_per_ip s) (if total s >? 0 then total s - 1 else total s).

Definition getMetrics (s : t) : str :=
  lit "transcription_active_connections " ++ to_string (total s) ++ [Ascii.ascii_of_nat 10] ++
  lit "transcription_max_connections " ++ to_string (max_total s) ++ [Ascii.ascii_of_nat 10].

(** ** The guard

    [limiter_ = true] is a non-null [shared_ptr]. *)
Record guard := Guard { limiter_ : bool; ip_ : str }.

Definition guard_make (ip : str) : guard := Guard true ip.
(** The defaulted move constructor: (the new guard, the moved-from one). *)
Definition guard_move (g : guard) : guard * guard := (g, Guard false []).
(** The destructor. *)
Definition guard_drop (g : guard) (s : t) : t :=
  if limiter_ g then release (ip_ g) s else s.

(** ** The abstract contract *)

Definition count_of (s : t) (ip : str) : Z := default 0 (per_ip s !! ip).

Definition SlotSpec_admits (s : t) (X : gmultiset str) (ip : str) (trusted : bool) : bool :=
  (Z.of_nat (size X) <? max_total s) &&
  (trusted || (Z.of_nat (multiplicity ip X) <? max_per_ip s)).

(** The counters represent the open connections [X]. *)
Record represents (s : t) (X : gmultiset str) : Prop := {
  rep_total : total s = Z.of_nat (size X);
  rep_count : forall ip, count_of s ip = Z.of_nat (multiplicity ip X)
}.

(** Events of the accept loop and of finishing sessions, with the ghost
    multiset of open connections. *)
Inductive event := Accept (ip : str) (trusted : bool) | Close (ip : str).

Definition apply (e : event) (c : t * gmultiset str) : option (t * gmultiset str) :=
  let '(s, X) := c in
  match e with
  | Accept ip trusted =>
      let '(ok, s') := tryAcquire ip trusted s in
      Some (s', if ok then {[+ ip +]} ⊎ X else X)
  | Close ip =>
      if decide (ip ∈ X) then Some (release ip s, X ∖ {[+ ip +]}) else None
  end.

Definition run : list event -> t * gmultiset str -> option (t * gmultiset str) :=
  Transitions.exec apply.

Definition trusts (ip : str) (e : event) : Prop :=
  match e with Accept i true => i = ip | _ => False end.

(** ** Proofs *)

Lemma init_represents mt mp : represents (init mt mp) ∅.
Proof.
  split; cbn; [by rewrite gmultiset_size_empty|].
  intros ip. unfold count_of. cbn. by rewrite lookup_empty, multiplicity_empty.
Qed.

Lemma count_of_insert s m ip ip' c :
  per_ip s = <[ip := c]> m ->
  count_of s ip' = if decide (ip = ip') then c else default 0 (m !! ip').
Proof. unfold count_of. intros ->. rewrite lookup_insert. by case_decide. Qed.

Lemma tryAcquire_refines s X ip trusted ok s' :
  represents s X -> tryAcquire ip trusted s = (ok, s') ->
  ok = SlotSpec_admits s X ip trusted /\
  represents s' (if ok then {[+ ip +]} ⊎ X else X) /\
  max_total s' = max_total s /\ max_per_ip s' = max_per_ip s.
Proof.
  intros [Ht Hc] H. unfold tryAcquire, SlotSpec_admits in *.
  rewrite <-Ht, <-Hc. fold (count_of s ip) in *. rewrite Z.geb_leb in H.
  destruct (Z.leb_spec (max_total s) (total s)), (Z.ltb_spec (total s) (max_total s)); try lia.
  { simplify_eq/=. done. }
  rewrite Z.geb_leb in H. cbn [set_per_ip max_per_ip per_ip] in H.
  destruct (negb trusted && (max_per_ip s <=? count_of s ip)) eqn:E; simplify_eq/=.
  - apply andb_true_iff in E as [?%negb_true_iff ?%Z.leb_le]. subst. cbn.
    destruct (Z.ltb_spec (count_of s ip) (max_per_ip s)); [lia|].
    repeat split; cbn; try done. intros ip'.
    erewrite count_of_insert by reflexivity. case_decide; subst; apply Hc.
  - split.
    { destruct trusted; cbn in *; [done|]. apply Z.leb_gt in E. symmetry. by apply Z.ltb_lt. }
    repeat split; cbn [total max_total max_per_ip]; try done.
    + rewrite gmultiset_size_disj_union, gmultiset_size_singleton. lia.
    + intros ip'. erewrite count_of_insert by reflexivity.
      rewrite multiplicity_disj_union. case_decide; subst.
      * rewrite multiplicity_singleton_eq. rewrite Hc. lia.
      * rewrite multiplicity_singleton_ne by done.
        rewrite lookup_insert_ne by done. fold (count_of s ip'). rewrite Hc. lia.
Qed.

Lemma release_refines s X ip :
  represents s X -> ip ∈ X -> represents (release ip s) (X ∖ {[+ ip +]}).
Proof.
  intros [Ht Hc] Hin. pose proof (proj1 (elem_of_multiplicity _ _) Hin) as Hm.
  assert ({[+ ip +]} ⊆ X) as Hsub by by apply gmultiset_singleton_subseteq_l.
  split.
  - cbn. rewrite gmultiset_size_difference, gmultiset_size_singleton by done.
    apply gmultiset_subseteq_size in Hsub. rewrite gmultiset_size_singleton in Hsub.
    rewrite Z.gtb_ltb. zcase; lia.
  - intros ip'. rewrite multiplicity_difference. pose proof (Hc ip) as Hip.
    unfold count_of in *. cbn [release per_ip].
    destruct (per_ip s !! ip) as [c|] eqn:E; cbn in Hip; [|lia].
    rewrite Z.gtb_ltb. destruct (Z.ltb_spec 0 c); [|lia].
    specialize (Hc ip').
    destruct (decide (ip = ip')) as [<-|Hne].
    + rewrite multiplicity_singleton_eq.
      destruct (Z.eqb_spec (c - 1) 0);
        [rewrite lookup_delete_eq|rewrite lookup_insert_eq]; cbn; lia.
    + rewrite multiplicity_singleton_ne, Nat.sub_0_r by done.
      destruct (c - 1 =? 0); [rewrite lookup_delete_ne|rewrite lookup_insert_ne]; done.
Qed.

Lemma apply_inv s X e s' X' :
  represents s X -> apply e (s, X) = Some (s', X') ->
  represents s' X' /\ max_total s' = max_total s /\ max_per_ip s' = max_per_ip s.
Proof.
  intros HR H. destruct e as [ip tr|ip]; cbn [apply] in H.
  - destruct (tryAcquire ip tr s) as [ok s1] eqn:E. simplify_eq.
    by eapply tryAcquire_refines in E as (_ & ? & ? & ?).
  - case_decide; simplify_eq. by split; [apply release_refines|].
Qed.

Lemma run_inv es s X s' X' :
  represents s X -> run es (s, X) = Some (s', X') ->
  represents s' X' /\ max_total s' = max_total s /\ max_per_ip s' = max_per_ip s.
Proof.
  intros HR. apply (Transitions.exec_invariant apply (λ c,
    represents c.1 c.2 /\ max_total c.1 = max_total s /\ max_per_ip c.1 = max_per_ip s)); [|done].
  intros e [s1 X1] [s2 X2] (HR1 & <- & <-) H1. by apply (apply_inv _ _ _ _ _ HR1 H1).
Qed.

(** Every step keeps the global cap, and the per-address cap of an address
    the event does not trust. *)
Lemma apply_caps s X e s' X' ip :
  represents s X -> apply e (s, X) = Some (s', X') ->
  (total s <= max_total s -> total s' <= max_total s) /\
  (¬ trusts ip e -> count_of s ip <= max_per_ip s -> count_of s' ip <= max_per_ip s).
Proof.
  intros HR H. pose proof (apply_inv _ _ _ _ _ HR H) as ([Ht' Hc'] & _ & _).
  destruct HR as [Ht Hc]. rewrite Ht, Ht', Hc, Hc'.
  destruct e as [ip' tr|ip']; cbn [apply] in H.
  - destruct (tryAcquire ip' tr s) as [ok s1] eqn:E. simplify_eq.
    eapply (tryAcquire_refines s X) in E as (-> & _ & _); [|done].
    unfold SlotSpec_admits.
    destruct (Z.ltb_spec (Z.of_nat (size X)) (max_total s)); cbn [andb]; [|done].
    destruct tr; cbn [orb trusts].
    + rewrite gmultiset_size_disj_union, gmultiset_size_singleton. split; [lia|].
      intros Hne ?. rewrite multiplicity_disj_union, multiplicity_singleton_ne by done. lia.
    + zcase; [|done].
      rewrite gmultiset_size_disj_union, gmultiset_size_singleton, multiplicity_disj_union.
      split; [lia|]. intros _ ?. destruct (decide (ip = ip')) as [->|].
      * rewrite multiplicity_singleton_eq. lia.
      * rewrite multiplicity_singleton_ne by done. lia.
  - case_decide as Hin; simplify_eq. split.
    + rewrite gmultiset_size_difference; [lia|]. by apply gmultiset_singleton_subseteq_l.
    + intros _ ?. rewrite multiplicity_difference. lia.
Qed.

Lemma run_caps es s X s' X' ip :
  represents s X -> run es (s, X) = Some (s', X') ->
  (total s <= max_total s -> total s' <= max_total s) /\
  (Forall (λ e, ¬ trusts ip e) es ->
   count_of s ip <= max_per_ip s -> count_of s' ip <= max_per_ip s).
Proof.
  revert s X. induction es as [|e es IH]; intros s X HR H; cbn -[apply] in H; [by simplify_eq|].
  apply bind_Some in H as ([s1 X1] & H1 & H2).
  destruct (apply_inv _ _ _ _ _ HR H1) as (HR1 & E1 & E2).
  destruct (apply_caps _ _ _ _ _ ip HR H1) as [C1 C2].
  destruct (IH _ _ HR1 H2) as [D1 D2]. rewrite E1, E2 in *.
  split; [by auto|]. intros [? ?]%Forall_cons ?. auto.
Qed.

(** ** Properties *)

(** C37: The limiter refines the multiset of open connections: over any
    sequence of accepts and closes of open connections, the counters equal
    the multiset, [tryAcquire] answers exactly as the abstract admission rule
    does in the state reached, and the counters all return to zero when the
    last connection closes. *)
Theorem limiter_refines_open_connections mt mp es s X :
  run es (init mt mp, ∅) = Some (s, X) ->
  total s = Z.of_nat (size X) /\
  (forall ip, count_of s ip = Z.of_nat (multiplicity ip X)) /\
  (forall ip trusted, (tryAcquire ip trusted s).1 =
     (Z.of_nat (size X) <? mt) && (trusted || (Z.of_nat (multiplicity ip X) <? mp))) /\
  (X = ∅ -> total s = 0 /\ forall ip, count_of s ip = 0).
Proof.
  intros H. destruct (run_inv _ _ _ _ _ (init_represents mt mp) H) as (HR & E1 & E2).
  pose proof HR as [Ht Hc]. repeat split; try done.
  - intros ip trusted. destruct (tryAcquire ip trusted s) as [ok s'] eqn:E. cbn.
    eapply (tryAcquire_refines s X) in E as (-> & _); [|done].
    unfold SlotSpec_admits. by rewrite E1, E2.
  - rewrite Ht. subst. by rewrite gmultiset_size_empty.
  - intros ip. rewrite Hc. subst. by rewrite multiplicity_empty.
Qed.

Definition sample_run : option (t * gmultiset str) :=
  run [Accept (lit "a") false; Accept (lit "a") true; Close (lit "a")] (init 2 1, ∅).

Lemma limiter_refines_open_connections_witness :
  exists s X, sample_run = Some (s, X) /\ total s = Z.of_nat (size X).
Proof.
  destruct sample_run as [[s X]|] eqn:E; [|by vm_compute in E].
  exists s, X. split; [done|]. exact (proj1 (limiter_refines_open_connections _ _ _ _ _ E)).
Defined.

(** Caps.  In every reachable state the number of open connections is at
    most [max_total], trusted proxies included, and an address that is never
    accepted as trusted holds at most [max_per_ip] connections. *)
Theorem limiter_caps mt mp es s X ip :
  0 <= mt -> 0 <= mp ->
  run es (init mt mp, ∅) = Some (s, X) ->
  Z.of_nat (size X) <= mt /\
  (Forall (λ e, ¬ trusts ip e) es -> Z.of_nat (multiplicity ip X) <= mp).
Proof.
  intros ?? H. destruct (run_inv _ _ _ _ _ (init_represents mt mp) H) as ([Ht Hc] & _ & _).
  destruct (run_caps _ _ _ _ _ ip (init_represents mt mp) H) as [C1 C2].
  rewrite <-Ht, <-Hc. split; [by apply C1|]. intros ?. by apply C2.
Qed.

Lemma limiter_caps_witness :
  exists s X, sample_run = Some (s, X) /\ Z.of_nat (size X) <= 2.
Proof.
  destruct sample_run as [[s X]|] eqn:E; [|by vm_compute in E].
  exists s, X. split; [done|].
  refine (proj1 (limiter_caps _ _ _ _ _ (lit "a") _ _ E)); lia.
Defined.

End ConnectionLimiter.
