(* ===== verification/HallucinationGuard.v ===== *)
(** The repetition filter of [src/utils/HallucinationGuard.h].

    [isHallucination] is the one-pass loop of the source; [looping] states what
    the header promises about the word sequence, and the theorem shows that the
    two agree on every text. *)

From stdpp Require Import prelude strings list gmap.
From Stdlib Require Import ZArith Lia.
From S2P Require Import Prelude.

Module HallucinationGuard.

(** The words [ss >> cur] extracts from the text, in order. *)
Fixpoint words_from (cur s : str) : list str :=
  match s with
  | [] => match cur with [] => [] | _ => [cur] end
  | c :: s' =>
      if isspace c
      then match cur with [] => words_from [] s' | _ => cur :: words_from [] s' end
      else words_from (cur ++ [c]) s'
  end.

Definition words (text : str) : list str := words_from [] text.

(** The loop's local variables. *)
Record scan_state := mk { bigrams : gmap str Z; prev : str; consec : Z }.

Definition key (u v : str) : str := u ++ lit " " ++ v.

(** One iteration; [None] is [return true]. *)
Definition scan_step (cur : str) (s : scan_state) : option scan_state :=
  let consec' := if decide (cur = prev s) then consec s + 1 else 1 in
  if bool_decide (cur = prev s) && (consec' >=? 4) then None
  else
    if decide (prev s = []) then Some (mk (bigrams s) cur consec')
    else
      let n := default 0 (bigrams s !! key (prev s) cur) + 1 in
      if n >=? 4 then None
      else Some (mk (<[key (prev s) cur := n]> (bigrams s)) cur consec').

Fixpoint scan (ws : list str) (s : scan_state) : bool :=
  match ws with
  | [] => false
  | w :: ws => match scan_step w s with None => true | Some s' => scan ws s' end
  end.

Definition isHallucination (text : str) : bool :=
  if zlen text >? 500 then true else scan (words text) (mk ∅ [] 0).

(** ** Specification *)

(** Four consecutive identical words. *)
Definition run4 (ws : list str) : Prop :=
  exists a w b, ws = a ++ [w; w; w; w] ++ b.

(** Adjacent pairs of words. *)
Fixpoint pairs (ws : list str) : list (str * str) :=
  match ws with
  | u :: ((v :: _) as ws') => (u, v) :: pairs ws'
  | _ => []
  end.

Definition pair_count (p : str * str) (ws : list str) : Z :=
  zlen (filter (λ q, q = p) (pairs ws)).

Definition looping (ws : list str) : Prop :=
  run4 ws \/ exists p, 4 <= pair_count p ws.

(** ** Proofs *)

Definition is_word (w : str) : Prop := w <> [] /\ Forall (λ c, isspace c = false) w.

Lemma words_from_are_words cur s :
  Forall (λ c, isspace c = false) cur -> Forall is_word (words_from cur s).
Proof.
  revert cur. induction s as [|c s IH]; intros cur Hc; cbn [words_from].
  - destruct cur; constructor; done.
  - destruct (isspace c) eqn:E.
    + destruct cur; [by apply IH|]. constructor; [done|by apply IH].
    + apply IH. apply Forall_app. auto.
Qed.

Lemma pairs_snoc ws w :
  pairs (ws ++ [w]) = pairs ws ++ match last ws with Some p => [(p, w)] | None => [] end.
Proof.
  induction ws as [|u ws IH]; [done|]. destruct ws as [|v ws]; [done|].
  change (pairs ((u :: v :: ws) ++ [w])) with ((u, v) :: pairs ((v :: ws) ++ [w])).
  rewrite IH. done.
Qed.

Lemma pair_count_snoc p ws w :
  pair_count p (ws ++ [w]) =
    pair_count p ws + match last ws with
                      | Some u => if decide ((u, w) = p) then 1 else 0
                      | None => 0
                      end.
Proof.
  unfold pair_count. rewrite pairs_snoc, filter_app, zlen_app. f_equal.
  destruct (last ws); [|done]. rewrite filter_cons. by case_decide.
Qed.

Lemma space_not_in_word w : Forall (λ c, isspace c = false) w -> Ascii.ascii_of_nat 32 ∉ w.
Proof. rewrite Forall_forall. intros H Hin%H. done. Qed.

Lemma key_inj u v u' v' :
  is_word u -> is_word u' -> key u v = key u' v' -> (u, v) = (u', v').
Proof.
  unfold key. intros [_ Hu%space_not_in_word] [_ Hu'%space_not_in_word].
  change (lit " ") with [Ascii.ascii_of_nat 32].
  generalize dependent (Ascii.ascii_of_nat 32). intros sp Hu Hu'.
  revert u' Hu'. induction u as [|c u IH]; intros [|c' u'] Hu' H; simplify_eq/=.
  - done.
  - by destruct Hu'; left.
  - by destruct Hu; left.
  - assert ((u, v) = (u', v')) by (apply IH; set_solver). congruence.
Qed.

Lemma run4_app ws k : run4 ws -> run4 (ws ++ k).
Proof. intros (a & w & b & ->). exists a, w, (b ++ k). by rewrite <-!app_assoc. Qed.

Lemma run4_snoc ws w :
  run4 (ws ++ [w]) <-> run4 ws \/ exists a, ws = a ++ [w; w; w].
Proof.
  split.
  - intros (a & x & b & H). destruct b as [|y b _] using rev_ind.
    + right. exists a. rewrite app_nil_r in H.
      change [x; x; x; x] with ([x; x; x] ++ [x]) in H. rewrite app_assoc in H.
      by apply app_inj_tail in H as [-> ->].
    + left. exists a, x, b. rewrite !app_assoc in H. apply app_inj_tail in H as [-> _].
      by rewrite <-app_assoc.
  - intros [|[a ->]]; [by apply run4_app|]. exists a, w, []. by rewrite <-app_assoc.
Qed.

Lemma pair_count_mono p ws k : pair_count p ws <= pair_count p (ws ++ k).
Proof.
  induction k as [|w k IH] using rev_ind; [by rewrite app_nil_r|].
  rewrite app_assoc, pair_count_snoc. etrans; [exact IH|].
  destruct (last _); [case_decide|]; lia.
Qed.

Lemma looping_app ws k : looping ws -> looping (ws ++ k).
Proof.
  intros [?|[p Hp]]; [left; by apply run4_app|]. right. exists p.
  etrans; [exact Hp|apply pair_count_mono].
Qed.

(** The loop variables after reading the words [pre] without returning. *)
Record scanned (pre : list str) (s : scan_state) : Prop := {
  sc_prev : prev s = default [] (last pre);
  sc_run : exists a, pre = a ++ replicate (Z.to_nat (consec s)) (prev s) /\
                     last a <> Some (prev s);
  sc_consec : 0 <= consec s <= 3 /\ (consec s = 0 <-> pre = []);
  sc_count : forall u v, is_word u -> is_word v ->
             default 0 (bigrams s !! key u v) = pair_count (u, v) pre;
  sc_quiet : ~ looping pre;
  sc_words : Forall is_word pre
}.

Lemma scanned_nil : scanned [] (mk ∅ [] 0).
Proof.
  split; cbn; try done.
  - by exists [].
  - intros [(a & w & b & H)|[p Hp]]; [by destruct a|]. cbv in Hp. done.
Qed.

Lemma trailing_run (pre a : list str) n p w :
  pre = a ++ replicate n p -> last a <> Some p -> (1 <= n <= 3)%nat ->
  (exists b, pre = b ++ [w; w; w]) <-> (n = 3%nat /\ w = p).
Proof.
  intros -> Ha Hn. split; [|intros [-> ->]; by exists a].
  intros [b Hb]. destruct n as [|[|[|[|]]]]; [lia| | | |lia]; cbn in Hb.
  - change [w; w; w] with ([w; w] ++ [w]) in Hb. rewrite app_assoc in Hb.
    apply app_inj_2 in Hb as [-> ?]; [|done]. simplify_eq. by rewrite last_app in Ha.
  - change [w; w; w] with ([w] ++ [w; w]) in Hb. rewrite app_assoc in Hb.
    apply app_inj_2 in Hb as [-> ?]; [|done]. simplify_eq. by rewrite last_app in Ha.
  - apply app_inj_2 in Hb as [-> ?]; [|done]. by simplify_eq.
Qed.

(** What the first test of an iteration decides. *)
Lemma run_test pre s w :
  scanned pre s -> is_word w ->
  (exists b, pre = b ++ [w; w; w]) <-> (w = prev s /\ consec s + 1 >= 4).
Proof.
  intros [Hp (a & Ha & Hla) [Hc H0] _ _ _] [Hw _].
  destruct (decide (consec s = 0)) as [E|E].
  - apply H0 in E as Epre. rewrite Epre in *. cbn in Hp. split; [|lia].
    intros [b Hb]. by destruct b.
  - rewrite trailing_run; [|exact Ha|exact Hla|lia]. intuition lia.
Qed.

Lemma last_is_prev pre s :
  scanned pre s -> (last pre = None /\ pre = [] /\ prev s = []) \/
                   (last pre = Some (prev s) /\ is_word (prev s)).
Proof.
  intros [-> _ _ _ _ Hwords]. destruct (last pre) as [u|] eqn:E; cbn.
  - right. apply last_Some in E as [l ->]. by apply Forall_app in Hwords as [_ [? _]%Forall_cons].
  - left. by apply last_None in E.
Qed.

Lemma step_count pre s w :
  scanned pre s -> is_word w -> prev s <> [] ->
  default 0 (bigrams s !! key (prev s) w) + 1 = pair_count (prev s, w) (pre ++ [w]).
Proof.
  intros Hs Hw Hne. destruct (last_is_prev _ _ Hs) as [(_ & _ & ?)|[E Hp]]; [done|].
  rewrite pair_count_snoc, E, decide_True by done. f_equal. by apply (sc_count _ _ Hs).
Qed.

Lemma quiet_snoc pre s w :
  scanned pre s -> is_word w -> ~ (w = prev s /\ consec s + 1 >= 4) ->
  pair_count (prev s, w) (pre ++ [w]) < 4 -> ~ looping (pre ++ [w]).
Proof.
  intros Hs Hw Hrun Hcount [H|[p Hp]].
  - apply run4_snoc in H as [H|H]; [by apply (sc_quiet _ _ Hs); left|].
    by apply (run_test _ _ _ Hs Hw) in H.
  - rewrite pair_count_snoc in Hp. destruct (last_is_prev _ _ Hs) as [(E & -> & _)|[E _]];
      rewrite E in Hp.
    + cbv in Hp. done.
    + case_decide as Hpw.
      * subst p. rewrite pair_count_snoc, E, decide_True in Hcount by done. lia.
      * apply (sc_quiet _ _ Hs). right. exists p. lia.
Qed.

Lemma scanned_snoc pre s w m :
  scanned pre s -> is_word w -> ~ looping (pre ++ [w]) ->
  (forall u v, is_word u -> is_word v ->
     default 0 (m !! key u v) = pair_count (u, v) (pre ++ [w])) ->
  scanned (pre ++ [w]) (mk m w (if decide (w = prev s) then consec s + 1 else 1)).
Proof.
  intros Hs Hw Hq Hm. pose proof Hs as [Hp (a & Ha & Hla) [Hc H0] _ _ Hwords].
  split; cbn [prev consec bigrams]; try done.
  - by rewrite last_snoc.
  - case_decide as E.
    + exists a. rewrite Z2Nat.inj_add, Nat.add_comm by lia. rewrite Nat.add_comm.
      rewrite replicate_add, app_assoc, E, <-Ha. done.
    + exists pre. split; [done|]. destruct (last_is_prev _ _ Hs) as [(-> & _)|[-> _]]; congruence.
  - assert (pre ++ [w] <> []) by by destruct pre.
    assert (w = prev s -> consec s <= 2).
    { intros E. assert (~ consec s + 1 >= 4); [|lia]. intros ?. apply Hq. left.
      apply run4_snoc. right. by apply (run_test _ _ _ Hs Hw). }
    split; [|split; intros; [|done]]; case_decide; naive_solver lia.
  - apply Forall_app. auto.
Qed.

Lemma scan_step_correct pre s w :
  scanned pre s -> is_word w ->
  match scan_step w s with
  | None => looping (pre ++ [w])
  | Some s' => scanned (pre ++ [w]) s'
  end.
Proof.
  intros Hs Hw. unfold scan_step.
  assert (bool_decide (w = prev s) && ((if decide (w = prev s) then consec s + 1 else 1) >=? 4)
          = bool_decide (w = prev s /\ consec s + 1 >= 4)) as ->.
  { rewrite Z.geb_leb. repeat case_bool_decide; case_decide; zcase; naive_solver lia. }
  case_bool_decide as Hrun.
  { left. apply run4_snoc. right. by apply (run_test _ _ _ Hs Hw). }
  destruct (last_is_prev _ _ Hs) as [(_ & Epre & Ep)|[E [Hne ?]]].
  - rewrite decide_True by done. apply scanned_snoc; [done..| |].
    + apply (quiet_snoc _ _ _ Hs Hw Hrun). by rewrite Epre.
    + intros u v Hu Hv. rewrite (sc_count _ _ Hs) by done. by rewrite Epre.
  - rewrite decide_False by done. rewrite (step_count _ _ _ Hs Hw Hne), Z.geb_leb. zcase.
    + right. by eexists.
    + apply scanned_snoc; [done..|by apply (quiet_snoc _ _ _ Hs Hw Hrun)|].
      intros u v Hu Hv. rewrite lookup_insert. case_decide as K.
      * apply key_inj in K as [= <- <-]; done.
      * rewrite (sc_count _ _ Hs) by done. rewrite pair_count_snoc, E.
        rewrite decide_False by congruence. cbn. lia.
Qed.

Lemma scan_correct ws pre s :
  scanned pre s -> Forall is_word ws -> scan ws s = true <-> looping (pre ++ ws).
Proof.
  revert pre s. induction ws as [|w ws IH]; intros pre s Hs Hws; cbn [scan].
  - rewrite app_nil_r. split; [done|]. by intros ?%(sc_quiet _ _ Hs).
  - apply Forall_cons in Hws as [Hw Hws]. pose proof (scan_step_correct _ _ _ Hs Hw) as Hstep.
    rewrite (cons_middle w pre ws), app_assoc. destruct (scan_step w s) as [s'|].
    + by apply IH.
    + split; [|done]. intros _. by apply looping_app.
Qed.

(** ** Properties *)

(** C36: The filter decides exactly what its header promises: a text is
    flagged iff it is longer than 500 bytes, or its word sequence holds four
    consecutive identical words, or some pair of adjacent words occurs at
    least four times.  In particular the concatenated bigram keys never
    confuse two different pairs. *)
Theorem isHallucination_spec text :
  isHallucination text = true <-> 500 < zlen text \/ looping (words text).
Proof.
  unfold isHallucination. rewrite Z.gtb_ltb. zcase; [naive_solver|].
  rewrite (scan_correct _ [] _ scanned_nil) by by apply words_from_are_words.
  naive_solver lia.
Qed.

Example repeated_bigram_is_flagged :
  isHallucination (lit "a b a b a b a b") = true /\ isHallucination (lit "a b a b a b") = false.
Proof. by vm_compute. Qed.
End HallucinationGuard.
