(* ===== verification/Floats.v ===== *)
(** IEEE-754 arithmetic as the source's [float] and [double] use it, on top of
    the standard library's executable specification [SpecFloat] (round to
    nearest even, one NaN). *)

From stdpp Require Import prelude list.
From Stdlib Require Import ZArith Lia SpecFloat.
From S2P Require Import Prelude.

Abbreviation float32 := spec_float.
Abbreviation float64 := spec_float.

(** The correctly rounded quotient [n / d]: a decimal literal, an
    integer-to-floating conversion ([d = 1]). *)
Definition of_ratio (prec emax n : Z) (d : positive) : spec_float :=
  match n with
  | Z0 => S754_zero false
  | Zpos p =>
      let '(m, e, l) := SFdiv_core_binary prec emax (Zpos p) 0 (Zpos d) 0 in
      binary_round_aux prec emax false m e l
  | Zneg p =>
      let '(m, e, l) := SFdiv_core_binary prec emax (Zpos p) 0 (Zpos d) 0 in
      binary_round_aux prec emax true m e l
  end.

Module F32.
Definition add : float32 -> float32 -> float32 := SFadd 24 128.
Definition sub : float32 -> float32 -> float32 := SFsub 24 128.
Definition mul : float32 -> float32 -> float32 := SFmul 24 128.
Definition div : float32 -> float32 -> float32 := SFdiv 24 128.
Definition abs : float32 -> float32 := SFabs.
(** [a < b], false when an operand is a NaN. *)
Definition ltb : float32 -> float32 -> bool := SFltb.
Definition gtb (a b : float32) : bool := SFltb b a.
(** [std::max(a, b)] is [(a < b) ? b : a], [std::min(a, b)] is [(b < a) ? b : a]. *)
Definition max (a b : float32) : float32 := if ltb a b then b else a.
Definition min (a b : float32) : float32 := if ltb b a then b else a.
Definition lit (n : Z) (d : positive) : float32 := of_ratio 24 128 n d.
Definition of_Z (n : Z) : float32 := of_ratio 24 128 n 1.
Definition zero : float32 := S754_zero false.
(** The value of a 32-bit pattern (a NaN's payload is dropped). *)
Definition of_bits (u : Z) : float32 :=
  let sign := Z.testbit u 31 in
  let e := Z.land (Z.shiftr u 23) 255 in
  let m := Z.land u 8388607 in
  if e =? 255 then if m =? 0 then S754_infinity sign else S754_nan
  else if e =? 0 then
    match m with Zpos p => S754_finite sign p (-149) | _ => S754_zero sign end
  else match m + 8388608 with Zpos p => S754_finite sign p (e - 150) | _ => S754_nan end.
End F32.

Module F64.
Definition mul : float64 -> float64 -> float64 := SFmul 53 1024.
Definition div : float64 -> float64 -> float64 := SFdiv 53 1024.
Definition ltb : float64 -> float64 -> bool := SFltb.
Definition gtb (a b : float64) : bool := SFltb b a.
Definition of_Z (n : Z) : float64 := of_ratio 53 1024 n 1.
(** [static_cast<double>(x)] of a [float]: exact, only the representation of
    the mantissa changes. *)
Definition of_f32 (x : float32) : float64 :=
  match x with
  | S754_finite s m e => binary_round 53 1024 s m e
  | _ => x
  end.
End F64.

Definition signed (s : bool) (z : Z) : Z := if s then - z else z.

(** [std::ceil] followed by a conversion to an integer type. *)
Definition ceil_Z (x : spec_float) : option Z :=
  match x with
  | S754_zero _ => Some 0
  | S754_finite s m e =>
      Some (if 0 <=? e then signed s (Zpos m * 2 ^ e)
            else - ((- signed s (Zpos m)) / 2 ^ (- e)))
  | _ => None
  end.

(** [std::lround]: nearest integer, halves away from zero.  [None] for
    infinities and NaN, where the result is unspecified. *)
Definition lround (x : spec_float) : option Z :=
  match x with
  | S754_zero _ => Some 0
  | S754_finite s m e =>
      Some (signed s (if 0 <=? e then Zpos m * 2 ^ e
                      else (Zpos m + 2 ^ (- e - 1)) / 2 ^ (- e)))
  | _ => None
  end.

Example lit_exact : F32.lit 1 2 = S754_finite false 8388608 (-24).
Proof. reflexivity. Qed.
Example lit_inexact : F32.lit 969 1000 = S754_finite false 16257122 (-24).
Proof. reflexivity. Qed.
Example bits_one_and_half : F32.of_bits 1069547520 = F32.lit 3 2.
Proof. reflexivity. Qed.
Example lround_half_away : lround (F64.div (F64.of_Z 5) (F64.of_Z 2)) = Some 3.
Proof. reflexivity. Qed.
Example ceil_fraction : ceil_Z (F64.div (F64.of_Z 5) (F64.of_Z 2)) = Some 3.
Proof. reflexivity. Qed.
Example ceil_negative : ceil_Z (F64.div (F64.of_Z (-5)) (F64.of_Z 2)) = Some (-2).
Proof. reflexivity. Qed.
