(* ===== verification/Numbers.v ===== *)
(** The numeric conversions of the C++ standard library that the source calls:
    [std::stoi], [std::stoul], [std::stoull] and [std::stof] (in the "C"
    locale, with the error behaviour of glibc's [strtol] family). *)

From stdpp Require Import prelude strings list.
From Stdlib Require Import ZArith Lia SpecFloat.
From S2P Require Import Prelude Floats.

Module Numbers.

Definition code (c : Ascii.ascii) : Z := Z.of_nat (Ascii.nat_of_ascii c).
Definition is_digit (c : Ascii.ascii) : bool := (48 <=? code c) && (code c <=? 57).

(** The longest prefix of characters satisfying [p], and the rest. *)
Fixpoint span (p : Ascii.ascii -> bool) (s : str) : str * str :=
  match s with
  | c :: s' => if p c then let '(a, b) := span p s' in (c :: a, b) else ([], s)
  | [] => ([], [])
  end.

(** The value of a string of digits in a base. *)
Definition digit_value (c : Ascii.ascii) : Z :=
  if is_digit c then code c - 48 else code (tolower c) - 87.
Definition digits_value (base : Z) (ds : str) : Z :=
  foldl (λ a c, base * a + digit_value c) 0 ds.

(** White space, then an optional sign ([true] for a minus). *)
Definition sign_of (s : str) : bool * str :=
  let s := (span isspace s).2 in
  match s with
  | c :: s' => if code c =? 45 then (true, s') else if code c =? 43 then (false, s') else (false, s)
  | [] => (false, [])
  end.

(** The integer at the start of [s], if there is one. *)
Definition integer (s : str) : option Z :=
  let '(neg, s) := sign_of s in
  match (span is_digit s).1 with
  | [] => None
  | ds => Some (if neg then - digits_value 10 ds else digits_value 10 ds)
  end.

Definition stoi (s : str) : result Z :=
  match integer s with
  | Some z => if (- 2 ^ 31 <=? z) && (z <? 2 ^ 31) then Ok z else Throw (lit "stoi")
  | None => Throw (lit "stoi")
  end.

(** A negative number is accepted and wraps. *)
Definition strtoull (what s : str) : result Z :=
  match integer s with
  | Some z => if Z.abs z <? 2 ^ 64 then Ok (u64 z) else Throw what
  | None => Throw what
  end.

Definition stoul : str -> result Z := strtoull (lit "stoul").
Definition stoull : str -> result Z := strtoull (lit "stoull").

(** ** [std::stof] *)

Definition is_hex (c : Ascii.ascii) : bool :=
  is_digit c || ((97 <=? code (tolower c)) && (code (tolower c) <=? 102)).

(** Digits with an optional point: the mantissa, the number of digits after
    the point, the rest; [None] without any digit. *)
Definition mantissa (p : Ascii.ascii -> bool) (s : str) : option (str * Z * str) :=
  let '(ip, s1) := span p s in
  let '(fp, s2) := match s1 with
                   | c :: s1' => if code c =? 46 then span p s1' else ([], s1)
                   | [] => ([], s1)
                   end in
  if bool_decide (ip ++ fp = []) then None else Some (ip ++ fp, zlen fp, s2).

(** An optional exponent introduced by [mark]. *)
Definition exponent (mark : Z) (s : str) : Z :=
  match s with
  | c :: s' =>
      if code (tolower c) =? mark then
        let '(neg, s'') := match s' with
                           | d :: s'' => if code d =? 45 then (true, s'')
                                         else if code d =? 43 then (false, s'') else (false, s')
                           | [] => (false, s')
                           end in
        let e := digits_value 10 (span is_digit s'').1 in
        if neg then - e else e
      else 0
  | [] => 0
  end.

(** [m * base ^ k] as a [float]; [None] when it is out of range: it rounds to
    an infinity, or it is inexact and below the smallest normal number. *)
Definition scaled (neg : bool) (m base k : Z) : option float32 :=
  if m =? 0 then Some (S754_zero neg)
  else
    let n := signed neg (if 0 <=? k then m * base ^ k else m) in
    let d := Z.to_pos (if 0 <=? k then 1 else base ^ (- k)) in
    let r := F32.lit n d in
    match r with
    | S754_finite s p e =>
        let exact := if 0 <=? e then signed s (Zpos p * 2 ^ e) * Zpos d =? n
                     else signed s (Zpos p) * Zpos d =? n * 2 ^ (- e) in
        if (digits2_pos p <? 24)%positive && negb exact then None else Some r
    | _ => None
    end.

Definition stof (s : str) : result float32 :=
  let '(neg, s) := sign_of s in
  let lower := tolower <$> s in
  if starts_with (lit "inf") lower then Ok (S754_infinity neg)
  else if starts_with (lit "nan") lower then Ok S754_nan
  else
    let parsed :=
      match (if starts_with (lit "0x") lower then mantissa is_hex (drop 2 s) else None) with
      | Some (ds, frac, rest) =>
          Some (scaled neg (digits_value 16 ds) 2 (exponent 112 rest - 4 * frac))
      | None =>
          match mantissa is_digit s with
          | Some (ds, frac, rest) =>
              Some (scaled neg (digits_value 10 ds) 10 (exponent 101 rest - frac))
          | None => None
          end
      end in
    match parsed with
    | Some (Some x) => Ok x
    | _ => Throw (lit "stof")
    end.

Example stoi_plain : stoi (lit " -42x") = Ok (-42).
Proof. reflexivity. Qed.
Example stoul_negative : stoul (lit "-1") = Ok (2 ^ 64 - 1).
Proof. reflexivity. Qed.
Example stof_decimal : stof (lit "0.25") = Ok (F32.lit 1 4).
Proof. reflexivity. Qed.
Example stof_exponent : stof (lit "-25e-2s") = Ok (F32.lit (-1) 4).
Proof. reflexivity. Qed.
Example stof_hex : stof (lit "0x1.8p1") = Ok (F32.of_Z 3).
Proof. reflexivity. Qed.
Example stof_nan : stof (lit "nan") = Ok S754_nan.
Proof. reflexivity. Qed.
Example stof_overflow : stof (lit "1e39") = Throw (lit "stof").
Proof. vm_compute. reflexivity. Qed.

End Numbers.
