(* ===== verification/Json.v ===== *)
(** The interface of the JSON library (nlohmann/json) that the source calls.

    The library is not part of the repository, so its values and functions are
    the fields of a class; the clients' theorems are proved against the class,
    under the documented facts of [JsonLaws].  [TinyJson] is a small
    implementation at which the witnesses evaluate. *)

From stdpp Require Import prelude strings list.
From Stdlib Require Import ZArith Lia SpecFloat.
From S2P Require Import Prelude Floats.

Class JsonLib := {
  json : Type;
  (** [json::parse(text)]; [Throw] carries [parse_error::what()]. *)
  json_parse : str -> result json;
  (** [j.contains(key)], [j[key]] *)
  json_contains : json -> str -> bool;
  json_at : json -> str -> json;
  json_is_string : json -> bool;
  json_is_number : json -> bool;
  (** Conversion to [std::string]; [Throw] is a [type_error]. *)
  json_string : json -> result str;
  (** [j.get<float>()] of a number *)
  json_float : json -> float32;
  (** [j.value(key, default)] at type [bool]; [Throw] is a [type_error]. *)
  json_value_bool : json -> str -> bool -> result bool
}.

Class JsonLaws (J : JsonLib) :=
  json_string_ok : forall j, json_is_string j = is_ok (json_string j).

(** Flat objects written [key=value,key=value]; a value is a number when it
    starts with a digit, a boolean when it is [true] or [false]. *)
Module TinyJson.
Inductive value := VStr (s : str) | VNum (n : Z) | VBool (b : bool) | VNull | VObj (m : list (str * value)).

Definition comma : Ascii.ascii := Ascii.ascii_of_nat 44.
Definition digit (c : Ascii.ascii) : bool :=
  let n := Ascii.nat_of_ascii c in bool_decide (48 <= n /\ n <= 57)%nat.

Definition scalar (s : str) : value :=
  if bool_decide (s = lit "true") then VBool true
  else if bool_decide (s = lit "false") then VBool false
  else match s with
       | c :: _ => if digit c then VNum (Z.of_nat (Ascii.nat_of_ascii c) - 48) else VStr s
       | [] => VStr []
       end.

Definition parse_field (s : str) : result (str * value) :=
  match find_first (lit "=") s with
  | Some i => Ok (take i s, scalar (drop (S i) s))
  | None => Throw (lit "syntax error")
  end.

Fixpoint parse_fields (l : list str) : result (list (str * value)) :=
  match l with
  | [] => Ok []
  | s :: l => f ← parse_field s; fs ← parse_fields l; Ok (f :: fs)
  end.

Fixpoint assoc (k : str) (m : list (str * value)) : option value :=
  match m with
  | [] => None
  | (k', v) :: m => if decide (k = k') then Some v else assoc k m
  end.

Definition field (j : value) (k : str) : option value :=
  match j with VObj m => assoc k m | _ => None end.

Definition to_str (j : value) : result str :=
  match j with VStr s => Ok s | _ => Throw (lit "type must be string") end.

#[export] Instance lib : JsonLib := {
  json := value;
  json_parse s := m ← parse_fields (getlines comma [] s); Ok (VObj m);
  json_contains j k := bool_decide (is_Some (field j k));
  json_at j k := default VNull (field j k);
  json_is_string j := match j with VStr _ => true | _ => false end;
  json_is_number j := match j with VNum _ => true | _ => false end;
  json_string := to_str;
  json_float j := match j with VNum n => F32.of_Z n | _ => F32.zero end;
  json_value_bool j k d :=
    match j with
    | VObj _ => match field j k with
                | None => Ok d
                | Some (VBool b) => Ok b
                | Some _ => Throw (lit "type must be boolean")
                end
    | _ => Throw (lit "cannot use value() with this type")
    end
}.

#[export] Instance laws : JsonLaws lib.
Proof. by intros []. Qed.
End TinyJson.
