(* ===== verification/TrustedProxyResolver.v ===== *)
(** The trusted-proxy cache of [src/server/TrustedProxyResolver.cpp].

    DNS ([ResolveFn], [getaddrinfo] in production) is outside the program: a
    [refresh] takes the answers the resolver gives to its successive calls, one
    per configured host, in call order. *)

From stdpp Require Import prelude strings list gmap.
From Stdlib Require Import ZArith Lia.
From S2P Require Import Prelude.

Module TrustedProxyResolver.

(** ** Parsing the host list *)

Fixpoint trim_left (s : str) : str :=
  match s with
  | c :: s' => if isspace c then trim_left s' else s
  | [] => []
  end.

Definition trim (s : str) : str := reverse (trim_left (reverse (trim_left s))).

Definition comma : Ascii.ascii := Ascii.ascii_of_nat 44.

Record t := mk { hosts : list str; per_host_ips : gmap str (gset str) }.

(** The constructor. *)
Definition make (comma_separated_hosts : str) : t :=
  mk (filter (λ h, h <> []) (trim <$> getlines comma [] comma_separated_hosts)) ∅.

Definition enabled (s : t) : bool := negb (bool_decide (hosts s = [])).

(** ** The default resolver *)

(** The addresses [getaddrinfo] yields, each with the text of [inet_ntop]. *)
Inductive family := AF_INET | AF_INET6 | OtherFamily.

Definition address_text (a : family * option str) : option str :=
  match a.1 with OtherFamily => None | _ => a.2 end.

(** [None]: [getaddrinfo] fails. *)
Definition defaultResolver (answer : option (list (family * option str))) : list str :=
  match answer with Some l => omap address_text l | None => [] end.

(** ** Refreshing *)

(** The loop that resolves every host without holding the lock. *)
Fixpoint resolve_all (calls : list (str * list str)) (resolved : gmap str (gset str)) :
    gmap str (gset str) :=
  match calls with
  | [] => resolved
  | (host, ips) :: calls =>
      let fresh : gset str := list_to_set ips in
      resolve_all calls (if decide (fresh = ∅) then resolved else <[host := fresh]> resolved)
  end.

(** [refresh()]: the merge assigns every entry of [resolved]. *)
Definition refresh (answers : list (list str)) (s : t) : t :=
  if decide (hosts s = []) then s
  else
    let resolved := resolve_all (zip (hosts s) answers) ∅ in
    mk (hosts s) (resolved ∪ per_host_ips s).

Definition isTrusted (ip : str) (s : t) : bool :=
  if decide (hosts s = []) then false
  else bool_decide (map_Exists (λ _ ips, ip ∈ ips) (per_host_ips s)).

(** ** Specification: the last known-good answer of each host

    [log] lists the resolver's calls with their answers, in order. *)
Definition last_good (log : list (str * list str)) (host : str) : list str :=
  foldl (λ good '(h, ips), if decide (h = host /\ ips <> []) then ips else good) [] log.

Definition refreshes (rounds : list (list (list str))) (s : t) : t :=
  foldl (λ s answers, refresh answers s) s rounds.

Definition call_log (hs : list str) (rounds : list (list (list str))) : list (str * list str) :=
  rounds ≫= zip hs.

(** ** Proofs *)

Lemma last_good_snoc log host h ips :
  last_good (log ++ [(h, ips)]) host =
    if decide (h = host /\ ips <> []) then ips else last_good log host.
Proof. unfold last_good. by rewrite foldl_app. Qed.

Lemma last_good_known log host : last_good log host <> [] -> host ∈ log.*1.
Proof.
  induction log as [|[h ips] log IH] using rev_ind; [done|].
  rewrite last_good_snoc, fmap_app, elem_of_app. case_decide as H; [|auto].
  destruct H as [-> _]. right. cbn. by left.
Qed.

(** The cache holds the last known-good answer of every host. *)
Definition cached (m : gmap str (gset str)) (log : list (str * list str)) : Prop :=
  forall host, m !! host = match last_good log host with
                           | [] => None
                           | ips => Some (list_to_set ips)
                           end.

Lemma list_to_set_nil_iff (l : list str) : (list_to_set l : gset str) = ∅ <-> l = [].
Proof. split; [|by intros ->]. destruct l; [done|]. cbn. set_solver. Qed.

Lemma resolve_all_cached calls m m0 log :
  cached (m ∪ m0) log -> cached (resolve_all calls m ∪ m0) (log ++ calls).
Proof.
  revert m log. induction calls as [|[h ips] calls IH]; intros m log Hm; cbn.
  - by rewrite app_nil_r.
  - rewrite (cons_middle (h, ips) log calls), app_assoc. apply IH. intros host.
    rewrite last_good_snoc. case_decide as E.
    + apply list_to_set_nil_iff in E. rewrite decide_False by naive_solver. apply Hm.
    + rewrite list_to_set_nil_iff in E. rewrite lookup_union, lookup_insert.
      case_decide as Eh.
      * subst. rewrite decide_True by done. destruct ips; [done|].
        by destruct (m0 !! host).
      * rewrite decide_False by naive_solver. rewrite <-lookup_union. apply Hm.
Qed.

Lemma refreshes_cached rounds s log :
  hosts s <> [] -> cached (per_host_ips s) log ->
  hosts (refreshes rounds s) = hosts s /\
  cached (per_host_ips (refreshes rounds s)) (log ++ call_log (hosts s) rounds).
Proof.
  revert s log. induction rounds as [|r rounds IH]; intros s log Hne Hc; cbn.
  - by rewrite app_nil_r.
  - destruct (IH (refresh r s) (log ++ zip (hosts s) r)) as [E1 E2].
    + unfold refresh. by rewrite decide_False.
    + unfold refresh. rewrite decide_False by done. cbn.
      apply resolve_all_cached. intros h. by rewrite lookup_union_r.
    + assert (hosts (refresh r s) = hosts s) as Eh by (unfold refresh; by case_decide).
      rewrite Eh in *. split; [done|]. unfold call_log in *. cbn. by rewrite app_assoc.
Qed.

Lemma isTrusted_cached s log ip :
  cached (per_host_ips s) log ->
  isTrusted ip s = true <-> hosts s <> [] /\ exists host, ip ∈ last_good log host.
Proof.
  intros Hc. unfold isTrusted. case_decide as E; [naive_solver|].
  rewrite bool_decide_eq_true. unfold map_Exists. split.
  - intros (host & ips & Hh & Hin). split; [done|]. exists host. rewrite Hc in Hh.
    destruct (last_good log host); simplify_eq. by apply elem_of_list_to_set in Hin.
  - intros [_ [host Hin]]. exists host. rewrite Hc. destruct (last_good log host) as [|i l]; [by apply not_elem_of_nil in Hin|].
    eexists. split; [done|]. by apply elem_of_list_to_set.
Qed.

(** ** Properties *)

(** C38: After any number of refreshes, an address is trusted iff it belongs
    to the last non-empty answer the resolver ever gave for one of the
    configured hosts: a failed resolution keeps the last known-good set, a
    host that never resolved trusts nobody, an empty host list disables the
    feature. *)
Theorem trusted_iff_last_known_good csv rounds ip :
  isTrusted ip (refreshes rounds (make csv)) = true <->
  exists host, host ∈ hosts (make csv) /\
               ip ∈ last_good (call_log (hosts (make csv)) rounds) host.
Proof.
  destruct (decide (hosts (make csv) = [])) as [E|E].
  - assert (refreshes rounds (make csv) = make csv) as ->.
    { induction rounds as [|r rounds IH]; [done|]. cbn. unfold refresh at 2.
      by rewrite decide_True. }
    unfold isTrusted. rewrite decide_True, E by done. set_solver.
  - destruct (refreshes_cached rounds (make csv) [] E) as [Eh Hc]; [done|].
    rewrite (isTrusted_cached _ _ _ Hc), Eh. cbn [app]. split; [|naive_solver].
    intros [_ [host Hin]]. exists host. split; [|done].
    assert (host ∈ (call_log (hosts (make csv)) rounds).*1) as Hk.
    { apply last_good_known. by intros Hn; rewrite Hn in Hin; apply not_elem_of_nil in Hin. }
    clear -Hk. unfold call_log in Hk. apply list_elem_of_fmap in Hk as ([h ips] & -> & Hk).
    apply list_elem_of_bind in Hk as (r & Hr & _). by apply elem_of_zip_l in Hr.
Qed.

Example failed_round_keeps_last_good :
  let s := refreshes [[[lit "10.0.0.7"]]; [[]]] (make (lit " gw , ")) in
  isTrusted (lit "10.0.0.7") s = true /\ isTrusted (lit "10.0.0.8") s = false.
Proof. by vm_compute. Qed.
End TrustedProxyResolver.
