(* ===== verification/Log.v ===== *)
(** The logger of [src/log/Log.h]: what is written for a message, and the masking
    of keys.  The clock and the local time zone are arguments. *)

From stdpp Require Import prelude strings list.
From Stdlib Require Import ZArith Lia.
From S2P Require Import Prelude.

Module Log.

Inductive Level := DEBUG | INFO | WARN | ERROR.

#[export] Instance Level_eq_dec : EqDecision Level.
Proof. solve_decision. Defined.

(** The order of the enumeration. *)
Definition rank (l : Level) : Z :=
  match l with DEBUG => 0 | INFO => 1 | WARN => 2 | ERROR => 3 end.

Definition tag (l : Level) : str :=
  match l with
  | DEBUG => lit "[DEBUG]"
  | INFO => lit "[INFO] "
  | WARN => lit "[WARN] "
  | ERROR => lit "[ERROR]"
  end.

(** The fields of [std::tm] that are printed. *)
Record tm := Tm { tm_hour : Z; tm_min : Z; tm_sec : Z }.

(** [std::setfill('0') << std::setw(w) << n] *)
Definition padded (w : nat) (n : Z) : str :=
  replicate (w - length (to_string n)) (Ascii.ascii_of_nat 48) ++ to_string n.

Section clock.
Context (localtime : Z -> tm).

(** [timestamp], at [now] nanoseconds of the system clock. *)
Definition timestamp (now : Z) : str :=
  let ms := Z.rem (Z.quot now 1000000) 1000 in
  let t := localtime (Z.quot now 1000000000) in
  padded 2 (tm_hour t) ++ lit ":" ++ padded 2 (tm_min t) ++ lit ":" ++ padded 2 (tm_sec t) ++
  lit "." ++ padded 3 ms.

(** [write]: whether the line goes to [std::cerr], and the line. *)
Definition write (now : Z) (level : Level) (msg ctx : str) : bool * str :=
  (rank WARN <=? rank level,
   timestamp now ++ lit " " ++ tag level ++
   (if bool_decide (ctx = []) then [] else lit " [" ++ ctx ++ lit "]") ++
   lit " " ++ msg ++ [Ascii.ascii_of_nat 10]).

(** [debug], compiled with or without [LOG_NO_DEBUG]. *)
Definition debug (no_debug : bool) (now : Z) (msg ctx : str) : option (bool * str) :=
  if no_debug then None else Some (write now DEBUG msg ctx).
Definition info (now : Z) (msg ctx : str) : bool * str := write now INFO msg ctx.
Definition warn (now : Z) (msg ctx : str) : bool * str := write now WARN msg ctx.
Definition error (now : Z) (msg ctx : str) : bool * str := write now ERROR msg ctx.
End clock.

Definition maskKey (key : str) : str :=
  if zlen key <=? 6 then lit "***" else substr key 0 6 ++ lit "...".

(** ** Reading a line back *)

Definition digit (c : Ascii.ascii) : Z := Z.of_nat (Ascii.nat_of_ascii c) - 48.
Definition number (s : str) : Z := foldl (λ n c, 10 * n + digit c) 0 s.

Definition level_of (s : str) : option Level :=
  if decide (s = tag DEBUG) then Some DEBUG else if decide (s = tag INFO) then Some INFO
  else if decide (s = tag WARN) then Some WARN else if decide (s = tag ERROR) then Some ERROR
  else None.

(** Hour, minute, second, millisecond and level, at their fixed columns. *)
Definition read_header (line : str) : Z * Z * Z * Z * option Level :=
  (number (substr line 0 2), number (substr line 3 2), number (substr line 6 2),
   number (substr line 9 3), level_of (substr line 13 7)).

Definition valid_tm (t : tm) : Prop :=
  0 <= tm_hour t < 24 /\ 0 <= tm_min t < 60 /\ 0 <= tm_sec t <= 60.

(** Below a bound, a property that computes holds when it computes to true. *)
Lemma check_below (P : Z -> bool) n : forallb P (seqZ 0 n) = true -> forall k, 0 <= k < n -> P k = true.
Proof.
  intros H k Hk. rewrite forallb_forall in H. apply H, list_elem_of_In, elem_of_seqZ. lia.
Qed.

Definition reads_back (w : nat) (n : Z) : bool :=
  (length (padded w n) =? w)%nat && (number (padded w n) =? n).

Lemma padded_reads w n : n < 10 ^ Z.of_nat w -> (w = 2 \/ w = 3)%nat -> 0 <= n ->
  length (padded w n) = w /\ number (padded w n) = n.
Proof.
  intros Hn Hw H0.
  assert (reads_back w n = true) as [E1%Nat.eqb_eq E2%Z.eqb_eq]%andb_prop; [|done].
  assert (forallb (reads_back 2) (seqZ 0 100) = true) as H2 by (by vm_compute).
  assert (forallb (reads_back 3) (seqZ 0 1000) = true) as H3 by (by vm_compute).
  destruct Hw as [-> | ->]; [exact (check_below _ 100 H2 n (conj H0 Hn))|exact (check_below _ 1000 H3 n (conj H0 Hn))].
Qed.

Lemma level_of_tag l : level_of (tag l) = Some l.
Proof. by destruct l. Qed.

Lemma length_tag l : length (tag l) = 7%nat.
Proof. by destruct l. Qed.

(** ** Properties *)

(** Every line can be read back: whatever the message and the context, the time,
    to the millisecond, and the level are at fixed columns, and a line goes to
    the error stream exactly for warnings and errors. *)
Theorem write_read_header localtime now level msg ctx :
  0 <= now -> valid_tm (localtime (now / 1000000000)) ->
  let t := localtime (now / 1000000000) in
  read_header (write localtime now level msg ctx).2 =
    (tm_hour t, tm_min t, tm_sec t, (now / 1000000) mod 1000, Some level) /\
  ((write localtime now level msg ctx).1 = true <-> level = WARN \/ level = ERROR).
Proof.
  intros H0 (Hh & Hm & Hs). cbv zeta.
  split; [|destruct level; cbn; naive_solver].
  unfold write, timestamp. cbn [snd]. rewrite !Z.quot_div_nonneg, Z.rem_mod_nonneg by lia || (apply Z.div_pos; lia).
  set (t := localtime _) in *. set (ms := (now / 1000000) mod 1000).
  assert (0 <= ms < 1000) as Hms by (apply Z.mod_pos_bound; lia).
  destruct (padded_reads 2 (tm_hour t)) as [L1 N1]; [lia|by left|lia|].
  destruct (padded_reads 2 (tm_min t)) as [L2 N2]; [lia|by left|lia|].
  destruct (padded_reads 2 (tm_sec t)) as [L3 N3]; [lia|by left|lia|].
  destruct (padded_reads 3 ms) as [L4 N4]; [lia|by right|lia|].
  rewrite <- !(assoc_L (++)). set (rest := _ ++ lit " " ++ msg ++ _).
  unfold read_header.
  generalize dependent (padded 3 ms). generalize dependent (padded 2 (tm_sec t)).
  generalize dependent (padded 2 (tm_min t)). generalize dependent (padded 2 (tm_hour t)).
  intros h L1 N1 m L2 N2 s L3 N3 k L4 N4.
  destruct h as [|? [|? []]], m as [|? [|? []]], s as [|? [|? []]], k as [|? [|? [|? []]]]; try done.
  pose proof (length_tag level) as Lt. unfold substr. cbn -[tag number take level_of].
  rewrite drop_0, (take_app_length' (tag level)) by done.
  cbn [take app lit].
  by rewrite N1, N2, N3, N4, level_of_tag.
Qed.

Lemma write_read_header_witness :
  read_header (write (λ s, Tm (s / 3600 mod 24) (s / 60 mod 60) (s mod 60))
                 1700000000123456789 WARN (lit "hello") (lit "session-1")).2 = (22, 13, 20, 123, Some WARN).
Proof.
  refine (proj1 (write_read_header (λ s, Tm (s / 3600 mod 24) (s / 60 mod 60) (s mod 60))
    1700000000123456789 WARN (lit "hello") (lit "session-1") _ _)); [done|by vm_compute].
Defined.

(** A masked key shows at most the first six characters of the key: two keys that
    agree on those, both longer, are masked alike, and so are all keys of at most
    six characters. *)
Lemma maskKey_hides k k' :
  (zlen k <= 6 <-> zlen k' <= 6) -> (6 < zlen k -> take 6 k = take 6 k') -> maskKey k = maskKey k'.
Proof.
  intros H E. unfold maskKey, substr. rewrite !drop_0.
  destruct (Z.leb_spec (zlen k) 6), (Z.leb_spec (zlen k') 6); try lia; [done|].
  by rewrite E by lia.
Qed.

End Log.
