(* ===== verification/AuthCache.v ===== *)
(** The token cache of [src/auth/AuthCache.cpp].  The steady clock is an
    argument, in nanoseconds. *)

From stdpp Require Import prelude strings list gmap.
From Stdlib Require Import ZArith Lia SpecFloat.
From S2P Require Import Prelude.

Module AuthCache.
Record CacheEntry := Entry { is_valid : bool; expires_at : Z }.

Definition seconds (n : Z) : Z := n * 1000000000.

(** [get]: an expired entry is erased. *)
Definition get (token : str) (now : Z) (entries : gmap str CacheEntry) :
    option bool * gmap str CacheEntry :=
  match entries !! token with
  | None => (None, entries)
  | Some e => if now >=? expires_at e then (None, delete token entries)
              else (Some (is_valid e), entries)
  end.

Definition put (token : str) (valid : bool) (ttl_seconds now : Z)
    (entries : gmap str CacheEntry) : gmap str CacheEntry :=
  <[token := Entry valid (now + seconds ttl_seconds)]> entries.
End AuthCache.
