(* ===== verification/ApiAuthClient.v ===== *)
(** The client of the external auth API: [src/auth/ApiAuthConfig.h] and
    [src/auth/ApiAuthClient.cpp].

    The network is outside the program: [Network] holds what the resolver and
    one HTTP exchange answer (an exception stands for every failure between
    [connect] and [http::read], timeouts included). *)

From stdpp Require Import prelude strings list gmap.
From Stdlib Require Import ZArith Lia SpecFloat.
From S2P Require Import Prelude Floats Json.

Module ApiAuthClient.

(** ** Configuration and result *)

Record ApiAuthConfig := {
  api_base_url : str;
  api_secret_key : str;
  timeout_seconds : Z;
  cache_ttl_seconds : Z;
  static_token : str
}.

Inductive AuthResult := Allowed | Denied | ApiUnavailable.

#[export] Instance AuthResult_eq_dec : EqDecision AuthResult.
Proof. solve_decision. Defined.

(** ** URL parsing *)

Definition chr (n : nat) : Ascii.ascii := Ascii.ascii_of_nat n.
Definition slash := chr 47.
Definition colon := chr 58.
Definition lbracket := chr 91.
Definition rbracket := chr 93.

Definition is_digit (c : Ascii.ascii) : bool :=
  let n := Ascii.nat_of_ascii c in bool_decide (48 <= n /\ n <= 57)%nat.

(** The longest prefix whose characters satisfy [p], and the rest. *)
Fixpoint span (p : Ascii.ascii -> bool) (s : str) : str * str :=
  match s with
  | c :: s' => if p c then let '(a, b) := span p s' in (c :: a, b) else ([], s)
  | [] => ([], [])
  end.

(** [(/.* )?$]: the dot matches no line terminator. *)
Definition match_path (s : str) : option str :=
  match s with
  | [] => Some []
  | c :: r => if bool_decide (c = slash) &&
                 forallb (λ c, negb (bool_decide (c = chr 10 \/ c = chr 13))) r
              then Some s else None
  end.

(** [(?::([0-9]+))?] then the path; the port is empty when unmatched. *)
Definition match_tail (s : str) : option (str * str) :=
  match s with
  | c :: r =>
      if decide (c = colon) then
        let '(d, r') := span is_digit r in
        match d with
        | [] => None
        | _ => path ← match_path r'; Some (d, path)
        end
      else path ← match_path s; Some ([], path)
  | [] => Some ([], [])
  end.

(** The two alternatives of the host group, in the order the regex tries
    them: a bracketed address, or characters other than [/] and [:]. *)
Definition host_bracketed (s : str) : option (str * str) :=
  match s with
  | c :: r =>
      if decide (c = lbracket) then
        match span (λ c, negb (bool_decide (c = rbracket))) r with
        | ((_ :: _) as body, _ :: r') => Some (lbracket :: body ++ [rbracket], r')
        | _ => None
        end
      else None
  | [] => None
  end.

Definition host_plain (s : str) : option (str * str) :=
  match span (λ c, negb (bool_decide (c = slash \/ c = colon))) s with
  | ([], _) => None
  | hr => Some hr
  end.

Definition with_tail (hr : option (str * str)) : option (str * str * str) :=
  '(host, r) ← hr; '(port, path) ← match_tail r; Some (host, port, path).

Record url := Url { scheme : str; host : str; port : str; base_path : str }.

(** [parseUrl]; [None] is [return false]. *)
Definition parseUrl (u : str) : option url :=
  let scheme :=
    if starts_with (lit "https://") u then Some (lit "https", drop 8 u)
    else if starts_with (lit "http://") u then Some (lit "http", drop 7 u)
    else None in
  '(scheme, rest) ← scheme;
  '(host, port, path) ←
    match with_tail (host_bracketed rest) with
    | Some m => Some m
    | None => with_tail (host_plain rest)
    end;
  Some (Url scheme host
          (if decide (port = [])
           then if decide (scheme = lit "https") then lit "443" else lit "80"
           else port)
          path).

Record endpoint := Endpoint { ep_v6 : bool; ep_link_local : bool; ep_addr : str }.

Record request := Request {
  rq_tls : bool;
  rq_target : str;
  rq_host : str;
  rq_authorization : str;
  rq_api_key : str
}.

Record Network := {
  net_resolve : str -> str -> result (list endpoint);
  (** connect, handshake, write and read: status and body *)
  net_exchange : endpoint -> request -> result (Z * str)
}.

(** The first endpoint that is not IPv6 link-local. *)
Fixpoint first_routable (eps : list endpoint) : option endpoint :=
  match eps with
  | [] => None
  | ep :: eps => if ep_v6 ep && ep_link_local ep then first_routable eps else Some ep
  end.

Definition resolveEndpoint (net : Network) (host port : str) : result endpoint :=
  eps ← net_resolve net host port;
  match first_routable eps with
  | Some ep => Ok ep
  | None => Throw (lit "no routable address for " ++ host)
  end.

Definition unbracket (h : str) : str :=
  if bool_decide (head h = Some lbracket) && bool_decide (last h = Some rbracket)
  then substr h 1 (length h - 2) else h.

Section validate.
Context {J : JsonLib}.

(** The status and body of a completed exchange. *)
Definition classify (status : Z) (body : str) : AuthResult :=
  if (status =? 401) || (status =? 403) then Denied
  else if status =? 200 then
    match (j ← json_parse body; json_value_bool j (lit "is_active") false) with
    | Ok true => Allowed
    | Ok false => Denied
    | Throw _ => ApiUnavailable
    end
  else ApiUnavailable.

Definition validate (net : Network) (config : ApiAuthConfig) (client_key : str) : AuthResult :=
  match parseUrl (api_base_url config) with
  | None => ApiUnavailable
  | Some u =>
      let req := Request (bool_decide (scheme u = lit "https"))
                   (base_path u ++ lit "/client") (host u ++ lit ":" ++ port u)
                   (lit "Bearer " ++ api_secret_key config) client_key in
      match (ep ← resolveEndpoint net (unbracket (host u)) (port u);
             net_exchange net ep req) with
      | Ok (status, body) => classify status body
      | Throw _ => ApiUnavailable
      end
  end.
End validate.
(** ** Proofs *)

Lemma span_app p a b :
  Forall (λ c, p c = true) a -> (forall c, head b = Some c -> p c = false) ->
  span p (a ++ b) = (a, b).
Proof.
  intros Ha Hb. induction Ha as [|c a Hc _ IH]; cbn.
  - destruct b as [|c b]; [done|]. cbn. by rewrite (Hb c).
  - by rewrite Hc, IH.
Qed.

(** A path the regular expression accepts. *)
Definition path_ok (s : str) : Prop :=
  s = [] \/ exists r, s = slash :: r /\ Forall (λ c, c <> chr 10 /\ c <> chr 13) r.

Lemma match_path_ok s : path_ok s -> match_path s = Some s.
Proof.
  intros [->|(r & -> & Hr)]; [done|]. cbn [match_path].
  rewrite bool_decide_eq_true_2 by done. cbn [andb].
  assert (forallb (λ c, negb (bool_decide (c = chr 10 \/ c = chr 13))) r = true) as ->; [|done].
  apply forallb_forall. intros c Hc%list_elem_of_In. rewrite Forall_forall in Hr.
  destruct (Hr _ Hc). rewrite bool_decide_eq_false_2; naive_solver.
Qed.

Definition port_suffix (port : str) : str := match port with [] => [] | _ => colon :: port end.

Lemma match_tail_ok port path :
  Forall (λ c, is_digit c = true) port -> path_ok path ->
  match_tail (port_suffix port ++ path) = Some (port, path).
Proof.
  intros Hport Hpath. destruct port as [|d port]; cbn [port_suffix app].
  - destruct Hpath as [->|(r & -> & Hr)]; [done|]. unfold match_tail.
    rewrite decide_False by done. rewrite match_path_ok; [done|]. right. by exists r.
  - unfold match_tail. rewrite decide_True by done.
    rewrite (span_app _ (d :: port) path); [|done|].
    + by rewrite match_path_ok.
    + intros c. destruct Hpath as [->|(r & -> & Hr)]; [done|]. by intros [= <-].
Qed.

(** ** Properties *)

(** URL parsing inverts printing.  A URL made of a scheme, a host without
    [/], [:] or a leading bracket, an optional decimal port and an absolute
    path is parsed back into its components, the port defaulting to 443 for
    https and to 80 for http. *)
Theorem parseUrl_roundtrip (tls : bool) host port path :
  host <> [] -> Forall (λ c, c <> slash /\ c <> colon) host -> head host <> Some lbracket ->
  Forall (λ c, is_digit c = true) port -> path_ok path ->
  let scheme := if tls then lit "https" else lit "http" in
  parseUrl (scheme ++ lit "://" ++ host ++ port_suffix port ++ path) =
    Some (Url scheme host
            (match port with [] => if tls then lit "443" else lit "80" | _ => port end) path).
Proof.
  intros Hne Hhost Hbr Hport Hpath scheme.
  set (rest := host ++ port_suffix port ++ path).
  assert (with_tail (host_bracketed rest) = None) as Eb.
  { unfold rest. destruct host as [|c host]; [done|]. cbn [app]. unfold host_bracketed.
    rewrite decide_False by naive_solver. done. }
  assert (with_tail (host_plain rest) = Some (host, port, path)) as Ep.
  { unfold host_plain, rest. rewrite span_app.
    - destruct host; [done|]. unfold with_tail. cbn [mbind option_bind]. by rewrite match_tail_ok.
    - eapply Forall_impl; [exact Hhost|]. intros c [? ?]. by rewrite bool_decide_eq_false_2; [|naive_solver].
    - intros c. destruct port; cbn [port_suffix app].
      + destruct Hpath as [->|(r & -> & _)]; [done|]. by intros [= <-].
      + by intros [= <-]. }
  assert (starts_with (lit "https://") (lit "http" ++ lit "://" ++ rest) = false) as Eh.
  { apply bool_decide_eq_false_2. intros [k Hk]. by cbn in Hk. }
  unfold parseUrl. destruct tls; subst scheme.
  - change (lit "https" ++ lit "://" ++ rest) with (lit "https://" ++ rest).
    rewrite starts_with_app. cbn [mbind option_bind].
    change (drop 8 (lit "https://" ++ rest)) with rest. rewrite Eb, Ep. by destruct port.
  - rewrite Eh. change (lit "http" ++ lit "://" ++ rest) with (lit "http://" ++ rest).
    rewrite starts_with_app. cbn [mbind option_bind].
    change (drop 7 (lit "http://" ++ rest)) with rest. rewrite Eb, Ep. by destruct port.
Qed.

Lemma parseUrl_roundtrip_witness :
  parseUrl (lit "https://auth.internal:8443/v1") =
    Some (Url (lit "https") (lit "auth.internal") (lit "8443") (lit "/v1")).
Proof.
  refine (parseUrl_roundtrip true (lit "auth.internal") (lit "8443") (lit "/v1") _ _ _ _ _).
  - done.
  - repeat constructor; done.
  - done.
  - repeat constructor; done.
  - right. exists (lit "v1"). split; [done|]. repeat constructor; done.
Defined.

Section outcome.
Context {J : JsonLib}.

(** Fail closed.  A key is allowed exactly when the base URL parses, an
    endpoint that is not link-local answers the request for [/client] with
    status 200, and the body is a JSON object whose [is_active] is [true];
    every error, malformed body or other status is not an approval. *)
Theorem validate_allowed_iff net config key :
  validate net config key = Allowed <->
  exists u ep body j,
    parseUrl (api_base_url config) = Some u /\
    resolveEndpoint net (unbracket (host u)) (port u) = Ok ep /\
    net_exchange net ep
      (Request (bool_decide (scheme u = lit "https")) (base_path u ++ lit "/client")
         (host u ++ lit ":" ++ port u) (lit "Bearer " ++ api_secret_key config) key)
      = Ok (200, body) /\
    json_parse body = Ok j /\ json_value_bool j (lit "is_active") false = Ok true.
Proof.
  unfold validate. split.
  - destruct (parseUrl _) as [u|]; [|done].
    destruct (resolveEndpoint net _ _) as [ep|] eqn:Er; [|done]. cbn [mbind result_bind].
    destruct (net_exchange net ep _) as [[status body]|] eqn:Ex; [|done].
    unfold classify. destruct (Z.eqb_spec status 200) as [->|]; [|by destruct (_ || _)].
    destruct (json_parse body) as [j|] eqn:Ej; [|done]. cbn [orb Z.eqb Pos.eqb mbind result_bind].
    destruct (json_value_bool j _ _) as [[]|] eqn:Ev; [|done..]. intros _.
    by exists u, ep, body, j.
  - intros (u & ep & body & j & -> & Hr & Hx & Hj & Hv). rewrite Hr.
    cbn [mbind result_bind]. rewrite Hx. unfold classify. cbn [orb Z.eqb Pos.eqb].
    rewrite Hj. cbn [mbind result_bind]. by rewrite Hv.
Qed.
End outcome.
End ApiAuthClient.
