(* ===== verification/AuthManager.v ===== *)
(** The authentication manager of [src/server/AuthManager.cpp]: a static token,
    or the external API behind a cache.  The steady clock and the API's answer
    are arguments of [validate]. *)

From stdpp Require Import prelude strings list gmap.
From Stdlib Require Import ZArith Lia SpecFloat.
From S2P Require Import Prelude Floats Json AuthCache ApiAuthClient.

Module AuthManager.
Import AuthCache.
Import ApiAuthClient.

Record t := mk {
  cache : gmap str CacheEntry;
  auth_enabled : bool;
  ttl : Z;
  static_tok : str
}.

Definition make (config : ApiAuthConfig) : t :=
  mk ∅ (negb (bool_decide (api_base_url config = [])) ||
        negb (bool_decide (static_token config = [])))
     (cache_ttl_seconds config) (static_token config).

(** [diff |= a[i] ^ b[i]] over the whole length. *)
Definition byte (c : Ascii.ascii) : Z := Z.of_nat (Ascii.nat_of_ascii c).

Definition constantTimeEqual (a b : str) : bool :=
  if negb (zlen a =? zlen b) then false
  else foldl (λ diff '(x, y), Z.lor diff (Z.lxor (byte x) (byte y))) 0 (zip a b) =? 0.

Definition isAuthEnabled (m : t) : bool := auth_enabled m.

(** [validate] up to the query of the API: the decision, if there is one without
    it.  [now] is the clock reading of the cache's [get]. *)
Definition known (token : str) (now : Z) (m : t) : option bool * t :=
  if negb (auth_enabled m) then (Some true, m)
  else if negb (bool_decide (static_tok m = []))
  then (Some (constantTimeEqual token (static_tok m)), m)
  else
    let '(cached, entries) := get token now (cache m) in
    (cached, mk entries (auth_enabled m) (ttl m) (static_tok m)).

(** [validate] after the query: [api] is what [api_client_->validate(token)]
    returned, [now] the clock reading of the cache's [put]. *)
Definition answered (token : str) (now : Z) (api : AuthResult) (m : t) : bool * t :=
  match api with
  | ApiUnavailable => (false, m)
  | _ =>
      let allowed := bool_decide (api = Allowed) in
      (allowed, mk (put token allowed (ttl m) now (cache m)) (auth_enabled m) (ttl m) (static_tok m))
  end.

(** [validate]: the decision, whether the API was queried, the new state. *)
Definition validate (token : str) (now_get now_put : Z) (api : AuthResult) (m : t) :
    bool * bool * t :=
  let '(decision, m1) := known token now_get m in
  match decision with
  | Some ok => (ok, false, m1)
  | None => let '(ok, m2) := answered token now_put api m1 in (ok, true, m2)
  end.

(** A call of [validate] with what it observes of its environment. *)
Record call := Call { c_token : str; c_get : Z; c_put : Z; c_api : AuthResult }.

(** The calls that reached the API, and the state after all of them. *)
Fixpoint history (cs : list call) (m : t) : list call * t :=
  match cs with
  | [] => ([], m)
  | c :: cs =>
      let '(_, queried, m1) := validate (c_token c) (c_get c) (c_put c) (c_api c) m in
      let '(q, m2) := history cs m1 in
      (if queried then c :: q else q, m2)
  end.

(** ** Proofs *)

Lemma byte_inj c c' : byte c = byte c' -> c = c'.
Proof.
  unfold byte. intros E%Nat2Z.inj.
  by rewrite <-(Ascii.ascii_nat_embedding c), E, Ascii.ascii_nat_embedding.
Qed.

Lemma diff_zero l d :
  0 <= d ->
  foldl (λ diff '(x, y), Z.lor diff (Z.lxor (byte x) (byte y))) d l = 0 <->
  d = 0 /\ Forall (λ p, p.1 = p.2) l.
Proof.
  revert d. induction l as [|[x y] l IH]; intros d Hd; cbn; [naive_solver|].
  assert (0 <= Z.lxor (byte x) (byte y)) by (apply Z.lxor_nonneg; unfold byte; lia).
  rewrite IH by by apply Z.lor_nonneg.
  rewrite Z.lor_eq_0_iff, Z.lxor_eq_0_iff, Forall_cons. cbn.
  split; [|naive_solver]. intros [[-> E%byte_inj] ?]. done.
Qed.

Lemma zip_equal (a b : str) :
  length a = length b -> Forall (λ p, p.1 = p.2) (zip a b) <-> a = b.
Proof.
  revert b. induction a as [|x a IH]; intros [|y b] Hl; try done.
  cbn in *. rewrite Forall_cons, IH by lia. naive_solver.
Qed.

(** The entries of the cache come from answers of the API. *)
Definition grounded (m : t) (q : list call) : Prop :=
  forall tok e, cache m !! tok = Some e ->
  exists c, c ∈ q /\ c_token c = tok /\ c_api c = (if is_valid e then Allowed else Denied) /\
            expires_at e = c_put c + seconds (ttl m).

Lemma get_sub token now entries tok e :
  (get token now entries).2 !! tok = Some e -> entries !! tok = Some e.
Proof.
  unfold get. destruct (entries !! token) as [e'|]; [|done].
  rewrite Z.geb_leb. zcase; cbn; [|done]. by intros [_ ?]%lookup_delete_Some.
Qed.

Lemma grounded_weaken m q q' : grounded m q -> q ⊆ q' -> grounded m q'.
Proof. intros Hg Hq tok e (c & ? & ?)%Hg. exists c. set_solver. Qed.

(** What [known] does to the state. *)
Lemma known_frame token now m :
  ttl (known token now m).2 = ttl m /\ auth_enabled (known token now m).2 = auth_enabled m /\
  static_tok (known token now m).2 = static_tok m /\
  forall tok e, cache (known token now m).2 !! tok = Some e -> cache m !! tok = Some e.
Proof.
  unfold known. destruct (negb (auth_enabled m)); [done|]. destruct (negb _); [done|].
  pose proof (get_sub token now (cache m)) as H. destruct (get token now (cache m)) as [cached entries]. done.
Qed.

(** A decision taken from the cache. *)
Lemma known_cached token now m ok m1 :
  auth_enabled m = true -> static_tok m = [] -> known token now m = (Some ok, m1) ->
  exists e, cache m !! token = Some e /\ is_valid e = ok /\ now < expires_at e.
Proof.
  intros He Hs. unfold known. rewrite He, Hs. cbn [negb]. rewrite bool_decide_eq_true_2 by done. cbn [negb].
  unfold get. destruct (cache m !! token) as [e|]; [|done]. rewrite Z.geb_leb. zcase; [done|].
  intros [= <- _]. exists e. repeat split; lia.
Qed.

(** What [answered] decides, and what it leaves in the cache. *)
Lemma answered_decision token now api m : (answered token now api m).1 = bool_decide (api = Allowed).
Proof. by destruct api. Qed.

Lemma answered_frame token now api m :
  ttl (answered token now api m).2 = ttl m /\ auth_enabled (answered token now api m).2 = auth_enabled m /\
  static_tok (answered token now api m).2 = static_tok m.
Proof. by destruct api. Qed.

Lemma answered_lookup token now api m tok e :
  cache (answered token now api m).2 !! tok = Some e ->
  tok = token /\ api = (if is_valid e then Allowed else Denied) /\ expires_at e = now + seconds (ttl m) \/
  cache m !! tok = Some e.
Proof.
  destruct api; cbn [answered snd cache]; [| |by right]; unfold put; rewrite lookup_insert;
    (case_decide as Et; [intros [= <-]; left; by subst|by right]).
Qed.

Lemma validate_grounded m q c ok queried m' :
  grounded m q -> validate (c_token c) (c_get c) (c_put c) (c_api c) m = (ok, queried, m') ->
  grounded m' (q ++ if queried then [c] else []) /\ ttl m' = ttl m /\
  auth_enabled m' = auth_enabled m /\ static_tok m' = static_tok m.
Proof.
  intros Hg. unfold validate. destruct (known_frame (c_token c) (c_get c) m) as (Et & Ee & Es & Hk).
  destruct (known _ _ m) as [decision m1]. cbn [snd] in *.
  assert (grounded m1 q) as Hg1 by (intros tok e He; rewrite Et; by apply Hg, Hk).
  destruct decision; [intros [= <- <- <-]; by rewrite app_nil_r|].
  destruct (answered_frame (c_token c) (c_put c) (c_api c) m1) as (Et2 & Ee2 & Es2).
  pose proof (answered_lookup (c_token c) (c_put c) (c_api c) m1) as Hl.
  destruct (answered _ _ _ m1) as [ok2 m2]. intros [= <- <- <-]. cbn [snd] in *.
  split; [|split; [congruence|split; congruence]]. intros tok e [(-> & Ha & Hx)|He]%Hl.
  - exists c. rewrite Et2. set_solver.
  - rewrite Et2. destruct (Hg1 _ _ He) as (c' & ? & ?). exists c'. set_solver.
Qed.

Lemma history_grounded cs m q :
  grounded m q ->
  grounded (history cs m).2 (q ++ (history cs m).1) /\ ttl (history cs m).2 = ttl m /\
  auth_enabled (history cs m).2 = auth_enabled m /\ static_tok (history cs m).2 = static_tok m.
Proof.
  revert m q. induction cs as [|c cs IH]; intros m q Hg; cbn; [by rewrite app_nil_r|].
  destruct (validate _ _ _ _ m) as [[ok queried] m1] eqn:E.
  destruct (validate_grounded _ _ _ _ _ _ Hg E) as (Hg1 & Et & Ee & Es).
  destruct (IH _ _ Hg1) as (Hg2 & Et2 & Ee2 & Es2).
  destruct (history cs m1) as [q2 m2]. cbn [fst snd] in *.
  rewrite Et2, Ee2, Es2, Et, Ee, Es. split; [|done].
  destruct queried; [by rewrite <-app_assoc in Hg2|by rewrite app_nil_r in Hg2].
Qed.

Lemma constantTimeEqual_true a b : constantTimeEqual a b = true <-> a = b.
Proof.
  unfold constantTimeEqual, zlen. destruct (Z.eqb_spec (Z.of_nat (length a)) (Z.of_nat (length b))) as [E|E]; cbn [negb].
  - rewrite Z.eqb_eq, diff_zero by done. rewrite zip_equal by lia. naive_solver.
  - split; [done|]. intros ->. done.
Qed.

(** With a static token, [validate] only compares. *)
Lemma validate_static token now_get now_put api m :
  auth_enabled m = true -> static_tok m <> [] ->
  validate token now_get now_put api m = (bool_decide (token = static_tok m), false, m).
Proof.
  intros He Hs. unfold validate, known. rewrite He, (bool_decide_eq_false_2 (static_tok m = [])) by done.
  cbn [negb]. do 2 f_equal. apply eq_true_iff_eq.
  by rewrite constantTimeEqual_true, bool_decide_eq_true.
Qed.

(** ** Properties *)

(** The constant-time comparison is equality of byte strings: the
    accumulated difference is zero exactly when no byte differs. *)
Theorem constantTimeEqual_spec a b : constantTimeEqual a b = true <-> a = b.
Proof. apply constantTimeEqual_true. Qed.

(** Freshness of API decisions.  In API mode, after any history of
    calls, a decision of [validate] that does not query the API repeats the
    answer an earlier call obtained from the API for the same token, less
    than [cache_ttl] seconds before; a decision that queries it is the API's
    answer, an unavailable API denying.  So access is granted only on an
    [Allowed] of the API for that token within the TTL. *)
Theorem validate_fresh config cs token now_get now_put api ok queried m' :
  api_base_url config <> [] -> static_token config = [] ->
  validate token now_get now_put api (history cs (make config)).2 = (ok, queried, m') ->
  if queried then ok = bool_decide (api = Allowed)
  else exists c, c ∈ (history cs (make config)).1 /\ c_token c = token /\
                 c_api c = (if ok then Allowed else Denied) /\
                 now_get < c_put c + seconds (cache_ttl_seconds config).
Proof.
  intros Hurl Hst.
  destruct (history_grounded cs (make config) []) as (Hg & Et & Ee & Es); [done|].
  set (m := (history cs (make config)).2) in *. cbn in Et, Ee, Es. cbn [app] in Hg.
  rewrite bool_decide_eq_false_2 in Ee by done. rewrite Hst in Es.
  unfold validate. destruct (known token now_get m) as [[v|] m1] eqn:Ek.
  - intros [= <- <- _]. apply known_cached in Ek as (e & He & <- & Hnow); [|done..].
    destruct (Hg _ _ He) as (c & ? & ? & ? & ?). exists c. rewrite <- Et. repeat split; [done..|lia].
  - pose proof (answered_decision token now_put api m1) as Ha.
    destruct (answered token now_put api m1) as [ok2 m2]. by intros [= <- <- _].
Qed.

Definition api_config : ApiAuthConfig :=
  {| api_base_url := lit "http://auth"; api_secret_key := []; timeout_seconds := 5;
     cache_ttl_seconds := 300; static_token := [] |}.

Lemma validate_fresh_witness :
  let cs := [Call (lit "tok") 0 10 Allowed] in
  exists c, c ∈ (history cs (make api_config)).1 /\ c_token c = lit "tok" /\
            c_api c = Allowed /\ 5 < c_put c + seconds 300.
Proof.
  eapply (validate_fresh api_config [Call (lit "tok") 0 10 Allowed] (lit "tok") 5 6 Denied
            true false); [done|done|vm_compute; reflexivity].
Defined.

(** A static token wins over the API.  When a static token is set,
    [validate] compares with it and never queries the API, whatever
    [api_base_url] holds, although the configuration documents the API as
    taking precedence. *)
Theorem static_token_takes_precedence config cs token now_get now_put api :
  static_token config <> [] ->
  (history cs (make config)).1 = [] /\
  exists m', validate token now_get now_put api (history cs (make config)).2 =
               (bool_decide (token = static_token config), false, m').
Proof.
  intros Hne.
  assert (forall tok g p a, validate tok g p a (make config) =
            (bool_decide (tok = static_token config), false, make config)) as Hv.
  { intros. apply validate_static; [|done]. cbn.
    by rewrite (bool_decide_eq_false_2 (static_token config = [])), orb_true_r by done. }
  assert (history cs (make config) = ([], make config)) as ->.
  { induction cs as [|c cs IH]; [done|]. cbn [history]. by rewrite Hv, IH. }
  split; [done|]. eexists. apply Hv.
Qed.

Definition both_config : ApiAuthConfig :=
  {| api_base_url := lit "http://auth"; api_secret_key := []; timeout_seconds := 5;
     cache_ttl_seconds := 300; static_token := lit "secret" |}.

Lemma static_token_takes_precedence_witness :
  static_token both_config <> [] /\
  exists m', validate (lit "other") 0 0 Allowed (make both_config) = (false, false, m').
Proof.
  split; [done|].
  exact (proj2 (static_token_takes_precedence both_config [] (lit "other") 0 0 Allowed
                  ltac:(done))).
Defined.
End AuthManager.
