(* ===== verification/AuthThreads.v ===== *)
(** Concurrent calls of [AuthManager::validate].  Sessions and requests share one
    manager; the mutex of its cache is held for [get] and for [put], not for the
    query of the API between them, so that the calls of several threads overlap. *)

From stdpp Require Import prelude strings list gmap.
From Stdlib Require Import ZArith Lia.
From S2P Require Import Prelude Transitions Floats Json AuthCache ApiAuthClient AuthManager.

Module AuthThreads.
Import AuthCache.
Import ApiAuthClient.
Import AuthManager.

(** A thread: about to look the token up, waiting for the API, with the API's
    answer in hand, and decided, at a time, by the API or without it. *)
Inductive thread :=
| Calling (token : str)
| Asking (token : str)
| Holding (token : str) (api : AuthResult) (at_time : Z)
| Decided (token : str) (ok : bool) (at_time : Z) (api : option AuthResult).

(** What has happened: the answers of the API, and those put into the cache, with
    the time of the answer and that of the [put]. *)
Record world := World {
  mgr : AuthManager.t;
  now : Z;
  threads : list thread;
  answers : list (str * AuthResult * Z);
  stored : list (str * AuthResult * Z * Z)
}.

Inductive event :=
| Call (token : str)
| Look (i : nat)
| Reply (i : nat) (api : AuthResult)
| Conclude (i : nat)
| Tick (d : Z).

Definition set_thread (i : nat) (k : thread) (w : world) : world :=
  World (mgr w) (now w) (<[i := k]> (threads w)) (answers w) (stored w).
Definition set_mgr (m : AuthManager.t) (w : world) : world :=
  World m (now w) (threads w) (answers w) (stored w).

Definition step (e : event) (w : world) : option world :=
  match e with
  | Call token => Some (World (mgr w) (now w) (threads w ++ [Calling token]) (answers w) (stored w))
  | Look i =>
      match threads w !! i with
      | Some (Calling token) =>
          let '(decision, m) := known token (now w) (mgr w) in
          Some (set_thread i (match decision with
                              | Some ok => Decided token ok (now w) None
                              | None => Asking token
                              end) (set_mgr m w))
      | _ => None
      end
  | Reply i api =>
      match threads w !! i with
      | Some (Asking token) =>
          Some (World (mgr w) (now w) (<[i := Holding token api (now w)]> (threads w))
                  (answers w ++ [(token, api, now w)]) (stored w))
      | _ => None
      end
  | Conclude i =>
      match threads w !! i with
      | Some (Holding token api asked) =>
          let '(ok, m) := answered token (now w) api (mgr w) in
          Some (World m (now w) (<[i := Decided token ok (now w) (Some api)]> (threads w)) (answers w)
                  (match api with
                   | ApiUnavailable => stored w
                   | _ => stored w ++ [(token, api, asked, now w)]
                   end))
      | _ => None
      end
  | Tick d => if 0 <=? d then Some (World (mgr w) (now w + d) (threads w) (answers w) (stored w)) else None
  end.

Definition run : list event -> world -> option world := Transitions.exec step.

Definition start (config : ApiAuthConfig) : world := World (make config) 0 [] [] [].

(** ** Proofs *)

(** A decision rests on the answer of the API to this very call, or on an answer
    that was stored less than the TTL before. *)
Definition justified (ttl_s : Z) (w : world) (k : thread) : Prop :=
  match k with
  | Holding token api asked => (token, api, asked) ∈ answers w /\ asked <= now w
  | Decided token ok decided (Some api) =>
      ok = bool_decide (api = Allowed) /\ decided <= now w /\
      exists asked, (token, api, asked) ∈ answers w /\ asked <= decided
  | Decided token ok decided None =>
      decided <= now w /\
      exists asked put_at, (token, if ok then Allowed else Denied, asked, put_at) ∈ stored w /\
        put_at <= decided < put_at + seconds ttl_s
  | _ => True
  end.

Record inv (ttl_s : Z) (w : world) : Prop := {
  inv_mode : auth_enabled (mgr w) = true /\ static_tok (mgr w) = [] /\ ttl (mgr w) = ttl_s;
  inv_cache : forall tok e, cache (mgr w) !! tok = Some e ->
    exists asked put_at, (tok, (if is_valid e then Allowed else Denied), asked, put_at) ∈ stored w /\
      expires_at e = put_at + seconds ttl_s;
  inv_stored : forall tok api asked put_at, (tok, api, asked, put_at) ∈ stored w ->
    (tok, api, asked) ∈ answers w /\ asked <= put_at <= now w;
  inv_threads : Forall (justified ttl_s w) (threads w)
}.

Lemma inv_start config : api_base_url config <> [] -> static_token config = [] ->
  inv (cache_ttl_seconds config) (start config).
Proof.
  intros Hu Hs. split; cbn; [|done|set_solver|constructor].
  by rewrite (bool_decide_eq_false_2 (api_base_url config = [])).
Qed.

(** Nothing that has happened is forgotten, and time does not go back. *)
Definition grows (w w' : world) : Prop :=
  answers w ⊆ answers w' /\ stored w ⊆ stored w' /\ now w <= now w'.

Lemma justified_grows ttl_s w w' k : grows w w' -> justified ttl_s w k -> justified ttl_s w' k.
Proof.
  intros (Ha & Hs & Hn). destruct k as [| |token api asked|token ok decided [api|]]; cbn; [done..| | |].
  - intros [H1 H2]. split; [by apply Ha|lia].
  - intros (H1 & H2 & asked & H3 & H4). split; [done|]. split; [lia|]. exists asked. split; [by apply Ha|done].
  - intros (H1 & asked & p & H2 & H3). split; [lia|]. exists asked, p. split; [by apply Hs|done].
Qed.

Lemma threads_grow ttl_s w w' i k : grows w w' -> Forall (justified ttl_s w) (threads w) ->
  threads w' = <[i := k]> (threads w) -> justified ttl_s w' k -> Forall (justified ttl_s w') (threads w').
Proof.
  intros Hg Hw -> Hk. apply Forall_insert; [|done].
  eapply Forall_impl; [exact Hw|]. intros k0. by apply justified_grows.
Qed.

Lemma look_inv ttl_s i w w' : inv ttl_s w -> step (Look i) w = Some w' -> inv ttl_s w'.
Proof.
  intros [(He & Hs & Ht) Hc Hst Hth]. cbn [step].
  destruct (threads w !! i) as [[token| | |]|]; [|done..].
  destruct (known_frame token (now w) (mgr w)) as (Kt & Ke & Ks & Kc).
  destruct (known token (now w) (mgr w)) as [decision m] eqn:Ek. cbn [snd] in *. intros [= <-].
  split; cbn; [split_and!; congruence|intros tok e Hl; by apply Hc, Kc|done|].
  eapply (threads_grow ttl_s w); [split_and!; cbn; [done|done|lia]|done|reflexivity|].
  destruct decision as [ok|]; [|done]. cbn. split; [lia|].
  apply known_cached in Ek as (e & Hl & <- & Hnow); [|done..].
  destruct (Hc _ _ Hl) as (asked & p & Hin & Hx). exists asked, p. split; [done|].
  destruct (Hst _ _ _ _ Hin). lia.
Qed.

Lemma reply_inv ttl_s i api w w' : inv ttl_s w -> step (Reply i api) w = Some w' -> inv ttl_s w'.
Proof.
  intros [Hm Hc Hst Hth]. cbn [step]. destruct (threads w !! i) as [[|token| |]|]; [done| |done..].
  intros [= <-]. split; cbn; [done|done| |].
  - intros tok a asked p Hin. destruct (Hst _ _ _ _ Hin). split; [set_solver|done].
  - eapply (threads_grow ttl_s w); [split_and!; cbn; [set_solver|done|lia]|done|reflexivity|].
    cbn. split; [set_solver|lia].
Qed.

Lemma conclude_inv ttl_s i w w' : inv ttl_s w -> step (Conclude i) w = Some w' -> inv ttl_s w'.
Proof.
  intros [(He & Hs & Ht) Hc Hst Hth]. cbn [step].
  destruct (threads w !! i) as [[| |token api asked|]|] eqn:Ei; [done..| |done|done].
  assert (justified ttl_s w (Holding token api asked)) as [Ha Hle]
    by (rewrite Forall_forall in Hth; by eapply Hth, list_elem_of_lookup_2).
  destruct (answered_frame token (now w) api (mgr w)) as (At & Ae & As).
  pose proof (answered_decision token (now w) api (mgr w)) as Ad.
  pose proof (answered_lookup token (now w) api (mgr w)) as Al.
  destruct (answered token (now w) api (mgr w)) as [ok m]. cbn [fst snd] in *. intros [= <-].
  set (st' := match api with ApiUnavailable => _ | _ => _ end).
  assert (stored w ⊆ st') as Hsub by (unfold st'; destruct api; set_solver).
  split; cbn; [split_and!; congruence| | |].
  - intros tok e [(-> & Hapi & Hx)|Hl]%Al.
    + exists asked, (now w). rewrite <- Hapi, <- Ht. split; [|done].
      unfold st'. rewrite Hapi. destruct (is_valid e); set_solver.
    + destruct (Hc _ _ Hl) as (a & p & Hin & Hx). exists a, p. split; [by apply Hsub|done].
  - intros tok a ask p Hin. assert ((tok, a, ask, p) ∈ stored w \/ (tok, a, ask, p) = (token, api, asked, now w)) as [H|[= -> -> -> ->]]
      by (unfold st' in Hin; destruct api; set_solver); [by apply Hst|].
    split; [done|lia].
  - eapply (threads_grow ttl_s w); [split_and!; cbn; [done|done|lia]|done|reflexivity|].
    cbn. split; [done|]. split; [lia|]. by exists asked.
Qed.

Lemma step_inv ttl_s e w w' : inv ttl_s w -> step e w = Some w' -> inv ttl_s w'.
Proof.
  destruct e as [token|i|i api|i|d]; [|apply look_inv|apply reply_inv|apply conclude_inv|];
    intros [Hm Hc Hst Hth] H; cbn [step] in H.
  - injection H as <-. split; cbn; [done..|]. apply Forall_app. split; [|by repeat constructor].
    eapply Forall_impl; [exact Hth|]. intros k. apply justified_grows. by split_and!.
  - destruct (Z.leb_spec 0 d); [|done]. injection H as <-. split; cbn; [done..| |].
    + intros tok a asked p Hin. destruct (Hst _ _ _ _ Hin). split; [done|lia].
    + eapply Forall_impl; [exact Hth|]. intros k. apply justified_grows. split_and!; cbn; [done|done|lia].
Qed.

(** ** One call alone *)

Lemma lookup_end {A} (l : list A) x : (l ++ [x]) !! length l = Some x.
Proof. by rewrite lookup_app_r, Nat.sub_diag by lia. Qed.

Lemma insert_end {A} (l : list A) x y : <[length l := y]> (l ++ [x]) = l ++ [y].
Proof. by rewrite insert_app_r_alt, Nat.sub_diag by lia. Qed.

Lemma look_end w ts token : threads w = ts ++ [Calling token] ->
  step (Look (length ts)) w =
    let '(decision, m) := known token (now w) (mgr w) in
    Some (World m (now w)
            (ts ++ [match decision with Some ok => Decided token ok (now w) None | None => Asking token end])
            (answers w) (stored w)).
Proof.
  intros E. cbn [step]. rewrite E, lookup_end. destruct (known _ _ _) as [decision m].
  unfold set_thread. cbn. by rewrite E, insert_end.
Qed.

Lemma reply_end w ts token api : threads w = ts ++ [Asking token] ->
  step (Reply (length ts) api) w =
    Some (World (mgr w) (now w) (ts ++ [Holding token api (now w)]) (answers w ++ [(token, api, now w)]) (stored w)).
Proof. intros E. cbn [step]. by rewrite E, lookup_end, insert_end. Qed.

(** The answer put into the cache at [put_at], if it is put there. *)
Definition storing (token : str) (api : AuthResult) (asked put_at : Z) : list (str * AuthResult * Z * Z) :=
  match api with ApiUnavailable => [] | _ => [(token, api, asked, put_at)] end.

Lemma conclude_end w ts token api asked : threads w = ts ++ [Holding token api asked] ->
  step (Conclude (length ts)) w =
    let '(ok, m) := answered token (now w) api (mgr w) in
    Some (World m (now w) (ts ++ [Decided token ok (now w) (Some api)]) (answers w)
            (stored w ++ storing token api asked (now w))).
Proof.
  intros E. cbn [step]. rewrite E, lookup_end. destruct (answered _ _ _ _). rewrite insert_end.
  by destruct api; cbn; rewrite ?app_nil_r.
Qed.

(** The steps of a call that no other call interrupts are [validate]. *)
Lemma validate_in_steps token w d api : 0 <= d ->
  let '(ok, queried, m) := validate token (now w) (now w + d) api (mgr w) in
  let i := length (threads w) in
  exists w', run ([Call token; Look i] ++ if queried then [Tick d; Reply i api; Conclude i] else []) w
    = Some w' /\ mgr w' = m /\
    exists at_time how, threads w' = threads w ++ [Decided token ok at_time how].
Proof.
  intros Hd. set (w0 := World (mgr w) (now w) (threads w ++ [Calling token]) (answers w) (stored w)).
  assert (step (Call token) w = Some w0) as T1 by done.
  pose proof (look_end w0 (threads w) token eq_refl) as T2. cbn [mgr now answers stored w0] in T2.
  unfold validate, run. cbn -[step].
  destruct (known token (now w) (mgr w)) as [[ok|] m1].
  - eexists. rewrite T1. cbn -[step]. rewrite T2. cbn. eauto.
  - destruct (answered token (now w + d) api m1) as [ok2 m2] eqn:Ea.
    set (w1 := World _ _ _ _ _) in T2.
    pose (w2 := World m1 (now w + d) (threads w1) (answers w) (stored w)).
    assert (step (Tick d) w1 = Some w2) as T3.
    { cbn [step]. by rewrite (proj2 (Z.leb_le _ _)). }
    pose proof (reply_end w2 (threads w) token api eq_refl) as T4.
    set (w3 := World _ _ _ _ _) in T4.
    pose proof (conclude_end w3 (threads w) token api _ eq_refl) as T5.
    cbn [mgr now w3 w2] in T5. rewrite Ea in T5.
    eexists. rewrite T1. cbn -[step]. rewrite T2. cbn -[step w1]. rewrite T3. cbn -[step w2].
    rewrite T4. cbn -[step w3]. rewrite T5. cbn. eauto.
Qed.

(** ** Properties *)

(** C39: Every decision rests on an answer of the API, however the calls of the threads
    overlap.  In API mode a call that queried the API decides what it was told, an
    unavailable API denying; a call decided from the cache repeats an answer that
    the API had given for this token to some call, and that call had put it into
    the cache less than [cache_ttl] seconds before the decision. *)
Theorem overlapping_calls_fresh config es w token ok decided how :
  api_base_url config <> [] -> static_token config = [] ->
  run es (start config) = Some w -> Decided token ok decided how ∈ threads w ->
  match how with
  | Some api => ok = bool_decide (api = Allowed) /\
      exists asked, (token, api, asked) ∈ answers w /\ asked <= decided
  | None =>
      exists asked put_at, let answer := if ok then Allowed else Denied in
        (token, answer, asked) ∈ answers w /\ (token, answer, asked, put_at) ∈ stored w /\
        asked <= put_at <= decided /\ decided < put_at + seconds (cache_ttl_seconds config)
  end.
Proof.
  intros Hu Hs H Hin.
  assert (inv (cache_ttl_seconds config) w) as [_ _ Hst Hth]
    by (revert H; apply Transitions.exec_invariant; [intros; by eapply step_inv|by apply inv_start]).
  rewrite Forall_forall in Hth. specialize (Hth _ Hin). destruct how as [api|]; cbn in Hth.
  - naive_solver.
  - destruct Hth as (_ & asked & p & Hsd & Hp). destruct (Hst _ _ _ _ Hsd). exists asked, p. cbv zeta.
    split_and!; [done|done|lia..].
Qed.

(** Two overlapping calls for one token: the second is told it has been revoked,
    and stores that before the first stores its older answer; a third call looks
    the token up. *)
Definition revocation (token : str) (delay later : Z) : list event :=
  [Call token; Look 0; Reply 0 Allowed; Tick 1; Call token; Look 1; Reply 1 Denied; Conclude 1;
   Tick delay; Conclude 0; Tick later; Call token; Look 2].

Lemma get_empty token n : get token n ∅ = (None, ∅).
Proof. unfold get. by rewrite lookup_empty. Qed.

Lemma get_put token v ttl_s n m entries : n < m + seconds ttl_s ->
  get token n (put token v ttl_s m entries) = (Some v, put token v ttl_s m entries).
Proof.
  intros H. unfold get, put. rewrite lookup_insert, decide_True by done. cbn [expires_at is_valid].
  rewrite Z.geb_leb. by rewrite (proj2 (Z.leb_gt _ _)).
Qed.

(** C35: An older answer outlives a newer one: in that schedule, and for the whole TTL
    after the first call has stored its answer, the revoked token is accepted
    although the last answer of the API was a denial. *)
Theorem revoked_token_accepted config token delay later :
  api_base_url config <> [] -> static_token config = [] ->
  0 <= delay -> 0 <= later < seconds (cache_ttl_seconds config) ->
  exists w, run (revocation token delay later) (start config) = Some w /\
    answers w = [(token, Allowed, 0); (token, Denied, 1)] /\
    last (threads w) = Some (Decided token true (1 + delay + later) None).
Proof.
  intros Hu Hs Hd Hl. unfold start, make. rewrite (bool_decide_eq_false_2 (api_base_url config = [])), Hs by done.
  cbn [negb orb]. set (t := cache_ttl_seconds config) in *.
  unfold run, revocation.
  cbn -[Z.add Z.leb seconds put get]. unfold known. cbn -[Z.add Z.leb seconds put get].
  rewrite get_empty. change (0 <=? 1) with true. cbn -[Z.add Z.leb seconds put get]. rewrite get_empty.
  cbn -[Z.add Z.leb seconds put get]. rewrite (proj2 (Z.leb_le _ _) Hd).
  cbn -[Z.add Z.leb seconds put get]. rewrite (proj2 (Z.leb_le _ _) (proj1 Hl)).
  cbn -[Z.add Z.leb seconds put get]. rewrite get_put by lia.
  eexists. split; [reflexivity|]. done.
Qed.

Lemma revoked_token_accepted_witness :
  exists w, run (revocation (lit "tok") 5 7) (start api_config) = Some w /\
    answers w = [(lit "tok", Allowed, 0); (lit "tok", Denied, 1)] /\
    last (threads w) = Some (Decided (lit "tok") true 13 None).
Proof.
  apply (revoked_token_accepted api_config (lit "tok") 5 7);
    [discriminate|reflexivity|lia|vm_compute; split; [discriminate|reflexivity]].
Defined.

Lemma overlapping_calls_fresh_witness :
  exists w asked put_at, run (revocation (lit "tok") 5 7) (start api_config) = Some w /\
    Decided (lit "tok") true 13 None ∈ threads w /\
    (lit "tok", Allowed, asked, put_at) ∈ stored w /\ put_at <= 13 < put_at + seconds 300.
Proof.
  destruct (run (revocation (lit "tok") 5 7) (start api_config)) as [w|] eqn:E; [|by vm_compute in E].
  assert (Decided (lit "tok") true 13 None ∈ threads w) as Hin.
  { vm_compute in E. injection E as <-. apply list_elem_of_lookup_2 with 2%nat. reflexivity. }
  assert (api_base_url api_config <> []) as Hu by discriminate.
  destruct (overlapping_calls_fresh api_config _ w _ _ _ _ Hu eq_refl E Hin) as (asked & p & _ & Hs & H1 & H2).
  exists w, asked, p. split; [reflexivity|]. split; [exact Hin|]. split; [exact Hs|]. split; [apply H1|exact H2].
Defined.
End AuthThreads.
