(* ===== verification/SlotPool.v ===== *)
(** What a bounded pool promises to its clients: [try_take] claims one unit or
    refuses without changing anything, [give_back] returns one.  The inference
    limiter implements it; the handlers are verified against the interface. *)

From stdpp Require Import prelude.
From Stdlib Require Import ZArith Lia.
From S2P Require Import Prelude.

Class SlotPool (P : Type) := {
  in_use : P -> Z;
  limit : P -> Z;
  try_take : P -> bool * P;
  give_back : P -> P
}.

Class SlotPoolLaws (P : Type) `{SlotPool P} := {
  try_take_yes : forall p p', try_take p = (true, p') ->
    in_use p < limit p /\ in_use p' = in_use p + 1 /\ limit p' = limit p;
  try_take_no : forall p p', try_take p = (false, p') -> p' = p /\ limit p <= in_use p;
  give_back_law : forall p, 0 < in_use p ->
    in_use (give_back p) = in_use p - 1 /\ limit (give_back p) = limit p
}.

Section guard.
Context {P : Type} `{SlotPoolLaws P}.

(** The scope of an RAII guard: take, run the body on what was obtained, and
    give the unit back if it was obtained. *)
Definition with_guard {A} (body : bool -> P -> A * P) (p : P) : A * P :=
  let '(acquired, p1) := try_take p in
  let '(a, p2) := body acquired p1 in
  (a, if acquired then give_back p2 else p2).

Lemma with_guard_balanced {A} (body : bool -> P -> A * P) p :
  0 <= in_use p ->
  (forall b q, in_use (body b q).2 = in_use q) ->
  in_use (with_guard body p).2 = in_use p.
Proof.
  intros Hp Hbody. unfold with_guard. destruct (try_take p) as [[] p1] eqn:E.
  - apply try_take_yes in E as (_ & E & _). specialize (Hbody true p1).
    destruct (body true p1) as [a p2]. cbn in *.
    destruct (give_back_law p2); lia.
  - apply try_take_no in E as [-> _]. specialize (Hbody false p). by destruct (body false p).
Qed.
End guard.
