(* ===== verification/InferenceLimiter.v ===== *)
(** The inference limiter of [src/whisper/InferenceLimiter.h].

    The first part is the counter: every operation runs under [mutex_].  The
    second part is the condition variable: threads asleep in [cv_.wait] or
    [cv_.wait_for], threads woken but not yet holding the mutex, and threads
    holding a slot.  A wake-up may come from a notification, from a timeout or
    from nowhere, as the C++ standard allows. *)

From stdpp Require Import prelude strings list.
From Stdlib Require Import ZArith Lia.
From S2P Require Import Prelude Transitions SlotPool.

Module InferenceLimiter.

Record t := mk { active_count : Z; max_concurrent : Z }.

(** The members' initial values. *)
Definition init : t := mk 0 4.

Definition setMaxConcurrency (m : Z) (s : t) : t :=
  if m >? 0 then mk (active_count s) m else s.

Definition resetForTesting (s : t) : t := mk 0 (max_concurrent s).

Definition hasCapacity (s : t) : bool := active_count s <? max_concurrent s.

(** [++active_count_] *)
Definition claim (s : t) : t := mk (active_count s + 1) (max_concurrent s).

Definition try_acquire (s : t) : bool * t :=
  if active_count s <? max_concurrent s then (true, claim s) else (false, s).

Definition release (s : t) : t :=
  if active_count s >? 0 then mk (active_count s - 1) (max_concurrent s) else s.

Definition newline : str := [Ascii.ascii_of_nat 10].

Definition getMetrics (s : t) : str :=
  lit "transcription_active_inferences " ++ to_string (active_count s) ++ newline ++
  lit "transcription_max_inferences " ++ to_string (max_concurrent s) ++ newline.

#[export] Instance pool : SlotPool t := {
  in_use := active_count;
  limit := max_concurrent;
  try_take := try_acquire;
  give_back := release
}.

#[export] Instance pool_laws : SlotPoolLaws t.
Proof.
  split; cbn; unfold try_acquire, release; intros p; rewrite ?Z.gtb_ltb;
    zcase; intros; simplify_eq; cbn; lia || done.
Qed.

(** ** The RAII guards *)

Definition TryGuard_make : t -> bool * t := try_acquire.
Definition TryGuard_drop (acquired : bool) (s : t) : t := if acquired then release s else s.

(** ** The condition variable *)

Record world := World { lim : t; sleeping : Z; woken : Z; holders : Z }.

Inductive event :=
| Enter            (** [acquire()] or [try_acquire_for()] reaches its first test *)
| Try              (** [try_acquire()] *)
| Wake             (** a sleeping thread wakes up without a notification *)
| Resume           (** a woken thread of [acquire()] evaluates the predicate *)
| ResumeTimed (timed_out : bool)  (** the same for [try_acquire_for()] *)
| Release          (** a holder calls [release()] *)
| SetMax (m : Z).

Definition notify_one (w : world) : world :=
  if sleeping w >? 0 then World (lim w) (sleeping w - 1) (woken w + 1) (holders w) else w.

Definition notify_all (w : world) : world :=
  World (lim w) 0 (woken w + sleeping w) (holders w).

(** The thread that runs takes a slot. *)
Definition take_slot (w : world) : world :=
  World (claim (lim w)) (sleeping w) (woken w) (holders w + 1).

Definition step (e : event) (w : world) : option world :=
  match e with
  | Enter => Some (if hasCapacity (lim w) then take_slot w
                   else World (lim w) (sleeping w + 1) (woken w) (holders w))
  | Try => let '(ok, l) := try_acquire (lim w) in
           Some (World l (sleeping w) (woken w) (if ok then holders w + 1 else holders w))
  | Wake => if sleeping w >? 0
            then Some (World (lim w) (sleeping w - 1) (woken w + 1) (holders w)) else None
  | Resume => if woken w >? 0 then
      let w1 := World (lim w) (sleeping w) (woken w - 1) (holders w) in
      Some (if hasCapacity (lim w) then take_slot w1
            else World (lim w1) (sleeping w1 + 1) (woken w1) (holders w1))
      else None
  | ResumeTimed timed_out => if woken w >? 0 then
      let w1 := World (lim w) (sleeping w) (woken w - 1) (holders w) in
      Some (if hasCapacity (lim w) then take_slot w1
            else if timed_out then w1
            else World (lim w1) (sleeping w1 + 1) (woken w1) (holders w1))
      else None
  | Release => if holders w >? 0 then
      let w1 := World (release (lim w)) (sleeping w) (woken w) (holders w - 1) in
      Some (if active_count (lim w) >? 0 then notify_one w1 else w1)
      else None
  | SetMax m =>
      let w1 := World (setMaxConcurrency m (lim w)) (sleeping w) (woken w) (holders w) in
      Some (if m >? 0 then notify_all w1 else w1)
  end.

Definition run : list event -> world -> option world := Transitions.exec step.

Definition start : world := World init 0 0 0.

(** ** Proofs *)

Record inv (w : world) : Prop := {
  inv_holders : active_count (lim w) = holders w;
  inv_counts : 0 <= sleeping w /\ 0 <= woken w /\ 0 <= holders w;
  inv_limit : 0 < max_concurrent (lim w);
  (** no free slot outnumbers the threads already on their way to take one *)
  inv_awake : 0 < sleeping w ->
              max_concurrent (lim w) - active_count (lim w) <= woken w
}.

Lemma limiter_inv_start : inv start.
Proof. split; cbn; lia. Qed.

Ltac unfold_step :=
  unfold step, try_acquire, take_slot, claim, hasCapacity, release, setMaxConcurrency,
    notify_one, notify_all in *; cbn [lim sleeping woken holders active_count max_concurrent] in *;
  rewrite ?Z.gtb_ltb in *.

Lemma limiter_step_inv e w w' : inv w -> step e w = Some w' -> inv w'.
Proof.
  intros [Hh Hc Hl Ha] H. destruct w as [[a m] s k h]. cbn in *.
  destruct e; unfold_step;
    repeat (case_match; simplify_eq/=; rewrite ?Z.ltb_lt, ?Z.ltb_ge in *);
    split; cbn; try lia.
Qed.

Lemma limiter_run_inv es w w' : inv w -> run es w = Some w' -> inv w'.
Proof. apply Transitions.exec_invariant. intros e v v'. apply limiter_step_inv. Qed.

(** ** Properties *)

(** C25: No lost wake-up.  In every state reachable by any interleaving of
    callers, timeouts, spurious wake-ups and changes of the limit, the counter
    equals the number of slot holders, and whenever a thread sleeps while a
    slot is free, at least as many threads as there are free slots have already
    been woken to take them. *)
Theorem no_lost_wakeup es w :
  run es start = Some w ->
  active_count (lim w) = holders w /\ 0 <= holders w /\
  (0 < sleeping w -> hasCapacity (lim w) = true ->
   0 < max_concurrent (lim w) - active_count (lim w) <= woken w).
Proof.
  intros H. destruct (limiter_run_inv _ _ _ limiter_inv_start H) as [Hh Hc Hl Ha].
  repeat split; [done|lia|..]; unfold hasCapacity in *; rewrite Z.ltb_lt in *; [lia|auto].
Qed.

Definition sample : option world :=
  run [SetMax 1; Try; Enter; Enter; Release] start.

Lemma no_lost_wakeup_witness :
  exists w, sample = Some w /\ 0 < sleeping w /\
            0 < max_concurrent (lim w) - active_count (lim w) <= woken w.
Proof.
  destruct sample as [w|] eqn:E; [|by vm_compute in E].
  pose proof (proj2 (proj2 (no_lost_wakeup _ _ E))) as H.
  exists w. vm_compute in E. injection E as <-. split; [done|]. split; [done|].
  by apply H.
Defined.

(** The cap.  A step that gives a thread a slot leaves at most
    [max_concurrent] slots in use, and as long as the limit is never changed
    the number of concurrent inferences never exceeds it. *)
Theorem concurrency_cap es w e w' :
  run es start = Some w -> step e w = Some w' ->
  (holders w < holders w' -> holders w' <= max_concurrent (lim w')) /\
  (Forall (λ e, forall m, e <> SetMax m) es -> holders w <= max_concurrent (lim w)).
Proof.
  intros H He. split.
  - destruct (limiter_run_inv _ _ _ limiter_inv_start H) as [Hh Hc Hl Ha]. destruct w as [[a m] s k h]. cbn in *.
    destruct e; unfold_step;
      repeat (case_match; simplify_eq/=; rewrite ?Z.ltb_lt, ?Z.ltb_ge in *); cbn; lia.
  - intros Hes. clear He w' e.
    assert (forall w0, inv w0 -> holders w0 <= max_concurrent (lim w0) ->
              run es w0 = Some w -> holders w <= max_concurrent (lim w)) as Hgen;
      [|by apply (Hgen start limiter_inv_start)].
    clear H. induction Hes as [|e es He _ IH]; intros w0 Hw0 Hle Hrun; cbn -[step] in Hrun;
      [by simplify_eq|].
    apply bind_Some in Hrun as (w1 & H1 & H2). apply (IH w1); [by eapply limiter_step_inv| |done].
    destruct Hw0 as [Hh Hc Hl Ha]. destruct w0 as [[a m] s k h]. cbn in *.
    destruct e; unfold_step; try by destruct (He m0).
    all: repeat (case_match; simplify_eq/=; rewrite ?Z.ltb_lt, ?Z.ltb_ge in *); cbn; lia.
Qed.

Lemma concurrency_cap_witness :
  exists w w', run [Try] start = Some w /\ step Try w = Some w' /\
               holders w < holders w' /\ holders w' <= max_concurrent (lim w').
Proof.
  eexists _, _. split; [reflexivity|]. split; [reflexivity|]. split; [done|].
  by refine (proj1 (concurrency_cap [Try] _ Try _ eq_refl eq_refl) _).
Defined.

End InferenceLimiter.
