(* ===== verification/ModelCache.v ===== *)
(** The model cache of [src/whisper/ModelCache.h].

    Loading and freeing a model are whisper.cpp calls: a load either yields a
    fresh context or fails ([None] is the null pointer); freed contexts are
    recorded.  Every public operation runs under [mutex_].  The deferred unload
    runs in a task created by [std::async]; the second part interleaves the
    tasks with the operations, each task step being one acquisition of the
    mutex. *)

From stdpp Require Import prelude strings list gmap.
From Stdlib Require Import ZArith Lia.
From S2P Require Import Prelude Transitions.

Module ModelCache.

(** A [whisper_context*]. *)
Abbreviation context := nat.

Record t := mk {
  ctx : option context;
  loaded_path : str;
  ref_count : Z;
  ttl_seconds : Z;
  unload_pending : bool;
  shutdown : bool;
  unload_future : option nat;  (** the task of a valid future *)
  freed : list context         (** contexts passed to [whisper_free] *)
}.

Definition init : t := mk None [] 0 300 false false None [].

Definition configure (ttl : Z) (s : t) : t :=
  mk (ctx s) (loaded_path s) (ref_count s) ttl (unload_pending s) (shutdown s)
     (unload_future s) (freed s).

Definition set_pending (b : bool) (s : t) : t :=
  mk (ctx s) (loaded_path s) (ref_count s) (ttl_seconds s) b (shutdown s)
     (unload_future s) (freed s).

Definition unloadLocked (s : t) : t :=
  match ctx s with
  | Some c => mk None [] 0 (ttl_seconds s) (unload_pending s) (shutdown s) (unload_future s)
                 (freed s ++ [c])
  | None => s
  end.

Definition cancelUnloadLocked (s : t) : t :=
  if unload_pending s then set_pending false s else s.

Definition set_ref (n : Z) (s : t) : t :=
  mk (ctx s) (loaded_path s) n (ttl_seconds s) (unload_pending s) (shutdown s)
     (unload_future s) (freed s).

(** [acquire]; [load] is what [whisper_init_from_file_with_params] returns. *)
Definition acquire (model_path : str) (load : option context) (s : t) : result context * t :=
  let s1 := cancelUnloadLocked s in
  match ctx s1 with
  | Some c =>
      if decide (loaded_path s1 = model_path) then (Ok c, set_ref (ref_count s1 + 1) s1)
      else
        let s2 := mk None [] (ref_count s1) (ttl_seconds s1) (unload_pending s1) (shutdown s1)
                     (unload_future s1) (freed s1 ++ [c]) in
        match load with
        | None => (Throw (lit "[ModelCache] Failed to load whisper model: " ++ model_path), s2)
        | Some c' => (Ok c', mk (Some c') model_path 1 (ttl_seconds s2) (unload_pending s2)
                                (shutdown s2) (unload_future s2) (freed s2))
        end
  | None =>
      match load with
      | None => (Throw (lit "[ModelCache] Failed to load whisper model: " ++ model_path), s1)
      | Some c' => (Ok c', mk (Some c') model_path 1 (ttl_seconds s1) (unload_pending s1)
                              (shutdown s1) (unload_future s1) (freed s1))
      end
  end.

(** [scheduleUnloadLocked]: the new task [id] replaces the stored future; the
    old one is returned.  The pending flag ends up set in both cases. *)
Definition scheduleUnloadLocked (id : nat) (s : t) : option nat * t :=
  let old := unload_future s in
  let s1 := match old with Some _ => set_pending false s | None => s end in
  let s2 := set_pending true s1 in
  (old, mk (ctx s2) (loaded_path s2) (ref_count s2) (ttl_seconds s2) (unload_pending s2)
           (shutdown s2) (Some id) (freed s2)).

(** [release]: the future it then waits for with [old_future.get()], whether a
    task was started, and the state when it leaves the mutex. *)
Definition release (id : nat) (s : t) : option nat * bool * t :=
  if ref_count s <=? 0 then (None, false, s)
  else
    let s1 := set_ref (ref_count s - 1) s in
    if ref_count s1 =? 0 then
      if ttl_seconds s1 =? 0 then (None, false, unloadLocked s1)
      else if ttl_seconds s1 >? 0 then
        let '(old, s2) := scheduleUnloadLocked id s1 in (old, true, s2)
      else (None, false, s1)
    else (None, false, s1).

Definition forceUnload (s : t) : t := unloadLocked (cancelUnloadLocked s).

Definition refCount (s : t) : Z := ref_count s.
Definition isLoaded (s : t) : bool := bool_decide (ctx s <> None).

Definition newline : str := [Ascii.ascii_of_nat 10].

Definition getMetrics (s : t) : str :=
  lit "transcription_model_loaded " ++ to_string (if isLoaded s then 1 else 0) ++ newline ++
  lit "transcription_model_ref_count " ++ to_string (ref_count s) ++ newline.

(** The destructor, up to its wait for the last timer task ... *)
Definition destroy_begin (s : t) : t :=
  mk (ctx s) (loaded_path s) (ref_count s) (ttl_seconds s) false true (unload_future s) (freed s).

(** ... and after it: [get] invalidates the future, the context is freed. *)
Definition destroy_end (s : t) : t :=
  match ctx s with
  | Some c => mk None (loaded_path s) (ref_count s) (ttl_seconds s) (unload_pending s) (shutdown s)
                 None (freed s ++ [c])
  | None => mk None (loaded_path s) (ref_count s) (ttl_seconds s) (unload_pending s) (shutdown s)
               None (freed s)
  end.

(** ** The timer tasks *)

(** [Created] carries the TTL captured by the task's closure. *)
Inductive task := Created (ttl : Z) | Waiting (deadline : Z) | Done.

(** The test of [cv_.wait_for]'s predicate. *)
Definition stop_waiting (s : t) : bool := negb (unload_pending s) || shutdown s.

(** One acquisition of the mutex by a task at time [now]: it starts to wait, or
    wakes up (by a notification, the deadline or spuriously) and either waits on
    or runs to its end. *)
Definition task_step (now : Z) (k : task) (s : t) : task * t :=
  let proceed :=
    (Done, if unload_pending s && negb (shutdown s)
           then set_pending false (unloadLocked s) else s) in
  match k with
  | Created ttl =>
      if stop_waiting s || (ttl <=? 0) then proceed else (Waiting (now + ttl), s)
  | Waiting deadline =>
      if stop_waiting s || (deadline <=? now) then proceed else (k, s)
  | Done => (Done, s)
  end.

(** The process: the clock in seconds, the tasks, the contexts held by the
    clients, the tasks that releasing threads are blocked on, and the next
    fresh context. *)
Record world := World {
  cache : t;
  now : Z;
  tasks : list task;
  holders : list context;
  blocked : list nat;
  fresh : context
}.

Inductive event :=
| Acquire (path : str) (loads : bool)
| Release
| Force
| Configure (ttl : Z)
| Tick (seconds : Z)
| Task (id : nat).

Definition finished (id : nat) (w : world) : bool :=
  match tasks w !! id with Some Done => true | _ => false end.

Definition step (e : event) (w : world) : option world :=
  match e with
  | Acquire path loads =>
      let '(r, c) := acquire path (if loads then Some (fresh w) else None) (cache w) in
      Some (World c (now w) (tasks w)
              (match r with Ok x => x :: holders w | Throw _ => holders w end)
              (blocked w) (S (fresh w)))
  | Release =>
      match holders w with
      | [] => None
      | _ :: hs =>
          let '(old, started, c) := release (length (tasks w)) (cache w) in
          Some (World c (now w)
                  (if started then tasks w ++ [Created (ttl_seconds (cache w))] else tasks w) hs
                  (match old with
                   | Some id => if finished id w then blocked w else id :: blocked w
                   | None => blocked w
                   end) (fresh w))
      end
  | Force => Some (World (forceUnload (cache w)) (now w) (tasks w) (holders w) (blocked w) (fresh w))
  | Configure ttl =>
      Some (World (configure ttl (cache w)) (now w) (tasks w) (holders w) (blocked w) (fresh w))
  | Tick d => if 0 <=? d
              then Some (World (cache w) (now w + d) (tasks w) (holders w) (blocked w) (fresh w))
              else None
  | Task id =>
      match tasks w !! id with
      | None => None
      | Some k =>
          let '(k', c) := task_step (now w) k (cache w) in
          Some (World c (now w) (<[id := k']> (tasks w)) (holders w)
                  (match k' with Done => filter (λ i, i <> id) (blocked w) | _ => blocked w end)
                  (fresh w))
      end
  end.

Definition run : list event -> world -> option world := Transitions.exec step.

Definition start (ttl : Z) : world := World (configure ttl init) 0 [] [] [] 0.

(** ** Proofs *)

(** The events of a process that always asks for the model [p] and never
    forces an unload. *)
Definition uses_only (p : str) (e : event) : Prop :=
  match e with Acquire q _ => q = p | Force => False | _ => True end.

Definition live (k : task) : Prop := match k with Done => False | _ => True end.

Record inv (p : str) (w : world) : Prop := {
  inv_ref : ref_count (cache w) = zlen (holders w);
  inv_path : ctx (cache w) <> None -> loaded_path (cache w) = p;
  inv_held : Forall (λ c, ctx (cache w) = Some c) (holders w);
  inv_ctx : forall c, ctx (cache w) = Some c -> (c < fresh w)%nat /\ c ∉ freed (cache w);
  inv_freed : NoDup (freed (cache w)) /\ Forall (λ c, (c < fresh w)%nat) (freed (cache w));
  inv_shutdown : shutdown (cache w) = false;
  inv_pending : unload_pending (cache w) = true ->
    holders w = [] /\ ctx (cache w) <> None /\
    exists id k, unload_future (cache w) = Some id /\ tasks w !! id = Some k /\ live k
}.

Lemma cache_inv_start p ttl : inv p (start ttl).
Proof. split; cbn; try done. by split; constructor. Qed.

Lemma fresh_grows (n : nat) (l : list nat) :
  Forall (λ c, (c < n)%nat) l -> Forall (λ c, (c < S n)%nat) l.
Proof. intros H. eapply Forall_impl; [exact H|]. cbn. lia. Qed.

(** The flag a task step leaves, and what it does when it gives up waiting. *)
Lemma task_step_cases nw k s k' s' :
  task_step nw k s = (k', s') ->
  s' = s /\ (k' = Done -> k = Done \/ stop_waiting s = true) /\ (live k -> stop_waiting s = false -> live k') \/
  k' = Done /\ live k /\ stop_waiting s = false /\ s' = set_pending false (unloadLocked s).
Proof.
  unfold task_step, stop_waiting.
  destruct k as [ttl|d|], (unload_pending s) eqn:Ep, (shutdown s) eqn:Es; cbn;
    try (intros ?; simplify_eq; left; naive_solver).
  - destruct (ttl <=? 0); intros; simplify_eq; [right|left]; naive_solver.
  - destruct (d <=? nw); intros; simplify_eq; [right|left]; naive_solver.
Qed.

Lemma acquire_hit p load s c :
  ctx s = Some c -> loaded_path s = p ->
  acquire p load s = (Ok c, set_ref (ref_count s + 1) (cancelUnloadLocked s)).
Proof.
  intros Hc Hp. unfold acquire, cancelUnloadLocked.
  destruct (unload_pending s); cbn; by rewrite Hc, decide_True by done.
Qed.

Lemma acquire_inv p loads w w' : inv p w -> step (Acquire p loads) w = Some w' -> inv p w'.
Proof.
  intros [Hr Hp Hh Hc [Hn Hf] Hs Hq]. cbn [step].
  assert (unload_pending (cancelUnloadLocked (cache w)) = false) as Hcu.
  { unfold cancelUnloadLocked. by destruct (unload_pending (cache w)) eqn:E. }
  assert (ctx (cancelUnloadLocked (cache w)) = ctx (cache w) /\
          freed (cancelUnloadLocked (cache w)) = freed (cache w) /\
          ref_count (cancelUnloadLocked (cache w)) = ref_count (cache w) /\
          loaded_path (cancelUnloadLocked (cache w)) = loaded_path (cache w) /\
          shutdown (cancelUnloadLocked (cache w)) = shutdown (cache w)) as (E1 & E2 & E3 & E4 & E5).
  { unfold cancelUnloadLocked. by destruct (unload_pending (cache w)). }
  unfold acquire. cbv zeta. destruct (ctx (cancelUnloadLocked (cache w))) as [c|] eqn:E.
  - rewrite decide_True by (rewrite E4; apply Hp; congruence).
    intros [= <-]. destruct (Hc c) as [H1 H2]; [congruence|].
    split; cbn [cache now tasks holders blocked fresh set_ref ctx ref_count loaded_path freed
                shutdown unload_pending unload_future]; rewrite ?E, ?E2, ?E3, ?E4, ?E5; zsize.
    + intros _. apply Hp. congruence.
    + constructor; [done|]. by rewrite E1.
    + intros c' [= <-]. split; [lia|done].
    + split; [done|by apply fresh_grows].
    + done.
    + congruence.
  - assert (holders w = []) as Hnil.
    { destruct (holders w) as [|c hs]; [done|]. apply Forall_cons in Hh as [Hh _]. congruence. }
    destruct loads; intros [= <-];
      (split; cbn [cache now tasks holders blocked fresh ctx ref_count loaded_path freed
                   shutdown unload_pending unload_future]; rewrite ?Hnil, ?E, ?E2, ?E3, ?E4, ?E5);
      try done.
    + by constructor.
    + intros c' [= <-]. split; [lia|]. intros Hin. rewrite Forall_forall in Hf.
      apply Hf in Hin. lia.
    + split; [done|by apply fresh_grows].
    + congruence.
    + by rewrite Hr, Hnil.
    + split; [done|by apply fresh_grows].
    + congruence.
Qed.

Lemma unloadLocked_inv p w ts bl n :
  inv p w -> holders w = [] ->
  inv p (World (set_pending false (unloadLocked (cache w))) n ts [] bl (fresh w)).
Proof.
  intros [Hr Hp Hh Hc [Hn Hf] Hs Hq] Hnil. unfold unloadLocked. rewrite Hnil in Hr.
  destruct (ctx (cache w)) as [c|] eqn:E; split; cbn; try done; rewrite ?E; try done.
  destruct (Hc c eq_refl) as [H1 H2]. split.
  - apply NoDup_app. repeat split; [done| |apply NoDup_singleton].
    intros x Hx ->%list_elem_of_singleton. done.
  - apply Forall_app. split; [done|by constructor].
Qed.

Lemma release_inv p w w' : inv p w -> step Release w = Some w' -> inv p w'.
Proof.
  intros Hinv. pose proof Hinv as [Hr Hp Hh Hc [Hn Hf] Hs Hq]. cbn [step].
  destruct (holders w) as [|c hs] eqn:Ehs; [done|].
  apply Forall_cons in Hh as [Hc0 Hh].
  assert (unload_pending (cache w) = false) as Hpd.
  { destruct (unload_pending (cache w)); [by destruct Hq|done]. }
  unfold release. autorewrite with zlen in Hr.
  pose proof (zlen_nonneg hs). rewrite (proj2 (Z.leb_gt _ _)) by lia.
  cbn [set_ref ref_count ttl_seconds]. rewrite Z.gtb_ltb.
  destruct (Z.eqb_spec (ref_count (cache w) - 1) 0) as [E|E].
  - assert (hs = []) as -> by (apply zlen_zero; lia).
    destruct (Z.eqb_spec (ttl_seconds (cache w)) 0) as [Et|Et];
      [|destruct (Z.ltb_spec 0 (ttl_seconds (cache w)))].
    + intros [= <-]. cbn. unfold unloadLocked. cbn. rewrite Hc0. destruct (Hc c Hc0) as [H1 H2].
      split; cbn; try done; [|congruence]. split.
      * apply NoDup_app. repeat split; [done| |apply NoDup_singleton].
        intros x Hx ->%list_elem_of_singleton. done.
      * apply Forall_app. split; [done|by constructor].
    + unfold scheduleUnloadLocked. cbn. intros [= <-].
      split; cbn; try done; destruct (unload_future (cache w)); cbn; try done;
        try (rewrite E; done); intros _; (split; [done|]); (split; [congruence|]);
        eexists _, (Created _); (split; [done|]); (split; [|done]);
        by rewrite lookup_app_r, Nat.sub_diag by lia.
    + intros [= <-]. split; cbn; try done. congruence.
  - intros [= <-]. split; cbn; try done; [lia|congruence].
Qed.

Lemma task_inv p id w w' : inv p w -> step (Task id) w = Some w' -> inv p w'.
Proof.
  intros Hinv. pose proof Hinv as [Hr Hp Hh Hc Hf Hs Hq]. cbn [step].
  destruct (tasks w !! id) as [k|] eqn:Ek; [|done].
  destruct (task_step (now w) k (cache w)) as [k' s'] eqn:E. intros [= <-].
  apply task_step_cases in E as [(-> & Hd & Hl)|(-> & Hl & Hst & ->)].
  - split; cbn; try done. intros Hpd. destruct (Hq Hpd) as (Hnil & Hctx & id' & k0 & Hu & Hk & Hlive).
    split; [done|]. split; [done|]. exists id'. rewrite list_lookup_insert.
    assert (stop_waiting (cache w) = false) as Hsw by (unfold stop_waiting; by rewrite Hpd, Hs).
    destruct (decide _) as [[-> Hlt]|_]; [|by eauto].
    exists k'. simplify_eq. eauto.
  - assert (unload_pending (cache w) = true) as Hpd.
    { unfold stop_waiting in Hst. destruct (unload_pending (cache w)); done. }
    destruct (Hq Hpd) as (Hnil & _). rewrite Hnil. by apply unloadLocked_inv.
Qed.

Lemma cache_step_inv p e w w' : uses_only p e -> inv p w -> step e w = Some w' -> inv p w'.
Proof.
  destruct e; cbn [uses_only]; intros Hu Hinv; try done.
  - subst. by apply acquire_inv.
  - by apply release_inv.
  - destruct Hinv. cbn. intros [= <-]. by split.
  - destruct Hinv. cbn. destruct (0 <=? seconds); [|done]. intros [= <-]. by split.
  - by apply task_inv.
Qed.

Lemma cache_run_inv p es w w' : Forall (uses_only p) es -> inv p w -> run es w = Some w' -> inv p w'.
Proof. apply Transitions.exec_ind. intros e v v'. apply cache_step_inv. Qed.

(** How far away a timer can be when no configured TTL exceeds [M]. *)
Definition due_within (M : Z) (nw : Z) (k : task) : Prop :=
  match k with Created ttl => ttl <= M | Waiting d => d <= nw + M | Done => True end.

Definition ttl_at_most (M : Z) (e : event) : Prop :=
  match e with Configure ttl => ttl <= M | _ => True end.

Definition timely (M : Z) (w : world) : Prop :=
  ttl_seconds (cache w) <= M /\ Forall (due_within M (now w)) (tasks w).

Lemma unloadLocked_ttl s : ttl_seconds (unloadLocked s) = ttl_seconds s.
Proof. unfold unloadLocked. by destruct (ctx s). Qed.

Lemma release_ttl id s : ttl_seconds (release id s).2 = ttl_seconds s.
Proof.
  unfold release, scheduleUnloadLocked, unloadLocked, set_ref. cbn.
  repeat (case_match; cbn; try done); simplify_eq/=; done.
Qed.

Lemma acquire_ttl p l s : ttl_seconds (acquire p l s).2 = ttl_seconds s.
Proof.
  unfold acquire, cancelUnloadLocked, set_ref, set_pending. destruct (unload_pending s); cbn;
    repeat (case_match; cbn; try done); simplify_eq/=; done.
Qed.

Lemma step_timely M e w w' : ttl_at_most M e -> timely M w -> step e w = Some w' -> timely M w'.
Proof.
  intros He [Ht Hf]. unfold timely. destruct e as [path loads| | |ttl|d|id]; cbn [step].
  - pose proof (acquire_ttl path (if loads then Some (fresh w) else None) (cache w)) as E.
    destruct (acquire _ _ _) as [r c]. cbn in E. intros [= <-]. cbn. by rewrite E.
  - destruct (holders w); [done|]. pose proof (release_ttl (length (tasks w)) (cache w)) as E.
    destruct (release _ _) as [[old st] c]. cbn in E. intros [= <-]. cbn. rewrite E.
    split; [done|]. destruct st; [|done]. apply Forall_app. by repeat constructor.
  - intros [= <-]. cbn. unfold forceUnload, cancelUnloadLocked.
    rewrite unloadLocked_ttl. by destruct (unload_pending (cache w)).
  - intros [= <-]. by cbn.
  - destruct (Z.leb_spec 0 d); [|done]. intros [= <-]. cbn. split; [done|].
    eapply Forall_impl; [exact Hf|]. intros []; cbn; lia.
  - destruct (tasks w !! id) as [k|] eqn:Ek; [|done].
    destruct (task_step (now w) k (cache w)) as [k' s'] eqn:E. intros [= <-]. cbn.
    pose proof (Forall_lookup_1 _ _ _ _ Hf Ek) as Hk. unfold task_step in E. split.
    + destruct k; repeat case_match; simplify_eq; cbn; rewrite ?unloadLocked_ttl; done.
    + apply Forall_insert; [done|].
      destruct k; repeat case_match; simplify_eq; cbn in *; done || lia.
Qed.

Lemma run_timely M es w w' :
  Forall (ttl_at_most M) es -> timely M w -> run es w = Some w' -> timely M w'.
Proof. apply Transitions.exec_ind. intros e v v'. apply step_timely. Qed.

(** The time a timer still has to wait. *)
Definition remaining (nw : Z) (k : task) : Z :=
  match k with Created ttl => ttl | Waiting d => d - nw | Done => 0 end.

(** The step of a timer that gives up waiting while an unload is pending. *)
Lemma expired_step id k w :
  tasks w !! id = Some k -> live k -> stop_waiting (cache w) = false ->
  remaining (now w) k <= 0 ->
  step (Task id) w =
    Some (World (set_pending false (unloadLocked (cache w))) (now w) (<[id := Done]> (tasks w))
            (holders w) (filter (λ i, i <> id) (blocked w)) (fresh w)).
Proof.
  intros Hk Hl Hs Hd. cbn [step]. rewrite Hk. unfold task_step. rewrite Hs.
  assert (unload_pending (cache w) && negb (shutdown (cache w)) = true) as ->.
  { unfold stop_waiting in Hs. by destruct (unload_pending (cache w)), (shutdown (cache w)). }
  destruct k; [..|done]; cbn [orb remaining] in *; by rewrite (proj2 (Z.leb_le _ _)) by lia.
Qed.

(** The cache is used for the model [p] only. *)
Definition serves (p : str) (m : t) : Prop :=
  match ctx m with
  | Some _ => loaded_path m = p /\ 0 <= ref_count m
  | None => ref_count m = 0
  end.

Lemma serves_nonneg p m : serves p m -> 0 <= ref_count m.
Proof. unfold serves. destruct (ctx m); [by intros [_ ?]|lia]. Qed.

Lemma acquire_ref p load m c m' :
  serves p m -> acquire p load m = (Ok c, m') ->
  serves p m' /\ ref_count m' = ref_count m + 1.
Proof.
  unfold serves. intros Hs H. destruct (ctx m) as [c0|] eqn:Ec.
  - destruct Hs as [Hp Hr]. rewrite (acquire_hit _ _ _ c0) in H by done.
    injection H as <- <-. unfold set_ref, cancelUnloadLocked.
    destruct (unload_pending m); cbn; rewrite Ec; repeat split; try done; lia.
  - unfold acquire, cancelUnloadLocked in H.
    destruct (unload_pending m); cbn in H; rewrite Ec in H;
      destruct load; simplify_eq/=; repeat split; try done; lia.
Qed.

Lemma release_ref id m :
  0 < ref_count m -> ref_count (release id m).2 = ref_count m - 1.
Proof.
  intros Hr. unfold release. rewrite (proj2 (Z.leb_gt _ _)) by lia.
  unfold scheduleUnloadLocked, unloadLocked, set_pending. cbn [set_ref ref_count].
  destruct (Z.eqb_spec (ref_count m - 1) 0) as [E|E];
    repeat (case_match; cbn); simplify_eq/=; try done; lia.
Qed.

(** A failed load takes no reference. *)
Lemma acquire_fail p load m w m' :
  serves p m -> acquire p load m = (Throw w, m') -> ref_count m' = ref_count m.
Proof.
  unfold serves. intros Hs H. destruct (ctx m) as [c0|] eqn:Ec.
  - destruct Hs as [Hp Hr]. by rewrite (acquire_hit _ _ _ c0) in H by done.
  - unfold acquire, cancelUnloadLocked in H.
    destruct (unload_pending m); cbn in H; rewrite Ec in H; destruct load; by simplify_eq/=.
Qed.

(** *** The end of the process *)

(** The destructor has set the flags; only timers and the clock still run. *)
Definition destroying (w : world) : world :=
  World (destroy_begin (cache w)) (now w) (tasks w) (holders w) (blocked w) (fresh w).

Definition only_timers (e : event) : Prop := match e with Task _ | Tick _ => True | _ => False end.

(** The stored future belongs to a task that was started. *)
Definition future_known (w : world) : Prop :=
  forall id, unload_future (cache w) = Some id -> (id < length (tasks w))%nat.

Lemma unloadLocked_future s : unload_future (unloadLocked s) = unload_future s.
Proof. unfold unloadLocked. by destruct (ctx s). Qed.

Lemma cancel_future s : unload_future (cancelUnloadLocked s) = unload_future s.
Proof. unfold cancelUnloadLocked. by destruct (unload_pending s). Qed.

Lemma acquire_future p l s : unload_future (acquire p l s).2 = unload_future s.
Proof. unfold acquire. rewrite <- (cancel_future s). cbv zeta. repeat case_match; simplify_eq/=; done. Qed.

Lemma release_future id s old b s' : release id s = (old, b, s') ->
  unload_future s' = if b then Some id else unload_future s.
Proof.
  unfold release, scheduleUnloadLocked.
  repeat (case_match; cbn; try (by intros [= _ <- <-])).
  all: intros; simplify_eq; by rewrite ?unloadLocked_future.
Qed.

Lemma task_future nw k s : unload_future (task_step nw k s).2 = unload_future s.
Proof.
  unfold task_step. destruct (unload_pending s && negb (shutdown s)), k; cbn;
    repeat case_match; cbn; by rewrite ?unloadLocked_future.
Qed.

Lemma step_future e w w' : future_known w -> step e w = Some w' -> future_known w'.
Proof.
  unfold future_known. intros Hk. destruct e as [path loads| | |ttl|d|id]; cbn [step].
  - pose proof (acquire_future path (if loads then Some (fresh w) else None) (cache w)) as E.
    destruct (acquire _ _ _) as [res c]. intros [= <-]. cbn in *. by rewrite E.
  - destruct (holders w); [done|]. destruct (release _ _) as [[old b] c] eqn:E.
    apply release_future in E. intros [= <-] id. cbn. rewrite E.
    destruct b; [|apply Hk]. intros [= <-]. rewrite length_app. cbn. lia.
  - intros [= <-]. cbn. unfold forceUnload. by rewrite unloadLocked_future, cancel_future.
  - by intros [= <-].
  - destruct (0 <=? d); [|done]. by intros [= <-].
  - destruct (tasks w !! id) as [k|]; [|done]. pose proof (task_future (now w) k (cache w)) as E.
    destruct (task_step _ _ _) as [k' c]. intros [= <-] i. cbn in *. rewrite E, length_insert. apply Hk.
Qed.

(** Once [shutdown_] is set a timer leaves the cache alone and ends. *)
Lemma shutdown_task nw k s :
  unload_pending s = false -> task_step nw k s = (Done, s).
Proof. intros Hp. unfold task_step, stop_waiting. rewrite Hp. by destruct k. Qed.

Lemma timers_idle e w w' :
  only_timers e -> unload_pending (cache w) = false -> step e w = Some w' -> cache w' = cache w /\
  length (tasks w') = length (tasks w).
Proof.
  intros He Hp. destruct e as [| | | |d|id]; try done; cbn [step].
  - destruct (0 <=? d); [|done]. by intros [= <-].
  - destruct (tasks w !! id) as [k|]; [|done]. rewrite shutdown_task by done.
    intros [= <-]. cbn. by rewrite length_insert.
Qed.

Lemma timers_idle_run es w w' :
  Forall only_timers es -> unload_pending (cache w) = false -> run es w = Some w' ->
  cache w' = cache w /\ length (tasks w') = length (tasks w).
Proof.
  intros Hes Hp. apply (Transitions.exec_ind step (λ v, cache v = cache w /\ length (tasks v) = length (tasks w))
    only_timers); [|done..].
  intros e v v' He [E1 E2] H. rewrite <- E1, <- E2. apply timers_idle in H; try done. by rewrite E1.
Qed.

(** ** Properties *)

(** C7: No use after free.  For a process that uses one model path, whatever
    the interleaving of acquires, failed loads, releases, reconfigurations, the
    passing of time and the timer tasks: the reference count is the number of
    clients holding the context, every held context is the cached one and has
    not been freed, and no context is freed twice. *)
Theorem no_use_after_free p ttl es w :
  Forall (uses_only p) es -> run es (start ttl) = Some w ->
  ref_count (cache w) = zlen (holders w) /\
  (forall c, c ∈ holders w -> ctx (cache w) = Some c /\ c ∉ freed (cache w)) /\
  NoDup (freed (cache w)).
Proof.
  intros Hes H. destruct (cache_run_inv p es _ _ Hes (cache_inv_start p ttl) H).
  split; [done|]. split; [|by destruct inv_freed0].
  intros c Hc. rewrite Forall_forall in inv_held0.
  split; [by apply inv_held0|]. apply inv_ctx0. by apply inv_held0.
Qed.

Definition two_sessions : list event :=
  [Acquire (lit "m") true; Acquire (lit "m") true; Release; Release; Task 0; Tick 5;
   Acquire (lit "m") true; Task 0; Release; Task 1; Tick 300; Task 1; Acquire (lit "m") true].

Lemma no_use_after_free_witness :
  exists w, run two_sessions (start 300) = Some w /\ holders w = [3%nat] /\
            freed (cache w) = [0%nat] /\ ctx (cache w) = Some 3%nat.
Proof.
  destruct (run two_sessions (start 300)) as [w|] eqn:E; [|by vm_compute in E].
  exists w. split; [done|].
  assert (Forall (uses_only (lit "m")) two_sessions) as Hu by (repeat constructor).
  pose proof (proj1 (proj2 (no_use_after_free _ _ _ _ Hu E))) as H.
  assert (holders w = [3%nat] /\ freed (cache w) = [0%nat]) as [Hh Hf].
  { vm_compute in E. by injection E as <-. }
  split; [done|]. split; [done|]. apply H. rewrite Hh. by constructor.
Defined.

(** C11: A scheduled unload happens.  In every reachable state with an unload
    pending, some timer task is still alive, no client holds the model, and if
    no client comes back, letting that task run, letting a delay pass that is
    at most the largest TTL ever configured, and letting it run again frees
    the cached context and clears the flag. *)
Theorem pending_unload_happens p M ttl es w :
  Forall (uses_only p) es -> Forall (ttl_at_most M) es -> 0 <= M -> ttl <= M ->
  run es (start ttl) = Some w -> unload_pending (cache w) = true ->
  exists id d c w', 0 <= d <= M /\ ctx (cache w) = Some c /\
    run [Task id; Tick d; Task id] w = Some w' /\
    ctx (cache w') = None /\ unload_pending (cache w') = false /\
    freed (cache w') = freed (cache w) ++ [c].
Proof.
  intros Hes Hm HM Httl H Hpd. destruct (cache_run_inv p es _ _ Hes (cache_inv_start p ttl) H).
  assert (timely M (start ttl)) as Hst by (by repeat constructor).
  destruct (run_timely M es _ _ Hm Hst H) as [Ht Hf].
  destruct (inv_pending0 Hpd) as (_ & Hctx & id & k & _ & Hk & Hl).
  destruct (ctx (cache w)) as [c|] eqn:Ec; [|done].
  assert (stop_waiting (cache w) = false) as Hs by (unfold stop_waiting; by rewrite Hpd, inv_shutdown0).
  pose proof (Forall_lookup_1 _ _ _ _ Hf Hk) as Hdue.
  pose proof (lookup_lt_Some _ _ _ Hk) as Hlt.
  assert (unloadLocked (cache w) =
    mk None [] 0 (ttl_seconds (cache w)) (unload_pending (cache w)) (shutdown (cache w))
       (unload_future (cache w)) (freed (cache w) ++ [c])) as Hul by (unfold unloadLocked; by rewrite Ec).
  destruct (decide (remaining (now w) k <= 0)) as [He|He].
  - exists id, 0, c. eexists. split; [lia|]. split; [done|]. cbn -[step].
    rewrite (expired_step id k) by done. cbn -[task_step].
    rewrite list_lookup_insert_eq by done. cbn. by rewrite Hul.
  - set (d := remaining (now w) k) in *.
    assert (0 <= d) as Hd0 by lia.
    set (w1 := World (cache w) (now w)
                 (<[id := Waiting (now w + d)]> (tasks w)) (holders w) (blocked w) (fresh w)).
    assert (step (Task id) w = Some w1) as Hs1.
    { cbn [step]. rewrite Hk. unfold task_step. rewrite Hs.
      destruct k as [t0|d0|]; subst d w1; cbn [orb remaining] in *; [..|done];
        rewrite (proj2 (Z.leb_gt _ _)) by lia; repeat f_equal; lia. }
    exists id, d, c. eexists. split; [destruct k; subst d; cbn in *; lia|]. split; [done|].
    cbn -[step]. rewrite Hs1. cbn -[step].
    replace (step (Tick d) w1) with
      (Some (World (cache w1) (now w1 + d) (tasks w1) (holders w1) (blocked w1) (fresh w1)))
      by (cbn [step]; rewrite (proj2 (Z.leb_le 0 d) Hd0); done).
    cbn -[step]. rewrite (expired_step id (Waiting (now w + d))); cbn; try done.
    + by rewrite Hul.
    + by rewrite list_lookup_insert_eq.
    + lia.
Qed.

Lemma pending_unload_happens_witness :
  exists w, run [Acquire (lit "m") true; Release] (start 300) = Some w /\
    unload_pending (cache w) = true /\
    exists id d c w', 0 <= d <= 300 /\ ctx (cache w) = Some c /\
      run [Task id; Tick d; Task id] w = Some w' /\
      ctx (cache w') = None /\ unload_pending (cache w') = false /\
      freed (cache w') = freed (cache w) ++ [c].
Proof.
  destruct (run [Acquire (lit "m") true; Release] (start 300)) as [w|] eqn:E; [|by vm_compute in E].
  exists w. split; [done|].
  assert (unload_pending (cache w) = true) as Hp by (vm_compute in E; by injection E as <-).
  split; [done|].
  apply (pending_unload_happens (lit "m") 300 300 [Acquire (lit "m") true; Release]); try done;
    repeat constructor.
Defined.

(** C34: The destructor frees the model exactly once.  Whatever the process did with
    its one model, after the destructor has set its flags no timer touches the
    cache any more, the timer it waits for ends at its next step, and the cached
    context, if there is one, is freed then: nothing is loaded afterwards and no
    context was freed twice. *)
Theorem destructor_frees_once p ttl es w es' w' :
  Forall (uses_only p) es -> run es (start ttl) = Some w ->
  Forall only_timers es' -> run es' (destroying w) = Some w' ->
  (forall id, unload_future (cache w) = Some id ->
     exists w2, step (Task id) w' = Some w2 /\ finished id w2 = true /\ cache w2 = cache w') /\
  ctx (destroy_end (cache w')) = None /\
  NoDup (freed (destroy_end (cache w'))) /\
  (forall c, ctx (cache w) = Some c -> freed (destroy_end (cache w')) = freed (cache w) ++ [c]).
Proof.
  intros Hes H Hes' H'. destruct (cache_run_inv p es _ _ Hes (cache_inv_start p ttl) H).
  destruct (timers_idle_run es' (destroying w) w' Hes' eq_refl H') as [E El]. cbn [cache tasks destroying] in E, El.
  split; [|rewrite E; unfold destroy_end, destroy_begin; cbn [ctx freed]].
  - intros id Hid.
    assert (future_known w) as Hk.
    { revert H. apply (Transitions.exec_invariant step); [|done]. intros ? ? ?. apply step_future. }
    destruct (lookup_lt_is_Some_2 (tasks w') id) as [k Ek]; [rewrite El; by apply Hk|].
    eexists. cbn [step]. rewrite Ek, shutdown_task by (by rewrite E). split; [done|].
    unfold finished. cbn. rewrite list_lookup_insert_eq; [done|]. by eapply lookup_lt_Some.
  - destruct (ctx (cache w)) as [c|]; cbn; [|by destruct inv_freed0].
    destruct (inv_ctx0 c eq_refl) as [_ Hc]. split; [done|]. split; [|by intros ? [= ->]].
    apply NoDup_app. destruct inv_freed0. repeat split; [done| |apply NoDup_singleton].
    intros x Hx ->%list_elem_of_singleton. done.
Qed.

Lemma destructor_frees_once_witness :
  exists w w', run [Acquire (lit "m") true; Release; Task 0] (start 300) = Some w /\
    run [Tick 1] (destroying w) = Some w' /\ freed (destroy_end (cache w')) = [0%nat].
Proof.
  destruct (run [Acquire (lit "m") true; Release; Task 0] (start 300)) as [w|] eqn:E; [|by vm_compute in E].
  destruct (run [Tick 1] (destroying w)) as [w'|] eqn:E'; [|by vm_compute in E'].
  exists w, w'. split; [done|]. split; [done|].
  assert (ctx (cache w) = Some 0%nat /\ freed (cache w) = []) as [Hc Hf]
    by (vm_compute in E; by injection E as <-).
  rewrite (proj2 (proj2 (proj2 (destructor_frees_once (lit "m") 300
    [Acquire (lit "m") true; Release; Task 0] w [Tick 1] w'
    ltac:(by repeat constructor) E ltac:(by repeat constructor) E'))) 0%nat Hc).
  by rewrite Hf.
Defined.

(** A session ends, a second one begins and ends just before the timer of the
    first expires, and that timer has not yet run when the second one ends. *)
Definition quick_session (p : str) : list event :=
  [Acquire p true; Release; Task 0; Tick 299; Acquire p true; Release].

(** A stale timer survives.  When a model is acquired and released again
    before the cancelled timer has run, re-arming sets the pending flag the old
    timer tests in the same critical section: the old timer keeps waiting, the
    releasing thread stays blocked on it, and at the old deadline - one second
    after the last release instead of the configured 300 - it unloads the model. *)
Theorem stale_timer_survives p :
  exists w1 w2, run (quick_session p) (start 300) = Some w1 /\
    unload_pending (cache w1) = true /\ blocked w1 = [0%nat] /\
    step (Task 0) w1 = Some w1 /\
    run [Tick 1; Task 0] w1 = Some w2 /\
    now w2 = now w1 + 1 /\ ctx (cache w2) = None /\ freed (cache w2) = [0%nat].
Proof.
  set (w0 := World (mk (Some 0%nat) p 0 300 true false (Some 0%nat) []) 299
               [Waiting 300] [] [] 1%nat).
  assert (step (Acquire p true) w0 =
    Some (World (mk (Some 0%nat) p 1 300 false false (Some 0%nat) []) 299
            [Waiting 300] [0%nat] [] 2%nat)) as E.
  { cbn [step]. by rewrite (acquire_hit p _ _ 0). }
  change (run (quick_session p) (start 300)) with (run [Acquire p true; Release] w0).
  cbn -[step]. rewrite E. eexists _, _. by repeat split.
Qed.

(** Switching models frees a context in use.  When a client holds the
    context of one path and another client asks for a different path, the held
    context is freed while the first client still holds it and the count is
    reset, so that the second client's release alone schedules an unload. *)
Theorem path_switch_frees_held p q ttl es w c :
  Forall (uses_only p) es -> run es (start ttl) = Some w -> c ∈ holders w -> q <> p ->
  exists w', step (Acquire q true) w = Some w' /\ c ∈ holders w' /\
             c ∈ freed (cache w') /\ ref_count (cache w') = 1 /\ 1 < zlen (holders w').
Proof.
  intros Hes H Hc Hq. destruct (cache_run_inv p es _ _ Hes (cache_inv_start p ttl) H).
  rewrite Forall_forall in inv_held0. specialize (inv_held0 _ Hc).
  assert (ctx (cancelUnloadLocked (cache w)) = Some c /\
          loaded_path (cancelUnloadLocked (cache w)) = p) as [E1 E2].
  { unfold cancelUnloadLocked. destruct (unload_pending (cache w)); cbn;
      (split; [done|apply inv_path0; congruence]). }
  cbn [step]. unfold acquire. cbv zeta. rewrite E1, E2, decide_False by done.
  eexists. split; [done|]. cbn.
  destruct (holders w) as [|x hs]; [by apply not_elem_of_nil in Hc|]. zsize.
  repeat split; [by right|apply elem_of_app; right; by constructor|lia].
Qed.

Lemma path_switch_frees_held_witness :
  exists w w', run [Acquire (lit "a") true] (start 300) = Some w /\
    step (Acquire (lit "b") true) w = Some w' /\ 0%nat ∈ holders w' /\ 0%nat ∈ freed (cache w').
Proof.
  destruct (run [Acquire (lit "a") true] (start 300)) as [w|] eqn:E; [|by vm_compute in E].
  assert (0%nat ∈ holders w) as Hc by (vm_compute in E; injection E as <-; by constructor).
  assert (Forall (uses_only (lit "a")) [Acquire (lit "a") true]) as Hu by (by repeat constructor).
  assert (lit "b" <> lit "a") as Hne by done.
  destruct (path_switch_frees_held _ _ _ _ _ _ Hu E Hc Hne) as (w' & H1 & H2 & H3 & _).
  by exists w, w'.
Defined.

End ModelCache.
