(* ===== verification/VadGate.v ===== *)
(** Voice-activity gating, [src/whisper/VadGate.cpp].

    The VAD model is whisper.cpp: loading it succeeds or fails, and a detection
    fails or yields the segments' boundaries in centiseconds.  [lround] of a
    value outside the range of [long] is unspecified in C++ and left open. *)

From stdpp Require Import prelude strings list sorting.
From Stdlib Require Import ZArith Lia.
From S2P Require Import Prelude Floats.

Module VadGate.

(** [whisper_vad_params], as [create] fills it. *)
Record vad_params := VadParams {
  threshold : float32;
  min_speech_duration_ms : Z;
  min_silence_duration_ms : Z;
  max_speech_duration_s : float32;
  speech_pad_ms : Z;
  samples_overlap : float32
}.

Record SegmentMapping := Seg {
  gated_start : Z;
  gated_end : Z;
  original_start : Z;
  original_end : Z
}.

Record GatedResult := Gated { samples : list float32; had_speech : bool }.

Record t := mk {
  model_path : str;
  params : vad_params;
  n_threads : Z;
  vad_ctx : bool;  (** the model is loaded *)
  mapping : list SegmentMapping;
  original_total_samples : Z
}.

Definition create (path : str) (thold : float32) (min_speech_ms min_silence_ms : Z)
    (max_speech_s : float32) (pad_ms : Z) (overlap : float32) (threads : Z) : t :=
  mk path (VadParams thold min_speech_ms min_silence_ms max_speech_s pad_ms overlap)
     threads false [] 0.

(** The loop of [mapGatedToOriginalSamples]; [prev_end] is the preceding
    segment's [original_end], 0 before the first one. *)
Fixpoint map_loop (prev_end : Z) (ms : list SegmentMapping) (g total : Z) : Z :=
  match ms with
  | [] => Z.min prev_end total
  | s :: ms =>
      if g <? gated_start s then prev_end
      else if g <? gated_end s then original_start s + (g - gated_start s)
      else map_loop (original_end s) ms g total
  end.

Definition mapGatedToOriginalSamples (ms : list SegmentMapping) (g total : Z) : Z :=
  if (g <? 0) || bool_decide (ms = []) then 0 else map_loop 0 ms g total.

Definition toOriginalSamples (v : t) (cs : Z) : Z :=
  mapGatedToOriginalSamples (mapping v) (cs * 160) (original_total_samples v).

(** [ensureLoaded]; [loads] is what the library answers. *)
Definition ensureLoaded (loads : bool) (v : t) : result t :=
  if vad_ctx v then Ok v
  else if loads
  then Ok (mk (model_path v) (params v) (n_threads v) true (mapping v) (original_total_samples v))
  else Throw (lit "[VadGate] Failed to load VAD model: " ++ model_path v).

Section gate.
Variable lround_unspecified : float64 -> Z.

Definition clround (x : float64) : Z :=
  match lround x with
  | Some z => if (- 2 ^ 63 <=? z) && (z <? 2 ^ 63) then z else lround_unspecified x
  | None => lround_unspecified x
  end.

Definition cs_to_samples (total : Z) (cs : float32) : Z :=
  let v := clround (F64.mul (F64.div (F64.of_f32 cs) (F64.of_Z 100)) (F64.of_Z 16000)) in
  let v := if v <? 0 then 0 else v in
  if total <? v then total else v.

(** 100 ms of synthetic silence. *)
Definition gap : Z := Z.quot (100 * 16000) 1000.

(** The elements from [a] up to [b]. *)
Definition range {A} (l : list A) (a b : Z) : list A :=
  take (Z.to_nat (b - a)) (drop (Z.to_nat a) l).

(** The loop over the segments. *)
Fixpoint gate_loop (original : list float32) (pad : Z) (segs : list (float32 * float32))
    (out : list float32) (ms : list SegmentMapping) (cursor prev_end : Z)
    : list float32 * list SegmentMapping :=
  match segs with
  | [] => (out, ms)
  | (t0, t1) :: segs =>
      let total := zlen original in
      let seg_start := Z.max (Z.max 0 (cs_to_samples total t0 - pad)) prev_end in
      let seg_end := Z.min total (cs_to_samples total t1 + pad) in
      if seg_end <=? seg_start then gate_loop original pad segs out ms cursor prev_end
      else
        let out := out ++ range original seg_start seg_end in
        let cursor' := cursor + (seg_end - seg_start) in
        let ms := ms ++ [Seg cursor cursor' seg_start seg_end] in
        match segs with
        | [] => gate_loop original pad segs out ms cursor' seg_end
        | _ :: _ => gate_loop original pad segs (out ++ replicate (Z.to_nat gap) F32.zero) ms
                      (cursor' + gap) seg_end
        end
  end.

(** [gate]; [loads] and [detect] are the library's answers, [None] a null
    segments handle. *)
Definition gate (loads : bool) (detect : vad_params -> list float32 -> option (list (float32 * float32)))
    (original : list float32) (v : t) : result GatedResult * t :=
  let v := mk (model_path v) (params v) (n_threads v) (vad_ctx v) [] (zlen original) in
  match original with
  | [] => (Ok (Gated [] false), v)
  | _ :: _ =>
      match ensureLoaded loads v with
      | Throw w => (Throw w, v)
      | Ok v =>
          match detect (params v) original with
          | None => (Throw (lit "[VadGate] whisper_vad_segments_from_samples failed"), v)
          | Some [] => (Ok (Gated [] false), v)
          | Some segs =>
              let pad := Z.quot (speech_pad_ms (params v) * 16000) 1000 in
              let '(out, ms) := gate_loop original pad segs [] [] 0 0 in
              (Ok (Gated out (negb (bool_decide (out = [])))),
               mk (model_path v) (params v) (n_threads v) (vad_ctx v) ms (zlen original))
          end
      end
  end.
End gate.

(** ** Proofs *)

(** A mapping entry relates equal stretches of the two buffers. *)
Record seg_ok (original out : list float32) (s : SegmentMapping) : Prop := {
  seg_gated : 0 <= gated_start s < gated_end s;
  seg_inside : gated_end s <= zlen out;
  seg_original : 0 <= original_start s /\ original_end s <= zlen original;
  seg_length : gated_end s - gated_start s = original_end s - original_start s;
  seg_copy : forall k, 0 <= k < gated_end s - gated_start s ->
    out !! Z.to_nat (gated_start s + k) = original !! Z.to_nat (original_start s + k)
}.

Definition before (a b : SegmentMapping) : Prop :=
  gated_end a <= gated_start b /\ original_end a <= original_start b.

Definition inside (g : Z) (s : SegmentMapping) : Prop := gated_start s <= g < gated_end s.

Record loop_inv (original out : list float32) (ms : list SegmentMapping) (cursor prev : Z) : Prop := {
  li_cursor : cursor = zlen out;
  li_prev : 0 <= prev <= zlen original;
  li_ok : Forall (seg_ok original out) ms;
  li_sorted : StronglySorted before ms;
  li_last : Forall (λ s, gated_end s <= cursor /\ original_end s <= prev) ms;
  li_cover : forall g x, 0 <= g -> out !! Z.to_nat g = Some x ->
    Exists (inside g) ms \/ x = F32.zero;
  li_empty : out = [] <-> ms = []
}.

Lemma zlen_range {A} (l : list A) a b : 0 <= a <= b -> b <= zlen l -> zlen (range l a b) = b - a.
Proof. unfold range, zlen. rewrite length_take, length_drop. lia. Qed.

Lemma lookup_range {A} (l : list A) a b k :
  0 <= a -> 0 <= k < b - a -> range l a b !! Z.to_nat k = l !! Z.to_nat (a + k).
Proof.
  intros. unfold range. rewrite lookup_take, lookup_drop. rewrite decide_True by lia.
  f_equal. lia.
Qed.

Lemma seg_ok_app original out extra s :
  seg_ok original out s -> seg_ok original (out ++ extra) s.
Proof.
  intros [Hg Hi Ho Hl Hc]. split; try done; [zsize|].
  intros k Hk. rewrite lookup_app_l; [by apply Hc|]. unfold zlen in Hi. lia.
Qed.

Lemma cs_to_samples_bounds un total cs : 0 <= total -> 0 <= cs_to_samples un total cs <= total.
Proof. intros. unfold cs_to_samples. zcase; lia. Qed.

(** Copying one more stretch of the original. *)
Lemma loop_inv_copy original out ms cursor prev a b :
  loop_inv original out ms cursor prev -> prev <= a < b -> b <= zlen original ->
  loop_inv original (out ++ range original a b)
    (ms ++ [Seg cursor (cursor + (b - a)) a b]) (cursor + (b - a)) b.
Proof.
  intros [Hc Hp Ho Hs Hl Hv He] Hab Hb.
  assert (zlen (range original a b) = b - a) as Hlen by (apply zlen_range; lia).
  pose proof (zlen_nonneg out).
  split.
  - rewrite zlen_app. lia.
  - lia.
  - apply Forall_app. split.
    + eapply Forall_impl; [exact Ho|]. intros. by apply seg_ok_app.
    + constructor; [|done]. split; cbn; [lia|rewrite zlen_app; lia|lia|lia|].
      intros k Hk. rewrite lookup_app_r by (unfold zlen in *; lia).
      rewrite <- (lookup_range original a b) by lia. f_equal. unfold zlen in *. lia.
  - apply StronglySorted_app_2; [|done|by repeat constructor].
    intros s1 s2 H1 ->%list_elem_of_singleton. rewrite Forall_forall in Hl.
    apply Hl in H1. split; cbn; lia.
  - apply Forall_app. split; [|constructor; [cbn; lia|done]].
    eapply Forall_impl; [exact Hl|]. cbn. lia.
  - intros g x Hg Hx. destruct (decide (g < zlen out)) as [Hlt|Hge].
    + rewrite lookup_app_l in Hx by (unfold zlen in *; lia).
      destruct (Hv _ _ Hg Hx) as [?| ->]; [left|by right]. apply Exists_app. by left.
    + left. apply Exists_app. right. constructor. unfold inside. cbn.
      apply lookup_lt_Some in Hx. rewrite length_app in Hx. unfold zlen in *. lia.
  - split; [|by destruct ms].
    intros [_ E]%app_nil. rewrite E in Hlen. cbn in Hlen. unfold zlen in Hlen. cbn in Hlen. lia.
Qed.

(** Appending synthetic silence after a copied stretch. *)
Lemma loop_inv_gap original out ms cursor prev n :
  loop_inv original out ms cursor prev -> ms <> [] -> 0 <= n ->
  loop_inv original (out ++ replicate (Z.to_nat n) F32.zero) ms (cursor + n) prev.
Proof.
  intros [Hc Hp Ho Hs Hl Hv He] Hms Hn. split; try done.
  - rewrite zlen_app, zlen_replicate by done. lia.
  - eapply Forall_impl; [exact Ho|]. intros. by apply seg_ok_app.
  - eapply Forall_impl; [exact Hl|]. cbn. lia.
  - intros g x Hg Hx. apply lookup_app_Some in Hx as [Hx|[_ Hx]]; [by apply Hv|].
    right. by apply lookup_replicate_1 in Hx as [-> _].
  - split; [|done]. intros [E _]%app_nil. by apply He in E.
Qed.

Lemma gate_loop_inv un original pad segs : forall out ms cursor prev out' ms',
  loop_inv original out ms cursor prev ->
  gate_loop un original pad segs out ms cursor prev = (out', ms') ->
  exists cursor' prev', loop_inv original out' ms' cursor' prev'.
Proof.
  induction segs as [|[t0 t1] segs IH]; intros out ms cursor prev out' ms' Hinv E; cbn in E.
  - simplify_eq. eauto.
  - destruct (Z.leb_spec (Z.min (zlen original) (cs_to_samples un (zlen original) t1 + pad))
      (Z.max (Z.max 0 (cs_to_samples un (zlen original) t0 - pad)) prev)) as [_|Hlt];
      [by eapply IH|].
    eapply loop_inv_copy in Hinv; [|split; [|exact Hlt]; lia|lia].
    destruct segs as [|sg segs]; [by eapply IH; [exact Hinv|]|].
    eapply (loop_inv_gap _ _ _ _ _ gap) in Hinv; [|by destruct ms|unfold gap; vm_compute; done].
    by eapply IH.
Qed.

Lemma loop_inv_nil original : loop_inv original [] [] 0 0.
Proof. pose proof (zlen_nonneg original). by split; try done; try lia; constructor. Qed.

(** What [gate] leaves behind when it returns. *)
Lemma gate_inv un loads detect original v r v' :
  gate un loads detect original v = (Ok r, v') ->
  original_total_samples v' = zlen original /\
  had_speech r = negb (bool_decide (samples r = [])) /\
  exists cursor prev, loop_inv original (samples r) (mapping v') cursor prev.
Proof.
  intros E. unfold gate, ensureLoaded in E. cbn in E.
  pose proof (loop_inv_nil original).
  destruct original as [|x original].
  { simplify_eq/=. eauto. }
  cbn [vad_ctx] in E.
  assert (forall v0, original_total_samples v0 = zlen (x :: original) -> mapping v0 = [] ->
    match detect (params v0) (x :: original) with
    | None => (Throw (lit "[VadGate] whisper_vad_segments_from_samples failed"), v0)
    | Some [] => (Ok (Gated [] false), v0)
    | Some segs =>
        let '(out, ms) := gate_loop un (x :: original)
            (Z.quot (speech_pad_ms (params v0) * 16000) 1000) segs [] [] 0 0 in
        (Ok (Gated out (negb (bool_decide (out = [])))),
         mk (model_path v0) (params v0) (n_threads v0) (vad_ctx v0) ms (zlen (x :: original)))
    end = (Ok r, v') ->
    original_total_samples v' = zlen (x :: original) /\
    had_speech r = negb (bool_decide (samples r = [])) /\
    exists cursor prev, loop_inv (x :: original) (samples r) (mapping v') cursor prev) as Hgen.
  { intros v0 Ht Hm E0. destruct (detect _ _) as [[|sg segs]|]; [| |done].
    - simplify_eq. rewrite Hm. eauto.
    - destruct (gate_loop _ _ _ _ _ _ _ _) as [out ms] eqn:El. injection E0 as <- <-.
      cbn [samples mapping original_total_samples had_speech]. split; [done|]. split; [done|].
      by eapply gate_loop_inv. }
  destruct (vad_ctx v); [by apply Hgen in E|]. destruct loads; [by apply Hgen in E|done].
Qed.

Lemma map_loop_bounds g total ms : forall prev,
  prev <= total -> Forall (λ s, prev <= original_start s) ms ->
  Forall (λ s, original_start s <= original_end s <= total /\
               gated_end s - gated_start s = original_end s - original_start s) ms ->
  StronglySorted before ms ->
  prev <= map_loop prev ms g total <= total.
Proof.
  induction ms as [|s ms IH]; intros prev Hp H1 H2 H3; cbn; [lia|].
  apply Forall_cons in H1 as [H1 _]. apply Forall_cons in H2 as [H2 H2'].
  apply StronglySorted_inv in H3 as [H3 H3'].
  zcase; try lia.
  destruct (IH (original_end s)); [lia|..]; try done; [|lia].
  eapply Forall_impl; [exact H3'|]. intros s' [_ ?]. lia.
Qed.

Lemma map_loop_mono g1 g2 total ms : forall prev, g1 <= g2 ->
  prev <= total -> Forall (λ s, prev <= original_start s) ms ->
  Forall (λ s, original_start s <= original_end s <= total /\
               gated_end s - gated_start s = original_end s - original_start s) ms ->
  StronglySorted before ms ->
  map_loop prev ms g1 total <= map_loop prev ms g2 total.
Proof.
  induction ms as [|s ms IH]; intros prev Hg Hp H1 H2 H3; cbn; [lia|].
  apply Forall_cons in H1 as [H1 _]. apply Forall_cons in H2 as [H2 H2'].
  apply StronglySorted_inv in H3 as [H3 H3'].
  assert (Forall (λ s', original_end s <= original_start s') ms) as H4.
  { eapply Forall_impl; [exact H3'|]. intros s' [_ ?]. lia. }
  destruct (map_loop_bounds g2 total ms (original_end s)) as [Hb _]; [lia|done..|].
  zcase; try lia. apply IH; lia || done.
Qed.

Lemma map_loop_inside g total s ms : forall prev,
  StronglySorted before ms -> s ∈ ms -> inside g s ->
  Forall (λ s, gated_start s < gated_end s) ms ->
  map_loop prev ms g total = original_start s + (g - gated_start s).
Proof.
  induction ms as [|s' ms IH]; intros prev H1 H2 H3 H4; cbn; [by apply not_elem_of_nil in H2|].
  apply StronglySorted_inv in H1 as [H1 H1']. apply Forall_cons in H4 as [H4 H4'].
  unfold inside in H3. apply elem_of_cons in H2 as [->|H2].
  - zcase; lia.
  - rewrite Forall_forall in H1'. pose proof (H1' _ H2) as [? _].
    zcase; try lia. by apply IH.
Qed.

Section after_gate.
Context {un loads detect original v r v'} (E : gate un loads detect original v = (Ok r, v')).

Lemma mapping_ok : Forall (seg_ok original (samples r)) (mapping v') /\
  StronglySorted before (mapping v').
Proof. destruct (gate_inv _ _ _ _ _ _ _ E) as (_ & _ & c & p & [? ? ? ? ? ? ?]). done. Qed.

Lemma mapping_shape :
  Forall (λ s, 0 <= original_start s) (mapping v') /\
  Forall (λ s, original_start s <= original_end s <= zlen original /\
               gated_end s - gated_start s = original_end s - original_start s) (mapping v') /\
  Forall (λ s, gated_start s < gated_end s) (mapping v').
Proof.
  destruct mapping_ok as [H _]. repeat split; (eapply Forall_impl; [exact H|]);
    intros s [? ? ? ? ?]; cbn; lia.
Qed.
End after_gate.

Lemma toOriginalSamples_range un loads detect original v r v' cs :
  gate un loads detect original v = (Ok r, v') -> 0 <= toOriginalSamples v' cs <= zlen original.
Proof.
  intros E. destruct (gate_inv _ _ _ _ _ _ _ E) as (Ht & _).
  destruct (mapping_shape E) as (H1 & H2 & _). destruct (mapping_ok E) as [_ H3].
  unfold toOriginalSamples, mapGatedToOriginalSamples. rewrite Ht.
  pose proof (zlen_nonneg original).
  destruct (map_loop_bounds (cs * 160) (zlen original) (mapping v') 0); [done..|].
  repeat case_match; lia.
Qed.

(** ** Properties *)

(** C23: The gated buffer is the speech of the original.  Whatever segments the
    VAD model reports, overlapping, reversed or out of range, and whatever the
    padding: speech is reported exactly when the mapping is not empty, and
    every sample of the gated buffer is either the original sample that
    [mapGatedToOriginalSamples] assigns to its position or synthetic silence
    outside every mapped stretch. *)
Theorem gated_samples_origin un loads detect original v r v' :
  gate un loads detect original v = (Ok r, v') ->
  (had_speech r = true <-> mapping v' <> []) /\
  forall g x, 0 <= g -> samples r !! Z.to_nat g = Some x ->
    Exists (inside g) (mapping v') /\
      original !! Z.to_nat (mapGatedToOriginalSamples (mapping v') g (zlen original)) = Some x \/
    ~ Exists (inside g) (mapping v') /\ x = F32.zero.
Proof.
  intros E. destruct (gate_inv _ _ _ _ _ _ _ E) as (Ht & -> & c & p & [Hc Hp Ho Hs Hl Hv He]).
  split.
  { rewrite negb_true_iff, bool_decide_eq_false. by rewrite He. }
  intros g x Hg Hx. destruct (decide (Exists (inside g) (mapping v'))) as [Hin|Hout].
  - left. split; [done|]. apply Exists_exists in Hin as (s & Hs' & Hin).
    unfold mapGatedToOriginalSamples. rewrite (proj2 (Z.ltb_ge _ _)) by done.
    rewrite bool_decide_eq_false_2 by (intros Hnil; rewrite Hnil in Hs'; by apply not_elem_of_nil in Hs').
    cbn [orb]. rewrite (map_loop_inside _ _ s); try done; [|apply (mapping_shape E)].
    rewrite Forall_forall in Ho. destruct (Ho _ Hs') as [? ? ? ? Hcopy]. unfold inside in Hin.
    rewrite <- (Hcopy (g - gated_start s)) by lia. rewrite <- Hx. f_equal. lia.
  - right. split; [done|]. by destruct (Hv _ _ Hg Hx).
Qed.

(** C24: Timestamps never run backwards or out of the buffer.  After a
    successful [gate], [toOriginalSamples] maps later gated timestamps to later
    or equal original positions, within [0, original.size()]. *)
Theorem toOriginalSamples_monotone un loads detect original v r v' cs1 cs2 :
  gate un loads detect original v = (Ok r, v') -> cs1 <= cs2 ->
  0 <= toOriginalSamples v' cs1 <= toOriginalSamples v' cs2 /\
  toOriginalSamples v' cs2 <= zlen original.
Proof.
  intros E Hcs. pose proof (toOriginalSamples_range _ _ _ _ _ _ _ cs1 E).
  pose proof (toOriginalSamples_range _ _ _ _ _ _ _ cs2 E).
  destruct (mapping_shape E) as (H1 & H2 & _). destruct (mapping_ok E) as [_ H3].
  split; [|lia]. split; [lia|].
  unfold toOriginalSamples, mapGatedToOriginalSamples in *.
  destruct (gate_inv _ _ _ _ _ _ _ E) as (Ht & _). rewrite Ht in *.
  assert (cs1 * 160 <= cs2 * 160) as Hg by lia.
  pose proof (zlen_nonneg original) as Hn.
  pose proof (map_loop_mono _ _ (zlen original) (mapping v') 0 Hg Hn H1 H2 H3).
  destruct (bool_decide (mapping v' = [])); [by rewrite !orb_true_r|].
  rewrite !orb_false_r in *. zcase; zcase_in H0; lia.
Qed.

(** The boundaries given in centiseconds. *)
Definition cs (n : Z) : float32 := F32.of_Z n.

Definition sample_vad : t :=
  create (lit "vad.bin") (F32.lit 1 2) 250 100 (F32.of_Z 30) 0 (F32.lit 1 10) 4.

Definition noise (n : nat) : list float32 := replicate n (F32.lit 1 4).

Definition never (_ : float64) : Z := 0.

Lemma gated_samples_origin_witness :
  exists r v', gate never true (λ _ _, Some [(cs 1, cs 2); (cs 3, cs 4)]) (noise 800) sample_vad
                 = (Ok r, v') /\ had_speech r = true.
Proof.
  destruct (gate never true (λ _ _, Some [(cs 1, cs 2); (cs 3, cs 4)]) (noise 800) sample_vad)
    as [[r|] v'] eqn:E; [|by vm_compute in E].
  exists r, v'. split; [done|]. apply (proj1 (gated_samples_origin _ _ _ _ _ _ _ E)).
  vm_compute in E. by injection E as _ <-.
Defined.

Lemma toOriginalSamples_monotone_witness :
  exists r v', gate never true (λ _ _, Some [(cs 1, cs 2); (cs 3, cs 4)]) (noise 800) sample_vad
                 = (Ok r, v') /\
    0 <= toOriginalSamples v' 1 <= toOriginalSamples v' 12 /\ toOriginalSamples v' 12 <= 800.
Proof.
  destruct (gate never true (λ _ _, Some [(cs 1, cs 2); (cs 3, cs 4)]) (noise 800) sample_vad)
    as [[r|] v'] eqn:E; [|by vm_compute in E].
  exists r, v'. split; [done|]. by apply (toOriginalSamples_monotone _ _ _ _ _ _ _ 1 12 E).
Defined.

(** A gap can trail.  When the last reported segment is dropped because the
    padding of the one before already covers it, the synthetic silence meant to
    separate segments is left after the last speech sample. *)
Theorem trailing_gap :
  exists v', gate never true (λ _ _, Some [(cs 0, cs 4); (cs 2, cs 4)]) (noise 640) sample_vad
    = (Ok (Gated (noise 640 ++ replicate 1600 F32.zero) true), v') /\
    mapping v' = [Seg 0 640 0 640].
Proof. eexists. vm_compute. by split. Qed.

End VadGate.
