(* ===== verification/AudioPreprocessor.v ===== *)
(** The high-pass filter and the peak normalisation of
    [src/utils/AudioPreprocessor.h], in binary32 arithmetic with one rounding
    per operation (no contraction into fused operations). *)

From stdpp Require Import prelude list.
From Stdlib Require Import ZArith Lia.
From S2P Require Import Prelude Floats.

Module AudioPreprocessor.

(** The state a session carries from one chunk to the next. *)
Record filter_state := State { prev_raw : float32; prev_filtered : float32 }.

Definition alpha : float32 := F32.lit 969 1000.

(** One iteration of the filter loop: the new state; its [prev_filtered] is the
    sample written back. *)
Definition filter_step (s : filter_state) (raw : float32) : filter_state :=
  State raw (F32.mul alpha (F32.sub (F32.add (prev_filtered s) raw) (prev_raw s))).

Fixpoint filter_loop (pcm : list float32) (s : filter_state) (peak : float32)
    : list float32 * filter_state * float32 :=
  match pcm with
  | [] => ([], s, peak)
  | raw :: pcm =>
      let s' := filter_step s raw in
      let '(out, s'', peak') := filter_loop pcm s' (F32.max peak (F32.abs (prev_filtered s'))) in
      (prev_filtered s' :: out, s'', peak')
  end.

Definition normalize (peak : float32) (pcm : list float32) : list float32 :=
  if F32.gtb peak (F32.lit 2 100) && F32.ltb peak (F32.lit 9 10)
  then let gain := F32.min (F32.div (F32.lit 9 10) peak) (F32.of_Z 4) in
       (λ s, F32.mul s gain) <$> pcm
  else pcm.

Definition process (pcm : list float32) (s : filter_state) : list float32 * filter_state :=
  let '(out, s', peak) := filter_loop pcm s F32.zero in
  (normalize peak out, s').

(** ** Proofs *)

(** The reference: the state after a prefix, and the filtered signal. *)
Definition state_after (pcm : list float32) (s : filter_state) : filter_state :=
  foldl filter_step s pcm.

Fixpoint filtered (pcm : list float32) (s : filter_state) : list float32 :=
  match pcm with
  | [] => []
  | raw :: pcm => prev_filtered (filter_step s raw) :: filtered pcm (filter_step s raw)
  end.

Definition peak_of (pcm : list float32) : float32 :=
  foldl (λ p x, F32.max p (F32.abs x)) F32.zero pcm.

Lemma filter_loop_spec pcm : forall s peak,
  filter_loop pcm s peak =
    (filtered pcm s, state_after pcm s,
     foldl (λ p x, F32.max p (F32.abs x)) peak (filtered pcm s)).
Proof.
  induction pcm as [|raw pcm IH]; intros s peak; [done|].
  cbn [filter_loop filtered foldl]. by rewrite IH.
Qed.

Lemma process_spec pcm s :
  process pcm s = (normalize (peak_of (filtered pcm s)) (filtered pcm s), state_after pcm s).
Proof. unfold process. by rewrite filter_loop_spec. Qed.

Lemma filtered_app a b s : filtered (a ++ b) s = filtered a s ++ filtered b (state_after a s).
Proof.
  revert s. induction a as [|raw a IH]; intros s; [done|]. cbn [app filtered]. by rewrite IH.
Qed.

Lemma filtered_length pcm s : length (filtered pcm s) = length pcm.
Proof. revert s. induction pcm as [|raw pcm IH]; intros s; [done|]. cbn. by rewrite IH. Qed.

Lemma normalize_length peak pcm : length (normalize peak pcm) = length pcm.
Proof. unfold normalize. case_match; [|done]. by rewrite length_fmap. Qed.

Lemma process_length pcm s : length (process pcm s).1 = length pcm.
Proof. rewrite process_spec. cbn [fst]. by rewrite normalize_length, filtered_length. Qed.

Lemma zlen_process pcm s : zlen (process pcm s).1 = zlen pcm.
Proof. unfold zlen. by rewrite process_length. Qed.

(** A chunk whose peak asks for no gain is passed on as filtered. *)
Lemma process_quiet pcm s :
  F32.gtb (peak_of (filtered pcm s)) (F32.lit 2 100) = false ->
  (process pcm s).1 = filtered pcm s.
Proof. intros H. rewrite process_spec. unfold normalize. by rewrite H. Qed.

(** ** Properties *)

(** C30: The filter does not see chunk boundaries.  However a signal is cut into
    chunks, the filter state after the last one is that of the whole signal,
    and each chunk delivers the corresponding stretch of the whole filtered
    signal, scaled by one gain of its own that is read off its peak; no sample
    is added or lost. *)
Theorem process_chunks a b s :
  let '(out_a, s_a) := process a s in
  let '(out_b, s_b) := process b s_a in
  let whole := filtered (a ++ b) s in
  s_b = (process (a ++ b) s).2 /\
  out_a = normalize (peak_of (take (length a) whole)) (take (length a) whole) /\
  out_b = normalize (peak_of (drop (length a) whole)) (drop (length a) whole) /\
  length out_a = length a /\ length out_b = length b.
Proof.
  rewrite !process_spec. cbn [snd]. rewrite filtered_app.
  rewrite take_app_length' by (by rewrite filtered_length).
  rewrite drop_app_length' by (by rewrite filtered_length).
  rewrite !normalize_length, !filtered_length. unfold state_after. by rewrite foldl_app.
Qed.

End AudioPreprocessor.
