(* ===== verification/Engine.v ===== *)
(** The streaming engine, [src/whisper/StreamingWhisperEngine.cpp].

    whisper.cpp is the environment: an [env] holds its answers during one call,
    quantified over in every theorem.  [transcribeSlidingWindow] releases
    [buffer_mutex_] while it infers, so that it takes as an argument the chunks
    other threads hand to [processAudioChunk] between its snapshot and its
    commit. *)

From stdpp Require Import prelude strings list.
From Stdlib Require Import ZArith Lia.
From S2P Require Import Prelude SlotPool Floats AudioPreprocessor VadGate.

Module Engine.

(** The members set by the configuration calls. *)
Record config := Config {
  language : str;
  initial_prompt : str;
  n_threads : Z;
  beam_size : Z;
  vad_thold : float32;
  temperature : float32;
  temperature_inc : float32;
  no_speech_thold : float32;
  logprob_thold : float32
}.

Record t := mk {
  cfg : config;
  vad_gate : option VadGate.t;
  audio_buffer : list float32;
  hp : AudioPreprocessor.filter_state
}.

(** [max_buffer_samples_] and [HIGH_WATER_MARK]. *)
Definition max_buffer_samples : Z := 16000 * 30.
Definition HIGH_WATER_MARK : Z := 16000 * 20.

(** The constructor; [state_ok] tells whether [whisper_init_state] succeeded. *)
Definition make (ctx_null state_ok : bool) : result t :=
  if ctx_null then Throw (lit "[StreamingWhisperEngine] Null whisper context")
  else if state_ok then
    Ok (mk (Config (lit "es") [] 4 5 F32.zero (F32.lit 2 10) (F32.lit 2 10) (F32.lit 3 10)
              (F32.of_Z (-1)))
           None [] (AudioPreprocessor.State F32.zero F32.zero))
  else Throw (lit "[StreamingWhisperEngine] Failed to create whisper state").

(** ** The audio buffer *)

Definition processAudioChunk (pcm_data : list float32) (e : t) : bool * t :=
  if HIGH_WATER_MARK <=? zlen (audio_buffer e) then (true, e)
  else
    let '(prepped, hp') := AudioPreprocessor.process pcm_data (hp e) in
    let new_total_size := zlen (audio_buffer e) + zlen prepped in
    let buffer :=
      if max_buffer_samples <? new_total_size then
        if max_buffer_samples <=? zlen prepped
        then drop (Z.to_nat (zlen prepped - max_buffer_samples)) prepped
        else drop (Z.to_nat (new_total_size - max_buffer_samples)) (audio_buffer e) ++ prepped
      else audio_buffer e ++ prepped in
    (false, mk (cfg e) (vad_gate e) buffer hp').

Definition set_buffer (b : list float32) (e : t) : t := mk (cfg e) (vad_gate e) b (hp e).

Definition reset (keep_samples : Z) (e : t) : t :=
  if (keep_samples =? 0) || (zlen (audio_buffer e) <=? keep_samples)
  then set_buffer [] e
  else set_buffer (last_n keep_samples (audio_buffer e)) e.

Definition getBufferSize (e : t) : Z := zlen (audio_buffer e).

(** ** Configuration *)

Definition with_cfg (f : config -> config) (e : t) : t :=
  mk (f (cfg e)) (vad_gate e) (audio_buffer e) (hp e).

Definition setLanguage (lang : str) : t -> t := with_cfg (λ c,
  Config lang (initial_prompt c) (n_threads c) (beam_size c) (vad_thold c) (temperature c)
    (temperature_inc c) (no_speech_thold c) (logprob_thold c)).

Definition setThreads (n : Z) (e : t) : t :=
  if n >? 0 then with_cfg (λ c,
    Config (language c) (initial_prompt c) n (beam_size c) (vad_thold c) (temperature c)
      (temperature_inc c) (no_speech_thold c) (logprob_thold c)) e
  else e.

Definition setBeamSize (n : Z) (e : t) : t :=
  if n >? 0 then with_cfg (λ c,
    Config (language c) (initial_prompt c) (n_threads c) n (vad_thold c) (temperature c)
      (temperature_inc c) (no_speech_thold c) (logprob_thold c)) e
  else e.

Definition setInitialPrompt (p : str) : t -> t := with_cfg (λ c,
  Config (language c) p (n_threads c) (beam_size c) (vad_thold c) (temperature c)
    (temperature_inc c) (no_speech_thold c) (logprob_thold c)).

Definition setVadThreshold (x : float32) : t -> t := with_cfg (λ c,
  Config (language c) (initial_prompt c) (n_threads c) (beam_size c) x (temperature c)
    (temperature_inc c) (no_speech_thold c) (logprob_thold c)).

Definition setTemperature (x : float32) : t -> t := with_cfg (λ c,
  Config (language c) (initial_prompt c) (n_threads c) (beam_size c) (vad_thold c) x
    (temperature_inc c) (no_speech_thold c) (logprob_thold c)).

Definition setTemperatureInc (x : float32) : t -> t := with_cfg (λ c,
  Config (language c) (initial_prompt c) (n_threads c) (beam_size c) (vad_thold c)
    (temperature c) x (no_speech_thold c) (logprob_thold c)).

Definition setNoSpeechThreshold (x : float32) : t -> t := with_cfg (λ c,
  Config (language c) (initial_prompt c) (n_threads c) (beam_size c) (vad_thold c)
    (temperature c) (temperature_inc c) x (logprob_thold c)).

Definition setLogprobThreshold (x : float32) : t -> t := with_cfg (λ c,
  Config (language c) (initial_prompt c) (n_threads c) (beam_size c) (vad_thold c)
    (temperature c) (temperature_inc c) (no_speech_thold c) x).

Definition setVadConfig (path : str) (thold : float32) (min_speech_ms min_silence_ms : Z)
    (max_speech_s : float32) (pad_ms : Z) (overlap : float32) (e : t) : t :=
  mk (cfg e)
     (Some (VadGate.create path thold min_speech_ms min_silence_ms max_speech_s pad_ms overlap
              (n_threads (cfg e))))
     (audio_buffer e) (hp e).

(** ** Inference *)

(** [whisper_full_params], the fields the source sets. *)
Record full_params := FullParams {
  beam_search : option Z;  (** the beam size, or greedy sampling *)
  p_language : str;
  p_n_threads : Z;
  translate : bool;
  single_segment : bool;
  no_context : bool;
  suppress_blank : bool;
  suppress_nst : bool;
  p_temperature : float32;
  p_temperature_inc : float32;
  p_no_speech_thold : float32;
  p_logprob_thold : float32;
  audio_ctx : Z;
  p_initial_prompt : option str
}.

(** What one [whisper_full_with_state] call produces: the return code, the
    detected language and the segments' text (possibly null) and end time. *)
Record inference := Inference {
  code : Z;
  detected : option str;
  segments : list (option str * Z)
}.

(** The answers of whisper.cpp during one call. *)
Record env := Env {
  vad_loads : bool;
  vad_detect : VadGate.vad_params -> list float32 -> option (list (float32 * float32));
  whisper_full : full_params -> list float32 -> inference;
  lround_unspecified : float64 -> Z
}.

Record TranscribeResult := Result { partial_text : str; committed_text : str }.

(** [static_cast<int>(std::ceil(size / 16000.0f * 50.0f))], at least 64. *)
Definition audio_ctx_of (size : Z) : Z :=
  Z.max (default 0 (ceil_Z (F32.mul (F32.div (F32.of_Z size) (F32.of_Z 16000)) (F32.of_Z 50)))) 64.

Definition params_of (c : config) (size : Z) : full_params := {|
  beam_search := if beam_size c >? 1 then Some (beam_size c) else None;
  p_language := language c;
  p_n_threads := n_threads c;
  translate := false;
  single_segment := false;
  no_context := true;
  suppress_blank := true;
  suppress_nst := true;
  p_temperature := temperature c;
  p_temperature_inc := temperature_inc c;
  p_no_speech_thold := if F32.gtb (vad_thold c) F32.zero then vad_thold c else no_speech_thold c;
  p_logprob_thold := logprob_thold c;
  audio_ctx := audio_ctx_of size;
  p_initial_prompt := if bool_decide (initial_prompt c = []) then None else Some (initial_prompt c)
|}.

(** The language is locked to the first detected one. *)
Definition lock_language (lang : option str) (e : t) : t :=
  if decide (language (cfg e) = lit "auto") then
    match lang with
    | Some l => if decide (l = lit "auto") then e else setLanguage l e
    | None => e
    end
  else e.

(** [text += segment text] over a range of segments. *)
Definition texts (segs : list (option str * Z)) : str :=
  concat ((λ s, default [] s.1) <$> segs).

(** The loop that looks, from segment [i - 1] down, for one that ends before
    [bound]. *)
Fixpoint scan_back (segs : list (option str * Z)) (bound : Z) (i : nat) : option (nat * Z) :=
  match i with
  | O => None
  | S j =>
      match segs !! j with
      | Some (_, t1) => if t1 <? bound then Some (j, t1) else scan_back segs bound j
      | None => None
      end
  end.

(** [commit_up_to_segment] and [commit_t1]; [None] is [-1]. *)
Definition commit_point (force : bool) (decode_size : Z) (segs : list (option str * Z))
    : option (nat * Z) :=
  let n := length segs in
  if force then match n with O => None | S k => Some (k, 0) end
  else
    match scan_back segs (Z.quot (decode_size - 32000) 160) n with
    | Some p => Some p
    | None =>
        match n with
        | S (S k) => Some (k, default 0 (snd <$> segs !! k))
        | _ => None
        end
    end.

(** Step 4: the erasure from the front of the buffer. *)
Definition commit_buffer (force : bool) (t1 : Z) (e : t) : t :=
  if t1 >? 0 then
    let samples_to_erase :=
      match vad_gate e with Some v => VadGate.toOriginalSamples v t1 | None => t1 * 160 end in
    if samples_to_erase <? zlen (audio_buffer e)
    then set_buffer (drop (Z.to_nat samples_to_erase) (audio_buffer e)) e
    else set_buffer [] e
  else if force then set_buffer [] e
  else e.

(** Step 1.5: the samples to decode, [None] when there is only silence. *)
Definition gate_snapshot (w : env) (snapshot : list float32) (e : t)
    : result (option (list float32)) * t :=
  match vad_gate e with
  | None => (Ok (Some snapshot), e)
  | Some v =>
      let '(r, v') := VadGate.gate (lround_unspecified w) (vad_loads w) (vad_detect w) snapshot v in
      (match r with
       | Throw what => Throw what
       | Ok g => Ok (if VadGate.had_speech g then Some (VadGate.samples g) else None)
       end, mk (cfg e) (Some v') (audio_buffer e) (hp e))
  end.

(** Steps 2 to 4 on the samples to decode. *)
Definition decode_and_commit (w : env) (force : bool) (snapshot_size : Z)
    (decode_buf : list float32) (e : t) : result TranscribeResult * t :=
  let inf := whisper_full w (params_of (cfg e) (zlen decode_buf)) decode_buf in
  if negb (code inf =? 0)
  then (Throw (lit "Whisper transcription failed with code: " ++ to_string (code inf)), e)
  else
    let e := lock_language (detected inf) e in
    let segs := segments inf in
    match (if force || (16000 * 10 <=? snapshot_size)
           then commit_point force (zlen decode_buf) segs else None) with
    | Some (k, t1) =>
        (Ok (Result (texts (drop (S k) segs)) (texts (take (S k) segs))), commit_buffer force t1 e)
    | None => (Ok (Result (texts segs) []), e)
    end.

(** The chunks other threads append during the call. *)
Definition absorb (chunks : list (list float32)) (e : t) : t :=
  foldl (λ e c, (processAudioChunk c e).2) e chunks.

Definition transcribeSlidingWindow (w : env) (concurrent : list (list float32)) (force : bool)
    (e : t) : result TranscribeResult * t :=
  let snapshot := audio_buffer e in
  let e := absorb concurrent e in
  match snapshot with
  | [] => (Ok (Result [] []), e)
  | _ :: _ =>
      let '(r, e) := gate_snapshot w snapshot e in
      match r with
      | Throw what => (Throw what, e)
      | Ok None => (Ok (Result [] []), e)
      | Ok (Some decode_buf) => decode_and_commit w force (zlen snapshot) decode_buf e
      end
  end.

(** [transcribe], which waits for a slot; [None]: no slot is free yet.  Its argument
    is not used. *)
Definition transcribe {P} `{SlotPool P} (w : env) (concurrent : list (list float32)) (start_offset : Z)
    (e : t) (p : P) : option (result str * t * P) :=
  match try_take p with
  | (false, _) => None
  | (true, p') =>
      let '(r, e') := transcribeSlidingWindow w concurrent true e in
      Some (match r with Ok res => Ok (committed_text res) | Throw what => Throw what end, e', give_back p')
  end.

(** ** Sample conversion *)

Definition convertInt16ToFloat32 (pcm16 : list Z) : list float32 :=
  (λ z, F32.div (F32.of_Z z) (F32.of_Z 32768)) <$> pcm16.

(** The [int16_t] of two bytes in memory, little-endian. *)
Definition int16_of_bytes (lo hi : Z) : Z :=
  let u := lo + 256 * hi in if u <? 2 ^ 15 then u else u - 2 ^ 16.

Fixpoint int16s (bytes : list Z) : list Z :=
  match bytes with
  | lo :: hi :: bytes => int16_of_bytes lo hi :: int16s bytes
  | _ => []
  end.

(** [None]: the [memcpy] of [bytes.size()] bytes runs past the end of the
    vector of [bytes.size() / 2] samples. *)
Definition convertBytesToFloat32 (bytes : list Z) : option (list float32) :=
  if zlen bytes <=? 2 * (zlen bytes / 2) then Some (convertInt16ToFloat32 (int16s bytes)) else None.

(** ** Proofs *)

Definition bounded (e : t) : Prop := zlen (audio_buffer e) <= max_buffer_samples.

(** The buffer after an accepted chunk is the end of what it would be without
    a cap. *)
Lemma processAudioChunk_accept c e :
  zlen (audio_buffer e) < HIGH_WATER_MARK ->
  let '(out, hp') := AudioPreprocessor.process c (hp e) in
  processAudioChunk c e =
    (false, mk (cfg e) (vad_gate e) (last_n max_buffer_samples (audio_buffer e ++ out)) hp').
Proof.
  intros H. destruct (AudioPreprocessor.process c (hp e)) as [out hp'] eqn:E.
  unfold processAudioChunk. rewrite (proj2 (Z.leb_gt _ _)) by done. rewrite E.
  do 2 f_equal. pose proof (zlen_nonneg (audio_buffer e)). pose proof (zlen_nonneg out).
  unfold last_n. rewrite drop_app, zlen_app. zcase.
  - rewrite (drop_ge (audio_buffer e)) by (unfold zlen in *; lia). cbn. f_equal.
    unfold zlen in *. lia.
  - f_equal. rewrite <- (drop_0 out) at 1. f_equal. unfold zlen in *. lia.
  - replace (Z.to_nat _) with 0%nat by lia. by rewrite drop_0.
Qed.

Lemma processAudioChunk_full c e :
  HIGH_WATER_MARK <= zlen (audio_buffer e) -> processAudioChunk c e = (true, e).
Proof. intros. unfold processAudioChunk. by rewrite (proj2 (Z.leb_le _ _)). Qed.

Lemma processAudioChunk_bounded c e : bounded e -> bounded (processAudioChunk c e).2.
Proof.
  intros H. destruct (decide (HIGH_WATER_MARK <= zlen (audio_buffer e))) as [Hf|Hf].
  - by rewrite processAudioChunk_full.
  - pose proof (processAudioChunk_accept c e) as E.
    destruct (AudioPreprocessor.process c (hp e)). rewrite E by lia.
    unfold bounded. cbn [snd audio_buffer]. rewrite zlen_last_n by done. lia.
Qed.

(** A chunk touches the buffer and the filter state only. *)
Lemma processAudioChunk_frame c e :
  cfg (processAudioChunk c e).2 = cfg e /\ vad_gate (processAudioChunk c e).2 = vad_gate e.
Proof.
  unfold processAudioChunk. destruct (AudioPreprocessor.process _ _). by destruct (_ <=? _).
Qed.

(** What concurrent chunks append, as long as they all fit. *)
Lemma absorb_appends cs : forall e,
  zlen (audio_buffer e) + zlen (concat cs) <= max_buffer_samples ->
  exists appended, audio_buffer (absorb cs e) = audio_buffer e ++ appended /\
    zlen appended <= zlen (concat cs) /\
    cfg (absorb cs e) = cfg e /\ vad_gate (absorb cs e) = vad_gate e.
Proof.
  induction cs as [|c cs IH]; intros e H.
  { exists []. by rewrite app_nil_r. }
  cbn [concat] in H. rewrite zlen_app in H.
  pose proof (zlen_nonneg c). pose proof (zlen_nonneg (concat cs)).
  change (absorb (c :: cs) e) with (absorb cs (processAudioChunk c e).2).
  destruct (processAudioChunk_frame c e) as [Fc Fv].
  cbn [concat]. rewrite zlen_app. rewrite <- Fc, <- Fv.
  destruct (decide (HIGH_WATER_MARK <= zlen (audio_buffer e))) as [Hf|Hf].
  - rewrite processAudioChunk_full by done. cbn [snd].
    destruct (IH e) as (a & Ha & Hl & ? & ?); [lia|]. exists a.
    split; [done|]. split; [lia|done].
  - pose proof (processAudioChunk_accept c e) as E.
    pose proof (AudioPreprocessor.zlen_process c (hp e)) as Hlen.
    destruct (AudioPreprocessor.process c (hp e)) as [out hp']. cbn [fst] in Hlen.
    rewrite E by lia. clear E Fc Fv. cbn [snd cfg vad_gate].
    rewrite last_n_all by (rewrite zlen_app; lia).
    destruct (IH (mk (cfg e) (vad_gate e) (audio_buffer e ++ out) hp')) as (a & Ha & Hl & Hc & Hv).
    { cbn [audio_buffer]. rewrite zlen_app. lia. }
    exists (out ++ a). cbn [audio_buffer cfg vad_gate] in *.
    split; [by rewrite Ha, <- (assoc_L (++))|]. split; [rewrite zlen_app; lia|done].
Qed.

Lemma absorb_bounded cs : forall e, bounded e -> bounded (absorb cs e).
Proof.
  induction cs as [|c cs IH]; intros e H; [done|].
  by apply (IH (processAudioChunk c e).2), processAudioChunk_bounded.
Qed.

Lemma lock_language_frame l e :
  audio_buffer (lock_language l e) = audio_buffer e /\ vad_gate (lock_language l e) = vad_gate e.
Proof. unfold lock_language. repeat case_match; done. Qed.

Lemma gate_snapshot_frame w sn e r e' :
  gate_snapshot w sn e = (r, e') -> audio_buffer e' = audio_buffer e /\ cfg e' = cfg e /\ hp e' = hp e.
Proof.
  unfold gate_snapshot. destruct (vad_gate e); [|by intros [= _ <-]].
  destruct (VadGate.gate _ _ _ _ _) as [r0 v']. by intros [= _ <-].
Qed.

Lemma commit_buffer_shrinks force t1 e :
  zlen (audio_buffer (commit_buffer force t1 e)) <= zlen (audio_buffer e).
Proof.
  pose proof (zlen_nonneg (audio_buffer e)). unfold commit_buffer, set_buffer.
  repeat case_match; cbn [audio_buffer]; rewrite ?zlen_nil; try lia;
    unfold zlen in *; rewrite length_drop; lia.
Qed.

Lemma decode_bounded w force n d e : bounded e -> bounded (decode_and_commit w force n d e).2.
Proof.
  intros H. unfold decode_and_commit. destruct (negb _); [done|].
  set (i := whisper_full w _ d). unfold bounded.
  destruct (lock_language_frame (detected i) e) as [Hb _].
  destruct (if force || _ then _ else _) as [[k t1]|]; cbn [snd]; [|by rewrite Hb].
  pose proof (commit_buffer_shrinks force t1 (lock_language (detected i) e)) as Hs.
  rewrite Hb in Hs. unfold bounded in H. lia.
Qed.

Lemma scan_back_Some segs bound i k t1 :
  scan_back segs bound i = Some (k, t1) -> (k < length segs)%nat /\ t1 < bound.
Proof.
  induction i as [|i IH]; cbn; [done|].
  destruct (segs !! i) as [[tx t]|] eqn:E; [|done].
  destruct (Z.ltb_spec t bound); [|done]. intros [= <- <-].
  split; [by eapply lookup_lt_Some|done].
Qed.

(** [scan_back] finds the last of the segments that end early enough. *)
Lemma scan_back_None segs bound i :
  (i <= length segs)%nat -> scan_back segs bound i = None ->
  forall j s, (j < i)%nat -> segs !! j = Some s -> bound <= s.2.
Proof.
  induction i as [|i IH]; cbn; intros Hi H j s Hj Hs; [lia|].
  destruct (segs !! i) as [[tx t]|] eqn:E.
  - destruct (Z.ltb_spec t bound); [done|].
    destruct (decide (j = i)) as [->|]; [by simplify_eq|]. apply (IH ltac:(lia) H j); lia || done.
  - apply lookup_ge_None in E. lia.
Qed.

Lemma texts_split k segs : texts (take k segs) ++ texts (drop k segs) = texts segs.
Proof. unfold texts. rewrite <- concat_app, <- fmap_app. by rewrite take_drop. Qed.

(** What the silence gate of [e], if it has one, makes of the samples [sn]:
    [None] when it hears no speech in them. *)
Definition gated (w : env) (e : t) (sn : list float32) (d : option (list float32)) : Prop :=
  match vad_gate e with
  | None => d = Some sn
  | Some v => exists g v',
      VadGate.gate (lround_unspecified w) (vad_loads w) (vad_detect w) sn v = (Ok g, v') /\
      d = if VadGate.had_speech g then Some (VadGate.samples g) else None
  end.

Lemma gate_snapshot_gated w sn e d e1 : gate_snapshot w sn e = (Ok d, e1) -> gated w e sn d.
Proof.
  unfold gate_snapshot, gated. destruct (vad_gate e) as [v|]; [|by intros [= <- _]].
  destruct (VadGate.gate _ _ _ _ _) as [[g|] v']; [|done]. intros [= <- _]. by exists g, v'.
Qed.

(** The inference the call performed, or why there was none. *)
Lemma transcribe_ok w cs force e res e' :
  transcribeSlidingWindow w cs force e = (Ok res, e') ->
  (res = Result [] [] /\ audio_buffer e' = audio_buffer (absorb cs e) /\
   (audio_buffer e = [] \/ gated w (absorb cs e) (audio_buffer e) None)) \/
  exists d e1, gate_snapshot w (audio_buffer e) (absorb cs e) = (Ok (Some d), e1) /\
    decode_and_commit w force (zlen (audio_buffer e)) d e1 = (Ok res, e').
Proof.
  unfold transcribeSlidingWindow. destruct (audio_buffer e) as [|x buf].
  { intros [= <- <-]. left. split; [done|]. split; [done|by left]. }
  destruct (gate_snapshot w (x :: buf) (absorb cs e)) as [[[d|]|] e1] eqn:E; [| |done].
  - intros. right. eauto.
  - intros [= <- <-]. left. pose proof (gate_snapshot_gated _ _ _ _ _ E).
    apply gate_snapshot_frame in E as [E _]. split; [done|]. split; [done|by right].
Qed.

Lemma transcribe_bounded w cs force e :
  bounded e -> bounded (transcribeSlidingWindow w cs force e).2.
Proof.
  intros H. apply (absorb_bounded cs) in H. unfold transcribeSlidingWindow.
  destruct (audio_buffer e) as [|x buf]; [done|].
  destruct (gate_snapshot w (x :: buf) (absorb cs e)) as [r e1] eqn:E.
  apply gate_snapshot_frame in E as [E _].
  assert (bounded e1) as H1 by (unfold bounded; by rewrite E).
  destruct r as [[d|]|]; [by apply decode_bounded|done..].
Qed.

Lemma absorb_frame cs : forall e,
  cfg (absorb cs e) = cfg e /\ vad_gate (absorb cs e) = vad_gate e.
Proof.
  induction cs as [|c cs IH]; intros e; [done|].
  destruct (IH (processAudioChunk c e).2) as [H1 H2].
  destruct (processAudioChunk_frame c e) as [F1 F2].
  change (absorb (c :: cs) e) with (absorb cs (processAudioChunk c e).2). by rewrite H1, H2.
Qed.

Lemma scan_back_bound segs bound i s :
  (i <= length segs)%nat -> s ∈ take i segs -> s.2 < bound ->
  exists k t1, scan_back segs bound i = Some (k, t1).
Proof.
  intros Hi Hs Hb. destruct (scan_back segs bound i) as [[k t1]|] eqn:E; [eauto|].
  apply list_elem_of_lookup in Hs as [j Hj]. apply lookup_take_Some in Hj as [Hj Hlt].
  pose proof (scan_back_None _ _ _ Hi E j s Hlt Hj). lia.
Qed.

(** The time a commit point carries is that of one of the segments. *)
Lemma commit_point_time n segs k t1 :
  commit_point false n segs = Some (k, t1) -> exists tx, (tx, t1) ∈ segs.
Proof.
  unfold commit_point.
  destruct (scan_back segs (Z.quot (n - 32000) 160) (length segs)) as [[k' t']|] eqn:E.
  - intros [= -> ->]. revert E. generalize (length segs) as i.
    induction i as [|i IH]; cbn; [done|]. destruct (segs !! i) as [[tx t]|] eqn:Ei; [|done].
    destruct (t <? _); [|done]. intros [= -> ->]. exists tx. by eapply list_elem_of_lookup_2.
  - destruct segs as [|s0 [|s1 segs]]; cbn [length]; [done|done|]. intros [= <- <-].
    destruct ((s0 :: s1 :: segs) !! length segs) as [[tx t]|] eqn:El.
    + exists tx. cbn. by eapply list_elem_of_lookup_2.
    + apply lookup_ge_None in El. cbn in El. lia.
Qed.

(** How much of the buffer a commit without [force] erases. *)
Definition erased (v : option VadGate.t) (t1 : Z) : Z :=
  if t1 >? 0 then match v with Some v => VadGate.toOriginalSamples v t1 | None => t1 * 160 end
  else 0.

Lemma commit_buffer_drop t1 e :
  0 <= erased (vad_gate e) t1 ->
  audio_buffer (commit_buffer false t1 e) =
    drop (Z.to_nat (erased (vad_gate e) t1)) (audio_buffer e).
Proof.
  unfold commit_buffer, erased. destruct (t1 >? 0); [|done].
  set (n := match vad_gate e with Some v => _ | None => _ end). intros H.
  destruct (Z.ltb_spec n (zlen (audio_buffer e))); [done|].
  symmetry. apply drop_ge. unfold zlen in *. lia.
Qed.

(** The silence gate within a call: without it the snapshot is decoded as it
    is; with it the mapping of this very snapshot is in place afterwards. *)
Lemma gate_snapshot_vad w sn e d e1 :
  gate_snapshot w sn e = (Ok (Some d), e1) ->
  (vad_gate e = None /\ vad_gate e1 = None /\ d = sn) \/
  exists v r v', vad_gate e = Some v /\ vad_gate e1 = Some v' /\ d = VadGate.samples r /\
    VadGate.gate (lround_unspecified w) (vad_loads w) (vad_detect w) sn v = (Ok r, v').
Proof.
  unfold gate_snapshot. destruct (vad_gate e) as [v|] eqn:Ev.
  - destruct (VadGate.gate _ _ _ _ _) as [[g|] v'] eqn:E; [|done].
    destruct (VadGate.had_speech g); intros [= <- <-]. right. by exists v, g, v'.
  - intros [= <- <-]. by left.
Qed.

(** With the silence gate no commit reaches past the snapshot. *)
Lemma erased_range w sn e d e1 t1 :
  gate_snapshot w sn e = (Ok (Some d), e1) ->
  0 <= erased (vad_gate e1) t1 /\ (vad_gate e <> None -> erased (vad_gate e1) t1 <= zlen sn).
Proof.
  intros H. pose proof (zlen_nonneg sn). unfold erased. rewrite Z.gtb_ltb.
  destruct (Z.ltb_spec 0 t1); [|lia].
  apply gate_snapshot_vad in H as [(Hn & -> & _)|(v & r & v' & _ & -> & _ & E)]; [split; [lia|done]|].
  pose proof (VadGate.toOriginalSamples_range _ _ _ _ _ _ _ t1 E). lia.
Qed.

(** A segment that ends early enough is committed at a time before the bound. *)
Lemma commit_point_early n segs k t1 :
  commit_point false n segs = Some (k, t1) ->
  Exists (λ s, s.2 < Z.quot (n - 32000) 160) segs -> t1 < Z.quot (n - 32000) 160.
Proof.
  intros H (s & Hs & Hb)%Exists_exists. unfold commit_point in H.
  destruct (scan_back_bound segs (Z.quot (n - 32000) 160) (length segs) s) as (k' & t' & E);
    [done|by rewrite firstn_all|done|].
  rewrite E in H. injection H as -> ->. by apply scan_back_Some in E as [_ ?].
Qed.

(** The erasure of [k] samples by an unforced call on the snapshot [sn]. *)
Definition erasure (w : env) (c : config) (gate : bool) (sn : list float32) (k : Z) : Prop :=
  0 <= k /\ (0 < k -> 16000 * 10 <= zlen sn) /\ (gate = true -> k <= zlen sn) /\
  (gate = false -> 0 < k ->
   let segs := segments (whisper_full w (params_of c (zlen sn)) sn) in
   (exists s, s ∈ segs /\ k = s.2 * 160) /\
   (Exists (λ s, s.2 < Z.quot (zlen sn - 32000) 160) segs -> k + 32000 < zlen sn)).

Definition has_gate (e : t) : bool := match vad_gate e with Some _ => true | None => false end.

Lemma decode_erasure w sn e d e1 r e' :
  gate_snapshot w sn e = (Ok (Some d), e1) ->
  decode_and_commit w false (zlen sn) d e1 = (r, e') ->
  exists k, audio_buffer e' = drop (Z.to_nat k) (audio_buffer e1) /\ erasure w (cfg e1) (has_gate e) sn k.
Proof.
  intros Hg Hd. pose proof (zlen_nonneg sn).
  unfold decode_and_commit in Hd. set (inf := whisper_full w _ d) in *.
  destruct (negb (code inf =? 0)).
  { simplify_eq. exists 0. rewrite drop_0. split; [done|]. split; lia. }
  destruct (lock_language_frame (detected inf) e1) as [Hb Hv]. cbn [orb] in Hd.
  destruct (Z.leb_spec (16000 * 10) (zlen sn)) as [Hw|Hw];
    [destruct (commit_point false (zlen d) (segments inf)) as [[k t1]|] eqn:E|].
  2, 3: simplify_eq; exists 0; rewrite drop_0; split; [done|]; split; lia.
  injection Hd as _ <-. destruct (erased_range _ _ _ _ _ t1 Hg) as [H0 Hk]. rewrite <- Hv in H0, Hk.
  exists (erased (vad_gate (lock_language (detected inf) e1)) t1).
  rewrite commit_buffer_drop, Hb by done. split; [done|]. split; [done|]. split; [done|].
  unfold has_gate. rewrite Hv in *.
  apply gate_snapshot_vad in Hg as [(Hn & -> & ->)|(v & ? & ? & Hn & _)]; rewrite Hn in *;
    (split; [try done|try done]); [|by intros _; apply Hk].
  intros _ Hpos. revert Hpos. unfold erased. rewrite Z.gtb_ltb.
  destruct (Z.ltb_spec 0 t1); [|lia]. intros _. split.
  - destruct (commit_point_time _ _ _ _ E) as [tx Hin]. by exists (tx, t1).
  - intros Hex. apply (commit_point_early _ _ _ _ E) in Hex.
    rewrite Z.quot_div_nonneg in Hex by lia. pose proof (Z.mul_div_le (zlen sn - 32000) 160). lia.
Qed.

(** [transcribe] gives its slot back, whether the inference throws or not. *)
Lemma transcribe_balanced {P} `{SlotPoolLaws P} w cs n e (p : P) r e' p' :
  0 <= in_use p -> transcribe w cs n e p = Some (r, e', p') -> in_use p' = in_use p.
Proof.
  intros Hp. unfold transcribe. destruct (try_take p) as [[] q] eqn:E; [|done].
  apply try_take_yes in E as (_ & E & _).
  destruct (transcribeSlidingWindow w cs true e) as [x e1]. intros [= _ _ <-].
  destruct (give_back_law q); lia.
Qed.

(** A pass in which the silence gate hears nothing. *)
Lemma silent_pass w force e v :
  vad_gate e = Some v -> audio_buffer e <> [] -> vad_loads w = true ->
  (forall p x, vad_detect w p x = Some []) ->
  exists e', transcribeSlidingWindow w [] force e = (Ok (Result [] []), e') /\
             audio_buffer e' = audio_buffer e.
Proof.
  intros Hv Hb Hl Hd. unfold transcribeSlidingWindow, gate_snapshot, VadGate.gate, VadGate.ensureLoaded.
  cbn [absorb foldl]. rewrite Hv, Hl. destruct (audio_buffer e) as [|x b] eqn:Eb; [done|].
  cbn [VadGate.vad_ctx]. destruct (VadGate.vad_ctx v); rewrite Hd; cbn; eauto.
Qed.

(** ** Properties *)

(** The audio buffer.  A chunk is refused exactly when 20 seconds are
    already buffered, and then nothing changes, the filter state included.  An
    accepted chunk leaves the last 30 seconds of the buffered audio followed by
    the filtered chunk.  The buffer never holds more than 30 seconds. *)
Theorem processAudioChunk_spec c e :
  bounded e ->
  let '(dropped, e') := processAudioChunk c e in
  let '(out, hp') := AudioPreprocessor.process c (hp e) in
  (dropped = true <-> HIGH_WATER_MARK <= zlen (audio_buffer e)) /\
  (dropped = true -> e' = e) /\
  (dropped = false -> hp e' = hp' /\
     audio_buffer e' = last_n max_buffer_samples (audio_buffer e ++ out)) /\
  bounded e'.
Proof.
  intros H. pose proof (processAudioChunk_bounded c e H) as Hb.
  destruct (decide (HIGH_WATER_MARK <= zlen (audio_buffer e))) as [Hf|Hf].
  - rewrite (processAudioChunk_full c e Hf). by destruct (AudioPreprocessor.process c (hp e)).
  - pose proof (processAudioChunk_accept c e) as E.
    destruct (AudioPreprocessor.process c (hp e)) as [out hp']. rewrite E in * by lia. naive_solver.
Qed.

(** C10: No text is lost or invented.  A call that returns either had nothing to
    decode - an empty buffer, or a silence gate that hears no speech in this very
    snapshot - and returns two empty texts, or one inference succeeded, on the
    snapshot of the buffer or, with a silence gate, on the speech the gate finds in
    that snapshot, and the committed text followed by the partial text is the
    concatenation of all the segments it produced.  A forced call leaves no partial
    text, and an unforced call commits only windows of at least 10 seconds. *)
Theorem transcribe_conserves_text w cs force e res e' :
  transcribeSlidingWindow w cs force e = (Ok res, e') ->
  (res = Result [] [] /\ (audio_buffer e = [] \/ gated w e (audio_buffer e) None)) \/
  exists d, let inf := whisper_full w (params_of (cfg e) (zlen d)) d in
    gated w e (audio_buffer e) (Some d) /\
    code inf = 0 /\
    committed_text res ++ partial_text res = texts (segments inf) /\
    (force = true -> partial_text res = []) /\
    (force = false -> zlen (audio_buffer e) < 16000 * 10 -> committed_text res = []).
Proof.
  destruct (absorb_frame cs e) as [Fc Fv].
  assert (forall sn d, gated w (absorb cs e) sn d = gated w e sn d) as Fg by (unfold gated; by rewrite Fv).
  intros [(-> & _ & H)|(d & e1 & Hg & Hd)]%transcribe_ok.
  { rewrite Fg in H. by left. }
  right. exists d. pose proof (gate_snapshot_gated _ _ _ _ _ Hg) as Hv. rewrite Fg in Hv.
  pose proof (gate_snapshot_frame _ _ _ _ _ Hg) as (_ & Hc & _). rewrite Fc in Hc.
  unfold decode_and_commit in Hd. rewrite Hc in Hd. cbv zeta. split; [done|].
  set (inf := whisper_full w _ d) in *. destruct (Z.eqb_spec (code inf) 0); [|done].
  split; [done|]. cbn [negb] in Hd.
  destruct (if force || _ then _ else _) as [[k t1]|] eqn:E; injection Hd as <- _;
    cbn [committed_text partial_text].
  - split; [apply texts_split|]. destruct force; cbn [orb] in E.
    + split; [|done]. intros _. destruct (length (segments inf)) as [|n] eqn:El; cbn in E;
        rewrite El in E; [done|]. injection E as <- _. by rewrite drop_ge by lia.
    + split; [done|]. intros _ Hlt. by rewrite (proj2 (Z.leb_gt _ _)) in E by done.
  - split; [done|]. split; [|done]. intros ->. cbn in E.
    by destruct (segments inf) as [|? ?].
Qed.

(** C9: A commit erases old audio.  An unforced call, failed ones included, only
    removes some number of samples [k] from the front of the buffer as it is after
    the inference, and none from a window shorter than 10 seconds.  With the
    silence gate [k] never exceeds the snapshot.  Without it [k] is the end time of
    one of the segments, and more than the last 2 seconds of the snapshot are kept
    whenever some segment ends before them.  So, unless the buffer overflows
    meanwhile, every sample that arrived during the inference is still there
    afterwards - except, without the gate, when that segment is said to end after
    the snapshot. *)
Theorem commit_keeps_new_audio w cs e r e' :
  transcribeSlidingWindow w cs false e = (r, e') ->
  exists k,
    audio_buffer e' = drop (Z.to_nat k) (audio_buffer (absorb cs e)) /\
    erasure w (cfg e) (has_gate e) (audio_buffer e) k /\
    (zlen (audio_buffer e) + zlen (concat cs) <= max_buffer_samples -> k <= zlen (audio_buffer e) ->
     exists appended, audio_buffer (absorb cs e) = audio_buffer e ++ appended /\
       audio_buffer e' = drop (Z.to_nat k) (audio_buffer e) ++ appended).
Proof.
  intros H. destruct (absorb_frame cs e) as [Fc Fv].
  assert (exists k, audio_buffer e' = drop (Z.to_nat k) (audio_buffer (absorb cs e)) /\
    erasure w (cfg e) (has_gate e) (audio_buffer e) k) as (k & Hk & He).
  { assert (forall b, b = audio_buffer (absorb cs e) -> exists k, b = drop (Z.to_nat k) (audio_buffer (absorb cs e)) /\
      erasure w (cfg e) (has_gate e) (audio_buffer e) k) as Hnone.
    { intros b ->. exists 0. rewrite drop_0. split; [done|].
      pose proof (zlen_nonneg (audio_buffer e)). split; lia. }
    unfold transcribeSlidingWindow in H. destruct (audio_buffer e) as [|x buf].
    { injection H as _ <-. by apply Hnone. }
    destruct (gate_snapshot w (x :: buf) (absorb cs e)) as [[[d|]|] e1] eqn:Hg;
      pose proof (gate_snapshot_frame _ _ _ _ _ Hg) as (Hb & Hc & _);
      [|injection H as _ <-; by apply Hnone..].
    destruct (decode_erasure _ _ _ _ _ _ _ Hg H) as (k & Hk & He). exists k.
    rewrite Hc, Fc in He. unfold has_gate in *. rewrite Fv in He. by rewrite Hk, Hb. }
  exists k. split; [done|]. split; [done|]. intros Hcap Hle.
  destruct (absorb_appends cs e Hcap) as (a & Ha & _). exists a. split; [done|].
  rewrite Hk, Ha, drop_app_le; [done|]. unfold zlen in Hle. lia.
Qed.

(** A forced call empties the buffer only if it produced a segment.  Without
    a silence gate, a forced call whose inference succeeds leaves the buffer
    empty when there is at least one segment and untouched when there is none. *)
Theorem force_commit_buffer w e res e' :
  vad_gate e = None -> audio_buffer e <> [] ->
  transcribeSlidingWindow w [] true e = (Ok res, e') ->
  audio_buffer e' =
    match segments (whisper_full w (params_of (cfg e) (zlen (audio_buffer e))) (audio_buffer e)) with
    | [] => audio_buffer e
    | _ :: _ => []
    end.
Proof.
  unfold transcribeSlidingWindow, gate_snapshot, decode_and_commit. cbn [absorb foldl].
  intros Hv Hne. destruct (audio_buffer e) as [|x buf] eqn:Eb; [done|]. rewrite Hv.
  set (inf := whisper_full w _ _). destruct (negb (code inf =? 0)); [done|].
  cbn [orb commit_point]. destruct (segments inf) as [|s segs]; cbn [length]; intros [= _ <-].
  - by rewrite (proj1 (lock_language_frame _ _)).
  - done.
Qed.

(** A sample given as an integer. *)
Definition cs (n : Z) : float32 := F32.of_Z n.

(** An inference environment that answers with fixed segments. *)
Definition scripted (segs : list (option str * Z)) : env :=
  Env true (λ _ _, None)
      (λ _ d, Inference 0 None (filter (λ s, s.2 * 160 <= zlen d) segs)) (λ _, 0).

Definition fresh : t :=
  mk (Config (lit "es") [] 4 5 F32.zero F32.zero F32.zero F32.zero F32.zero) None []
     (AudioPreprocessor.State F32.zero F32.zero).

Lemma processAudioChunk_spec_witness : bounded fresh /\ bounded (processAudioChunk [cs 1] fresh).2.
Proof.
  assert (bounded fresh) as H by done. split; [done|].
  pose proof (processAudioChunk_spec [cs 1] fresh H) as Hs.
  destruct (processAudioChunk [cs 1] fresh) as [b e']. destruct (AudioPreprocessor.process _ _).
  apply Hs.
Defined.

Definition two_words : list (option str * Z) := [(Some (lit " hola"), 1); (Some (lit " mundo"), 2)].
Definition short_clip : t := set_buffer (replicate 400 F32.zero) fresh.

Lemma transcribe_conserves_text_witness :
  exists res e', transcribeSlidingWindow (scripted two_words) [] true short_clip = (Ok res, e') /\
    committed_text res = lit " hola mundo" /\
    exists d, gated (scripted two_words) short_clip (audio_buffer short_clip) (Some d) /\
      committed_text res ++ partial_text res =
        texts (segments (whisper_full (scripted two_words) (params_of (cfg short_clip) (zlen d)) d)).
Proof.
  destruct (transcribeSlidingWindow (scripted two_words) [] true short_clip) as [[res|] e'] eqn:E;
    [|by vm_compute in E].
  assert (committed_text res = lit " hola mundo") as Hc by (vm_compute in E; by injection E as <- _).
  exists res, e'. split; [reflexivity|]. split; [done|].
  destruct (transcribe_conserves_text _ _ _ _ _ _ E) as [[Hres _]|(d & Hd & _ & Ht & _)].
  - by rewrite Hres in Hc.
  - by exists d.
Defined.

(** Twelve and a half seconds of audio, a segment that is finished and one that is not. *)
Definition long_clip : t := set_buffer (replicate (Z.to_nat 200000) F32.zero) fresh.
Definition two_phrases : list (option str * Z) := [(Some (lit " hola"), 500); (Some (lit " mundo"), 1240)].

Lemma drop_amount {A} (l : list A) k n m :
  0 <= k -> zlen l = n -> zlen (drop (Z.to_nat k) l) = m -> 0 < m -> k = n - m.
Proof. unfold zlen. rewrite length_drop. lia. Qed.

(** The erasure of five seconds, with two samples arriving meanwhile. *)
Lemma commit_keeps_new_audio_witness :
  exists r e' k,
    transcribeSlidingWindow (scripted two_phrases) [[cs 1; cs 2]] false long_clip = (r, e') /\
    audio_buffer e' = drop (Z.to_nat k) (audio_buffer (absorb [[cs 1; cs 2]] long_clip)) /\
    zlen (audio_buffer e') = 120002 /\ k = 80000.
Proof.
  assert (zlen (audio_buffer (absorb [[cs 1; cs 2]] long_clip)) = 200002) as Hl by (vm_compute; reflexivity).
  assert (zlen (audio_buffer (transcribeSlidingWindow (scripted two_phrases) [[cs 1; cs 2]] false long_clip).2)
    = 120002) as Hn by (vm_compute; reflexivity).
  destruct (transcribeSlidingWindow (scripted two_phrases) [[cs 1; cs 2]] false long_clip)
    as [r e'] eqn:E. cbn [snd] in Hn.
  destruct (commit_keeps_new_audio _ _ _ _ _ E) as (k & H & (H0 & _) & _).
  exists r, e', k. split; [reflexivity|]. split; [exact H|]. split; [exact Hn|].
  rewrite H in Hn. exact (drop_amount _ k 200002 120002 H0 Hl Hn eq_refl).
Defined.

(** Without the silence gate a segment said to end after the snapshot takes what
    arrived meanwhile with it. *)
Lemma late_segment_erases_new_audio :
  audio_buffer (transcribeSlidingWindow (Env true (λ _ _, None)
      (λ _ _, Inference 0 None [(Some (lit " hola"), 1300); (Some (lit " mundo"), 1400)]) (λ _, 0))
    [[cs 1; cs 2]] false long_clip).2 = [].
Proof. vm_compute. reflexivity. Qed.

Lemma force_commit_buffer_witness :
  exists res e', transcribeSlidingWindow (scripted []) [] true short_clip = (Ok res, e') /\
                 audio_buffer e' = audio_buffer short_clip.
Proof.
  destruct (transcribeSlidingWindow (scripted []) [] true short_clip) as [[res|] e'] eqn:E;
    [|by vm_compute in E].
  exists res, e'. split; [reflexivity|]. assert (audio_buffer short_clip <> []) as Hne by done.
  assert (vad_gate short_clip = None) as Hv by reflexivity.
  exact (force_commit_buffer _ _ _ _ Hv Hne E).
Defined.

End Engine.
