(* ===== verification/Session.v ===== *)
(** The streaming session, [src/server/StreamingSession.h]: its state, the
    handlers of the receive thread and the pieces of [flushLoop].

    Each definition below is what one thread does while it holds
    [state_mutex_], or what it does before it needs it; the messages it sends
    after it lets the mutex go are returned as a list, in order.  [FlushLoop]
    interleaves the two threads.  Times are nanoseconds of the steady clock; the
    two readings of the constructor are taken to be equal. *)

From stdpp Require Import prelude strings list pretty.
From Stdlib Require Import ZArith Lia.
From S2P Require Import Prelude Floats Json ApiAuthClient.
From S2P Require Import AuthManager ModelCache HallucinationGuard VadGate Engine.

Module Session.

(** The constructor's parameters. *)
Record opts := Opts {
  model_path : str;
  whisper_beam_size : Z;
  whisper_threads : Z;
  whisper_initial_prompt : str;
  session_timeout_sec : Z;
  whisper_temperature : float32;
  whisper_temperature_inc : float32;
  whisper_no_speech_thold : float32;
  whisper_logprob_thold : float32;
  flush_min_new_audio_ms : Z;
  vad_model_path : str;
  vad_threshold : float32;
  vad_min_speech_ms : Z;
  vad_min_silence_ms : Z;
  vad_max_speech_s : float32;
  vad_speech_pad_ms : Z;
  vad_samples_overlap : float32
}.

(** The WebSocket frames a session sends, its close frames included. *)
Inductive out :=
| Ready (language : str) (beam_size : Z)
| Error (message code : str)
| FlowPause
| FlowResume
| BufferFull (dropped_chunks : Z)
| StatusBusy
| StatusOk
| Transcription (text : str)
| Final (text : str) (incomplete_reason : option str)
| ClosePolicy (reason : str)
| CloseNormal.

(** Flow control, the transcripts and the rate limiter's window. *)
Record flow := Flow {
  buffer_overflowed : bool;
  dropped_chunks : Z;
  capacity_degraded : bool;
  last_transcribed_size : Z
}.
Record texts := Texts { full_transcription : str; raw_transcription : str }.
Record window := Window { bytes_received : Z; rate_limit_start : Z }.

Record t := mk {
  engine : option Engine.t;
  configured : bool;
  model_acquired : bool;
  language : str;
  fl : flow;
  tx : texts;
  rate : window;
  last_audio_time : Z;
  idle_shutdown_triggered : bool
}.

(** The constructor, at time [now]. *)
Definition make (now : Z) : t :=
  mk None false false (lit "es") (Flow false 0 false 0) (Texts [] []) (Window 0 now) now false.

(** [generateSessionId], at [ms] milliseconds of the system clock, with the number
    drawn from 1000 to 9999. *)
Definition generateSessionId (ms drawn : Z) : str :=
  lit "session-" ++ to_string ms ++ lit "-" ++ to_string drawn.

Definition set_flow (f : flow) (s : t) : t :=
  mk (engine s) (configured s) (model_acquired s) (language s) f (tx s) (rate s)
     (last_audio_time s) (idle_shutdown_triggered s).
Definition set_texts (x : texts) (s : t) : t :=
  mk (engine s) (configured s) (model_acquired s) (language s) (fl s) x (rate s)
     (last_audio_time s) (idle_shutdown_triggered s).
Definition set_engine (e : option Engine.t) (s : t) : t :=
  mk e (configured s) (model_acquired s) (language s) (fl s) (tx s) (rate s)
     (last_audio_time s) (idle_shutdown_triggered s).
Definition set_rate (r : window) (s : t) : t :=
  mk (engine s) (configured s) (model_acquired s) (language s) (fl s) (tx s) r
     (last_audio_time s) (idle_shutdown_triggered s).
Definition set_language (l : str) (s : t) : t :=
  mk (engine s) (configured s) (model_acquired s) l (fl s) (tx s) (rate s)
     (last_audio_time s) (idle_shutdown_triggered s).
Definition set_model (b : bool) (e : option Engine.t) (s : t) : t :=
  mk e (configured s) b (language s) (fl s) (tx s) (rate s)
     (last_audio_time s) (idle_shutdown_triggered s).
Definition touch (now : Z) (s : t) : t :=
  mk (engine s) (configured s) (model_acquired s) (language s) (fl s) (tx s) (rate s)
     now (idle_shutdown_triggered s).
Definition set_idle (s : t) : t :=
  mk (engine s) (configured s) (model_acquired s) (language s) (fl s) (tx s) (rate s)
     (last_audio_time s) true.

Definition WARNING_INTERVAL_CHUNKS : Z := 10.

Definition buffer_size (s : t) : Z :=
  match engine s with Some e => Engine.getBufferSize e | None => 0 end.

(** ** The receive thread: audio *)

Definition processAudioChunk (now : Z) (audio : list float32) (s : t) : t * list out :=
  match configured s, engine s with
  | true, Some e =>
      let s := touch now s in
      let '(overflow, e') := Engine.processAudioChunk audio e in
      let entering_episode := overflow && negb (buffer_overflowed (fl s)) in
      let current_dropped := if overflow then dropped_chunks (fl s) + 1 else 0 in
      let s := set_engine (Some e') s in
      let s := if overflow
               then set_flow (Flow true current_dropped (capacity_degraded (fl s))
                                (last_transcribed_size (fl s))) s
               else s in
      (s, (if entering_episode then [FlowPause] else []) ++
          (if overflow && (current_dropped mod WARNING_INTERVAL_CHUNKS =? 0)
           then [BufferFull current_dropped] else []))
  | _, _ => (s, [])
  end.

Definition MAX_FRAME_BYTES : Z := 1 * 1024 * 1024.
Definition MAX_BYTES_PER_WINDOW : Z := 200 * 1024 * 3.

(** [duration_cast<seconds>] and [duration_cast<milliseconds>]. *)
Definition to_seconds (ns : Z) : Z := Z.quot ns 1000000000.
Definition to_millis (ns : Z) : Z := Z.quot ns 1000000.

(** The rate limiter: the window after a frame of [n] bytes, or [None] when
    the connection is to be closed. *)
Definition rate_step (now n : Z) (r : window) : option window :=
  let elapsed_s := to_seconds (now - rate_limit_start r) in
  let bytes := bytes_received r + n in
  if elapsed_s >=? 3
  then if bytes >? MAX_BYTES_PER_WINDOW then None else Some (Window 0 now)
  else Some (Window bytes (rate_limit_start r)).

(** The [float]s of a byte buffer, four bytes each, little-endian. *)
Fixpoint floats (data : list Z) : list float32 :=
  match data with
  | b0 :: b1 :: b2 :: b3 :: data =>
      F32.of_bits (b0 + 256 * b1 + 65536 * b2 + 16777216 * b3) :: floats data
  | _ => []
  end.

Definition handleBinaryMessage (now now_audio : Z) (data : list Z) (s : t) : t * list out :=
  if zlen data >? MAX_FRAME_BYTES then (s, [ClosePolicy (lit "Frame too large")])
  else if zlen data <? 4 then (s, [])
  else if negb (configured s)
  then (s, [Error (lit "Session not configured. Send 'config' first.") (lit "NOT_CONFIGURED")])
  else if negb (zlen data mod 4 =? 0) then (s, [])
  else
    match rate_step now (zlen data) (rate s) with
    | None => (set_rate (Window (bytes_received (rate s) + zlen data)
                           (rate_limit_start (rate s))) s,
               [ClosePolicy (lit "Rate limit exceeded")])
    | Some r => processAudioChunk now_audio (floats data) (set_rate r s)
    end.

(** ** The receive thread: control messages *)

(** The process-wide objects a session calls. *)
Record shared := Shared { auth : AuthManager.t; models : ModelCache.t }.

(** What handling one "config" message observes of its environment: the clock,
    the auth API, the result of loading the model, whether [whisper_init_state]
    succeeds, and what [ws_.close] throws, if it throws. *)
Record config_env := ConfigEnv {
  e_now : Z;
  e_get : Z;
  e_put : Z;
  e_api : ApiAuthClient.AuthResult;
  e_load : option ModelCache.context;
  e_state_ok : bool;
  e_close_throws : option str
}.

Section json.
Context {J : JsonLib}.

(** Authentication: [Ok] the messages of a rejection (empty when passed). *)
Definition authenticate (v : config_env) (msg : json) (a : AuthManager.t)
    : result (list out) * AuthManager.t :=
  if AuthManager.isAuthEnabled a then
    let reject o :=
      match e_close_throws v with
      | None => Ok o
      | Some w => Ok (o ++ [Error (lit "Configuration failed: " ++ w) (lit "CONFIG_ERROR")])
      end in
    if negb (json_contains msg (lit "token")) || negb (json_is_string (json_at msg (lit "token")))
    then (reject [Error (lit "Missing or invalid 'token'") (lit "AUTH_REQUIRED"); ClosePolicy []], a)
    else
      match json_string (json_at msg (lit "token")) with
      | Throw w => (Throw w, a)
      | Ok token =>
          let '(allowed, _, a') := AuthManager.validate token (e_get v) (e_put v) (e_api v) a in
          if allowed then (Ok [], a')
          else (reject [Error (lit "Invalid token") (lit "AUTH_FAILED"); ClosePolicy []], a')
      end
  else (Ok [], a).

Definition config_error (w : str) : list out :=
  [Error (lit "Configuration failed: " ++ w) (lit "CONFIG_ERROR")].

(** The engine's setters, in the source's order. *)
Definition configure_engine (o : opts) (lang : str) (vad_thold : float32) (e : Engine.t) : Engine.t :=
  let e := Engine.setLanguage lang e in
  let e := Engine.setThreads (whisper_threads o) e in
  let e := Engine.setBeamSize (whisper_beam_size o) e in
  let e := Engine.setVadThreshold vad_thold e in
  let e := Engine.setTemperature (whisper_temperature o) e in
  let e := Engine.setTemperatureInc (whisper_temperature_inc o) e in
  let e := Engine.setNoSpeechThreshold (whisper_no_speech_thold o) e in
  let e := Engine.setLogprobThreshold (whisper_logprob_thold o) e in
  let e := if bool_decide (vad_model_path o = []) then e
           else Engine.setVadConfig (vad_model_path o) (vad_threshold o) (vad_min_speech_ms o)
                  (vad_min_silence_ms o) (vad_max_speech_s o) (vad_speech_pad_ms o)
                  (vad_samples_overlap o) e in
  if bool_decide (whisper_initial_prompt o = []) then e
  else Engine.setInitialPrompt (whisper_initial_prompt o) e.

(** The part of [handleConfig] after authentication. *)
Definition apply_config (o : opts) (v : config_env) (msg : json) (m : ModelCache.t) (s : t)
    : ModelCache.t * t * list out :=
  match (if json_contains msg (lit "language") then json_string (json_at msg (lit "language"))
         else Ok (language s)) with
  | Throw w => (m, s, config_error w)
  | Ok lang =>
      let s := set_language lang s in
      let vad_thold :=
        if json_contains msg (lit "vad_thold") && json_is_number (json_at msg (lit "vad_thold"))
        then json_float (json_at msg (lit "vad_thold")) else F32.zero in
      let '(ctx, m) := ModelCache.acquire (model_path o) (e_load v) m in
      match ctx with
      | Throw w => (m, s, config_error w)
      | Ok _ =>
          match Engine.make false (e_state_ok v) with
          | Throw w => (m, set_model true (engine s) s, config_error w)
          | Ok e =>
              (m, mk (Some (configure_engine o lang vad_thold e)) true true lang
                     (Flow false 0 false 0) (Texts [] []) (rate s) (e_now v)
                     (idle_shutdown_triggered s),
               [Ready lang (whisper_beam_size o)])
          end
      end
  end.

Definition handleConfig (o : opts) (v : config_env) (msg : json) (g : shared) (s : t)
    : shared * t * list out :=
  let '(r, a) := authenticate v msg (auth g) in
  match r with
  | Throw w => (Shared a (models g), s, config_error w)
  | Ok [] =>
      let '(m, s', outs) := apply_config o v msg (models g) s in (Shared a m, s', outs)
  | Ok outs => (Shared a (models g), s, outs)
  end.

(** What [handleJsonMessage] does: it handles the message, asks for the end of
    the stream, or lets an exception escape to [run]. *)
Inductive json_action :=
| Handled (g : shared) (s : t) (outs : list out)
| EndOfStream
| Escapes (what : str).

Definition handleJsonMessage (o : opts) (v : config_env) (message : str) (g : shared) (s : t)
    : json_action :=
  match json_parse message with
  | Throw w => Handled g s [Error (lit "Invalid JSON: " ++ w) (lit "PARSE_ERROR")]
  | Ok msg =>
      if negb (json_contains msg (lit "type"))
      then Handled g s [Error (lit "Missing 'type' field") (lit "INVALID_MESSAGE")]
      else
        match json_string (json_at msg (lit "type")) with
        | Throw w => Escapes w
        | Ok type =>
            if decide (type = lit "config") then
              let '(g', s', outs) := handleConfig o v msg g s in Handled g' s' outs
            else if negb (configured s)
            then Handled g s [Error (lit "Session not configured. Send 'config' first.")
                                (lit "NOT_CONFIGURED")]
            else if decide (type = lit "end") then EndOfStream
            else Handled g s [Error (lit "Unknown message type: " ++ type) (lit "UNKNOWN_TYPE")]
        end
  end.
End json.

(** [handleEnd] once the flush thread has been joined: [slot] tells whether an
    inference slot came free within three seconds. *)
Definition handleEnd (w : Engine.env) (slot : bool) (s : t) : result (t * list out) :=
  match (match engine s with
         | Some e =>
             if slot then
               let '(r, e') := Engine.transcribeSlidingWindow w [] true e in
               res ← r;
               Ok (set_texts (Texts (full_transcription (tx s) ++ Engine.committed_text res)
                                (raw_transcription (tx s))) (set_engine (Some e') s), None)
             else Ok (s, Some (lit "gpu_saturated_timeout"))
         | None => Ok (s, None)
         end) with
  | Throw what => Throw what
  | Ok (s, incomplete) =>
      let full := if bool_decide (full_transcription (tx s) = []) &&
                     negb (bool_decide (raw_transcription (tx s) = []))
                  then raw_transcription (tx s) else full_transcription (tx s) in
      Ok (set_texts (Texts full (raw_transcription (tx s))) s,
          [Final full incomplete; CloseNormal])
  end.

(** [releaseModel], up to the wait at the end of [ModelCache::release]: the timer
    task whose future [old_future.get()] then waits for, still under
    [state_mutex_], if there is one.  [model_acquired_] is cleared after that
    wait; nobody can look at it before, the mutex being held. *)
Definition releaseModel (task_id : nat) (g : shared) (s : t) : option nat * shared * t :=
  if model_acquired s
  then let '(old, _, m) := ModelCache.release task_id (models g) in
       (old, Shared (auth g) m, set_model false None s)
  else (None, g, s).

(** ** The flush thread *)

Definition msToSamples16kHz (ms : Z) : Z := u64 (u64 ms * 16).
Definition MIN_BUFFER_SAMPLES : Z := 32000.
Definition LOW_WATER_MARK : Z := 16000 * 10.

(** The idle watchdog; the flag tells whether it shuts the socket down. *)
Definition watchdog (o : opts) (now : Z) (s : t) : bool * t :=
  if (session_timeout_sec o >? 0) && negb (idle_shutdown_triggered s) &&
     (to_seconds (now - last_audio_time s) >=? session_timeout_sec o)
  then (true, set_idle s) else (false, s).

(** The trigger: is an inference due on a buffer of [current_size] samples? *)
Definition due (o : opts) (now current_size : Z) (s : t) : bool :=
  let enough_new_audio :=
    msToSamples16kHz (flush_min_new_audio_ms o)
      <=? usub current_size (last_transcribed_size (fl s)) in
  let silence_flush := (to_millis (now - last_audio_time s) >? 400) &&
                       (current_size >? last_transcribed_size (fl s)) in
  enough_new_audio || silence_flush.

(** What follows the inference, up to the message to send: [res] is its result
    and [current_size] the buffer size read before it.  [None]: [engine_] is a
    null pointer where the code dereferences it. *)
Definition finish (res : Engine.TranscribeResult) (current_size : Z) (s : t)
    : option (t * option str) :=
  let committed := Engine.committed_text res in
  let partial := Engine.partial_text res in
  let committed_ok :=
    negb (bool_decide (committed = [])) && negb (HallucinationGuard.isHallucination committed) in
  let partial_ok :=
    negb (bool_decide (partial = [])) && negb (HallucinationGuard.isHallucination partial) in
  s ← (if bool_decide (committed = []) then
         Some (set_flow (Flow (buffer_overflowed (fl s)) (dropped_chunks (fl s))
                           (capacity_degraded (fl s)) current_size) s)
       else
         e ← engine s;
         let x := Texts (if committed_ok then full_transcription (tx s) ++ committed
                         else full_transcription (tx s))
                        (raw_transcription (tx s) ++ committed) in
         Some (set_flow (Flow (buffer_overflowed (fl s)) (dropped_chunks (fl s))
                           (capacity_degraded (fl s)) (Engine.getBufferSize e)) (set_texts x s)));
  Some (s, if committed_ok || partial_ok
           then Some (full_transcription (tx s) ++ (if partial_ok then partial else []))
           else None).

(** No setter touches the audio buffer. *)
Lemma configure_engine_buffer o lang thold e :
  Engine.audio_buffer (configure_engine o lang thold e) = Engine.audio_buffer e.
Proof.
  unfold configure_engine, Engine.setThreads, Engine.setBeamSize.
  destruct (_ >? 0), (_ >? 0), (bool_decide (vad_model_path o = [])),
    (bool_decide (whisper_initial_prompt o = [])); reflexivity.
Qed.

(** ** Session ids *)

Lemma drawn_length n : 1000 <= n <= 9999 -> length (to_string n) = 4%nat.
Proof.
  intros H.
  assert (forallb (λ k, (length (to_string k) =? 4)%nat) (seqZ 1000 9000) = true) as Hall by (by vm_compute).
  rewrite forallb_forall in Hall. apply Nat.eqb_eq, Hall, list_elem_of_In, elem_of_seqZ. lia.
Qed.

Lemma lit_inj a b : lit a = lit b -> a = b.
Proof.
  intros H. rewrite <- (String.string_of_list_ascii_of_string a), <- (String.string_of_list_ascii_of_string b).
  unfold lit in H. by rewrite H.
Qed.

(** Two sessions have the same id only if they were created in the same
    millisecond and drew the same number. *)
Lemma generateSessionId_inj ms ms' n n' :
  1000 <= n <= 9999 -> 1000 <= n' <= 9999 ->
  generateSessionId ms n = generateSessionId ms' n' -> ms = ms' /\ n = n'.
Proof.
  intros Hn Hn' H. unfold generateSessionId in H. apply app_inv_head in H.
  assert (length (to_string n) = length (to_string n')) as Hl by (by rewrite !drawn_length).
  assert (forall a b : str, length a = length b -> forall x y, x ++ a = y ++ b -> x = y /\ a = b) as Hinj.
  { intros a b Hab x y. apply app_inj_2. done. }
  rewrite (assoc_L (++)) in H. rewrite (assoc_L (++) (to_string ms')) in H.
  apply Hinj in H as [H1 H2]; [|done]. apply Hinj in H1 as [H1 _]; [|done].
  split; [apply lit_inj in H1|apply lit_inj in H2]; by apply (inj pretty).
Qed.

End Session.
