(* ===== verification/FlushLoop.v ===== *)
(** The two threads of a session, [run] and [flushLoop] of
    [src/server/StreamingSession.h], interleaved.

    A step is a critical section on [state_mutex_], one message written under
    [write_mutex_], or a wait that ends.  Both threads are explicit program
    points; the inference slot of the flush thread is held from its [TryGuard]
    to the end of the iteration.  The receive thread keeps [state_mutex_] while
    [releaseModel] waits for a timer task of the model cache, and no critical
    section of the flush thread happens meanwhile. *)

From stdpp Require Import prelude strings list gmap.
From Stdlib Require Import ZArith Lia.
From S2P Require Import Prelude Transitions Floats Json ApiAuthClient.
From S2P Require Import AuthManager ModelCache HallucinationGuard Engine Session.

Module FlushLoop.
Import Session.

(** What the flush thread does once it has the mutex again. *)
Inductive fcont :=
| KLoop                                              (** next iteration *)
| KInfer (current_size : Z)                          (** [transcribeSlidingWindow] *)
| KResume (res : Engine.TranscribeResult) (current_size : Z)   (** send "resume" *)
| KFinish (res : Engine.TranscribeResult) (current_size : Z).  (** reset the episode *)

(** The flush thread: asleep, past the test of [flush_running_], writing a
    message without the mutex, waiting for the mutex, or returned. *)
Inductive fpc :=
| FIdle | FChecked | FSending (m : out) (k : fcont) | FLocking (k : fcont) | FExited.

(** The receive thread: in [ws_.read], writing messages (and then reading again
    or leaving the loop), in the join of [handleEnd], past the loop, in the
    [releaseModel] of [run] or of the destructor, with the mutex, waiting for the
    timer task [old], past [run]'s [releaseModel], in the destructor's join,
    destroyed. *)
Inductive rpc :=
| RRead | RSend (msgs : list out) (leave : bool) | RJoin | RLeave
| RWait (old : nat) (destroying : bool) | RUnwind | RDestroy | RDone.

(** [Terminated]: an exception left [flushLoop], hence [std::terminate].
    [NullDeref]: a null [engine_] was dereferenced. *)
Inductive status := Running | Terminated | NullDeref.

#[export] Instance status_eq_dec : EqDecision status.
Proof. solve_decision. Defined.

Record world := World {
  st : Session.t;
  sh : shared;
  flush_running : bool;
  f : fpc;
  r : rpc;
  slot : bool;        (** the flush thread holds an inference slot *)
  sent : list out;    (** handed to [ws_.write] or [ws_.close], in order *)
  socket_down : bool; (** the watchdog shut the socket down *)
  stat : status
}.

Definition set_st (s : Session.t) (w : world) : world :=
  World s (sh w) (flush_running w) (f w) (r w) (slot w) (sent w) (socket_down w) (stat w).
Definition set_f (p : fpc) (w : world) : world :=
  World (st w) (sh w) (flush_running w) p (r w) (slot w) (sent w) (socket_down w) (stat w).
Definition set_r (p : rpc) (w : world) : world :=
  World (st w) (sh w) (flush_running w) (f w) p (slot w) (sent w) (socket_down w) (stat w).
Definition set_slot (b : bool) (w : world) : world :=
  World (st w) (sh w) (flush_running w) (f w) (r w) b (sent w) (socket_down w) (stat w).
Definition set_sh (g : shared) (w : world) : world :=
  World (st w) g (flush_running w) (f w) (r w) (slot w) (sent w) (socket_down w) (stat w).
Definition emit (m : out) (w : world) : world :=
  World (st w) (sh w) (flush_running w) (f w) (r w) (slot w) (sent w ++ [m]) (socket_down w) (stat w).
Definition stop_flush (w : world) : world :=
  World (st w) (sh w) false (f w) (r w) (slot w) (sent w) (socket_down w) (stat w).
Definition die (x : status) (w : world) : world :=
  World (st w) (sh w) (flush_running w) (f w) (r w) (slot w) (sent w) (socket_down w) x.
Definition mark_down (b : bool) (w : world) : world :=
  World (st w) (sh w) (flush_running w) (f w) (r w) (slot w) (sent w) (socket_down w || b) (stat w).

(** ** The flush thread *)

(** The end of an iteration: the slot's guard goes out of scope. *)
Definition next_iteration (w : world) : world := set_f FIdle (set_slot false w).

Definition conclude (res : Engine.TranscribeResult) (current_size : Z) (w : world) : world :=
  match finish res current_size (st w) with
  | None => die NullDeref w
  | Some (s, Some text) => set_f (FSending (Transcription text) KLoop) (set_st s w)
  | Some (s, None) => next_iteration (set_st s w)
  end.

(** From the inference to the next point without the mutex. *)
Definition infer (env : Engine.env) (current_size : Z) (w : world) : world :=
  match engine (st w) with
  | None => die NullDeref w
  | Some e =>
      let '(res, e') := Engine.transcribeSlidingWindow env [] false e in
      match res with
      | Throw _ => die Terminated w
      | Ok res =>
          let w := set_st (set_engine (Some e') (st w)) w in
          if buffer_overflowed (fl (st w)) && (Engine.getBufferSize e' <? LOW_WATER_MARK) then
            let dropped := dropped_chunks (fl (st w)) in
            if dropped mod WARNING_INTERVAL_CHUNKS =? 0
            then set_f (FSending FlowResume (KFinish res current_size)) w
            else set_f (FSending (BufferFull dropped) (KResume res current_size)) w
          else conclude res current_size w
      end
  end.

Definition set_degraded (b : bool) (s : Session.t) : Session.t :=
  set_flow (Flow (buffer_overflowed (fl s)) (dropped_chunks (fl s)) b
              (last_transcribed_size (fl s))) s.

(** One iteration, from [try_lock]; [slot_free] is what [TryGuard] gets.  The
    critical section reads the clock twice, for the watchdog and for the trigger. *)
Definition cycle (o : opts) (now_idle now : Z) (slot_free : bool) (env : Engine.env) (w : world) : world :=
  let '(down, s) := watchdog o now_idle (st w) in
  let w := mark_down down (set_st s w) in
  match configured s, engine s with
  | true, Some e =>
      let current_size := Engine.getBufferSize e in
      if current_size <? MIN_BUFFER_SAMPLES then next_iteration w
      else if negb (due o now current_size s) then next_iteration w
      else if negb slot_free then
        if capacity_degraded (fl s) then next_iteration w
        else set_f (FSending StatusBusy KLoop) (set_st (set_degraded true s) w)
      else
        let w := set_slot true w in
        if capacity_degraded (fl s)
        then set_f (FSending StatusOk (KInfer current_size)) (set_st (set_degraded false s) w)
        else infer env current_size w
  | _, _ => next_iteration w
  end.

Definition end_episode (s : Session.t) : Session.t :=
  set_flow (Flow false 0 (capacity_degraded (fl s)) (last_transcribed_size (fl s))) s.

(** The flush thread has locked the mutex again. *)
Definition relocked (env : Engine.env) (k : fcont) (w : world) : world :=
  match k with
  | KLoop => next_iteration w
  | KInfer current_size => infer env current_size w
  | KResume res current_size => set_f (FSending FlowResume (KFinish res current_size)) w
  | KFinish res current_size => conclude res current_size (set_st (end_episode (st w)) w)
  end.

(** ** The receive thread *)

Inductive frame := Text (v : config_env) (message : str) | Binary (now now_audio : Z) (data : list Z).

Definition is_close (m : out) : bool :=
  match m with ClosePolicy _ | CloseNormal => true | _ => false end.

(** Messages to send, then back to the read unless the socket was closed. *)
Definition send_all (outs : list out) (w : world) : world :=
  match outs with [] => set_r RRead w | _ => set_r (RSend outs (existsb is_close outs)) w end.

(** Where [releaseModel] goes on: into the wait for [old_future] if it has one. *)
Definition released (old : option nat) (destroying : bool) : rpc :=
  match old with Some old => RWait old destroying | None => if destroying then RDone else RUnwind end.

(** Does the receive thread keep [state_mutex_] while it waits? *)
Definition mutex_held (p : rpc) : bool := match p with RWait _ _ => true | _ => false end.

(** The steps of the two threads.  [Emit] and [FEmit] are a [ws_.write] or a
    [ws_.close] that returns: that of a message, written or not, since
    [sendMessage] logs a failure (of [dump] or of the write) and goes on, as
    [handleEnd] does for its close
    and as the closes of [handleBinaryMessage] do, by an error code (for the
    close of a rejected token see [e_close_throws]).  One that blocks is an
    [Emit] that does not come.  [Waited]: [old_future.get()] returns.  [FBusy]:
    [try_lock] fails, as it may at any time. *)
Inductive event :=
| Recv (fr : frame)
| Emit
| Join (env : Engine.env) (slot_free : bool)
| ReadFails
| Leave (task_id : nat)
| Waited
| Unwind
| Destroyed (task_id : nat)
| FCheck
| FBusy
| FCycle (now_idle now : Z) (slot_free : bool) (env : Engine.env)
| FEmit
| FLock (env : Engine.env).

Section step.
Context {J : JsonLib}.

Definition recv (o : opts) (fr : frame) (w : world) : world :=
  match fr with
  | Binary now now_audio data =>
      let '(s, outs) := handleBinaryMessage now now_audio data (st w) in send_all outs (set_st s w)
  | Text v message =>
      match handleJsonMessage o v message (sh w) (st w) with
      | Handled g s outs => send_all outs (set_sh g (set_st s w))
      | EndOfStream => set_r RJoin (stop_flush w)
      | Escapes _ => set_r RLeave w
      end
  end.

Definition step (o : opts) (ev : event) (w : world) : option world :=
  if bool_decide (stat w = Running) then
    match ev with
    | Recv fr => match r w with RRead => Some (recv o fr w) | _ => None end
    | ReadFails => match r w with RRead => Some (set_r RLeave w) | _ => None end
    | Emit =>
        match r w with
        | RSend (m :: ms) leave =>
            Some (set_r (match ms with
                         | [] => if leave then RLeave else RRead
                         | _ => RSend ms leave
                         end) (emit m w))
        | _ => None
        end
    | Join env slot_free =>
        match r w, f w with
        | RJoin, FExited =>
            Some (match handleEnd env slot_free (st w) with
                  | Ok (s, outs) => send_all outs (set_st s w)
                  | Throw _ => set_r RLeave w
                  end)
        | _, _ => None
        end
    | Leave task_id =>
        match r w with
        | RLeave => let '(old, g, s) := releaseModel task_id (sh w) (st w) in
                    Some (set_r (released old false) (set_sh g (set_st s w)))
        | _ => None
        end
    | Waited =>
        match r w with
        | RWait _ destroying => Some (set_r (released None destroying) w)
        | _ => None
        end
    | Unwind => match r w with RUnwind => Some (set_r RDestroy (stop_flush w)) | _ => None end
    | Destroyed task_id =>
        match r w, f w with
        | RDestroy, FExited => let '(old, g, s) := releaseModel task_id (sh w) (st w) in
                               Some (set_r (released old true) (set_sh g (set_st s w)))
        | _, _ => None
        end
    | FCheck =>
        match f w with
        | FIdle => Some (set_f (if flush_running w then FChecked else FExited) w)
        | _ => None
        end
    | FBusy => match f w with FChecked => Some (next_iteration w) | _ => None end
    | FCycle now_idle now slot_free env =>
        match f w with
        | FChecked => if mutex_held (r w) then None else Some (cycle o now_idle now slot_free env w)
        | _ => None
        end
    | FEmit =>
        match f w with FSending m k => Some (set_f (FLocking k) (emit m w)) | _ => None end
    | FLock env =>
        match f w with
        | FLocking k => if mutex_held (r w) then None else Some (relocked env k w)
        | _ => None
        end
    end
  else None.

Definition run (o : opts) : list event -> world -> option world := Transitions.exec (step o).
End step.

(** What the receive thread has yet to write. *)
Definition pending (w : world) : list out := match r w with RSend ms _ => ms | _ => [] end.

Definition is_ready (m : out) : bool := match m with Ready _ _ => true | _ => false end.

(** Does an iteration of the flush thread get to [TryGuard]? *)
Definition reaches_guard (o : opts) (now_idle now : Z) (s : Session.t) : bool :=
  let s := (watchdog o now_idle s).2 in
  match configured s, engine s with
  | true, Some e =>
      negb (Engine.getBufferSize e <? MIN_BUFFER_SAMPLES) && due o now (Engine.getBufferSize e) s
  | _, _ => false
  end.

(** ** The commits of a run

    A log kept beside the run, from what whisper answers: the flush thread's
    inferences in order, whatever the session does with their texts. *)

(** The text an inference commits, if it commits one. *)
Definition commit_of (res : Engine.TranscribeResult) : list str :=
  if bool_decide (Engine.committed_text res = []) then [] else [Engine.committed_text res].

Definition inference (env : Engine.env) (s : Session.t) : list str :=
  match engine s with
  | Some e => match (Engine.transcribeSlidingWindow env [] false e).1 with
              | Ok res => commit_of res
              | Throw _ => []
              end
  | None => []
  end.

(** The commits of the step [ev] from [w]: it runs an inference in an iteration
    that gets a slot and has no "ok" to send first, or after that message. *)
Definition inferred (o : opts) (ev : event) (w : world) : list str :=
  match ev, f w with
  | FCycle now_idle now true env, _ =>
      if reaches_guard o now_idle now (st w) && negb (capacity_degraded (fl (st w)))
      then inference env (st w) else []
  | FLock env, FLocking (KInfer _) => inference env (st w)
  | _, _ => []
  end.

(** The commit the flush thread carries while it sends the messages that end a
    saturation episode. *)
Definition in_flight (p : fpc) : list str :=
  match p with
  | FSending _ (KResume res _ | KFinish res _) | FLocking (KResume res _ | KFinish res _) => commit_of res
  | _ => []
  end.

(** The log after the step [ev] from [w] to [w']: a configuration that succeeds
    starts it anew, with the commit under way. *)
Definition log (o : opts) (ev : event) (w w' : world) (acc : list str) : list str :=
  match ev with
  | Recv (Text _ _) => if existsb is_ready (pending w') then in_flight (f w) else acc
  | _ => acc ++ inferred o ev w
  end.

Fixpoint commits {J : JsonLib} (o : opts) (evs : list event) (w : world) (acc : list str) : list str :=
  match evs with
  | [] => acc
  | ev :: evs => match step o ev w with
                 | Some w' => commits o evs w' (log o ev w w' acc)
                 | None => acc
                 end
  end.

(** What the forced last inference commits, if there is one. *)
Definition last_commit (env : Engine.env) (slot_free : bool) (s : Session.t) : str :=
  match engine s, slot_free with
  | Some e, true => match (Engine.transcribeSlidingWindow env [] true e).1 with
                    | Ok res => Engine.committed_text res
                    | Throw _ => []
                    end
  | _, _ => []
  end.

Definition credible (c : str) : Prop := HallucinationGuard.isHallucination c = false.

(** A session whose handshake has been accepted. *)
Definition start (now : Z) (g : shared) : world :=
  World (Session.make now) g true FIdle RRead false [] false Running.

(** ** Proofs *)

(** The watchdog changes nothing but its own flag. *)
Lemma watchdog_frame o now s : exists down b, watchdog o now s =
  (down, mk (engine s) (configured s) (model_acquired s) (language s) (fl s) (tx s) (rate s)
           (last_audio_time s) b).
Proof.
  unfold watchdog, set_idle. destruct (_ && _); [eauto|].
  exists false, (idle_shutdown_triggered s). by destruct s.
Qed.

Section proofs.
Context {J : JsonLib} (o : opts).

Lemma step_running ev w w' : step o ev w = Some w' -> stat w = Running.
Proof. unfold step. destruct (bool_decide_reflect (stat w = Running)); done. Qed.

(** Rule induction over the runs that only take steps satisfying [Q]. *)
Lemma run_ind (P : world -> Prop) (Q : event -> Prop) evs w w' :
  (forall ev v v', Q ev -> P v -> step o ev v = Some v' -> P v') ->
  Forall Q evs -> P w -> run o evs w = Some w' -> P w'.
Proof. apply Transitions.exec_ind. Qed.

Lemma all_true {A} (l : list A) : Forall (λ _, True) l.
Proof. by apply Forall_true. Qed.

Definition is_final (m : out) : bool := match m with Final _ _ => true | _ => false end.
Definition no_final (l : list out) : Prop := Forall (λ m, is_final m = false) l.

Lemma handleBinary_no_final now now_audio data s : no_final (handleBinaryMessage now now_audio data s).2.
Proof.
  unfold handleBinaryMessage, processAudioChunk. splits_all; repeat constructor.
  all: by apply Forall_app; split; case_match; repeat constructor.
Qed.

Lemma handleConfig_no_final v msg g s : no_final (handleConfig o v msg g s).2.
Proof.
  unfold handleConfig, authenticate, apply_config.
  splits_all; repeat constructor.
Qed.

Lemma handleJson_no_final v message g s g' s' outs :
  handleJsonMessage o v message g s = Handled g' s' outs -> no_final outs.
Proof.
  unfold handleJsonMessage. intros H.
  repeat (case_match; simplify_eq/=; try (by repeat constructor)).
  match goal with E : handleConfig _ _ _ _ _ = _ |- _ =>
    pose proof (handleConfig_no_final v a g s) as Hn; by rewrite E in Hn end.
Qed.
Definition asleep (p : fpc) : bool :=
  match p with FIdle | FChecked | FExited => true | _ => false end.
Definition msg_ok (p : fpc) : Prop := match p with FSending m _ => is_final m = false | _ => True end.

(** What a critical section of the flush thread leaves alone and ensures. *)
Definition flush_frame (w w' : world) : Prop :=
  sent w' = sent w /\ r w' = r w /\ flush_running w' = flush_running w /\
  (stat w' = Running -> asleep (f w') = true -> slot w' = false) /\
  (stat w' = Running -> f w' <> FExited) /\ msg_ok (f w').

Lemma conclude_frame res n w : f w <> FExited -> msg_ok (f w) -> flush_frame w (conclude res n w).
Proof.
  intros H Hm. unfold conclude. destruct (finish res n (st w)) as [[s [text|]]|]; by repeat split.
Qed.

Lemma infer_frame env n w : f w <> FExited -> msg_ok (f w) -> flush_frame w (infer env n w).
Proof.
  intros H Hm. unfold infer. destruct (engine (st w)) as [e|]; [|by repeat split].
  destruct (Engine.transcribeSlidingWindow env [] false e) as [[res|what] e']; [|by repeat split].
  destruct (_ && _); [destruct (_ =? 0); by repeat split|].
  by apply (conclude_frame res n (set_st _ w)).
Qed.

Lemma cycle_frame now_idle now slot_free env w : f w = FChecked -> flush_frame w (cycle o now_idle now slot_free env w).
Proof.
  intros Hf. unfold cycle. destruct (watchdog o now_idle (st w)) as [down s].
  destruct (configured s), (engine s) as [e|]; try (by repeat split).
  destruct (_ <? _); [by repeat split|]. destruct (negb (due _ _ _ _)); [by repeat split|].
  destruct slot_free; cbn [negb]; destruct (capacity_degraded (fl s)); try (by repeat split).
  apply (infer_frame env _ (set_slot true (mark_down down (set_st s w)))); cbn; by rewrite Hf.
Qed.

Lemma relocked_frame env k w : f w = FLocking k -> flush_frame w (relocked env k w).
Proof.
  intros Hf. destruct k; cbn [relocked]; try (by repeat split).
  - apply infer_frame; by rewrite Hf.
  - apply (conclude_frame res current_size (set_st _ w)); cbn; by rewrite Hf.
Qed.

Definition leaving (w : world) : bool :=
  match r w with RSend _ leave => leave | RRead | RJoin => false | _ => true end.

Record wf (w : world) : Prop := {
  wf_slot : stat w = Running -> asleep (f w) = true -> slot w = false;
  wf_msg : msg_ok (f w);
  wf_final : no_final (sent w ++ pending w) \/
    exists a text i, no_final a /\ sent w ++ pending w = a ++ [Final text i; CloseNormal] /\
      f w = FExited /\ leaving w = true
}.

Lemma wf_start now g : wf (start now g).
Proof. split; try done. left. constructor. Qed.

Lemma send_all_pending outs w :
  pending (send_all outs w) = outs /\ sent (send_all outs w) = sent w /\
  f (send_all outs w) = f w /\ slot (send_all outs w) = slot w /\ stat (send_all outs w) = stat w /\
  st (send_all outs w) = st w /\ leaving (send_all outs w) = existsb is_close outs.
Proof. by destruct outs. Qed.

Lemma no_final_app a b : no_final (a ++ b) <-> no_final a /\ no_final b.
Proof. apply Forall_app. Qed.

Lemma wf_flush w w' : wf w -> f w <> FExited -> flush_frame w w' -> wf w'.
Proof.
  intros [Hs Hm Hf] Hne (E1 & E2 & E3 & E4 & E5 & E6). split; [done|done|].
  unfold pending. rewrite E1, E2. destruct Hf as [Hf|(a & t & i & _ & _ & ? & _)]; [by left|done].
Qed.

Lemma recv_wf fr w : wf w -> r w = RRead -> wf (recv o fr w).
Proof.
  intros [Hs Hm Hf] Hr.
  assert (no_final (sent w)) as Hn.
  { destruct Hf as [Hf|(a & t & i & _ & _ & _ & Hl)]; [by apply no_final_app in Hf as [? _]|].
    unfold leaving in Hl. by rewrite Hr in Hl. }
  destruct fr as [v message|now now_audio data]; cbn [recv].
  - destruct (handleJsonMessage o v message (sh w) (st w)) as [g s outs| |what] eqn:E.
    + apply handleJson_no_final in E.
      destruct (send_all_pending outs (set_sh g (set_st s w))) as (E1 & E2 & E3 & E4 & E5 & _ & _).
      split; rewrite ?E1, ?E2, ?E3, ?E4, ?E5; try done. left. by apply no_final_app.
    + split; try done. left. cbn. by rewrite app_nil_r.
    + split; try done. left. cbn. by rewrite app_nil_r.
  - pose proof (handleBinary_no_final now now_audio data (st w)) as E.
    destruct (handleBinaryMessage now now_audio data (st w)) as [s outs].
    destruct (send_all_pending outs (set_st s w)) as (E1 & E2 & E3 & E4 & E5 & _ & _).
    split; rewrite ?E1, ?E2, ?E3, ?E4, ?E5; try done. left. by apply no_final_app.
Qed.

Lemma handleEnd_outs env slot_free s s' outs :
  handleEnd env slot_free s = Ok (s', outs) ->
  exists text i, outs = [Final text i; CloseNormal].
Proof.
  unfold handleEnd. destruct (engine s) as [e|]; [destruct slot_free|].
  - destruct (Engine.transcribeSlidingWindow env [] true e) as [[res|what] e']; cbn;
      intros H; simplify_eq; eauto.
  - intros H; simplify_eq; eauto.
  - intros H; simplify_eq; eauto.
Qed.

(** A step of the receive thread that writes nothing and stays in or moves
    towards the exit. *)
Lemma wf_receive w w' :
  wf w -> f w' = f w -> slot w' = slot w -> stat w' = stat w ->
  sent w' ++ pending w' = sent w ++ pending w -> (leaving w = true -> leaving w' = true) -> wf w'.
Proof.
  intros [Hs Hm Hf] E1 E2 E3 E4 E5. split; rewrite ?E1, ?E2, ?E3, ?E4; try done.
  destruct Hf as [Hf|(a & t & i & ? & ? & ? & ?)]; [by left|right]. exists a, t, i. auto.
Qed.

Lemma step_wf ev w w' : wf w -> step o ev w = Some w' -> wf w'.
Proof.
  intros Hw H. pose proof (step_running _ _ _ H) as Hrun. unfold step in H.
  rewrite bool_decide_eq_true_2 in H by done.
  destruct ev as [fr| |env sf| |id| | |id| | |now_idle now sf env| |env].
  - destruct (r w) eqn:Er; try done. injection H as <-. by apply recv_wf.
  - destruct (r w) as [|[|m ms] leave| | |old d| | |] eqn:Er; try done. injection H as <-.
    apply (wf_receive w); try done.
    + unfold pending. rewrite Er. destruct ms; [destruct leave|]; cbn;
        by rewrite <- (assoc_L (++)).
    + unfold leaving. rewrite Er. by destruct ms; [destruct leave|].
  - destruct (r w) eqn:Er; try done. destruct (f w) eqn:Ef; try done. injection H as <-.
    destruct (handleEnd env sf (st w)) as [[s outs]|] eqn:E.
    + apply handleEnd_outs in E as (t & i & ->).
      destruct Hw as [Hs Hm Hf]. split; cbn; try by rewrite Ef.
      * intros. apply Hs; [done|by rewrite Ef].
      * right. exists (sent w), t, i. destruct Hf as [Hf|(a & t' & i' & _ & _ & _ & Hl)].
        -- apply no_final_app in Hf as [? _]. auto.
        -- unfold leaving in Hl. by rewrite Er in Hl.
    + apply (wf_receive w); try done; unfold pending, leaving; by rewrite Er.
  - destruct (r w) eqn:Er; try done. injection H as <-.
    apply (wf_receive w); try done; unfold pending, leaving; by rewrite Er.
  - destruct (r w) eqn:Er; try done. destruct (releaseModel id (sh w) (st w)) as [[old g] s].
    injection H as <-. destruct old;
      (apply (wf_receive w); try done; unfold pending, leaving; by rewrite Er).
  - destruct (r w) as [| | | |old d| | |] eqn:Er; try done. injection H as <-. destruct d;
      (apply (wf_receive w); try done; unfold pending, leaving; by rewrite Er).
  - destruct (r w) eqn:Er; try done. injection H as <-.
    apply (wf_receive w); try done; unfold pending, leaving; by rewrite Er.
  - destruct (r w) eqn:Er; try done. destruct (f w) eqn:Ef; try done.
    destruct (releaseModel id (sh w) (st w)) as [[old g] s]. injection H as <-. destruct old;
      (apply (wf_receive w); try done; unfold pending, leaving; by rewrite Er).
  - destruct (f w) eqn:Ef; try done. injection H as <-. destruct Hw as [Hs Hm Hf].
    split; cbn; [intros ? _; apply Hs; by rewrite ?Ef|by destruct (flush_running w)|].
    destruct Hf as [Hf|(a & t & i & _ & _ & ? & _)]; [by left|congruence].
  - destruct (f w) eqn:Ef; try done. injection H as <-. apply (wf_flush w); [done|congruence|done].
  - destruct (f w) eqn:Ef; try done. destruct (mutex_held (r w)); [done|]. injection H as <-.
    apply (wf_flush w); [done|congruence|by apply cycle_frame].
  - destruct (f w) eqn:Ef; try done. injection H as <-. destruct Hw as [Hs Hm Hf].
    split; cbn; [done|done|]. rewrite Ef in Hm.
    destruct Hf as [Hf|(a & t & i & _ & _ & ? & _)]; [|congruence]. left.
    apply no_final_app in Hf as [? ?]. apply no_final_app. split; [|done].
    apply no_final_app. split; [done|by repeat constructor].
  - destruct (f w) eqn:Ef; try done. destruct (mutex_held (r w)); [done|]. injection H as <-.
    apply (wf_flush w); [done|congruence|by apply relocked_frame].
Qed.

Lemma run_wf evs w w' : wf w -> run o evs w = Some w' -> wf w'.
Proof.
  intros Hw. apply (run_ind wf (λ _, True)); [|apply all_true|done].
  intros ev v v' _. apply step_wf.
Qed.

Lemma final_position a0 : forall a m b text i,
  no_final a0 -> is_final m = true -> a ++ m :: b = a0 ++ [Final text i; CloseNormal] ->
  b = [CloseNormal] /\ m = Final text i /\ a = a0.
Proof.
  induction a0 as [|x a0 IH]; intros a m b text i Hn Hm E.
  - destruct a as [|y [|z a]]; simplify_eq/=; [done|..]. by destruct a.
  - apply Forall_cons in Hn as [Hx Hn]. destruct a as [|y a]; simplify_eq/=; [congruence|].
    by destruct (IH a m b text i Hn Hm) as (-> & -> & ->).
Qed.

(** ** The transcripts *)

(** The transcripts are those of the commits [cs]. *)
Definition accounts (cs : list str) (x : texts) : Prop :=
  raw_transcription x = concat cs /\ full_transcription x = concat (filter credible cs).

(** The log [acc] is what the transcripts hold and what is under way. *)
Definition logged (acc : list str) (w : world) : Prop :=
  exists done, acc = done ++ in_flight (f w) /\ accounts done (tx (st w)).

Lemma finish_accounts done res n s s' text :
  accounts done (tx s) -> finish res n s = Some (s', text) -> accounts (done ++ commit_of res) (tx s').
Proof.
  intros [Hr Hf] H. unfold finish in H. apply bind_Some in H as (s1 & H1 & H2).
  injection H2 as -> _. unfold commit_of.
  destruct (bool_decide_reflect (Engine.committed_text res = [])) as [E|E].
  - injection H1 as <-. by rewrite app_nil_r.
  - apply bind_Some in H1 as (e & _ & H1). injection H1 as <-.
    unfold accounts. cbn [tx set_flow set_texts].
    rewrite filter_app, !concat_app, Hr, Hf. cbn [raw_transcription full_transcription negb andb].
    cbn [concat]. rewrite app_nil_r. split; [done|].
    rewrite filter_cons, filter_nil. unfold credible.
    destruct (HallucinationGuard.isHallucination _).
    + rewrite decide_False by done. cbn. by rewrite app_nil_r.
    + rewrite decide_True by done. cbn. by rewrite app_nil_r.
Qed.

Lemma conclude_logged done res n w : accounts done (tx (st w)) ->
  stat (conclude res n w) = Running -> logged (done ++ commit_of res) (conclude res n w).
Proof.
  intros H. unfold conclude. destruct (finish res n (st w)) as [[s text]|] eqn:E; [|done].
  intros _. exists (done ++ commit_of res). rewrite <- (app_nil_r (done ++ commit_of res)) at 1.
  destruct text; (split; [done|by eapply finish_accounts]).
Qed.

Lemma infer_logged done env n w : accounts done (tx (st w)) ->
  stat (infer env n w) = Running -> logged (done ++ inference env (st w)) (infer env n w).
Proof.
  intros H. unfold infer, inference. destruct (engine (st w)) as [e|]; [|done].
  destruct (Engine.transcribeSlidingWindow env [] false e) as [[res|what] e']; [|done]. cbn [fst].
  destruct (_ && _); [destruct (_ =? 0); by exists done|]. by apply conclude_logged.
Qed.

Lemma logged_idle done w : in_flight (f w) = [] -> accounts done (tx (st w)) -> logged (done ++ []) w.
Proof. intros E H. exists done. by rewrite E. Qed.

Lemma cycle_logged done now_idle now sf env w : accounts done (tx (st w)) ->
  stat (cycle o now_idle now sf env w) = Running ->
  logged (done ++ inferred o (FCycle now_idle now sf env) w) (cycle o now_idle now sf env w).
Proof.
  intros H. unfold cycle, inferred, reaches_guard.
  assert (exists down s, watchdog o now_idle (st w) = (down, s) /\ engine s = engine (st w) /\
    tx s = tx (st w) /\ fl s = fl (st w)) as (down & s & -> & Ee & Et & Ef).
  { destruct (watchdog_frame o now_idle (st w)) as (down & b & ->). by eexists _, _. }
  cbn [snd]. rewrite <- Et in H. unfold inference. rewrite <- Ee, <- Ef.
  destruct (configured s), (engine s) as [e|] eqn:E; try (intros _; by destruct sf; apply logged_idle).
  destruct (_ <? _); cbn [negb andb]; [intros _; by destruct sf; apply logged_idle|].
  destruct (due _ _ _ _); cbn [negb andb]; [|intros _; by destruct sf; apply logged_idle].
  destruct sf; cbn [negb]; destruct (capacity_degraded (fl s)); cbn [negb]; try (intros _; by apply logged_idle).
  intros Hs. pose proof (infer_logged done env (Engine.getBufferSize e)
    (set_slot true (mark_down down (set_st s w))) H Hs) as Hl.
  unfold inference in Hl. cbn [st set_slot mark_down set_st] in Hl. by rewrite E in Hl.
Qed.

Lemma relocked_logged done env k w : f w = FLocking k -> accounts done (tx (st w)) ->
  stat (relocked env k w) = Running ->
  logged ((done ++ in_flight (f w)) ++ inferred o (FLock env) w) (relocked env k w).
Proof.
  intros Ef H. unfold inferred. rewrite Ef. destruct k as [|n|res n|res n]; cbn [relocked in_flight]; rewrite ?app_nil_r.
  - intros _. rewrite <- (app_nil_r done). by apply logged_idle.
  - by apply infer_logged.
  - intros _. by exists done.
  - by apply conclude_logged.
Qed.

Lemma handleBinary_tx now now_audio data s : tx (handleBinaryMessage now now_audio data s).1 = tx s.
Proof.
  unfold handleBinaryMessage, processAudioChunk. repeat case_match; simplify_eq/=; done.
Qed.

Lemma handleJson_accounts v message g s g' s' outs :
  handleJsonMessage o v message g s = Handled g' s' outs ->
  if existsb is_ready outs then tx s' = Texts [] [] else tx s' = tx s.
Proof.
  unfold handleJsonMessage, handleConfig, authenticate, apply_config. intros H.
  repeat (case_match; simplify_eq/=; try done).
Qed.

Lemma recv_logged fr w acc : r w = RRead -> logged acc w ->
  logged (log o (Recv fr) w (recv o fr w) acc) (recv o fr w).
Proof.
  intros Hr (done & -> & H). destruct fr as [v message|now now_audio data]; cbn [recv log inferred].
  - destruct (handleJsonMessage o v message (sh w) (st w)) as [g s outs| |what] eqn:E; [|by exists done..].
    destruct (send_all_pending outs (set_sh g (set_st s w))) as (-> & _ & Ef & _ & _ & Es & _).
    apply handleJson_accounts in E. destruct (existsb is_ready outs).
    + exists []. rewrite Ef, Es. cbn. by rewrite E.
    + exists done. rewrite Ef, Es. cbn. by rewrite E.
  - pose proof (handleBinary_tx now now_audio data (st w)) as E.
    destruct (handleBinaryMessage now now_audio data (st w)) as [s outs].
    destruct (send_all_pending outs (set_st s w)) as (_ & _ & Ef & _ & _ & Es & _).
    exists done. rewrite Ef, Es, app_nil_r. cbn in *. by rewrite E.
Qed.

Lemma flush_frame_leaving w w' : flush_frame w w' -> leaving w' = leaving w.
Proof. unfold leaving. by intros (_ & -> & _). Qed.

(** Until the session is being left. *)
Definition inv_texts (acc : list str) (w : world) : Prop :=
  leaving w = false -> stat w = Running -> logged acc w.

(** A step of the receive thread between two messages. *)
Lemma logged_frame acc w w' : f w' = f w -> st w' = st w -> logged acc w -> logged (acc ++ []) w'.
Proof. intros E1 E2 (done & -> & H). exists done. by rewrite E1, E2, app_nil_r. Qed.

Lemma step_texts ev w w' acc : inv_texts acc w -> step o ev w = Some w' ->
  inv_texts (log o ev w w' acc) w'.
Proof.
  intros Hw H. pose proof (step_running _ _ _ H) as Hrun. unfold step in H.
  rewrite bool_decide_eq_true_2 in H by done. unfold inv_texts in *.
  destruct ev as [fr| |env sf| |id| | |id| | |now_idle now sf env| |env];
    [cbn [log inferred]..|cbn [log]].
  - destruct (r w) eqn:Er; try done. injection H as <-. intros _ _. apply recv_logged; [done|].
    apply Hw; [|done]. unfold leaving. by rewrite Er.
  - destruct (r w) as [|[|m ms] leave| | |old d| | |] eqn:Er; try done. injection H as <-.
    intros Hl _. apply (logged_frame _ w); [done..|]. apply Hw; [|done].
    unfold leaving in *. rewrite Er. cbn in Hl. by destruct ms; [destruct leave|].
  - destruct (r w) eqn:Er; try done. destruct (f w) eqn:Ef; try done. injection H as <-.
    destruct (handleEnd env sf (st w)) as [[s outs]|] eqn:E; [|done].
    by apply handleEnd_outs in E as (t & i & ->).
  - destruct (r w) eqn:Er; try done. by injection H as <-.
  - destruct (r w) eqn:Er; try done. destruct (releaseModel id (sh w) (st w)) as [[[old|] g] s]; by injection H as <-.
  - destruct (r w) as [| | | |old []| | |] eqn:Er; try done; by injection H as <-.
  - destruct (r w) eqn:Er; try done. by injection H as <-.
  - destruct (r w) eqn:Er; try done. destruct (f w); try done.
    destruct (releaseModel id (sh w) (st w)) as [[[old|] g] s]; by injection H as <-.
  - destruct (f w) eqn:Ef; try done. injection H as <-. intros Hl _.
    destruct (Hw Hl Hrun) as (done & -> & H). exists done. rewrite Ef, app_nil_r. cbn.
    by destruct (flush_running w).
  - destruct (f w) eqn:Ef; try done. injection H as <-. intros Hl _.
    destruct (Hw Hl Hrun) as (done & -> & H). exists done. by rewrite Ef, app_nil_r.
  - destruct (f w) eqn:Ef; try done. destruct (mutex_held (r w)); [done|]. injection H as <-.
    rewrite (flush_frame_leaving w) by by apply cycle_frame. intros Hl Hs.
    destruct (Hw Hl Hrun) as (done & -> & H). rewrite Ef. cbn [in_flight]. rewrite app_nil_r.
    by apply cycle_logged.
  - destruct (f w) eqn:Ef; try done. injection H as <-. intros Hl _.
    destruct (Hw Hl Hrun) as (done & -> & H). exists done. by rewrite Ef, app_nil_r.
  - destruct (f w) eqn:Ef; try done. destruct (mutex_held (r w)); [done|]. injection H as <-.
    rewrite (flush_frame_leaving w) by by apply relocked_frame. intros Hl Hs.
    destruct (Hw Hl Hrun) as (done & -> & H). by eapply relocked_logged.
Qed.

(** The end of the stream, in terms of the transcripts before it. *)
Lemma handleEnd_final env slot_free s s' outs :
  handleEnd env slot_free s = Ok (s', outs) ->
  let full := full_transcription (tx s) ++ last_commit env slot_free s in
  exists i,
    outs = [Final (if bool_decide (full = []) then raw_transcription (tx s) else full) i; CloseNormal] /\
    (i <> None <-> engine s <> None /\ slot_free = false).
Proof.
  assert (forall a b : str, (if bool_decide (a = []) && negb (bool_decide (b = [])) then b else a) =
    if bool_decide (a = []) then b else a) as Hif.
  { intros a b. destruct (bool_decide_reflect (a = [])), (bool_decide_reflect (b = [])); cbn; congruence. }
  unfold handleEnd, last_commit. destruct (engine s) as [e|]; [destruct slot_free|]; cbn.
  - destruct (Engine.transcribeSlidingWindow env [] true e) as [[res|what] e']; cbn; [|done].
    rewrite Hif. intros [= _ <-]. eexists. split; [done|]. naive_solver.
  - rewrite Hif, app_nil_r. intros [= _ <-]. eexists. split; [done|]. naive_solver.
  - rewrite Hif, app_nil_r. intros [= _ <-]. eexists. split; [done|]. naive_solver.
Qed.

Lemma run_texts evs : forall w w' acc, inv_texts acc w -> run o evs w = Some w' ->
  inv_texts (commits o evs w acc) w'.
Proof.
  induction evs as [|ev evs IH]; intros w w' acc Hw H; [by injection H as <-|].
  apply Transitions.exec_cons in H as (w1 & H1 & H2). cbn [commits]. rewrite H1.
  apply IH; [|done]. by apply step_texts.
Qed.

End proofs.

(** ** Properties *)

Section properties.
Context {J : JsonLib} (o : opts).


(** The inference slot is not leaked.  Whenever the flush thread of a live
    session is between two iterations, or has returned, it holds no slot of the
    inference limiter. *)
Theorem flush_slot_released now g evs w :
  run o evs (start now g) = Some w -> stat w = Running -> asleep (f w) = true -> slot w = false.
Proof. intros H. apply (run_wf o evs _ _ (wf_start now g) H). Qed.

(** C4: The final text accounts for every commit.  When a stream ends, the final
    text is the concatenation, in order, of the texts that the run's inferences
    committed since the last successful configuration and that pass the
    hallucination guard, followed by what the forced last inference commits; if
    that is empty it is the concatenation of all the commits, filtered out or not.
    The commits are those of the run's log, which is kept apart from the session's
    transcripts; one whose "resume" is being sent while a configuration succeeds
    counts as a commit after it.  The text is flagged incomplete exactly when there
    is an engine and no inference slot came free for the last inference. *)
Theorem final_text_spec now g evs w env slot_free w' :
  run o evs (start now g) = Some w -> step o (Join env slot_free) w = Some w' -> pending w' <> [] ->
  let cs := commits o evs (start now g) [] in
  let good := concat (filter credible cs) ++ last_commit env slot_free (st w) in
  exists i,
    pending w' = [Final (if bool_decide (good = []) then concat cs else good) i; CloseNormal] /\
    (i <> None <-> engine (st w) <> None /\ slot_free = false).
Proof.
  intros H Hj Hp cs good.
  assert (inv_texts cs w) as Hi by (eapply run_texts; [|done]; by exists []).
  pose proof (step_running o _ _ _ Hj) as Hrun.
  unfold step in Hj. rewrite bool_decide_eq_true_2 in Hj by done.
  destruct (r w) eqn:Er; try done. destruct (f w) eqn:Ef; try done. injection Hj as <-.
  destruct (Hi ltac:(unfold leaving; by rewrite Er) Hrun) as (ks & Hcs & Hraw & Hfull).
  rewrite Ef in Hcs. cbn [in_flight] in Hcs. rewrite app_nil_r in Hcs. rewrite <- Hcs in Hraw, Hfull.
  destruct (handleEnd env slot_free (st w)) as [[s outs]|] eqn:E; [|done].
  apply handleEnd_final in E as (i & -> & Hinc). exists i. split; [|done].
  unfold good. by rewrite <- Hraw, <- Hfull.
Qed.

End properties.

(** A small session: one configuration, then the end of the stream. *)
Definition sample_opts : opts :=
  Opts (lit "m.bin") 5 4 [] 30 F32.zero F32.zero F32.zero F32.zero 500 (lit "vad.bin")
    F32.zero 250 2000 F32.zero 400 F32.zero.

Definition any_env : config_env :=
  ConfigEnv 0 0 0 ApiAuthClient.Denied (Some 0%nat) true None.

Definition no_whisper : Engine.env :=
  Engine.Env true (λ _ _, None) (λ _ _, Engine.Inference 0 None []) (λ _, 0).

Definition short_session : list event :=
  [Recv (Text any_env (lit "type=config,language=es")); Emit; FCheck; FCycle 5 5 true no_whisper;
   Recv (Text any_env (lit "type=end")); FCheck].

Definition open_shared : shared := Shared (AuthManager.mk ∅ false 0 []) ModelCache.init.

Definition whole_session : list event := short_session ++ [Join no_whisper false; Emit; Emit].


Lemma flush_slot_released_witness :
  exists w, run (J := TinyJson.lib) sample_opts whole_session (start 0 open_shared) = Some w /\ slot w = false.
Proof.
  destruct (run (J := TinyJson.lib) sample_opts whole_session (start 0 open_shared)) as [w|] eqn:E; [|by vm_compute in E].
  assert (stat w = Running /\ asleep (f w) = true) as [Hs Hf] by (vm_compute in E; by injection E as <-).
  exists w. split; [done|]. exact (flush_slot_released sample_opts 0 open_shared whole_session w E Hs Hf).
Defined.

(** Ten seconds of silence, in which whisper hears a finished and an unfinished
    phrase, in a session without the silence gate. *)
Definition ungated_opts : opts :=
  Opts (lit "m.bin") 5 4 [] 30 F32.zero F32.zero F32.zero F32.zero 500 []
    F32.zero 250 2000 F32.zero 400 F32.zero.

Definition hearing (segs : list (option str * Z)) : Engine.env :=
  Engine.Env true (λ _ _, None) (λ _ _, Engine.Inference 0 None segs) (λ _, 0).

Definition greeting : Engine.env := hearing [(Some (lit " hola"), 700); (Some (lit " mun"), 990)].

Definition spoken_session : list event :=
  [Recv (Text any_env (lit "type=config,language=es")); Emit;
   Recv (Binary 5 5 (replicate (Z.to_nat 640000) 0));
   FCheck; FCycle 5 5 true greeting; FEmit; FLock greeting;
   Recv (Text any_env (lit "type=end")); FCheck].

Lemma final_text_spec_witness :
  exists w w' i,
    run (J := TinyJson.lib) ungated_opts spoken_session (start 0 open_shared) = Some w /\
    step (J := TinyJson.lib) ungated_opts (Join (hearing [(Some (lit " mundo"), 300)]) true) w = Some w' /\
    pending w' = [Final (lit " hola mundo") i; CloseNormal].
Proof.
  set (o := ungated_opts). set (env := hearing [(Some (lit " mundo"), 300)]).
  assert (match run (J := TinyJson.lib) o spoken_session (start 0 open_shared) with
          | Some w => match step (J := TinyJson.lib) o (Join env true) w with
                      | Some w' => match pending w' with [] => false | _ => true end &&
                          bool_decide (commits (J := TinyJson.lib) o spoken_session (start 0 open_shared) []
                                       = [lit " hola"]) &&
                          bool_decide (last_commit env true (st w) = lit " mundo")
                      | None => false
                      end
          | None => false
          end = true) as Hb by (vm_compute; reflexivity).
  destruct (run (J := TinyJson.lib) o spoken_session (start 0 open_shared)) as [w|] eqn:E; [|discriminate Hb].
  destruct (step (J := TinyJson.lib) o (Join env true) w) as [w'|] eqn:E'; [|discriminate Hb].
  apply andb_true_iff in Hb as [[Hp Hc%bool_decide_eq_true]%andb_true_iff Hl%bool_decide_eq_true].
  assert (pending w' <> []) as Hp' by (intros Hn; rewrite Hn in Hp; discriminate Hp).
  destruct (final_text_spec o 0 open_shared spoken_session w env true w' E E' Hp') as (i & H & _).
  exists w, w', i. split; [exact eq_refl|]. split; [exact E'|]. rewrite H, Hc, Hl. reflexivity.
Defined.

End FlushLoop.
