(* ===== verification/Wedge.v ===== *)
(** Flow control that never resumes.  A full audio buffer is only emptied by a
    commit; this file shows what follows when an inference on a full buffer
    commits nothing. *)

From stdpp Require Import prelude strings list.
From Stdlib Require Import ZArith Lia.
From S2P Require Import Prelude Floats Json AuthManager.
From S2P Require Import ModelCache VadGate Engine Session FlushLoop.

Module Wedge.
Import Session.
Import FlushLoop.

(** The buffer [b] is full and has already been transcribed. *)
Definition wedged (b : list float32) (s : Session.t) : Prop :=
  configured s = true /\ Engine.HIGH_WATER_MARK <= zlen b /\
  last_transcribed_size (fl s) = zlen b /\
  exists e, engine s = Some e /\ Engine.audio_buffer e = b.

(** Everything except a new configuration, the end of the stream and the loss
    of the connection. *)
Definition streaming (ev : event) : Prop :=
  match ev with
  | Recv (Binary _ _ _) | Emit | FCheck | FBusy | FCycle _ _ _ _ | FEmit | FLock _ => True
  | _ => False
  end.

(** The flush thread is not about to end a saturation episode. *)
Definition no_resume_ahead (p : fpc) : Prop :=
  match p with
  | FIdle | FChecked | FExited | FLocking KLoop => True
  | FSending m KLoop => m <> FlowResume
  | _ => False
  end.

Record calm (b : list float32) (sent0 : list out) (w : world) : Prop := {
  calm_st : wedged b (st w);
  calm_f : no_resume_ahead (f w);
  calm_pending : FlowResume ∉ pending w;
  calm_sent : exists new, sent w = sent0 ++ new /\ FlowResume ∉ new
}.

Section proofs.
Context {J : JsonLib} (o : opts) (Hms : 0 < msToSamples16kHz (flush_min_new_audio_ms o)).

Lemma handleBinary_wedged b now now_audio data s :
  wedged b s ->
  wedged b (handleBinaryMessage now now_audio data s).1 /\ FlowResume ∉ (handleBinaryMessage now now_audio data s).2.
Proof.
  intros Hw.
  assert (forall now audio s0, wedged b s0 ->
    wedged b (Session.processAudioChunk now audio s0).1 /\
    FlowResume ∉ (Session.processAudioChunk now audio s0).2) as Hchunk.
  { clear. intros now audio s (Hc & Hh & Hl & e & He & Hb). unfold Session.processAudioChunk.
    rewrite Hc, He, Engine.processAudioChunk_full by (by rewrite Hb).
    split; [by repeat split; try done; exists e|]. cbn.
    repeat case_match; rewrite ?elem_of_app, ?elem_of_cons, ?elem_of_nil; naive_solver. }
  unfold handleBinaryMessage.
  repeat (case_match; cbn [fst snd];
    try (split; [done|rewrite ?elem_of_cons, ?elem_of_nil; naive_solver])).
  apply Hchunk. destruct Hw as (? & ? & ? & ?). by repeat split.
Qed.

(** No inference is due on a buffer that has already been transcribed. *)
Lemma wedged_not_due b now s : wedged b s -> due o now (zlen b) s = false.
Proof.
  intros (_ & _ & Hl & _). unfold due. rewrite Hl. unfold usub, u64. rewrite Z.sub_diag.
  rewrite Zmod_0_l, (proj2 (Z.leb_gt _ _)) by done. rewrite !Z.gtb_ltb, (Z.ltb_irrefl (zlen b)).
  by rewrite andb_false_r.
Qed.

Lemma cycle_wedged b now_idle now sf env w :
  wedged b (st w) ->
  exists w', cycle o now_idle now sf env w = next_iteration w' /\ wedged b (st w') /\
    sent w' = sent w /\ r w' = r w.
Proof.
  intros Hw. unfold cycle.
  assert (wedged b (watchdog o now_idle (st w)).2) as Hs.
  { unfold watchdog. destruct Hw as (? & ? & ? & ?). destruct (_ && _); by repeat split. }
  destruct (watchdog o now_idle (st w)) as [down s]. cbn [snd] in Hs.
  destruct Hs as (Hc & Hh & Hl & e & He & Hb) eqn:Hdef. clear Hdef. rewrite Hc, He.
  unfold Engine.getBufferSize. rewrite Hb.
  rewrite (proj2 (Z.ltb_ge _ _)) by (unfold MIN_BUFFER_SAMPLES, Engine.HIGH_WATER_MARK in *; lia).
  rewrite (wedged_not_due b now s) by (by repeat split; try done; exists e). cbn [negb].
  eexists. split; [done|]. cbn. split; [|done]. repeat split; try done. by exists e.
Qed.

Lemma step_calm b sent0 ev w w' :
  streaming ev -> calm b sent0 w -> step o ev w = Some w' -> calm b sent0 w'.
Proof.
  intros Hev [Hs Hf Hp Hn] H. unfold step in H. destruct (bool_decide _); [|done].
  destruct ev as [fr| |env sf| |id| | |id| | |now_idle now sf env| |env]; try done.
  - destruct fr as [|now now_audio data]; [done|]. destruct (r w) eqn:Er; try done. injection H as <-.
    cbn [recv]. pose proof (handleBinary_wedged b now now_audio data (st w) Hs) as [Hw Ho].
    destruct (handleBinaryMessage now now_audio data (st w)) as [s outs]. cbn [fst snd] in *.
    destruct (send_all_pending outs (set_st s w)) as (E1 & E2 & E3 & E4 & E5 & E6 & _).
    split; by rewrite ?E1, ?E2, ?E3, ?E6.
  - destruct (r w) as [|[|m ms] leave| | |old d| | |] eqn:Er; try done. injection H as <-.
    unfold pending in Hp. rewrite Er in Hp. apply not_elem_of_cons in Hp as [Hm Hms'].
    split; try done.
    + unfold pending. destruct ms; [|done]. destruct leave; apply not_elem_of_nil.
    + destruct Hn as (new & E & Hn). exists (new ++ [m]). cbn. rewrite E, (assoc_L (++)).
      split; [done|]. rewrite elem_of_app, list_elem_of_singleton. naive_solver.
  - destruct (f w) eqn:Ef; try done. injection H as <-. split; try done.
    cbn. by destruct (flush_running w).
  - destruct (f w) eqn:Ef; try done. injection H as <-. by split.
  - destruct (f w) eqn:Ef; try done. destruct (mutex_held (r w)); [done|]. injection H as <-.
    destruct (cycle_wedged b now_idle now sf env w Hs) as (w' & -> & Hs' & E1 & E2).
    split; try done; unfold pending in *; cbn; by rewrite ?E1, ?E2.
  - destruct (f w) as [| |m k| |] eqn:Ef; try done. injection H as <-.
    destruct k; try done. split; try done.
    destruct Hn as (new & E & Hn). exists (new ++ [m]). cbn. rewrite E, (assoc_L (++)).
    split; [done|]. rewrite elem_of_app, list_elem_of_singleton. naive_solver.
  - destruct (f w) as [| | |k|] eqn:Ef; try done. destruct (mutex_held (r w)); [done|].
    injection H as <-. by destruct k.
Qed.

(** An iteration whose inference leaves a full buffer as it is. *)
Lemma cycle_uncommitted e now_idle now env res e' w :
  f w = FChecked -> FlowResume ∉ pending w -> configured (st w) = true ->
  engine (st w) = Some e -> Engine.HIGH_WATER_MARK <= zlen (Engine.audio_buffer e) ->
  due o now (zlen (Engine.audio_buffer e)) (st w) = true ->
  capacity_degraded (fl (st w)) = false ->
  Engine.transcribeSlidingWindow env [] false e = (Ok res, e') ->
  Engine.committed_text res = [] -> Engine.audio_buffer e' = Engine.audio_buffer e ->
  calm (Engine.audio_buffer e) (sent w) (cycle o now_idle now true env w).
Proof.
  intros Hf Hp Hc He Hh Hd Hdeg Ht Hcom Hbuf. unfold cycle.
  destruct (watchdog_frame o now_idle (st w)) as (down & b & ->).
  cbn [configured engine]. rewrite Hc, He. unfold Engine.getBufferSize.
  rewrite (proj2 (Z.ltb_ge _ _)) by (unfold MIN_BUFFER_SAMPLES, Engine.HIGH_WATER_MARK in *; lia).
  unfold due in *. cbn [fl last_audio_time]. rewrite Hd, Hdeg. cbn [negb].
  unfold infer. cbn [engine st set_slot mark_down set_st]. rewrite Ht.
  unfold Engine.getBufferSize. rewrite Hbuf.
  rewrite (proj2 (Z.ltb_ge _ _)) by (unfold LOW_WATER_MARK, Engine.HIGH_WATER_MARK in *; lia).
  rewrite andb_false_r. unfold conclude, finish.
  rewrite (bool_decide_eq_true_2 (Engine.committed_text res = [])) by done.
  cbn [mbind option_bind].
  assert (wedged (Engine.audio_buffer e)
    (mk (Some e') true (model_acquired (st w)) (language (st w))
       (Flow (buffer_overflowed (fl (st w))) (dropped_chunks (fl (st w))) (capacity_degraded (fl (st w)))
          (zlen (Engine.audio_buffer e)))
       (tx (st w)) (rate (st w)) (last_audio_time (st w)) b)) as Hw.
  { repeat split; try done. by exists e'. }
  cbn [negb andb orb].
  destruct (negb (bool_decide (Engine.partial_text res = [])) && _); split; try done;
    by exists []; rewrite app_nil_r; split; [|apply not_elem_of_nil].
Qed.

Lemma run_calm b sent0 evs w w' :
  Forall streaming evs -> calm b sent0 w -> run o evs w = Some w' -> calm b sent0 w'.
Proof. apply run_ind. intros ev v v' He. by apply step_calm. Qed.

End proofs.

(** ** Properties *)

(** C18: A full buffer that is not committed never drains.  When an iteration of
    the flush thread on a buffer at the high-water mark commits nothing - the
    silence gate hears no speech, or there is one unfinished segment - then,
    however long the client keeps streaming and whatever later inferences would
    answer, the same buffer stays in place, every further chunk is dropped, and
    "resume" is never sent: only a new configuration or the end of the stream
    gets the session out of it. *)
Theorem full_buffer_never_drains {J : JsonLib} o e now_idle now env res e' evs w w' :
  0 < msToSamples16kHz (flush_min_new_audio_ms o) ->
  f w = FChecked -> FlowResume ∉ pending w -> configured (st w) = true ->
  engine (st w) = Some e -> Engine.HIGH_WATER_MARK <= zlen (Engine.audio_buffer e) ->
  due o now (zlen (Engine.audio_buffer e)) (st w) = true ->
  capacity_degraded (fl (st w)) = false ->
  Engine.transcribeSlidingWindow env [] false e = (Ok res, e') ->
  Engine.committed_text res = [] -> Engine.audio_buffer e' = Engine.audio_buffer e ->
  Forall streaming evs -> run o (FCycle now_idle now true env :: evs) w = Some w' ->
  (exists e2, engine (st w') = Some e2 /\ Engine.audio_buffer e2 = Engine.audio_buffer e /\
     forall chunk, Engine.processAudioChunk chunk e2 = (true, e2)) /\
  exists new, sent w' = sent w ++ new /\ FlowResume ∉ new.
Proof.
  intros Hms Hf Hp Hc He Hh Hd Hdeg Ht Hcom Hbuf Hevs H. cbn -[step] in H.
  apply bind_Some in H as (w1 & H1 & H2).
  assert (calm (Engine.audio_buffer e) (sent w) w1) as Hcalm.
  { unfold step in H1. destruct (bool_decide _); [|done]. rewrite Hf in H1.
    destruct (mutex_held (r w)); [done|]. injection H1 as <-.
    by eapply cycle_uncommitted. }
  apply (run_calm o Hms _ _ _ _ _ Hevs Hcalm) in H2 as [(_ & Hh2 & _ & e2 & He2 & Hb2) _ _ Hs].
  split; [|done]. exists e2. split; [done|]. split; [done|].
  intros chunk. apply Engine.processAudioChunk_full. by rewrite Hb2.
Qed.

(** Twenty seconds of silence in a session with the silence gate. *)
Definition silent_env : Engine.env :=
  Engine.Env true (λ _ _, Some []) (λ _ _, Engine.Inference 0 None []) (λ _, 0).

Definition silence : list float32 := replicate (Z.to_nat 320000) F32.zero.

Definition silent_engine : Engine.t :=
  Engine.set_buffer silence
    (configure_engine sample_opts (lit "es") F32.zero Engine.fresh).

Definition silent_world : world :=
  World (mk (Some silent_engine) true true (lit "es") (Flow true 1 false 0) (Texts [] [])
           (Window 0 0) 0 false)
    (Shared (AuthManager.mk ∅ false 0 []) ModelCache.init) true FChecked RRead false [FlowPause]
    false Running.

Lemma full_buffer_never_drains_witness :
  exists w' e2, run (J := TinyJson.lib) sample_opts [FCycle 1000000 1000000 true silent_env] silent_world
                  = Some w' /\
    engine (st w') = Some e2 /\ Engine.audio_buffer e2 = silence /\
    forall chunk, Engine.processAudioChunk chunk e2 = (true, e2).
Proof.
  assert (zlen silence = 320000) as Hz by (by apply zlen_replicate).
  destruct (Engine.silent_pass silent_env false silent_engine
    (VadGate.create (lit "vad.bin") F32.zero 250 2000 F32.zero 400 F32.zero 4))
    as (e' & Ht & Hb); [reflexivity| |reflexivity|reflexivity|].
  { intros E. change (silence = []) in E. rewrite E in Hz. discriminate Hz. }
  assert (run (J := TinyJson.lib) sample_opts [FCycle 1000000 1000000 true silent_env] silent_world =
    Some (cycle sample_opts 1000000 1000000 true silent_env silent_world)) as Hrun by reflexivity.
  assert (FlowResume ∉ pending silent_world) as Hp by apply not_elem_of_nil.
  assert (due sample_opts 1000000 (zlen (Engine.audio_buffer silent_engine)) (st silent_world) = true)
    as Hd by (change (Engine.audio_buffer silent_engine) with silence; rewrite Hz; reflexivity).
  assert (Engine.HIGH_WATER_MARK <= zlen (Engine.audio_buffer silent_engine)) as Hh
    by (change (Engine.audio_buffer silent_engine) with silence; rewrite Hz; done).
  destruct (full_buffer_never_drains sample_opts silent_engine 1000000 1000000 silent_env _ e' []
    silent_world _ eq_refl eq_refl Hp eq_refl eq_refl Hh Hd eq_refl Ht eq_refl Hb
    (Forall_nil_2 _) Hrun) as [(e2 & H1 & H2 & H3) _].
  exists (cycle sample_opts 1000000 1000000 true silent_env silent_world), e2.
  split; [exact Hrun|]. split; [exact H1|]. split; [exact H2|exact H3].
Defined.

End Wedge.
