(* ===== verification/FlowControl.v ===== *)
(** Flow control under the interleaving of the two threads: the "pause" of the
    receive thread and the "resume" of the flush thread are written after
    [state_mutex_] has been let go, so that they can reach the client in the
    opposite order. *)

From stdpp Require Import prelude strings list.
From Stdlib Require Import ZArith Lia.
From S2P Require Import Prelude Transitions Floats Json AuthManager.
From S2P Require Import ModelCache VadGate Engine Session FlushLoop Wedge.

Module FlowControl.
Import Session.
Import FlushLoop.

(** Every event except the arrival of audio: what a paused client leaves. *)
Definition paused_client (ev : event) : Prop :=
  match ev with Recv (Binary _ _ _) => False | _ => True end.

(** The flush thread is not about to send "resume". *)
Definition quiet (p : fpc) : Prop :=
  match p with
  | FIdle | FChecked | FExited | FLocking (KLoop | KInfer _) => True
  | FSending m (KLoop | KInfer _) => m <> FlowResume
  | _ => False
  end.

(** No saturation episode is open, and nothing but the messages [new] has been
    sent since [sent0]. *)
Record settled (sent0 : list out) (w : world) : Prop := {
  set_flag : buffer_overflowed (fl (st w)) = false;
  set_quiet : quiet (f w);
  set_pending : FlowResume ∉ pending w;
  set_sent : exists new, sent w = sent0 ++ new /\ FlowResume ∉ new
}.

Section proofs.
Context {J : JsonLib} (o : opts).

(** *** The receive thread never says "resume" *)

Definition no_resume (l : list out) : Prop := Forall (λ m, m <> FlowResume) l.

Lemma no_resume_spec l : no_resume l <-> FlowResume ∉ l.
Proof. unfold no_resume. rewrite Forall_forall. naive_solver. Qed.

Lemma handleConfig_settled v msg g s g' s' outs :
  handleConfig o v msg g s = (g', s', outs) -> buffer_overflowed (fl s) = false ->
  buffer_overflowed (fl s') = false /\ no_resume outs.
Proof.
  unfold handleConfig, authenticate, apply_config. intros H Hs.
  repeat (case_match; simplify_eq/=); (split; [done|by repeat constructor]).
Qed.

Lemma handleJson_settled v message g s g' s' outs :
  handleJsonMessage o v message g s = Handled g' s' outs -> buffer_overflowed (fl s) = false ->
  buffer_overflowed (fl s') = false /\ no_resume outs.
Proof.
  unfold handleJsonMessage. intros H Hs.
  repeat (case_match; simplify_eq/=; try (split; [done|by repeat constructor])).
  by eapply handleConfig_settled.
Qed.

Lemma handleEnd_settled env sf s s' outs :
  handleEnd env sf s = Ok (s', outs) -> fl s' = fl s /\ no_resume outs.
Proof.
  unfold handleEnd. destruct (engine s) as [e|]; [destruct sf|].
  - destruct (Engine.transcribeSlidingWindow env [] true e) as [[res|what] e']; cbn; [|done].
    intros [= <- <-]. split; [done|by repeat constructor].
  - intros [= <- <-]. split; [done|by repeat constructor].
  - intros [= <- <-]. split; [done|by repeat constructor].
Qed.

Lemma releaseModel_flow id g s : fl (releaseModel id g s).2 = fl s.
Proof. unfold releaseModel. by repeat case_match. Qed.

Lemma send_all_settled outs s g sent0 w :
  settled sent0 w -> buffer_overflowed (fl s) = false -> no_resume outs ->
  settled sent0 (send_all outs (set_sh g (set_st s w))).
Proof.
  intros [Hf Hq Hp Hn] Hs Ho. apply no_resume_spec in Ho.
  destruct (send_all_pending outs (set_sh g (set_st s w))) as (E1 & E2 & E3 & _ & _ & E6 & _).
  split; by rewrite ?E1, ?E2, ?E3, ?E6.
Qed.

(** *** The flush thread *)

Lemma conclude_settled sent0 res n w : settled sent0 w -> settled sent0 (conclude res n w).
Proof.
  intros [Hf Hq Hp Hn]. unfold conclude, finish.
  destruct (bool_decide _); cbn [mbind option_bind].
  - by case_match.
  - destruct (engine (st w)); cbn [mbind option_bind]; [|by split]. by case_match.
Qed.

Lemma infer_settled sent0 env n w : settled sent0 w -> settled sent0 (infer env n w).
Proof.
  intros Hw. unfold infer. destruct (engine (st w)) as [e|]; [|by destruct Hw].
  destruct (Engine.transcribeSlidingWindow env [] false e) as [[res|what] e']; [|by destruct Hw].
  cbn [st set_st]. cbn [fl set_engine]. rewrite (set_flag _ _ Hw). cbn [andb].
  apply conclude_settled. by destruct Hw.
Qed.

Lemma cycle_settled sent0 now_idle now sf env w :
  settled sent0 w -> settled sent0 (cycle o now_idle now sf env w).
Proof.
  intros Hw. unfold cycle. destruct (watchdog_frame o now_idle (st w)) as (down & b & ->).
  set (s := mk _ _ _ _ _ _ _ _ _). assert (settled sent0 (mark_down down (set_st s w))) as Hw1 by (by destruct Hw).
  assert (settled sent0 (next_iteration (mark_down down (set_st s w)))) as Hn by (by destruct Hw1).
  destruct (configured s); [|done]. destruct (engine s) as [e|]; [|done].
  destruct (_ <? _); [done|]. destruct (negb (due _ _ _ _)); [done|].
  destruct sf; cbn [negb]; destruct (capacity_degraded (fl s)); try done; [by destruct Hw1| |by destruct Hw1].
  apply infer_settled. by destruct Hw1.
Qed.

Lemma step_settled sent0 ev w w' :
  paused_client ev -> settled sent0 w -> step o ev w = Some w' -> settled sent0 w'.
Proof.
  intros Hev Hw H. pose proof Hw as [Hs Hf Hp (new & En & Hn)]. unfold step in H.
  destruct (bool_decide _); [|done].
  destruct ev as [fr| |env sf| |id| | |id| | |now_idle now sf env| |env]; cbn in H.
  - destruct fr as [v message|]; [|done]. destruct (r w) eqn:Er; try done. injection H as <-.
    cbn [recv]. destruct (handleJsonMessage o v message (sh w) (st w)) as [g s outs| |what] eqn:E.
    + destruct (handleJson_settled _ _ _ _ _ _ _ E Hs). by apply send_all_settled.
    + split; try done; [apply not_elem_of_nil|by exists new].
    + split; try done; [apply not_elem_of_nil|by exists new].
  - destruct (r w) as [|[|m ms] leave| | |old d| | |] eqn:Er; try done. injection H as <-.
    unfold pending in Hp. rewrite Er in Hp. apply not_elem_of_cons in Hp as [Hm Hms].
    split; try done.
    + unfold pending. destruct ms; [|done]. destruct leave; apply not_elem_of_nil.
    + exists (new ++ [m]). cbn. rewrite En, (assoc_L (++)). split; [done|].
      rewrite elem_of_app, list_elem_of_singleton. naive_solver.
  - destruct (r w), (f w) eqn:Ef; try done. injection H as <-.
    destruct (handleEnd env sf (st w)) as [[s outs]|what] eqn:E.
    + apply handleEnd_settled in E as [E Ho]. rewrite <- E in Hs.
      apply (send_all_settled outs s (sh w) sent0 w) in Hs; [|done..]. by destruct outs.
    + split; cbn; try done; [by rewrite Ef|apply not_elem_of_nil|by exists new].
  - destruct (r w); try done. injection H as <-.
    split; try done; [apply not_elem_of_nil|by exists new].
  - destruct (r w); try done. pose proof (releaseModel_flow id (sh w) (st w)) as E.
    destruct (releaseModel _ _ _) as [[old g] s]. injection H as <-. cbn in E.
    split; cbn; rewrite ?E; try done; [destruct old; apply not_elem_of_nil|by exists new].
  - destruct (r w) as [| | | |old destroying| | |]; try done. injection H as <-.
    split; try done; [destruct destroying; apply not_elem_of_nil|by exists new].
  - destruct (r w); try done. injection H as <-.
    split; try done; [apply not_elem_of_nil|by exists new].
  - destruct (r w), (f w) eqn:Ef; try done. pose proof (releaseModel_flow id (sh w) (st w)) as E.
    destruct (releaseModel _ _ _) as [[old g] s]. injection H as <-. cbn in E.
    split; cbn; rewrite ?E, ?Ef; try done; [destruct old; apply not_elem_of_nil|by exists new].
  - destruct (f w) eqn:Ef; try done. injection H as <-.
    split; try done; [by cbn; destruct (flush_running w)|by exists new].
  - destruct (f w) eqn:Ef; try done. injection H as <-. by split; [| | |exists new].
  - destruct (f w) eqn:Ef; try done. destruct (mutex_held (r w)); [done|]. injection H as <-.
    by apply cycle_settled.
  - destruct (f w) as [| |m k| |] eqn:Ef; try done. injection H as <-.
    split; try done; [by cbn; destruct k|]. exists (new ++ [m]). cbn. rewrite En, (assoc_L (++)).
    split; [done|]. rewrite elem_of_app, list_elem_of_singleton. by destruct k; naive_solver.
  - destruct (f w) as [| | |k|] eqn:Ef; try done. destruct (mutex_held (r w)); [done|].
    injection H as <-. destruct k; try done; cbn [relocked].
    + by destruct Hw.
    + by apply infer_settled.
Qed.

Lemma run_settled sent0 evs w w' :
  Forall paused_client evs -> settled sent0 w -> run o evs w = Some w' -> settled sent0 w'.
Proof. apply run_ind. intros ev v v' He. by apply step_settled. Qed.

(** *** The race *)

(** The schedule: the iteration that drains the buffer, its warning about the
    dropped chunks (unless their number has just been reported), its "resume",
    the end of the episode, and only then the "pause" of the receive thread. *)
Definition overtaking (now_idle now : Z) (env : Engine.env) (dropped : Z) : list event :=
  [FCycle now_idle now true env] ++
  (if dropped mod WARNING_INTERVAL_CHUNKS =? 0 then [] else [FEmit; FLock env]) ++
  [FEmit; FLock env; Emit].

(** What the flush thread says meanwhile. *)
Definition resumption (dropped : Z) : list out :=
  (if dropped mod WARNING_INTERVAL_CHUNKS =? 0 then [] else [BufferFull dropped]) ++ [FlowResume].

Lemma step_running_eq ev w : stat w = Running -> step o ev w =
  match ev with
  | FEmit => match f w with FSending m k => Some (set_f (FLocking k) (emit m w)) | _ => None end
  | FLock env => match f w with
                 | FLocking k => if mutex_held (r w) then None else Some (relocked env k w)
                 | _ => None
                 end
  | _ => step o ev w
  end.
Proof. intros H. unfold step. rewrite bool_decide_eq_true_2 by done. by destruct ev. Qed.

(** The iteration up to the first message that ends the episode. *)
Lemma cycle_drains e now_idle now env res e' w :
  f w = FChecked -> configured (st w) = true -> engine (st w) = Some e ->
  MIN_BUFFER_SAMPLES <= zlen (Engine.audio_buffer e) ->
  due o now (zlen (Engine.audio_buffer e)) (st w) = true ->
  capacity_degraded (fl (st w)) = false -> buffer_overflowed (fl (st w)) = true ->
  Engine.transcribeSlidingWindow env [] false e = (Ok res, e') ->
  zlen (Engine.audio_buffer e') < LOW_WATER_MARK ->
  let d := dropped_chunks (fl (st w)) in
  let w1 := cycle o now_idle now true env w in
  stat w1 = stat w /\ r w1 = r w /\ sent w1 = sent w /\ engine (st w1) = Some e' /\
  exists n, f w1 = if d mod WARNING_INTERVAL_CHUNKS =? 0 then FSending FlowResume (KFinish res n)
                   else FSending (BufferFull d) (KResume res n).
Proof.
  intros Hf Hc He Hmin Hd Hdeg Hov Ht Hlow. unfold cycle.
  destruct (watchdog_frame o now_idle (st w)) as (down & b & ->).
  cbn [configured engine]. rewrite Hc, He. unfold Engine.getBufferSize.
  rewrite (proj2 (Z.ltb_ge _ _)) by done.
  unfold due in *. cbn [fl last_audio_time]. rewrite Hd, Hdeg. cbn [negb].
  unfold infer. cbn [engine st set_slot mark_down set_st]. rewrite Ht.
  unfold Engine.getBufferSize. rewrite (proj2 (Z.ltb_lt _ _)) by done.
  cbn [st set_st fl set_engine]. rewrite Hov. cbn [andb].
  destruct (dropped_chunks (fl (st w)) mod WARNING_INTERVAL_CHUNKS =? 0); cbn; eauto 6.
Qed.

(** The end of the episode. *)
Lemma episode_ends env res n w e : stat w = Running -> engine (st w) = Some e ->
  let w1 := relocked env (KFinish res n) w in
  stat w1 = Running /\ r w1 = r w /\ sent w1 = sent w /\ quiet (f w1) /\
  buffer_overflowed (fl (st w1)) = false.
Proof.
  intros Hs He. cbn [relocked]. unfold conclude, finish. cbn [st set_st engine end_episode set_flow].
  rewrite He. destruct (bool_decide _); cbn [mbind option_bind]; by case_match.
Qed.

(** A message written without the mutex, and the mutex locked again. *)
Lemma emit_and_lock env m k w :
  stat w = Running -> mutex_held (r w) = false -> f w = FSending m k ->
  run o [FEmit; FLock env] w = Some (relocked env k (set_f (FLocking k) (emit m w))).
Proof.
  intros Hs Hr Hf. cbn -[step]. rewrite !step_running_eq, Hf by done. cbn -[step].
  rewrite step_running_eq by done. cbn. by rewrite Hr.
Qed.

(** From the "resume" to the "pause" that it overtakes. *)
Lemma resume_then_pause env res n w e : stat w = Running -> engine (st w) = Some e ->
  r w = RSend [FlowPause] false -> f w = FSending FlowResume (KFinish res n) ->
  exists w', run o [FEmit; FLock env; Emit] w = Some w' /\ r w' = RRead /\
    sent w' = sent w ++ [FlowResume; FlowPause] /\ settled (sent w') w'.
Proof.
  intros Hs He Hr Hf. change [FEmit; FLock env; Emit] with ([FEmit; FLock env] ++ [Emit]).
  unfold run. rewrite Transitions.exec_app. fold (run o).
  rewrite (emit_and_lock env _ _ w Hs ltac:(by rewrite Hr) Hf). cbn [mbind option_bind].
  destruct (episode_ends env res n (set_f (FLocking (KFinish res n)) (emit FlowResume w)) e Hs He)
    as (S1 & R1 & N1 & Q1 & B1).
  generalize dependent (relocked env (KFinish res n) (set_f (FLocking (KFinish res n)) (emit FlowResume w))).
  intros v S1 R1 N1 Q1 B1. cbn in R1, N1. exists (set_r RRead (emit FlowPause v)). split.
  - cbn -[step]. unfold step. rewrite bool_decide_eq_true_2 by done. by rewrite R1, Hr.
  - cbn. rewrite N1, <- (assoc_L (++)). split; [done|]. split; [done|].
    split; try done; [apply not_elem_of_nil|]. exists [].
    split; [|apply not_elem_of_nil]. cbn. by rewrite app_nil_r, N1, <- (assoc_L (++)).
Qed.
End proofs.

(** ** Properties *)

(** C29: A pause that never ends.  When the receive thread has just noticed that the
    buffer is full and has not written its "pause" yet, an iteration of the flush
    thread may commit the buffer below the low-water mark and write its "resume"
    first.  The client then receives the "pause" last, although the server has
    closed the episode; and whatever happens afterwards, as long as the client
    sends no audio, a new configuration and the end of the stream included, the
    server never says "resume". *)
Theorem resume_overtakes_pause {J : JsonLib} o w e now_idle now env res e' :
  stat w = Running -> f w = FChecked -> r w = RSend [FlowPause] false ->
  configured (st w) = true -> engine (st w) = Some e ->
  MIN_BUFFER_SAMPLES <= zlen (Engine.audio_buffer e) ->
  due o now (zlen (Engine.audio_buffer e)) (st w) = true ->
  capacity_degraded (fl (st w)) = false -> buffer_overflowed (fl (st w)) = true ->
  Engine.transcribeSlidingWindow env [] false e = (Ok res, e') ->
  zlen (Engine.audio_buffer e') < LOW_WATER_MARK ->
  exists w',
    run o (overtaking now_idle now env (dropped_chunks (fl (st w)))) w = Some w' /\
    sent w' = sent w ++ resumption (dropped_chunks (fl (st w))) ++ [FlowPause] /\
    buffer_overflowed (fl (st w')) = false /\ r w' = RRead /\
    forall evs w2, Forall paused_client evs -> run o evs w' = Some w2 ->
      exists new, sent w2 = sent w' ++ new /\ FlowResume ∉ new.
Proof.
  intros Hs Hf Hr Hc He Hmin Hd Hdeg Hov Ht Hlow.
  destruct (cycle_drains o e now_idle now env res e' w Hf Hc He Hmin Hd Hdeg Hov Ht Hlow)
    as (S1 & R1 & N1 & E1 & n & F1).
  assert (step o (FCycle now_idle now true env) w = Some (cycle o now_idle now true env w)) as T1.
  { unfold step. by rewrite bool_decide_eq_true_2, Hf, Hr by done. }
  set (w1 := cycle o now_idle now true env w) in *. rewrite Hs in S1. rewrite Hr in R1.
  assert (exists v, run o (if dropped_chunks (fl (st w)) mod WARNING_INTERVAL_CHUNKS =? 0 then []
                           else [FEmit; FLock env]) w1 = Some v /\ stat v = Running /\
            engine (st v) = Some e' /\ r v = RSend [FlowPause] false /\
            f v = FSending FlowResume (KFinish res n) /\
            sent v ++ [FlowResume] = sent w ++ resumption (dropped_chunks (fl (st w))))
    as (v & T2 & Sv & Ev & Rv & Fv & Nv).
  { unfold resumption. destruct (_ =? 0).
    - exists w1. rewrite N1. done.
    - rewrite (emit_and_lock o env _ _ w1 S1 ltac:(by rewrite R1) F1). eexists. split; [done|]. cbn.
      rewrite N1, <- (assoc_L (++)). done. }
  destruct (resume_then_pause o env res n v e' Sv Ev Rv Fv) as (w' & T3 & R3 & N3 & Hset).
  exists w'. split.
  { apply (Transitions.exec_trans (step o) [_] _ w w1); [cbn -[step]; by rewrite T1|].
    by apply (Transitions.exec_trans (step o) _ _ w1 v). }
  split. { rewrite N3, (assoc_L (++)), <- Nv, <- (assoc_L (++)). done. }
  split; [apply Hset|]. split; [done|].
  intros evs w2 Hevs H. by apply (run_settled o _ _ _ _ Hevs Hset) in H as [_ _ _ H].
Qed.

(** A session whose buffer has just filled up, with its "pause" to be written, and
    an inference that finds a segment of 15 seconds to commit. *)
Definition speech_env : Engine.env :=
  Engine.Env true (λ _ _, None)
    (λ _ _, Engine.Inference 0 None [(Some (lit " hola"), 1500); (Some (lit " mundo"), 1990)]) (λ _, 0).

Definition full_engine : Engine.t := Engine.set_buffer Wedge.silence Engine.fresh.

Definition full_world : world :=
  World (mk (Some full_engine) true true (lit "es") (Flow true 1 false 0) (Texts [] [])
           (Window 0 0) 0 false)
    (Shared (AuthManager.mk ∅ false 0 []) ModelCache.init) true FChecked (RSend [FlowPause] false) false []
    false Running.

Lemma resume_overtakes_pause_witness :
  exists w', (run (J := TinyJson.lib) sample_opts (overtaking 1000000 1000000 speech_env 1) full_world = Some w') /\
    sent w' = [BufferFull 1; FlowResume; FlowPause] /\ buffer_overflowed (fl (st w')) = false.
Proof.
  assert (zlen (Engine.audio_buffer full_engine) = 320000) as Hz by (by apply zlen_replicate).
  assert ((zlen (Engine.audio_buffer (Engine.transcribeSlidingWindow speech_env [] false full_engine).2)
            <? LOW_WATER_MARK) = true) as Hl by (vm_compute; reflexivity).
  assert (match (Engine.transcribeSlidingWindow speech_env [] false full_engine).1 with
          | Ok _ => true | Throw _ => false end = true) as Hok by (vm_compute; reflexivity).
  destruct (Engine.transcribeSlidingWindow speech_env [] false full_engine) as [[res|what] e'] eqn:E;
    cbn [fst snd] in Hl, Hok; [|discriminate Hok]. apply Z.ltb_lt in Hl.
  destruct (resume_overtakes_pause (J := TinyJson.lib) sample_opts full_world full_engine 1000000 1000000
    speech_env res e' eq_refl eq_refl eq_refl eq_refl eq_refl) as (w' & H1 & H2 & H3 & _);
    [rewrite Hz; done|rewrite Hz; reflexivity|reflexivity|reflexivity|exact E|exact Hl|].
  exists w'. split; [exact H1|]. split; [exact H2|exact H3].
Defined.

End FlowControl.
