(* ===== verification/SessionSafety.v ===== *)
(** What a session guarantees to the rest of the process, and where it does
    not: authentication, references to the shared model, the rate limiter, and
    the disconnection race on the engine. *)

From stdpp Require Import prelude strings list gmap.
From Stdlib Require Import ZArith Lia.
From S2P Require Import Prelude Floats Json ApiAuthClient AuthManager.
From S2P Require Import ModelCache Engine Session FlushLoop Wedge.

Module SessionSafety.
Import Session.
Import FlushLoop.
Import Wedge.

(** ** Authentication *)

(** The messages of a session that has not been configured. *)
Definition refusal (m : out) : Prop :=
  match m with Error _ _ | ClosePolicy _ => True | _ => False end.

Section auth.
Context {J : JsonLib} (o : opts) (token : str) (g0 : shared).

(** The frame does not carry the token. *)
Definition without_token (ev : event) : Prop :=
  match ev with
  | Recv (Text _ message) =>
      forall msg, json_parse message = Ok msg -> json_string (json_at msg (lit "token")) <> Ok token
  | _ => True
  end.

(** The session never got configured. *)
Record refused (w : world) : Prop := {
  rf_sh : sh w = g0;
  rf_conf : configured (st w) = false /\ engine (st w) = None /\ model_acquired (st w) = false;
  rf_f : asleep (f w) = true;
  rf_r : r w <> RJoin;
  rf_out : Forall refusal (sent w ++ pending w)
}.

Context (Hen : AuthManager.auth_enabled (auth g0) = true)
        (Htok : AuthManager.static_tok (auth g0) = token)
        (Hne : token <> []).

Lemma handleConfig_refused v msg s :
  json_string (json_at msg (lit "token")) <> Ok token ->
  exists outs, handleConfig o v msg g0 s = (g0, s, outs) /\ Forall refusal outs /\ outs <> [].
Proof.
  intros Hmsg. unfold handleConfig, authenticate, AuthManager.isAuthEnabled. rewrite Hen.
  assert (Shared (auth g0) (models g0) = g0) as Hg by (by destruct g0).
  destruct (negb (json_contains msg (lit "token")) || _).
  { destruct (e_close_throws v); rewrite Hg; eexists; (split; [done|]); by repeat constructor. }
  destruct (json_string (json_at msg (lit "token"))) as [tok|what] eqn:E.
  - rewrite AuthManager.validate_static by congruence.
    rewrite bool_decide_eq_false_2 by congruence.
    destruct (e_close_throws v); rewrite Hg; eexists; (split; [done|]); by repeat constructor.
  - rewrite Hg. eexists; (split; [done|]); by repeat constructor.
Qed.

Lemma recv_refused fr w :
  without_token (Recv fr) -> refused w -> r w = RRead -> refused (recv o fr w).
Proof.
  intros Hwt [Hsh (Hc & He & Hm) Hf Hr Ho] Er.
  assert (Forall refusal (sent w)) as Hsent by (by apply Forall_app in Ho as [? _]).
  assert (forall outs s', configured s' = false /\ engine s' = None /\ model_acquired s' = false ->
    Forall refusal outs -> refused (send_all outs (set_st s' w))) as Hgen.
  { intros outs s' Hs' Hout. destruct outs as [|m outs]; split; cbn; try done.
    - by rewrite app_nil_r.
    - by apply Forall_app. }
  destruct fr as [v message|now now_audio data]; cbn [recv].
  - unfold handleJsonMessage. cbn [without_token] in Hwt.
    assert (forall outs, Forall refusal outs -> refused (send_all outs (set_sh (sh w) (set_st (st w) w))))
      as Hsame.
    { intros outs Hout. assert (set_sh (sh w) (set_st (st w) w) = set_st (st w) w) as -> by done.
      by apply Hgen. }
    destruct (json_parse message) as [msg|what] eqn:Ep; [|by apply Hsame; repeat constructor].
    specialize (Hwt _ eq_refl).
    destruct (negb (json_contains msg (lit "type"))); [by apply Hsame; repeat constructor|].
    destruct (json_string (json_at msg (lit "type"))) as [type|what].
    + destruct (decide (type = lit "config")).
      * rewrite Hsh. destruct (handleConfig_refused v msg (st w) Hwt) as (outs & -> & Hout & _).
        rewrite <- Hsh. by apply Hsame.
      * rewrite Hc. cbn [negb]. by apply Hsame; repeat constructor.
    + split; try done. cbn. by rewrite app_nil_r.
  - unfold handleBinaryMessage. rewrite Hc. cbn [negb].
    repeat case_match; simplify_eq; apply Hgen; try done; repeat constructor.
Qed.

Lemma step_refused ev w w' :
  without_token ev -> refused w -> step o ev w = Some w' -> refused w'.
Proof.
  intros Hwt Hw H. pose proof Hw as [Hsh (Hc & He & Hm) Hf Hr Ho].
  unfold step in H. destruct (bool_decide _); [|done].
  destruct ev as [fr| |env sf| |id| | |id| | |now_idle now sf env| |env].
  - destruct (r w) eqn:Er; try done. injection H as <-. by apply recv_refused.
  - destruct (r w) as [|[|m ms] leave| | |old d| | |] eqn:Er; try done. injection H as <-.
    unfold pending in Ho. rewrite Er in Ho. split; try done.
    + cbn. by destruct ms; [destruct leave|].
    + replace (pending _) with ms by (unfold pending; by destruct ms; [destruct leave|]).
      cbn. by rewrite <- (assoc_L (++)).
  - destruct (r w) eqn:Er; done.
  - destruct (r w) eqn:Er; try done. injection H as <-. unfold pending in Ho. rewrite Er in Ho. by split.
  - destruct (r w) eqn:Er; try done. unfold releaseModel in H. rewrite Hm in H. injection H as <-.
    unfold pending in Ho. rewrite Er in Ho. by split.
  - destruct (r w) as [| | | |old destroying| | |] eqn:Er; try done. injection H as <-.
    unfold pending in Ho. rewrite Er in Ho. destruct destroying; by split.
  - destruct (r w) eqn:Er; try done. injection H as <-. unfold pending in Ho. rewrite Er in Ho. by split.
  - destruct (r w) eqn:Er; try done. destruct (f w) eqn:Ef; try done.
    unfold releaseModel in H. rewrite Hm in H. injection H as <-.
    unfold pending in Ho. rewrite Er in Ho. split; try done. cbn. by rewrite Ef.
  - destruct (f w) eqn:Ef; try done. injection H as <-. split; try done. cbn. by destruct (flush_running w).
  - destruct (f w) eqn:Ef; try done. injection H as <-. by split.
  - destruct (f w) eqn:Ef; try done. destruct (mutex_held (r w)); [done|]. injection H as <-. unfold cycle.
    assert (configured (watchdog o now_idle (st w)).2 = false /\ engine (watchdog o now_idle (st w)).2 = None /\
            model_acquired (watchdog o now_idle (st w)).2 = false) as Hwd.
    { unfold watchdog. by destruct (_ && _). }
    destruct (watchdog o now_idle (st w)) as [down s]. cbn [snd] in Hwd.
    destruct Hwd as (E1 & E2 & E3). rewrite E1. by split.
  - destruct (f w) eqn:Ef; done.
  - destruct (f w) eqn:Ef; done.
Qed.
End auth.

(** ** References to the model *)

Section leak.
Context {J : JsonLib} (o : opts).

(** A sequence of configurations that all succeed. *)
Fixpoint accept_all (cs : list (config_env * json)) (g : shared) (s : Session.t)
    : option (shared * Session.t) :=
  match cs with
  | [] => Some (g, s)
  | (v, msg) :: cs =>
      match handleConfig o v msg g s with
      | (g, s, [Ready _ _]) => accept_all cs g s
      | _ => None
      end
  end.

Lemma handleConfig_ready v msg g s g' s' l b :
  ModelCache.serves (model_path o) (models g) -> handleConfig o v msg g s = (g', s', [Ready l b]) ->
  ModelCache.serves (model_path o) (models g') /\ ModelCache.ref_count (models g') = ModelCache.ref_count (models g) + 1 /\
  model_acquired s' = true.
Proof.
  intros Hs H. unfold handleConfig, apply_config in H.
  assert (forall ok outs a, authenticate v msg (auth g) = (Ok (ok :: outs), a) ->
            ok <> Ready l b) as Hauth.
  { intros ok outs a Ha. unfold authenticate in Ha. repeat (case_match; simplify_eq/=; try done). }
  destruct (authenticate v msg (auth g)) as [[[|ok outs]|what] a];
    [|simplify_eq; by destruct (Hauth _ _ _ eq_refl)|done].
  destruct (if json_contains msg (lit "language") then _ else _) as [lang|what]; [|done].
  destruct (ModelCache.acquire _ _ _) as [[c|what] m] eqn:Ea; [|done].
  apply ModelCache.acquire_ref in Ea as [Hm Hr]; [|done].
  destruct (Engine.make false (e_state_ok v)); simplify_eq. done.
Qed.

Lemma accept_all_ref cs : forall g s g' s',
  ModelCache.serves (model_path o) (models g) -> accept_all cs g s = Some (g', s') -> cs <> [] ->
  ModelCache.serves (model_path o) (models g') /\
  ModelCache.ref_count (models g') = ModelCache.ref_count (models g) + zlen cs /\
  model_acquired s' = true.
Proof.
  induction cs as [|[v msg] cs IH]; intros g s g' s' Hs H Hne; [done|]. cbn [accept_all] in H.
  destruct (handleConfig o v msg g s) as [[g1 s1] outs] eqn:E.
  destruct outs as [|[] [|]]; try done.
  apply handleConfig_ready in E as (Hs1 & Hr1 & Hm1); [|done].
  destruct cs as [|c cs].
  - cbn [accept_all] in H. simplify_eq. rewrite zlen_cons, zlen_nil. repeat split; try done; lia.
  - destruct (IH _ _ _ _ Hs1 H ltac:(done)) as (? & ? & ?). rewrite zlen_cons. repeat split; try done; lia.
Qed.

End leak.

(** ** The rate limiter *)

(** The frames counted since the window was last reset, at times [now, n]. *)
Fixpoint rate_run (fs : list (Z * Z)) (r : window) : option window :=
  match fs with
  | [] => Some r
  | (now, n) :: fs => r' ← rate_step now n r; rate_run fs r'
  end.

Definition total (fs : list (Z * Z)) : Z := foldr (λ x acc, x.2 + acc) 0 fs.

Lemma rate_run_quiet fs : forall r,
  Forall (λ x, to_seconds (x.1 - rate_limit_start r) < 3) fs ->
  rate_run fs r = Some (Window (bytes_received r + total fs) (rate_limit_start r)).
Proof.
  induction fs as [|[now n] fs IH]; intros r Hf; cbn [rate_run].
  - destruct r. cbn. by rewrite Z.add_0_r.
  - apply Forall_cons in Hf as [H Hf]. cbn [fst] in H.
    unfold rate_step. rewrite Z.geb_leb, (proj2 (Z.leb_gt _ _)) by lia.
    cbn [mbind option_bind]. rewrite IH by done. cbn [bytes_received rate_limit_start total foldr snd].
    by rewrite Z.add_assoc.
Qed.

(** ** Properties *)

(** C6: Without the token there is nothing.  With a static token configured, a
    client none of whose messages carries that token is only ever sent errors
    and close frames, in every interleaving of the two threads: no engine is
    created, no reference to the model is taken, and no audio or transcription
    passes. *)
Theorem unauthenticated_gets_nothing {J : JsonLib} o g now evs w :
  AuthManager.auth_enabled (auth g) = true -> AuthManager.static_tok (auth g) <> [] ->
  Forall (without_token (AuthManager.static_tok (auth g))) evs ->
  run o evs (start now g) = Some w ->
  sh w = g /\ configured (st w) = false /\ engine (st w) = None /\ Forall refusal (sent w).
Proof.
  intros Hen Hne Hevs H.
  assert (refused g w) as [Hsh (Hc & He & Hm) _ _ Ho].
  { revert H. apply (run_ind o (refused g) (without_token (AuthManager.static_tok (auth g))));
      [|exact Hevs|by split].
    intros ev v v' Hw Hr. by eapply step_refused. }
  apply Forall_app in Ho as [Ho _]. done.
Qed.

Definition secret : AuthManager.t := AuthManager.mk ∅ true 300 (lit "secret").

Definition no_env : config_env :=
  ConfigEnv 0 0 0 ApiAuthClient.Denied (Some 0%nat) true None.

Lemma unauthenticated_gets_nothing_witness :
  exists w, run (J := TinyJson.lib) sample_opts
      [Recv (Text no_env (lit "type=config,token=guess")); Emit; Emit]
      (start 0 (Shared secret ModelCache.init)) = Some w /\
    sent w = [Error (lit "Invalid token") (lit "AUTH_FAILED"); ClosePolicy []] /\
    configured (st w) = false /\ Forall refusal (sent w).
Proof.
  assert (Forall (without_token (J := TinyJson.lib) (lit "secret"))
    [Recv (Text no_env (lit "type=config,token=guess")); Emit; Emit]) as Hevs.
  { repeat constructor. intros msg Hp. vm_compute in Hp. injection Hp as <-. by vm_compute. }
  destruct (run (J := TinyJson.lib) sample_opts
      [Recv (Text no_env (lit "type=config,token=guess")); Emit; Emit]
      (start 0 (Shared secret ModelCache.init))) as [w|] eqn:E; [|by vm_compute in E].
  assert (lit "secret" <> []) as Hne by done.
  destruct (unauthenticated_gets_nothing sample_opts (Shared secret ModelCache.init) 0 _ w
    eq_refl Hne Hevs E) as (_ & Hc & _ & Hr).
  exists w. split; [done|]. split; [|by split]. vm_compute in E. by injection E as <-.
Defined.

(** C20: Every configuration after the first leaks a reference.  A session that
    is configured [n] times and then closed, with nobody else using the cache,
    leaves the model's reference count [n - 1] above where it was: one
    configuration is balanced, and after two the count never returns to zero,
    so that no idle timer ever unloads the model. *)
Theorem reconfiguration_leaks {J : JsonLib} o cs g s g' s' id :
  ModelCache.serves (model_path o) (models g) -> cs <> [] -> accept_all o cs g s = Some (g', s') ->
  let '(_, g1, s1) := releaseModel id g' s' in
  ModelCache.ref_count (models g1) = ModelCache.ref_count (models g) + zlen cs - 1 /\
  releaseModel id g1 s1 = (None, g1, s1).
Proof.
  intros Hs Hne H. destruct (accept_all_ref o cs g s g' s' Hs H Hne) as (Hs' & Hr & Hm).
  unfold releaseModel. rewrite Hm.
  pose proof (ModelCache.serves_nonneg _ _ Hs) as Hpos.
  assert (1 <= zlen cs) by (destruct cs; [done|]; zsize).
  pose proof (ModelCache.release_ref id (models g') ltac:(lia)) as Hrel.
  destruct (ModelCache.release id (models g')) as [[old started] m] eqn:E.
  cbn [fst snd models] in *. split; [lia|]. done.
Qed.

Definition open_auth : AuthManager.t := AuthManager.mk ∅ false 0 [].

Lemma reconfiguration_leaks_witness :
  let msg := TinyJson.VObj [(lit "language", TinyJson.VStr (lit "es"))] in
  let g := Shared open_auth ModelCache.init in
  exists g' s', accept_all (J := TinyJson.lib) sample_opts [(no_env, msg); (no_env, msg)] g
                  (Session.make 0) = Some (g', s') /\
    ModelCache.ref_count (models (releaseModel 0 g' s').1.2) = 1.
Proof.
  intros msg g.
  destruct (accept_all (J := TinyJson.lib) sample_opts [(no_env, msg); (no_env, msg)] g
              (Session.make 0)) as [[g' s']|] eqn:E; [|by vm_compute in E].
  exists g', s'. split; [done|].
  assert ([(no_env, msg); (no_env, msg)] <> []) as Hne by done.
  pose proof (reconfiguration_leaks (J := TinyJson.lib) sample_opts _ g (Session.make 0) g' s' 0
    eq_refl Hne E) as H.
  destruct (releaseModel 0 g' s') as [[old g1] s1]. exact (proj1 H).
Defined.

(** The flush thread starts an iteration, the connection fails and the model is
    released, the status message goes out, the release has waited for the cache's
    last timer task, if there is one, and the mutex is locked again. *)
Definition disconnection (now_idle now : Z) (env env' : Engine.env) (id : nat) (m : ModelCache.t)
    : list event :=
  [FCycle now_idle now true env; ReadFails; Leave id; FEmit] ++
  (match (ModelCache.release id m).1.1 with Some _ => [Waited] | None => [] end) ++ [FLock env'].

(** C19: A disconnection while the flush thread writes a status message
    dereferences a null engine.  When an iteration leaves the degraded state it
    gives up the mutex to send its status message; if the client's connection
    fails meanwhile, [run] releases the model and destroys the engine, and the
    flush thread then transcribes with the null [engine_]. *)
Theorem disconnect_derefs_null {J : JsonLib} o w e now_idle now env env' id :
  stat w = Running -> f w = FChecked -> r w = RRead ->
  configured (st w) = true -> model_acquired (st w) = true -> engine (st w) = Some e ->
  MIN_BUFFER_SAMPLES <= zlen (Engine.audio_buffer e) ->
  due o now (zlen (Engine.audio_buffer e)) (st w) = true -> capacity_degraded (fl (st w)) = true ->
  exists w', run o (disconnection now_idle now env env' id (models (sh w))) w = Some w' /\
             stat w' = NullDeref.
Proof.
  intros Hst Hf Hr Hc Hm He Hmin Hd Hdeg.
  assert (exists w1, cycle o now_idle now true env w = w1 /\ stat w1 = Running /\ r w1 = RRead /\
    f w1 = FSending StatusOk (KInfer (zlen (Engine.audio_buffer e))) /\
    model_acquired (st w1) = true /\ sh w1 = sh w) as (w1 & E & S1 & R1 & F1 & M1 & H1).
  { eexists. split; [reflexivity|]. unfold cycle.
    destruct (watchdog_frame o now_idle (st w)) as (down & b & ->).
    cbn [configured engine]. rewrite Hc, He. unfold Engine.getBufferSize.
    rewrite (proj2 (Z.ltb_ge _ _)) by done.
    unfold due in *. cbn [fl last_audio_time]. by rewrite Hd, Hdeg. }
  assert (step o (FCycle now_idle now true env) w = Some w1) as T1.
  { unfold step. by rewrite bool_decide_eq_true_2, Hf, Hr, E by done. }
  assert (step o ReadFails w1 = Some (set_r RLeave w1)) as T2.
  { unfold step. by rewrite bool_decide_eq_true_2, R1 by done. }
  assert (exists w3, step o (Leave id) (set_r RLeave w1) = Some w3 /\ stat w3 = Running /\
    f w3 = f w1 /\ engine (st w3) = None /\
    r w3 = released (ModelCache.release id (models (sh w))).1.1 false) as (w3 & T3 & S3 & F3 & E3 & R3).
  { unfold step, releaseModel. rewrite bool_decide_eq_true_2 by done. cbn. rewrite M1, H1.
    destruct (ModelCache.release id (models (sh w))) as [[old started] m]. cbn. eexists. eauto. }
  assert (step o FEmit w3 = Some (set_f (FLocking (KInfer (zlen (Engine.audio_buffer e))))
                                    (emit StatusOk w3))) as T4.
  { unfold step. by rewrite bool_decide_eq_true_2, F3, F1 by done. }
  set (w4 := set_f _ (emit StatusOk w3)) in T4.
  assert (exists w5, run o ((match (ModelCache.release id (models (sh w))).1.1 with
                            | Some _ => [Waited] | None => [] end) ++ [FLock env']) w4 = Some w5 /\
    stat w5 = NullDeref) as (w5 & T5 & S5).
  { assert (forall v, stat v = Running -> mutex_held (r v) = false -> engine (st v) = None ->
      f v = FLocking (KInfer (zlen (Engine.audio_buffer e))) ->
      exists w5, step o (FLock env') v = Some w5 /\ stat w5 = NullDeref) as Hlock.
    { intros v Sv Rv Ev Fv. unfold step. rewrite bool_decide_eq_true_2, Fv, Rv by done.
      cbn. unfold infer. rewrite Ev. eauto. }
    destruct (ModelCache.release id (models (sh w))).1.1 as [old|]; cbn [released] in R3.
    - assert (step o Waited w4 = Some (set_r RUnwind w4)) as T.
      { unfold step. rewrite bool_decide_eq_true_2 by done. cbn. by rewrite R3. }
      destruct (Hlock (set_r RUnwind w4)) as (w5 & T5 & S5); [done|done|done|done|].
      exists w5. cbn -[step]. rewrite T. cbn -[step]. by rewrite T5.
    - destruct (Hlock w4) as (w5 & T5 & S5); [done|cbn; by rewrite R3|done|done|].
      exists w5. cbn -[step]. by rewrite T5. }
  exists w5. split; [|done]. unfold disconnection. cbn -[step].
  rewrite T1. cbn -[step]. rewrite T2. cbn -[step]. rewrite T3. cbn -[step]. rewrite T4.
  exact T5.
Qed.

(** Two seconds of audio in a session that was told the GPU is busy. *)
Definition two_seconds : Engine.t :=
  Engine.set_buffer (replicate (Z.to_nat 32000) F32.zero) Engine.fresh.

Definition busy_world : world :=
  World (mk (Some two_seconds) true true (lit "es") (Flow false 0 true 0) (Texts [] [])
           (Window 0 0) 0 false)
    (Shared open_auth (ModelCache.mk (Some 0%nat) (lit "m.bin") 1 300 false false None []))
    true FChecked RRead false [StatusBusy] false Running.

Lemma disconnect_derefs_null_witness :
  exists w', run (J := TinyJson.lib) sample_opts (disconnection 1000000 1000000 silent_env silent_env 0
      (models (sh busy_world))) busy_world = Some w' /\ stat w' = NullDeref.
Proof.
  assert (zlen (Engine.audio_buffer two_seconds) = 32000) as Hz by (by apply zlen_replicate).
  apply (disconnect_derefs_null sample_opts busy_world two_seconds);
    [reflexivity|reflexivity|reflexivity|reflexivity|reflexivity|reflexivity|rewrite Hz; done
    |rewrite Hz; reflexivity|reflexivity].
Defined.

(** The rate limiter never acts within three seconds.  As long as less than
    three seconds have passed since the window began, frames of any total size
    are accepted; the first frame after that closes the connection exactly when
    the window's bytes, its own included, exceed 600 KB, however long ago the
    window began, and otherwise starts an empty window. *)
Theorem rate_window fs r now n :
  Forall (λ x, to_seconds (x.1 - rate_limit_start r) < 3) fs ->
  3 <= to_seconds (now - rate_limit_start r) ->
  rate_run fs r = Some (Window (bytes_received r + total fs) (rate_limit_start r)) /\
  rate_run (fs ++ [(now, n)]) r =
    (if MAX_BYTES_PER_WINDOW <? bytes_received r + total fs + n then None
     else Some (Window 0 now)).
Proof.
  intros Hfs Hnow. split; [by apply rate_run_quiet|].
  assert (forall l r0, rate_run (l ++ [(now, n)]) r0 = r1 ← rate_run l r0; rate_step now n r1) as Happ.
  { induction l as [|[a b] l IH]; intros r0; cbn.
    - by destruct (rate_step now n r0).
    - destruct (rate_step a b r0); cbn; [apply IH|done]. }
  rewrite Happ, rate_run_quiet by done. cbn [mbind option_bind]. unfold rate_step.
  cbn [bytes_received rate_limit_start].
  rewrite Z.geb_leb, (proj2 (Z.leb_le _ _)) by done. by rewrite Z.gtb_ltb.
Qed.

Lemma rate_window_witness :
  rate_run [(0, 100000000); (2999999999, 100000000)] (Window 0 0) = Some (Window 200000000 0).
Proof.
  apply (rate_window [(0, 100000000); (2999999999, 100000000)] (Window 0 0) 3000000000 4);
    [repeat constructor|reflexivity || done].
Defined.

End SessionSafety.
