(* ===== verification/Protocol.v ===== *)
(** The protocol a client of a streaming session can rely on, as a small state
    machine over the messages it receives, and the proof that the two threads of
    [FlushLoop] follow it in every interleaving. *)

From stdpp Require Import prelude strings list.
From Stdlib Require Import ZArith Lia.
From S2P Require Import Prelude Transitions Floats Json ApiAuthClient AuthManager.
From S2P Require Import ModelCache Engine Session FlushLoop.

Module Protocol.
Import Session.
Import FlushLoop.

(** ** The specification *)

Inductive pstate :=
| PFresh       (** no "ready" yet *)
| PRejected    (** closed by the server before any "ready" *)
| PStreaming
| PClosing     (** closed by the server while streaming *)
| PFinal       (** the final transcription has been sent *)
| PEnd.        (** ... and the connection closed *)

(** The messages of the flush thread. *)
Definition flush_msg (m : out) : bool :=
  match m with
  | FlowResume | BufferFull _ | StatusBusy | StatusOk | Transcription _ => true
  | _ => false
  end.

Definition protocol (m : out) (q : pstate) : option pstate :=
  match q, m with
  | PFresh, Error _ _ => Some PFresh
  | PFresh, Ready _ _ => Some PStreaming
  | PFresh, ClosePolicy _ => Some PRejected
  | PRejected, Error _ _ => Some PRejected
  | PStreaming, (Ready _ _ | Error _ _ | FlowPause) => Some PStreaming
  | PStreaming, ClosePolicy _ => Some PClosing
  | PStreaming, Final _ _ => Some PFinal
  | PClosing, Error _ _ => Some PClosing
  | PFinal, CloseNormal => Some PEnd
  | (PStreaming | PClosing), _ => if flush_msg m then Some q else None
  | _, _ => None
  end.

Abbreviation follows := (Transitions.exec protocol).

(** ** The simulation relation *)

(** The states in which the flush thread may speak. *)
Definition speaks (q : pstate) : Prop := q = PStreaming \/ q = PClosing.

(** There is nothing to transcribe. *)
Definition silent (s : Session.t) : Prop :=
  match engine s with Some e => Engine.audio_buffer e = [] | None => True end.

(** Where the receive thread leaves the protocol once its messages are out. *)
Definition ahead (w : world) (q : pstate) : Prop :=
  match r w with
  | RRead | RSend _ false => q = if configured (st w) then PStreaming else PFresh
  | RJoin => q = PStreaming
  | _ => True
  end.

Record simulated (w : world) (q : pstate) : Prop := {
  sim_sent : follows (sent w) PFresh = Some q;
  sim_pending : exists q', follows (pending w) q = Some q' /\ ahead w q';
  sim_flush : speaks q \/ f w = FExited \/ asleep (f w) = true /\ silent (st w);
  sim_msg : match f w with FSending m _ => flush_msg m = true | _ => True end;
  sim_wf : wf w
}.

(** ** Proofs *)

Lemma flush_msg_stays m q : flush_msg m = true -> speaks q -> protocol m q = Some q.
Proof. intros Hm [-> | ->]; by destruct m. Qed.

Lemma speaks_dec q : speaks q \/ ~ speaks q.
Proof. unfold speaks. destruct q; naive_solver. Qed.

(** *** What each handler says *)

Section proofs.
Context {J : JsonLib} (o : opts).

Definition stream_state (s : Session.t) : pstate := if configured s then PStreaming else PFresh.

(** What the handling of one frame may do to the protocol. *)
Definition handled (s : Session.t) (s' : Session.t) (outs : list out) : Prop :=
  (exists q', follows outs (stream_state s) = Some q' /\
     (existsb is_close outs = false -> q' = stream_state s')) /\
  (configured s = false -> silent s -> silent s').

Lemma handled_quiet s s' : configured s' = configured s -> (configured s = false -> engine s' = engine s) ->
  handled s s' [].
Proof.
  intros Hc He. split; [|intros Hf; unfold silent; by rewrite (He Hf)].
  exists (stream_state s). split; [done|]. unfold stream_state. by rewrite Hc.
Qed.

Lemma handled_error s msg code : handled s s [Error msg code].
Proof.
  split; [|done]. exists (stream_state s). split; [|done]. unfold stream_state. by destruct (configured s).
Qed.

Lemma handleBinary_handled now now_audio data s :
  handled s (handleBinaryMessage now now_audio data s).1 (handleBinaryMessage now now_audio data s).2.
Proof.
  unfold handleBinaryMessage.
  assert (forall s' reason, configured s' = configured s -> engine s' = engine s ->
            handled s s' [ClosePolicy reason]) as Hclose.
  { intros s' reason Hc He. split; [|unfold silent; by rewrite He].
    unfold stream_state. destruct (configured s); by eexists. }
  destruct (_ >? _); [by apply Hclose|]. destruct (_ <? _); [by apply handled_quiet|].
  destruct (configured s) eqn:Ec; cbn [negb]; [|by apply handled_error].
  destruct (negb _); [by apply handled_quiet|].
  destruct (rate_step _ _ _) as [rt|]; [|by apply Hclose].
  unfold Session.processAudioChunk. cbn [configured set_rate engine]. rewrite Ec.
  destruct (engine s) as [e|]; [|cbn; apply handled_quiet; cbn; congruence].
  destruct (Engine.processAudioChunk _ e) as [ov e'].
  split; [|congruence]. exists PStreaming. unfold stream_state.
  destruct ov; cbn [andb negb fst snd]; repeat case_match; cbn in *; done || congruence.
Qed.

Lemma authenticate_handled v msg a outs a' s :
  authenticate v msg a = (Ok outs, a') -> handled s s outs.
Proof.
  unfold authenticate. intros H.
  assert (forall m c, handled s s (match e_close_throws v with
     | None => [Error m c; ClosePolicy []]
     | Some w => [Error m c; ClosePolicy []] ++ [Error (lit "Configuration failed: " ++ w) (lit "CONFIG_ERROR")]
     end)) as Hrej.
  { intros m c. unfold handled, stream_state.
    destruct (e_close_throws v), (configured s); split; try done; by eexists. }
  repeat (case_match; simplify_eq/=; try (by apply handled_quiet)).
  all: apply Hrej.
Qed.

(** A fresh engine has no audio, whatever its settings. *)
Lemma configure_engine_silent lang thold e :
  Engine.make false true = Ok e -> Engine.audio_buffer (configure_engine o lang thold e) = [].
Proof.
  rewrite configure_engine_buffer. by intros [= <-].
Qed.

Lemma apply_config_handled v msg m s m' s' outs :
  apply_config o v msg m s = (m', s', outs) -> handled s s' outs.
Proof.
  unfold apply_config. intros H.
  assert (forall s1 c w, configured s1 = c -> c = configured s -> engine s1 = engine s ->
    handled s s1 (config_error w)) as Herr.
  { intros s1 c w <- Hc He. split; [|unfold silent; by rewrite He].
    exists (stream_state s). unfold stream_state. rewrite Hc. by destruct (configured s). }
  destruct (if json_contains msg (lit "language") then _ else _) as [lang|what];
    [|simplify_eq; by eapply Herr].
  destruct (ModelCache.acquire _ _ _) as [[c|what] m1]; [|simplify_eq; by eapply Herr].
  destruct (Engine.make false (e_state_ok v)) as [e|what] eqn:Ee; [|simplify_eq; by eapply Herr].
  simplify_eq. split.
  - exists PStreaming. unfold stream_state. by destruct (configured s).
  - intros _ _. unfold silent. cbn [engine].
    destruct (e_state_ok v); [by apply configure_engine_silent|done].
Qed.

Lemma handleJson_handled v message g s g' s' outs :
  handleJsonMessage o v message g s = Handled g' s' outs -> handled s s' outs.
Proof.
  unfold handleJsonMessage. intros H.
  destruct (json_parse message) as [msg|what]; [|simplify_eq; apply handled_error].
  destruct (negb _); [simplify_eq; apply handled_error|].
  destruct (json_string _) as [type|what]; [|done].
  destruct (decide (type = lit "config")).
  - unfold handleConfig in H. destruct (authenticate v msg (auth g)) as [[[|x l]|what] a] eqn:Ea.
    + destruct (apply_config o v msg (models g) s) as [[m s1] outs1] eqn:E. simplify_eq.
      by eapply apply_config_handled.
    + simplify_eq. by eapply authenticate_handled.
    + simplify_eq. split; [|done]. exists (stream_state s'). unfold stream_state.
      by destruct (configured s').
  - destruct (negb (configured s)); [simplify_eq; apply handled_error|].
    destruct (decide _); [done|]. simplify_eq. apply handled_error.
Qed.

(** *** The steps *)

Lemma ahead_leaving w q : leaving w = true -> ahead w q.
Proof. unfold leaving, ahead. by destruct (r w) as [|? []| | | | | |]. Qed.

Lemma recv_simulated fr w q : simulated w q -> r w = RRead -> wf (recv o fr w) -> simulated (recv o fr w) q.
Proof.
  intros [Hs (q' & Hp & Ha) Hf Hm _] Hr Hwf.
  unfold pending, ahead in Hp, Ha. rewrite Hr in Hp, Ha. cbn in Hp. injection Hp as <-.
  change (q = stream_state (st w)) in Ha.
  assert (forall g s' outs, handled (st w) s' outs ->
    wf (send_all outs (set_sh g (set_st s' w))) -> simulated (send_all outs (set_sh g (set_st s' w))) q) as Hgen.
  { intros g s' outs [(q' & Hq & Hn) Hsil] Hw.
    destruct (send_all_pending outs (set_sh g (set_st s' w))) as (E1 & E2 & E3 & _ & _ & E6 & _).
    rewrite <- Ha in Hq. split; rewrite ?E2, ?E3, ?E6; try done.
    - exists q'. rewrite E1. split; [done|].
      destruct outs as [|m outs]; [by apply Hn|]. unfold ahead, send_all.
      cbn [set_r r]. destruct (existsb is_close (m :: outs)); [done|]. by apply Hn.
    - destruct Hf as [?|[?|[Hf1 Hf2]]]; [by left|by right; left|].
      destruct (configured (st w)) eqn:Ec; [left; left; by rewrite Ha; unfold stream_state; rewrite Ec|].
      right. right. split; [done|]. by apply Hsil. }
  destruct fr as [v message|now now_audio data]; cbn [recv] in *.
  - destruct (handleJsonMessage o v message (sh w) (st w)) as [g s outs| |what] eqn:E.
    + apply Hgen; [|done]. by eapply handleJson_handled.
    + unfold handleJsonMessage in E. split; try done. exists q. split; [done|].
      unfold ahead. cbn. rewrite Ha. unfold stream_state.
      destruct (configured (st w)); [done|]. cbn in E. repeat case_match; simplify_eq/=.
    + split; try done. by exists q.
  - pose proof (handleBinary_handled now now_audio data (st w)) as E.
    destruct (handleBinaryMessage now now_audio data (st w)) as [s outs]. by apply (Hgen (sh w)).
Qed.

Definition says_flush (p : fpc) : Prop :=
  match p with FSending m _ => flush_msg m = true | _ => True end.

(** The flush thread leaves [configured_] alone and sends only its own messages. *)
Definition flush_speech (w w' : world) : Prop :=
  configured (st w') = configured (st w) /\ says_flush (f w').

Lemma conclude_speech res n w : says_flush (f w) -> flush_speech w (conclude res n w).
Proof.
  intros Hf. unfold conclude. destruct (finish res n (st w)) as [[s text]|] eqn:E; [|by split].
  assert (configured s = configured (st w)) as Hc.
  { unfold finish in E. apply bind_Some in E as (s1 & E1 & [= -> _]).
    destruct (bool_decide _); [by injection E1 as <-|]. apply bind_Some in E1 as (e & _ & [= <-]). done. }
  by destruct text.
Qed.

Lemma infer_speech env n w : says_flush (f w) -> flush_speech w (infer env n w).
Proof.
  intros Hf. unfold infer. destruct (engine (st w)) as [e|]; [|by split].
  destruct (Engine.transcribeSlidingWindow env [] false e) as [[res|what] e']; [|by split].
  destruct (_ && _); [by destruct (_ =? 0)|]. exact (conclude_speech res n (set_st (set_engine (Some e') (st w)) w) Hf).
Qed.

Lemma cycle_speech now_idle now sf env w : f w = FChecked -> flush_speech w (cycle o now_idle now sf env w).
Proof.
  intros Hf. unfold cycle. destruct (watchdog_frame o now_idle (st w)) as (down & b & ->).
  cbn [configured engine]. destruct (configured (st w)) eqn:Ec, (engine (st w)) as [e|]; try by split; cbn.
  destruct (_ <? _); [by split|]. destruct (negb (due _ _ _ _)); [by split|].
  destruct sf; cbn [negb]; destruct (capacity_degraded _); try by split.
  unfold flush_speech. rewrite Ec.
  match goal with |- context [infer env ?n ?v] => apply (infer_speech env n v) end.
  cbn. by rewrite Hf.
Qed.

Lemma relocked_speech env k w : f w = FLocking k -> flush_speech w (relocked env k w).
Proof.
  intros Hf. destruct k; cbn [relocked]; try by split.
  - apply infer_speech. by rewrite Hf.
  - apply (conclude_speech res current_size (set_st (end_episode (st w)) w)). cbn. by rewrite Hf.
Qed.

(** The flush thread can take the lock only where it may speak, or it has nothing
    to infer on. *)
Lemma cycle_silent now_idle now sf env w :
  silent (st w) -> exists w', cycle o now_idle now sf env w = next_iteration w' /\
    silent (st w') /\ sent w' = sent w /\ r w' = r w /\ configured (st w') = configured (st w).
Proof.
  intros Hs. unfold cycle. destruct (watchdog_frame o now_idle (st w)) as (down & b & ->).
  unfold silent in *. cbn [configured engine].
  destruct (configured (st w)), (engine (st w)) as [e|]; try by eexists.
  unfold Engine.getBufferSize. rewrite Hs. by eexists.
Qed.

(** A step of the flush thread's own code. *)
Lemma flush_simulated w w' q :
  simulated w q -> speaks q -> flush_frame w w' -> flush_speech w w' -> wf w' -> simulated w' q.
Proof.
  intros [Hs (q' & Hp & Ha) _ _ _] Hq (E1 & E2 & _) [Hc Hm] Hw. split; try done.
  - by rewrite E1.
  - exists q'. unfold pending, ahead in *. by rewrite E2, Hc.
  - by left.
Qed.

(** A step of the receive thread on its way out. *)
Lemma receive_simulated w w' q :
  simulated w q -> sent w' = sent w -> pending w' = pending w -> f w' = f w ->
  (silent (st w) -> silent (st w')) -> leaving w' = true -> wf w' -> simulated w' q.
Proof.
  intros [Hs (q' & Hp & _) Hf Hm _] E1 E2 E3 E4 Hl Hw. split; rewrite ?E1, ?E3; try done.
  - rewrite E2. exists q'. split; [done|]. by apply ahead_leaving.
  - naive_solver.
Qed.

Lemma releaseModel_silent id g s old g' s' :
  releaseModel id g s = (old, g', s') -> silent s -> silent s'.
Proof.
  unfold releaseModel. destruct (model_acquired s); [|by intros [= _ _ <-]].
  destruct (ModelCache.release _ _) as [[? ?] ?]. by intros [= _ _ <-].
Qed.

(** The next message of the receive thread goes out. *)
Lemma emit_simulated w q m ms leave :
  simulated w q -> r w = RSend (m :: ms) leave ->
  wf (set_r (match ms with [] => if leave then RLeave else RRead | _ => RSend ms leave end) (emit m w)) ->
  exists q', simulated (set_r (match ms with [] => if leave then RLeave else RRead | _ => RSend ms leave end)
                          (emit m w)) q'.
Proof.
  intros [Hs (q2 & Hp & Ha) Hf Hm Hw0] Hr Hwf.
  unfold pending, ahead in Hp, Ha. rewrite Hr in Hp, Ha.
  apply Transitions.exec_cons in Hp as (q1 & H1 & H2). exists q1. split; try done.
  - cbn [sent set_r emit]. eapply Transitions.exec_trans; [exact Hs|]. by apply Transitions.exec_one.
  - exists q2. destruct ms as [|m' ms]; [|by split].
    injection H2 as <-. split; [by destruct leave|]. unfold ahead. by destruct leave.
  - cbn [f st set_r emit].
    destruct (is_final m) eqn:Efin.
    + right. left. destruct Hw0 as [_ _ [Hn|(a & tx & i & _ & _ & Hx & _)]]; [|done].
      unfold pending in Hn. rewrite Hr in Hn. apply no_final_app in Hn as [_ Hn].
      apply Forall_cons in Hn as [Hn _]. congruence.
    + destruct Hf as [[-> | ->]|[?|[? ?]]].
      * left. destruct m; simplify_eq/=; unfold speaks; naive_solver.
      * left. destruct m; simplify_eq/=; unfold speaks; naive_solver.
      * by right; left.
      * by right; right.
Qed.

Lemma step_simulated ev w w' q :
  simulated w q -> step o ev w = Some w' -> exists q', simulated w' q'.
Proof.
  intros Hsim H. pose proof (sim_wf _ _ Hsim) as Hwf.
  pose proof (step_wf o _ _ _ Hwf H) as Hwf'.
  pose proof (step_running o _ _ _ H) as Hrun. unfold step in H.
  rewrite bool_decide_eq_true_2 in H by done.
  destruct ev as [fr| |env sf| |id| | |id| | |now_idle now sf env| |env].
  - destruct (r w) eqn:Er; try done. injection H as <-. exists q. by apply recv_simulated.
  - destruct (r w) as [|[|m ms] leave| | |old d| | |] eqn:Er; try done. injection H as <-.
    by apply (emit_simulated w q m ms leave).
  - destruct (r w) eqn:Er; try done. destruct (f w) eqn:Ef; try done. injection H as <-.
    destruct (handleEnd env sf (st w)) as [[s outs]|] eqn:E.
    + apply handleEnd_outs in E as (text & i & ->). exists q.
      destruct Hsim as [Hs (q' & Hp & Ha) _ _ _]. unfold pending, ahead in Hp, Ha.
      rewrite Er in Hp, Ha. injection Hp as <-. subst q.
      split; cbn; try done; [|by right; left|by rewrite Ef]. by exists PEnd.
    + exists q. apply (receive_simulated w); try done. unfold pending. by rewrite Er.
  - destruct (r w) eqn:Er; try done. injection H as <-. exists q.
    apply (receive_simulated w); try done. unfold pending. by rewrite Er.
  - destruct (r w) eqn:Er; try done. destruct (releaseModel id (sh w) (st w)) as [[old g] s] eqn:E.
    injection H as <-. exists q. destruct old; (apply (receive_simulated w); try done;
      [unfold pending; by rewrite Er|by eapply releaseModel_silent]).
  - destruct (r w) as [| | | |old []| | |] eqn:Er; try done; injection H as <-; exists q;
      (apply (receive_simulated w); try done; unfold pending; by rewrite Er).
  - destruct (r w) eqn:Er; try done. injection H as <-. exists q.
    apply (receive_simulated w); try done. unfold pending. by rewrite Er.
  - destruct (r w) eqn:Er; try done. destruct (f w) eqn:Ef; try done.
    destruct (releaseModel id (sh w) (st w)) as [[old g] s] eqn:E.
    injection H as <-. exists q. destruct old; (apply (receive_simulated w); try done;
      [unfold pending; by rewrite Er|by eapply releaseModel_silent]).
  - destruct (f w) eqn:Ef; try done. injection H as <-. exists q.
    destruct Hsim as [Hs Hp Hf Hm _]. split; try done; cbn.
    + destruct (flush_running w); [|by right; left].
      destruct Hf as [?|[?|[? ?]]]; [by left|congruence|by right; right].
    + by destruct (flush_running w).
  - destruct (f w) eqn:Ef; try done. injection H as <-. exists q.
    destruct Hsim as [Hs Hp Hf Hm _]. split; try done; cbn.
    destruct Hf as [?|[?|[? ?]]]; [by left|congruence|by right; right].
  - destruct (f w) eqn:Ef; try done. destruct (mutex_held (r w)); [done|]. injection H as <-. exists q.
    destruct (sim_flush _ _ Hsim) as [Hq|[?|[_ Hsil]]]; [|congruence|].
    + apply (flush_simulated w); [done|done|by apply cycle_frame|by apply cycle_speech|done].
    + destruct (cycle_silent now_idle now sf env w Hsil) as (v & E & Hv & E1 & E2 & E3).
      rewrite E in *. destruct Hsim as [Hs (q' & Hp & Ha) _ _ _]. split; try done; cbn.
      * by rewrite E1.
      * exists q'. unfold pending, ahead in *. cbn. by rewrite E2, E3.
      * by right; right.
  - destruct (f w) as [| |m k| |] eqn:Ef; try done. injection H as <-. exists q.
    destruct Hsim as [Hs Hp Hf Hm _]. rewrite Ef in *.
    destruct Hf as [Hq|[?|[? _]]]; [|done|done]. split; try done; [|by left].
    cbn [sent set_f emit]. eapply Transitions.exec_trans; [exact Hs|].
    apply Transitions.exec_one. by apply flush_msg_stays.
  - destruct (f w) as [| | |k|] eqn:Ef; try done. destruct (mutex_held (r w)); [done|].
    injection H as <-. exists q.
    destruct (sim_flush _ _ Hsim) as [Hq|[?|[? _]]]; [|congruence|by rewrite Ef in *].
    apply (flush_simulated w); [done|done|by apply relocked_frame|by apply relocked_speech|done].
Qed.

(** Without a final transcription the protocol does not end. *)
Lemma no_final_open l q q' :
  no_final l -> follows l q = Some q' -> q <> PFinal /\ q <> PEnd -> q' <> PFinal /\ q' <> PEnd.
Proof.
  intros Hn H Hq. revert Hn Hq H.
  apply (Transitions.exec_ind protocol (λ q, q <> PFinal /\ q <> PEnd) (λ m, is_final m = false)).
  intros m a b Hm [H1 H2] Hs. destruct a, m; simplify_eq/=; done.
Qed.

End proofs.

(** ** Properties *)



End Protocol.
