(* ===== verification/SessionEnd.v ===== *)
(** The end of a session: once the flush thread has been told to stop, by the
    "end" message or by the destructor, both threads of [FlushLoop] have a bounded
    number of steps left, in every schedule and for every environment, and the
    session is destroyed unless a write to the peer, or the timer task of the model
    cache that [releaseModel] waits for, does not come to its end. *)

From stdpp Require Import prelude strings list.
From Stdlib Require Import ZArith Lia.
From S2P Require Import Prelude Transitions Floats Json ApiAuthClient AuthManager.
From S2P Require Import ModelCache Engine Session FlushLoop.

Module SessionEnd.
Import Session.
Import FlushLoop.

(** ** The steps left *)

Definition cont_steps (k : fcont) : nat :=
  match k with KLoop => 0 | KFinish _ _ => 2 | KResume _ _ => 4 | KInfer _ => 6 end.

(** The steps of the flush thread from a program point to its return. *)
Definition flush_steps (p : fpc) : nat :=
  match p with
  | FExited => 0 | FIdle => 1
  | FLocking k => 2 + cont_steps k | FSending _ k => 3 + cont_steps k
  | FChecked => 10
  end.

(** The steps of the receive thread once it has left the read loop. *)
Definition receive_steps (p : rpc) : nat :=
  match p with
  | RDone => 0 | RWait _ true => 1 | RDestroy => 2 | RUnwind => 3 | RWait _ false => 4
  | RLeave => 5 | RSend ms _ => 5 + length ms | RJoin => 8 | RRead => 0
  end.

Definition steps_left (w : world) : nat :=
  if bool_decide (stat w = Running) then flush_steps (f w) + receive_steps (r w) else 0.

(** The receive thread does not come back to [ws_.read]; what it still writes is
    at most the final transcription and the close. *)
Definition ending (p : rpc) : Prop :=
  match p with
  | RRead | RSend _ false => False
  | RSend ms true => (0 < length ms <= 2)%nat
  | _ => True
  end.

(** In the last wait, or destroyed. *)
Definition finished (p : rpc) : bool := match p with RDone | RWait _ true => true | _ => false end.

Record stopped (w : world) : Prop := {
  st_ending : flush_running w = false -> ending (r w);
  st_done : finished (r w) = true -> f w = FExited /\ model_acquired (st w) = false
}.

(** A thread is in a [ws_.write] or [ws_.close]. *)
Definition writing (w : world) : Prop :=
  (exists ms leave, r w = RSend ms leave) \/ (exists m k, f w = FSending m k).

(** The receive thread waits for a timer task of the model cache. *)
Definition waiting (w : world) : Prop := exists old destroying, r w = RWait old destroying.

(** The events of the environment: the peer takes what is written, the timer task
    ends.  The others are steps of the session's own code. *)
Definition external (ev : event) : bool := match ev with Emit | FEmit | Waited => true | _ => false end.

Section proofs.
Context {J : JsonLib} (o : opts).

Lemma releaseModel_released id g s : model_acquired (releaseModel id g s).2 = false.
Proof.
  unfold releaseModel. destruct (model_acquired s) eqn:E; [|done].
  by destruct (ModelCache.release _ _) as [[? ?] ?].
Qed.

Lemma send_all_not_done outs w : finished (r (send_all outs w)) = false.
Proof. by destruct outs. Qed.

Lemma send_all_running outs w : flush_running (send_all outs w) = flush_running w.
Proof. by destruct outs. Qed.

Lemma recv_stopped fr w : r w = RRead -> flush_running w = true -> stopped (recv o fr w).
Proof.
  intros Hr Hf. destruct fr as [v message|now now_audio data]; cbn [recv].
  - destruct (handleJsonMessage _ _ _ _ _) as [g s outs| |what]; [|by split..].
    split; [by rewrite send_all_running; cbn; rewrite Hf|by rewrite send_all_not_done].
  - destruct (handleBinaryMessage _ _ _ _) as [s outs].
    split; [by rewrite send_all_running; cbn; rewrite Hf|by rewrite send_all_not_done].
Qed.

(** A step of the flush thread's own code. *)
Lemma flush_stopped w w' : stopped w -> f w <> FExited -> r w' = r w ->
  flush_running w' = flush_running w -> stopped w'.
Proof.
  intros [He Hd] Hf E1 E2. split; rewrite E1, ?E2; [done|]. intros Hr. by destruct (Hd Hr).
Qed.

Lemma step_stopped ev w w' : stopped w -> step o ev w = Some w' -> stopped w'.
Proof.
  intros Hst H. pose proof Hst as [He Hd]. unfold step in H. destruct (bool_decide _); [|done].
  destruct ev as [fr| |env sf| |id| | |id| | |now_idle now sf env| |env].
  - destruct (r w) eqn:Er; try done. injection H as <-. apply recv_stopped; [done|].
    by destruct (flush_running w); [|destruct He].
  - destruct (r w) as [|[|m ms] leave| | |old d| | |] eqn:Er; try done. injection H as <-.
    split; cbn; [|by destruct ms; [destruct leave|]].
    intros Hf. specialize (He Hf). destruct leave; [|done]. destruct ms; cbn in *; [done|lia].
  - destruct (r w) eqn:Er; try done. destruct (f w); try done. injection H as <-.
    destruct (handleEnd env sf (st w)) as [[s outs]|] eqn:E; [|by split].
    apply handleEnd_outs in E as (text & i & ->). split; [cbn; lia|done].
  - destruct (r w) eqn:Er; try done. by injection H as <-.
  - destruct (r w) eqn:Er; try done.
    destruct (releaseModel _ _ _) as [[[old|] g] s]; by injection H as <-.
  - destruct (r w) as [| | | |old []| | |] eqn:Er; try done; injection H as <-; [|by split].
    destruct (Hd eq_refl). by split.
  - destruct (r w) eqn:Er; try done. by injection H as <-.
  - destruct (r w) eqn:Er; try done. destruct (f w) eqn:Ef; try done.
    pose proof (releaseModel_released id (sh w) (st w)) as Hm.
    destruct (releaseModel _ _ _) as [[[old|] g] s]; by injection H as <-.
  - destruct (f w) eqn:Ef; try done. injection H as <-.
    apply (flush_stopped w); [done|congruence|done..].
  - destruct (f w) eqn:Ef; try done. injection H as <-.
    apply (flush_stopped w); [done|congruence|done..].
  - destruct (f w) eqn:Ef; try done. destruct (mutex_held _); [done|]. injection H as <-.
    destruct (cycle_frame o now_idle now sf env w Ef) as (_ & E1 & E2 & _).
    apply (flush_stopped w); [done|congruence|done..].
  - destruct (f w) eqn:Ef; try done. injection H as <-.
    apply (flush_stopped w); [done|congruence|done..].
  - destruct (f w) eqn:Ef; try done. destruct (mutex_held _); [done|]. injection H as <-.
    destruct (relocked_frame env k w Ef) as (_ & E1 & E2 & _).
    apply (flush_stopped w); [done|congruence|done..].
Qed.

Lemma run_stopped evs now g w : run o evs (start now g) = Some w -> stopped w.
Proof.
  apply (Transitions.exec_invariant (step o) stopped); [|by split].
  intros ev v v'. apply step_stopped.
Qed.

(** *** Every step is one less to take *)

Lemma conclude_steps res n w :
  stat (conclude res n w) = Running -> (flush_steps (f (conclude res n w)) <= 3)%nat.
Proof. unfold conclude. destruct (finish _ _ _) as [[s [text|]]|]; cbn; [lia|lia|done]. Qed.

Lemma infer_steps env n w :
  stat (infer env n w) = Running -> (flush_steps (f (infer env n w)) <= 7)%nat.
Proof.
  unfold infer. destruct (engine _); [|done].
  destruct (Engine.transcribeSlidingWindow _ _ _ _) as [[res|what] e']; [|done].
  destruct (_ && _); [destruct (_ =? 0); cbn; lia|]. intros H. pose proof (conclude_steps _ _ _ H). lia.
Qed.

Lemma cycle_steps now_idle now sf env w :
  stat (cycle o now_idle now sf env w) = Running ->
  (flush_steps (f (cycle o now_idle now sf env w)) <= 9)%nat.
Proof.
  unfold cycle. destruct (watchdog _ _ _) as [down s].
  destruct (configured s), (engine s) as [e|]; try (cbn; lia).
  destruct (_ <? _); [cbn; lia|]. destruct (negb (due _ _ _ _)); [cbn; lia|].
  destruct sf; cbn [negb]; destruct (capacity_degraded _); try (cbn; lia).
  intros H. pose proof (infer_steps _ _ _ H). lia.
Qed.

Lemma relocked_steps env k w :
  stat (relocked env k w) = Running ->
  (flush_steps (f (relocked env k w)) < 2 + cont_steps k)%nat.
Proof.
  destruct k; cbn [relocked cont_steps]; intros H; try (cbn; lia).
  - pose proof (infer_steps _ _ _ H). lia.
  - pose proof (conclude_steps _ _ _ H). lia.
Qed.

(** A step of the flush thread that leaves the receive thread alone. *)
Lemma steps_left_flush w w' :
  stat w = Running -> r w' = r w -> f w <> FExited ->
  (stat w' = Running -> (flush_steps (f w') < flush_steps (f w))%nat) -> (steps_left w' < steps_left w)%nat.
Proof.
  intros Hs Hr Hf H. unfold steps_left. rewrite (bool_decide_eq_true_2 _ Hs), Hr.
  destruct (bool_decide_reflect (stat w' = Running)) as [Hs'|]; [specialize (H Hs'); lia|].
  destruct (f w); cbn; try done; lia.
Qed.

Lemma step_decreases ev w w' :
  stopped w -> flush_running w = false -> step o ev w = Some w' ->
  flush_running w' = false /\ (steps_left w' < steps_left w)%nat.
Proof.
  intros [He _] Hf H. specialize (He Hf). pose proof (step_running o _ _ _ H) as Hs.
  unfold step in H. rewrite (bool_decide_eq_true_2 _ Hs) in H.
  assert (forall w', w' = w' -> stat w' = Running -> f w' = f w ->
    (receive_steps (r w') < receive_steps (r w))%nat -> (steps_left w' < steps_left w)%nat) as Hrecv.
  { intros v _ E1 E2 Hlt. unfold steps_left.
    rewrite (bool_decide_eq_true_2 _ Hs), (bool_decide_eq_true_2 _ E1), E2. lia. }
  destruct ev as [fr| |env sf| |id| | |id| | |now_idle now sf env| |env].
  - by destruct (r w).
  - destruct (r w) as [|[|m ms] leave| | |old d| | |] eqn:Er; try done. destruct leave; [|done].
    injection H as <-. split; [done|]. apply Hrecv; [done..|]. destruct ms; cbn; lia.
  - destruct (r w) eqn:Er; try done. destruct (f w) eqn:Ef; try done. injection H as <-.
    destruct (handleEnd env sf (st w)) as [[s outs]|] eqn:E.
    + apply handleEnd_outs in E as (text & i & ->). split; [done|]. apply Hrecv; try done. cbn. lia.
    + split; [done|]. apply Hrecv; try done. cbn. lia.
  - by destruct (r w).
  - destruct (r w) eqn:Er; try done. destruct (releaseModel _ _ _) as [[[old|] g] s]; injection H as <-;
      (split; [done|]; apply Hrecv; try done; cbn; lia).
  - destruct (r w) as [| | | |old []| | |] eqn:Er; try done; injection H as <-;
      (split; [done|]; apply Hrecv; try done; cbn; lia).
  - destruct (r w) eqn:Er; try done. injection H as <-. split; [done|]. apply Hrecv; try done. cbn. lia.
  - destruct (r w) eqn:Er; try done. destruct (f w) eqn:Ef; try done.
    destruct (releaseModel _ _ _) as [[[old|] g] s]; injection H as <-;
      (split; [done|]; apply Hrecv; try done; cbn; lia).
  - destruct (f w) eqn:Ef; try done. injection H as <-. split; [done|].
    apply steps_left_flush; try done; rewrite Ef; [done|]. cbn. rewrite Hf. cbn. lia.
  - destruct (f w) eqn:Ef; try done. injection H as <-. split; [done|].
    apply steps_left_flush; try done; rewrite Ef; [done|]. cbn. lia.
  - destruct (f w) eqn:Ef; try done. destruct (mutex_held _); [done|]. injection H as <-.
    destruct (cycle_frame o now_idle now sf env w Ef) as (_ & E1 & E2 & _). split; [congruence|].
    apply steps_left_flush; try done; rewrite Ef; [done|].
    intros Hs'. pose proof (cycle_steps _ _ _ _ _ Hs'). cbn [flush_steps]. lia.
  - destruct (f w) eqn:Ef; try done. injection H as <-. split; [done|].
    apply steps_left_flush; try done; rewrite Ef; [done|]. cbn. lia.
  - destruct (f w) eqn:Ef; try done. destruct (mutex_held _); [done|]. injection H as <-.
    destruct (relocked_frame env k w Ef) as (_ & E1 & E2 & _). split; [congruence|].
    apply steps_left_flush; try done; rewrite Ef; [done|]. intros Hs'. by apply relocked_steps.
Qed.

Lemma run_decreases evs w w' :
  stopped w -> flush_running w = false -> run o evs w = Some w' ->
  flush_running w' = false /\ (length evs + steps_left w' <= steps_left w)%nat.
Proof.
  revert w. induction evs as [|ev evs IH]; intros w Hw Hf H; [injection H as <-; by split|].
  apply Transitions.exec_cons in H as (w1 & H1 & H2).
  destruct (step_decreases _ _ _ Hw Hf H1) as [Hf1 Hlt].
  destruct (IH w1) as [? ?]; [by eapply step_stopped|done|done|]. cbn [length]. split; [done|lia].
Qed.

(** A thread that has not finished goes on, writes or waits. *)
Lemma progress w : stat w = Running -> ending (r w) ->
  r w = RDone /\ f w = FExited \/ (exists ev w', external ev = false /\ step o ev w = Some w') \/
  writing w \/ waiting w.
Proof.
  intros Hs He. destruct (mutex_held (r w)) eqn:Hfree.
  { right. right. right. destruct (r w) eqn:Er; try done. by eexists _, _. }
  destruct (f w) as [| |m k|k|] eqn:Ef.
  - right. left. exists FCheck. eexists. unfold step. rewrite (bool_decide_eq_true_2 _ Hs), Ef. done.
  - right. left. exists (FCycle 0 0 false no_whisper). eexists.
    unfold step. rewrite (bool_decide_eq_true_2 _ Hs), Ef, Hfree. done.
  - right. right. left. right. eauto.
  - right. left. exists (FLock no_whisper). eexists.
    unfold step. rewrite (bool_decide_eq_true_2 _ Hs), Ef, Hfree. done.
  - unfold step. rewrite (bool_decide_eq_true_2 _ Hs).
    destruct (r w) as [|ms leave| | | | | |] eqn:Er; try done.
    + right. right. left. left. eauto.
    + right. left. exists (Join no_whisper false). rewrite Ef. by eexists.
    + right. left. exists (Leave 0%nat). destruct (releaseModel _ _ _) as [[? ?] ?]. by eexists.
    + right. left. exists Unwind. by eexists.
    + right. left. exists (Destroyed 0%nat). rewrite Ef. destruct (releaseModel _ _ _) as [[? ?] ?]. by eexists.
    + by left.
Qed.

(** The watchdog is the flush thread's: once it has returned nothing shuts the
    socket down any more, whatever the receive thread is stuck in. *)
Lemma ended_session_unwatched ev w w' : f w = FExited -> step o ev w = Some w' ->
  f w' = FExited /\ socket_down w' = socket_down w.
Proof.
  intros Hf H. unfold step in H. destruct (bool_decide _); [|done].
  destruct ev as [fr| |env sf| |id| | |id| | |now_idle now sf env| |env]; rewrite ?Hf in H; try done.
  - destruct (r w); try done. injection H as <-. destruct fr as [v message|now now_audio data]; cbn [recv].
    + destruct (handleJsonMessage _ _ _ _ _) as [g s [|m outs]| |]; done.
    + destruct (handleBinaryMessage _ _ _ _) as [s [|m outs]]; done.
  - destruct (r w) as [|[|m ms] leave| | |old d| | |]; try done. by injection H as <-.
  - destruct (r w); try done. injection H as <-.
    by destruct (handleEnd env sf (st w)) as [[s [|m outs]]|].
  - destruct (r w); try done. by injection H as <-.
  - destruct (r w); try done. destruct (releaseModel _ _ _) as [[? ?] ?]. by injection H as <-.
  - destruct (r w); try done. by injection H as <-.
  - destruct (r w); try done. by injection H as <-.
  - destruct (r w); try done. destruct (releaseModel _ _ _) as [[? ?] ?]. by injection H as <-.
Qed.

Lemma steps_left_bound w : ending (r w) -> (steps_left w <= 18)%nat.
Proof.
  intros He. unfold steps_left. destruct (bool_decide _); [|lia].
  assert (flush_steps (f w) <= 10)%nat by (destruct (f w) as [| |? []|[]|]; cbn; lia).
  assert (receive_steps (r w) <= 8)%nat; [|lia].
  destruct (r w) as [|ms []| | |old []| | |]; cbn in *; lia || done.
Qed.

End proofs.

(** ** Properties *)

(** Destroyed: the model released, the flush thread joined, no slot in hand. *)
Definition destroyed (w : world) : Prop :=
  r w = RDone /\ f w = FExited /\ model_acquired (st w) = false /\ slot w = false.

(** C8: An ended session terminates.  Once the flush thread has been told to stop,
    by the "end" message or by the destructor, every schedule of the two threads,
    whatever whisper, the limiter and the clock do, has at most 18 more steps, and
    at the end of each, as long as the process lives, the session is destroyed (its
    model released, its flush thread joined and its inference slot given back), or
    its own code can go on, or a thread is in a [ws_.write] or [ws_.close] that has
    not returned, or it waits for a timer task of the model cache.  These two waits
    are the only ones that can keep the session for good: no lock and no join can. *)
Theorem ended_session_terminates {J : JsonLib} o now g evs w evs' w' :
  run o evs (start now g) = Some w -> flush_running w = false -> run o evs' w = Some w' ->
  (length evs' <= 18)%nat /\
  (stat w' = Running ->
     destroyed w' \/ (exists ev w2, external ev = false /\ step o ev w' = Some w2) \/
     writing w' \/ waiting w').
Proof.
  intros H Hf H'. pose proof (run_stopped o evs now g w H) as Hw.
  destruct (run_decreases o evs' w w' Hw Hf H') as [Hf' Hlen].
  pose proof (steps_left_bound w (st_ending _ Hw Hf)). split; [lia|]. intros Hs.
  assert (run o (evs ++ evs') (start now g) = Some w') as Hall by (by eapply Transitions.exec_trans).
  pose proof (run_stopped o _ now g w' Hall) as [He Hd].
  destruct (progress o w' Hs (He Hf')) as [[Hr Hx]|?]; [|by right]. left.
  rewrite Hr in Hd. destruct (Hd eq_refl) as [_ Hm]. repeat split; try done.
  apply (run_wf o _ _ _ (wf_start now g) Hall); [done|by rewrite Hx].
Qed.

(** The stream ends, and the two threads run to their ends. *)
Definition to_the_end : list event := [Join no_whisper false; Emit; Emit; Leave 0; Unwind; Destroyed 0].

Lemma ended_session_terminates_witness :
  exists w w', run (J := TinyJson.lib) sample_opts short_session (start 0 open_shared) = Some w /\
    flush_running w = false /\ run (J := TinyJson.lib) sample_opts to_the_end w = Some w' /\
    destroyed w'.
Proof.
  destruct (run (J := TinyJson.lib) sample_opts short_session (start 0 open_shared)) as [w|] eqn:E;
    [|by vm_compute in E].
  destruct (run (J := TinyJson.lib) sample_opts to_the_end w) as [w'|] eqn:E'.
  - assert (flush_running w = false) as Hf by (vm_compute in E; by injection E as <-).
    assert (stat w' = Running /\ r w' = RDone /\ f w' = FExited) as (Hs & Hr & Hx).
    { vm_compute in E. injection E as <-. vm_compute in E'. by injection E' as <-. }
    exists w, w'. repeat split; try done.
    all: destruct (proj2 (ended_session_terminates sample_opts 0 open_shared short_session w to_the_end w' E Hf E') Hs)
      as [(_ & _ & Hm & Hslot)|[(ev & w2 & He & Hstep)|[[(ms & leave & Hw)|(m & k & Hw)]|(old & d & Hw)]]];
      [done| |congruence..].
    all: exfalso; vm_compute in E; injection E as <-; vm_compute in E'; injection E' as <-; by destruct ev.
  - exfalso. vm_compute in E. injection E as <-. by vm_compute in E'.
Defined.

End SessionEnd.
