(* ===== verification/SessionTypes.v ===== *)
(** The well-formedness of a session's state: what the code relies on between two
    critical sections, in every interleaving of the two threads of [FlushLoop]. *)

From stdpp Require Import prelude strings list.
From Stdlib Require Import ZArith Lia.
From S2P Require Import Prelude Transitions Floats Json ApiAuthClient AuthManager.
From S2P Require Import ModelCache Engine Session FlushLoop.

Module SessionTypes.
Import Session.
Import FlushLoop.

(** A number of samples of the audio buffer. *)
Definition samples (n : Z) : Prop := 0 <= n <= Engine.max_buffer_samples.

(** [dropped_chunks_] counts the drops of the current saturation episode. *)
Definition flow_typed (x : flow) : Prop :=
  0 <= dropped_chunks x /\ (buffer_overflowed x = false -> dropped_chunks x = 0) /\
  samples (last_transcribed_size x).

Definition engine_typed (e : option Engine.t) : Prop :=
  match e with Some e => Engine.bounded e | None => True end.

(** An engine exists only while the session is configured and holds the model. *)
Record typed (s : Session.t) : Prop := {
  t_flow : flow_typed (fl s);
  t_rate : 0 <= bytes_received (rate s);
  t_buffer : engine_typed (engine s);
  t_engine : engine s <> None -> configured s = true /\ model_acquired s = true
}.

(** The buffer size the flush thread remembers across its messages. *)
Definition cont_typed (k : fcont) : Prop :=
  match k with KLoop => True | KInfer n | KResume _ n | KFinish _ n => samples n end.
Definition pc_typed (p : fpc) : Prop :=
  match p with FSending _ k | FLocking k => cont_typed k | _ => True end.

Definition world_typed (w : world) : Prop := typed (st w) /\ pc_typed (f w).

(** ** Proofs *)

Lemma buffer_samples e : Engine.bounded e -> samples (Engine.getBufferSize e).
Proof. unfold Engine.bounded, samples, Engine.getBufferSize. pose proof (zlen_nonneg (Engine.audio_buffer e)). lia. Qed.

Lemma fresh_flow_typed : flow_typed (Flow false 0 false 0).
Proof. unfold flow_typed, samples, Engine.max_buffer_samples. cbn. lia. Qed.

Lemma typed_make now : typed (Session.make now).
Proof. split; cbn; [apply fresh_flow_typed|lia|done|done]. Qed.

(** Another engine in the place of the one that is there. *)
Lemma typed_engine s e e' : typed s -> engine s = Some e -> Engine.bounded e' ->
  typed (set_engine (Some e') s).
Proof. intros [Hf Hr _ He] E Hb. split; cbn; try done. intros _. apply He. by rewrite E. Qed.

Lemma typed_flow s x : typed s -> flow_typed x -> typed (set_flow x s).
Proof. intros [_ Hr Hb He] Hx. by split. Qed.

Lemma engine_bounded s e : typed s -> engine s = Some e -> Engine.bounded e.
Proof. intros [_ _ Hb _] E. by rewrite E in Hb. Qed.

(** Members that play no part. *)
Lemma typed_same s s' : fl s' = fl s -> rate s' = rate s -> engine s' = engine s ->
  configured s' = configured s -> model_acquired s' = model_acquired s -> typed s -> typed s'.
Proof. intros E1 E2 E3 E4 E5 [Hf Hr Hb He]. by split; rewrite ?E1, ?E2, ?E3, ?E4, ?E5. Qed.

Lemma typed_rate s x : typed s -> 0 <= bytes_received x -> typed (set_rate x s).
Proof. intros [Hf _ Hb He] Hx. by split. Qed.

Lemma processAudioChunk_typed now audio s : typed s -> typed (Session.processAudioChunk now audio s).1.
Proof.
  intros Hs. unfold Session.processAudioChunk. destruct (configured s) eqn:Ec; [|done].
  destruct (engine s) as [e|] eqn:Ee; [|done]. cbn [fl touch].
  pose proof (Engine.processAudioChunk_bounded audio e (engine_bounded _ _ Hs Ee)) as Hb.
  destruct (Engine.processAudioChunk audio e) as [ov e']. cbn [fst snd] in *.
  assert (typed (set_engine (Some e') (touch now s))) as Hs'.
  { apply (typed_engine _ e); [by apply (typed_same s)|done|done]. }
  destruct ov; [|done]. apply typed_flow; [done|]. destruct (t_flow _ Hs) as (H1 & H2 & H3).
  split; cbn; [lia|]. by split.
Qed.

Lemma rate_step_typed now n x x' : 0 <= n -> 0 <= bytes_received x -> rate_step now n x = Some x' ->
  0 <= bytes_received x'.
Proof. unfold rate_step. intros. repeat case_match; simplify_eq/=; lia. Qed.

Lemma handleBinary_typed now now_audio data s : typed s -> typed (handleBinaryMessage now now_audio data s).1.
Proof.
  intros Hs. pose proof (zlen_nonneg data) as Hz. pose proof (t_rate _ Hs) as Hr.
  unfold handleBinaryMessage. repeat (case_match; cbn [fst]; try done).
  - apply processAudioChunk_typed, typed_rate; [done|]. by apply (rate_step_typed now (zlen data) (rate s)).
  - apply typed_rate; [done|]. cbn. lia.
Qed.

Lemma finish_typed res n s s' text : typed s -> samples n -> finish res n s = Some (s', text) -> typed s'.
Proof.
  intros Hs Hn. destruct (t_flow _ Hs) as (H1 & H2 & _). unfold finish.
  intros (s1 & E1 & [= -> _])%bind_Some. destruct (bool_decide _).
  - injection E1 as <-. apply typed_flow; [done|]. by split.
  - apply bind_Some in E1 as (e & Ee & [= <-]). apply typed_flow; [by apply (typed_same s)|].
    split; [done|]. split; [done|]. by apply buffer_samples, (engine_bounded s).
Qed.

Lemma handleEnd_typed env sf s s' outs : typed s -> handleEnd env sf s = Ok (s', outs) -> typed s'.
Proof.
  intros Hs. unfold handleEnd. destruct (engine s) as [e|] eqn:Ee; [destruct sf|].
  - pose proof (Engine.transcribe_bounded env [] true e (engine_bounded _ _ Hs Ee)) as Hb.
    destruct (Engine.transcribeSlidingWindow env [] true e) as [[res|what] e']; cbn; [|done].
    intros [= <- _]. apply (typed_same (set_engine (Some e') s)); try done.
    by apply (typed_engine _ e).
  - intros [= <- _]. by apply (typed_same s).
  - intros [= <- _]. by apply (typed_same s).
Qed.

Lemma releaseModel_typed id g s : typed s -> typed (releaseModel id g s).2.
Proof.
  intros Hs. unfold releaseModel. destruct (model_acquired s); [|done].
  destruct (ModelCache.release _ _) as [[? ?] ?]. cbn. by destruct Hs; split.
Qed.

(** A stale [last_transcribed_size_], larger than the buffer, makes an inference due
    however little new audio there is: the subtraction wraps around. *)
Lemma stale_size_is_due o now n s :
  typed s -> samples n -> n < last_transcribed_size (fl s) ->
  msToSamples16kHz (flush_min_new_audio_ms o) <= 2 ^ 63 -> due o now n s = true.
Proof.
  intros Hs Hn Hlt Hms. destruct (t_flow _ Hs) as (_ & _ & Hl). unfold samples, Engine.max_buffer_samples in *.
  unfold due. rewrite usub_wrap by lia. by rewrite (proj2 (Z.leb_le _ _)) by lia.
Qed.

Section json.
Context {J : JsonLib} (o : opts).

Lemma fresh_engine_bounded lang thold e ok : Engine.make false ok = Ok e ->
  Engine.bounded (configure_engine o lang thold e).
Proof.
  unfold Engine.bounded. rewrite configure_engine_buffer. unfold Engine.make.
  destruct ok; [|done]. by intros [= <-].
Qed.

Lemma apply_config_typed v msg m s : typed s -> typed (apply_config o v msg m s).1.2.
Proof.
  intros Hs. unfold apply_config.
  destruct (if json_contains msg (lit "language") then _ else _) as [lang|what]; [|done].
  destruct (ModelCache.acquire _ _ _) as [[c|what] m1]; [|by apply (typed_same s)].
  destruct (Engine.make false (e_state_ok v)) as [e|what] eqn:Ee; cbn.
  - destruct Hs as [Hf Hr _ _]. split; cbn; [apply fresh_flow_typed|done| |done].
    by eapply fresh_engine_bounded.
  - destruct Hs as [Hf Hr Hb He]. split; cbn; try done. intros Hne. split; [by apply He|done].
Qed.

Lemma handleJson_typed v message g s g' s' outs : typed s ->
  handleJsonMessage o v message g s = Handled g' s' outs -> typed s'.
Proof.
  intros Hs. unfold handleJsonMessage, handleConfig. intros H.
  repeat (case_match; simplify_eq/=; try done).
  match goal with E : apply_config _ _ ?a ?m ?t = _ |- _ =>
    pose proof (apply_config_typed v a m t Hs) as Hc; by rewrite E in Hc end.
Qed.

(** ** The two threads *)

Lemma send_all_typed outs w : world_typed w -> world_typed (send_all outs w).
Proof. by destruct outs. Qed.

Lemma st_typed s w : typed s -> world_typed w -> world_typed (set_st s w).
Proof. intros Hs [_ Hp]. by split. Qed.

Lemma recv_typed fr w : world_typed w -> world_typed (recv o fr w).
Proof.
  intros Hw. destruct fr as [v message|now now_audio data]; cbn [recv].
  - destruct (handleJsonMessage o v message (sh w) (st w)) as [g s outs| |what] eqn:E; [|done|done].
    apply send_all_typed. split; [|by apply Hw]. eapply handleJson_typed, E. by apply Hw.
  - pose proof (handleBinary_typed now now_audio data (st w) (proj1 Hw)) as Hs.
    destruct (handleBinaryMessage now now_audio data (st w)) as [s outs].
    by apply send_all_typed, st_typed.
Qed.

Lemma conclude_typed res n w : typed (st w) -> samples n -> pc_typed (f w) ->
  world_typed (conclude res n w).
Proof.
  intros Hs Hn Hp. unfold conclude. destruct (finish res n (st w)) as [[s [text|]]|] eqn:E; [..|done].
  all: split; cbn; [by eapply finish_typed|done].
Qed.

Lemma infer_typed env n w : typed (st w) -> samples n -> pc_typed (f w) ->
  world_typed (infer env n w).
Proof.
  intros Hs Hn Hp. unfold infer. destruct (engine (st w)) as [e|] eqn:Ee; [|done].
  pose proof (Engine.transcribe_bounded env [] false e (engine_bounded _ _ Hs Ee)) as Hb.
  destruct (Engine.transcribeSlidingWindow env [] false e) as [[res|what] e']; [|done].
  assert (typed (set_engine (Some e') (st w))) as Hs' by (by apply (typed_engine _ e)).
  destruct (_ && _); [destruct (_ =? 0)|]; [by split..|]. by apply conclude_typed.
Qed.

Lemma cycle_typed now_idle now slot_free env w : f w = FChecked -> typed (st w) ->
  world_typed (cycle o now_idle now slot_free env w).
Proof.
  intros Hf Hs. unfold cycle.
  destruct (watchdog_frame o now_idle (st w)) as (down & b & ->).
  set (s := mk _ _ _ _ _ _ _ _ _). assert (typed s) as Hs1 by (by apply (typed_same (st w))).
  assert (world_typed (next_iteration (mark_down down (set_st s w)))) as Hn by done.
  destruct (configured s); [|done]. destruct (engine s) as [e|] eqn:Ee; [|done].
  pose proof (buffer_samples _ (engine_bounded _ _ Hs1 Ee)) as Hz.
  assert (forall b', typed (set_degraded b' s)) as Hd.
  { intros b'. apply typed_flow; [done|]. apply Hs1. }
  destruct (_ <? _); [done|]. destruct (negb (due _ _ _ _)); [done|].
  destruct slot_free; cbn [negb]; destruct (capacity_degraded (fl s));
    [split; cbn; [apply Hd|done]| |done|split; cbn; [apply Hd|done]].
  apply infer_typed; [done..|]. cbn. by rewrite Hf.
Qed.

Lemma relocked_typed env k w : f w = FLocking k -> world_typed w -> world_typed (relocked env k w).
Proof.
  intros Hf [Hs Hp]. assert (cont_typed k) as Hk by (by rewrite Hf in Hp).
  destruct k; cbn [relocked]; [by split|by apply infer_typed|by split|].
  apply conclude_typed; [|done|done]. cbn. apply typed_flow; [done|].
  destruct (t_flow _ Hs) as (_ & _ & H3). split; cbn; [lia|]. by split.
Qed.

Lemma step_typed ev w w' : world_typed w -> step o ev w = Some w' -> world_typed w'.
Proof.
  intros Hw. unfold step. destruct (bool_decide _); [|done]. destruct ev; cbn.
  - destruct (r w); try done. intros [= <-]. by apply recv_typed.
  - destruct (r w) as [|[|m ms] leave| | |old d| | |]; try done. by intros [= <-].
  - destruct (r w), (f w) eqn:Ef; try done. intros [= <-].
    destruct (handleEnd env slot_free (st w)) as [[s outs]|what] eqn:E; [|done].
    apply send_all_typed, st_typed; [|done]. eapply handleEnd_typed, E. by apply Hw.
  - destruct (r w); try done. by intros [= <-].
  - destruct (r w); try done. pose proof (releaseModel_typed task_id (sh w) (st w) (proj1 Hw)) as Hs.
    destruct (releaseModel _ _ _) as [[old g] s]. intros [= <-]. split; [done|by apply Hw].
  - destruct (r w); try done. by intros [= <-].
  - destruct (r w); try done. by intros [= <-].
  - destruct (r w), (f w) eqn:Ef; try done.
    pose proof (releaseModel_typed task_id (sh w) (st w) (proj1 Hw)) as Hs.
    destruct (releaseModel _ _ _) as [[old g] s]. intros [= <-]. split; [done|by apply Hw].
  - destruct (f w); try done. intros [= <-]. split; [by apply Hw|]. by destruct (flush_running w).
  - destruct (f w); try done. intros [= <-]. by split; [apply Hw|].
  - destruct (f w) eqn:Ef; try done. destruct (mutex_held (r w)); [done|].
    intros [= <-]. apply cycle_typed; [done|by apply Hw].
  - destruct (f w) eqn:Ef; try done. intros [= <-]. destruct Hw as [Hs Hp]. split; [done|].
    by rewrite Ef in Hp.
  - destruct (f w) eqn:Ef; try done. destruct (mutex_held (r w)); [done|].
    intros [= <-]. by apply relocked_typed.
Qed.

(** ** Properties *)

(** C13: A session's state is well formed at every point of every interleaving of its
    two threads.  The count of dropped chunks is never negative and is zero
    outside a saturation episode; the rate limiter's count is never negative;
    [last_transcribed_size_] and every buffer size that the flush thread carries
    over a message are between 0 and the buffer's capacity, and the buffer is
    within that capacity; an engine exists only while the session is configured
    and holds the model. *)
Theorem session_well_typed now g evs w : run o evs (start now g) = Some w -> world_typed w.
Proof.
  apply (Transitions.exec_invariant (step o) world_typed); [intros; by eapply step_typed|].
  split; [apply typed_make|done].
Qed.
End json.

Lemma session_well_typed_witness :
  exists w, run (J := TinyJson.lib) sample_opts short_session (start 0 open_shared) = Some w /\
    engine (st w) <> None /\ world_typed w.
Proof.
  destruct (run (J := TinyJson.lib) sample_opts short_session (start 0 open_shared)) as [w|] eqn:E;
    [|by vm_compute in E].
  exists w. split; [reflexivity|]. split; [vm_compute in E; by injection E as <-|].
  exact (session_well_typed sample_opts 0 open_shared short_session w E).
Defined.

End SessionTypes.
