(* ===== verification/System.v ===== *)
(** The process as a whole: any number of streaming sessions ([FlushLoop]) and of
    transcription requests, sharing the authentication state, the model cache with
    its timers, and the inference limiter.

    A session keeps its private state; the shared state is plugged into it for
    each step.  The step of a flush thread that reaches [TryGuard], and the final
    transcription of [handleEnd], are split in two: the slot is taken first, while
    the session keeps its [state_mutex_], and the other sessions may run before
    the inference that uses it ends.  A request follows [HandleTranscribe]: model
    reference, slot, and both given back in the opposite order; the wait in which
    [ModelCache::release] may end delays its reply and nothing else.  The same wait
    of a session, which keeps the session's mutex, ends when its timer task has. *)

From stdpp Require Import prelude strings list.
From Stdlib Require Import ZArith Lia.
From S2P Require Import Prelude Transitions Floats Json ApiAuthClient AuthManager.
From S2P Require Import SlotPool InferenceLimiter ModelCache Engine Session FlushLoop SessionEnd.

Module System.
Import Session.
Import FlushLoop.
Import SessionEnd.

(** ** State *)

(** A slot taken, or refused, by a thread that holds [state_mutex_]: by the flush
    thread, with the clock readings of its iteration, or by [handleEnd]. *)
Inductive grabbed := NoGrab | GCycle (now_idle now : Z) (got : bool) | GEnd (got : bool).

#[export] Instance grabbed_eq_dec : EqDecision grabbed.
Proof. solve_decision. Defined.

(** A session: its two threads, the slot in hand, the context its engine was made
    with, and how many times it has acquired the model. *)
Record local := Local {
  sess : FlushLoop.world;
  grab : grabbed;
  made : option ModelCache.context;
  acquired : Z
}.

(** A request: holding the model, holding a slot too, without the slot again (or
    refused it), finished. *)
Inductive request := QModel (c : ModelCache.context) | QSlot (c : ModelCache.context)
                   | QLeaving (c : ModelCache.context) | QDone.

Record sys := Sys {
  cache : ModelCache.t;
  clock : Z;
  tasks : list ModelCache.task;
  fresh : ModelCache.context;
  auth_state : AuthManager.t;
  lim : InferenceLimiter.t;
  locals : list local;
  reqs : list request
}.

(** The slots and model references held. *)
Definition got (g : grabbed) : bool :=
  match g with NoGrab => false | GCycle _ _ b | GEnd b => b end.
Definition held (l : local) : bool := slot (sess l) || got (grab l).
Definition taken (l : local) : Z :=
  if model_acquired (st (sess l)) then acquired l else Z.max 0 (acquired l - 1).
Definition q_slot (q : request) : bool := match q with QSlot _ => true | _ => false end.
Definition q_model (q : request) : bool := match q with QDone => false | _ => true end.

(** The sum of [f] over a list. *)
Definition total {A} (f : A -> Z) (l : list A) : Z := foldr (λ x n, f x + n) 0 l.

(** ** Steps *)

Inductive event :=
| SOpen (now : Z)
| SStep (i : nat) (ev : FlushLoop.event)
| SClaim (i : nat) (now_idle now : Z)
| SClaimEnd (i : nat) (in_time : bool)
| HAuth (token : str) (get put : Z) (api : ApiAuthClient.AuthResult)
| HModel (loads : bool)
| HSlot (k : nat)
| HGiveBack (k : nat)
| HEnd (k : nat)
| Timer (id : nat)
| Tick (d : Z).

(** What a thread may do while the session's mutex is held for a claimed slot,
    and what the shared state says about the event's data: a load yields a fresh
    context, a new timer has the next task number, and the wait of [releaseModel]
    is over when the timer task it waits for has returned. *)
Definition may_step (o : opts) (s : sys) (l : local) (ev : FlushLoop.event) : bool :=
  match ev with
  | Emit | ReadFails | Unwind => true
  | FCycle now_idle now slot_free _ =>
      bool_decide (grab l = if reaches_guard o now_idle now (st (sess l))
                            then GCycle now_idle now slot_free else NoGrab)
  | Join _ slot_free =>
      bool_decide (grab l = match engine (st (sess l)) with Some _ => GEnd slot_free | None => NoGrab end)
  | Recv (Text v _) =>
      bool_decide (grab l = NoGrab) &&
      (bool_decide (e_load v = None) || bool_decide (e_load v = Some (fresh s)))
  | Leave id | Destroyed id => bool_decide (grab l = NoGrab) && (id =? length (tasks s))%nat
  | Waited =>
      bool_decide (grab l = NoGrab) &&
      match r (sess l) with
      | RWait old _ => match tasks s !! old with Some ModelCache.Done => true | _ => false end
      | _ => false
      end
  | _ => bool_decide (grab l = NoGrab)
  end.

(** The timer tasks after the cache went from [m] to [m']. *)
Definition spawned (m' : ModelCache.t) (ts : list ModelCache.task) : list ModelCache.task :=
  if decide (ModelCache.unload_future m' = Some (length ts))
  then ts ++ [ModelCache.Created (ModelCache.ttl_seconds m')] else ts.

Definition plug (s : sys) (l : local) : FlushLoop.world :=
  set_sh (Shared (auth_state s) (cache s)) (sess l).

(** The session's record after its step [ev] to [w'] ... *)
Definition local_after (s : sys) (l : local) (ev : FlushLoop.event) (w' : FlushLoop.world) : local :=
  let m' := models (sh w') in
  Local w'
    (match ev with FCycle _ _ _ _ | Join _ _ => NoGrab | _ => grab l end)
    (match ev with
     | Recv (Text _ _) => if existsb is_ready (pending w') then ModelCache.ctx m' else made l
     | _ => made l
     end)
    (match ev with
     | Recv (Text _ _) =>
         if ModelCache.ref_count m' =? ModelCache.ref_count (cache s) + 1 then acquired l + 1 else acquired l
     | _ => acquired l
     end).

(** ... and what it shares, put back. *)
Definition put_back (s : sys) (i : nat) (l : local) (ev : FlushLoop.event) (w' : FlushLoop.world) : sys :=
  let l' := local_after s l ev w' in
  Sys (models (sh w')) (clock s) (spawned (models (sh w')) (tasks s))
    (match ev with Recv (Text _ _) => S (fresh s) | _ => fresh s end)
    (auth (sh w'))
    (if held l && negb (held l') then InferenceLimiter.release (lim s) else lim s)
    (<[i := l']> (locals s)) (reqs s).

Definition alive (s : sys) : bool := forallb (λ l, bool_decide (stat (sess l) = Running)) (locals s).

Definition set_local (i : nat) (l : local) (p : InferenceLimiter.t) (s : sys) : sys :=
  Sys (cache s) (clock s) (tasks s) (fresh s) (auth_state s) p (<[i := l]> (locals s)) (reqs s).

Definition set_req (k : nat) (q : request) (p : InferenceLimiter.t) (s : sys) : sys :=
  Sys (cache s) (clock s) (tasks s) (fresh s) (auth_state s) p (locals s) (<[k := q]> (reqs s)).

Section step.
Context {J : JsonLib} (o : opts).

Definition step (e : event) (s : sys) : option sys :=
  if alive s then
    match e with
    | SOpen now =>
        Some (Sys (cache s) (clock s) (tasks s) (fresh s) (auth_state s) (lim s)
                (locals s ++ [Local (start now (Shared (auth_state s) (cache s))) NoGrab None 0]) (reqs s))
    | SStep i ev =>
        l ← locals s !! i;
        if may_step o s l ev then w' ← FlushLoop.step o ev (plug s l); Some (put_back s i l ev w')
        else None
    | SClaim i now_idle now =>
        l ← locals s !! i;
        match f (sess l), grab l with
        | FChecked, NoGrab =>
            if reaches_guard o now_idle now (st (sess l)) && negb (mutex_held (r (sess l))) then
              let '(ok, p) := InferenceLimiter.try_acquire (lim s) in
              Some (set_local i (Local (sess l) (GCycle now_idle now ok) (made l) (acquired l)) p s)
            else None
        | _, _ => None
        end
    | SClaimEnd i in_time =>
        l ← locals s !! i;
        match r (sess l), f (sess l), grab l, engine (st (sess l)) with
        | RJoin, FExited, NoGrab, Some _ =>
            let l' := Local (sess l) (GEnd in_time) (made l) (acquired l) in
            if in_time then
              if InferenceLimiter.hasCapacity (lim s)
              then Some (set_local i l' (InferenceLimiter.claim (lim s)) s) else None
            else Some (set_local i l' (lim s) s)
        | _, _, _, _ => None
        end
    | HAuth token get put api =>
        let '(_, _, a) := AuthManager.validate token get put api (auth_state s) in
        Some (Sys (cache s) (clock s) (tasks s) (fresh s) a (lim s) (locals s) (reqs s))
    | HModel loads =>
        let '(res, m) := ModelCache.acquire (model_path o) (if loads then Some (fresh s) else None) (cache s) in
        Some (Sys m (clock s) (tasks s) (S (fresh s)) (auth_state s) (lim s) (locals s)
                (match res with Ok c => reqs s ++ [QModel c] | Throw _ => reqs s end))
    | HSlot k =>
        match reqs s !! k with
        | Some (QModel c) =>
            let '(ok, p) := InferenceLimiter.TryGuard_make (lim s) in
            Some (set_req k (if ok then QSlot c else QLeaving c) p s)
        | _ => None
        end
    | HGiveBack k =>
        match reqs s !! k with
        | Some (QSlot c) => Some (set_req k (QLeaving c) (InferenceLimiter.TryGuard_drop true (lim s)) s)
        | _ => None
        end
    | HEnd k =>
        match reqs s !! k with
        | Some (QLeaving _) =>
            let '(_, _, m) := ModelCache.release (length (tasks s)) (cache s) in
            Some (Sys m (clock s) (spawned m (tasks s)) (fresh s) (auth_state s) (lim s) (locals s)
                    (<[k := QDone]> (reqs s)))
        | _ => None
        end
    | Timer id =>
        match tasks s !! id with
        | Some k =>
            let '(k', m) := ModelCache.task_step (clock s) k (cache s) in
            Some (Sys m (clock s) (<[id := k']> (tasks s)) (fresh s) (auth_state s) (lim s) (locals s) (reqs s))
        | None => None
        end
    | Tick d =>
        if 0 <=? d
        then Some (Sys (cache s) (clock s + d) (tasks s) (fresh s) (auth_state s) (lim s) (locals s) (reqs s))
        else None
    end
  else None.

Definition run : list event -> sys -> option sys := Transitions.exec step.
End step.

(** The process after its start, with [n] inference slots. *)
Definition boot (ttl n : Z) (a : AuthManager.t) : sys :=
  Sys (ModelCache.configure ttl ModelCache.init) 0 [] 0%nat a
    (InferenceLimiter.setMaxConcurrency n InferenceLimiter.init) [] [].

(** ** Proofs *)

(** *** What the model cache promises *)

(** The cache, used for the model [p] only, with the references [hs] out. *)
Record good (p : str) (m : ModelCache.t) (ts : list ModelCache.task) (fr : ModelCache.context)
    (hs : list ModelCache.context) : Prop := {
  good_inv : ModelCache.inv p (ModelCache.World m 0 ts hs [] fr);
  good_future : forall id, ModelCache.unload_future m = Some id -> (id < length ts)%nat
}.

Section cache.
Context (p : str).
Implicit Types (m : ModelCache.t) (ts : list ModelCache.task) (hs : list ModelCache.context).

Lemma inv_anywhere m n n' ts hs bl bl' fr :
  ModelCache.inv p (ModelCache.World m n ts hs bl fr) -> ModelCache.inv p (ModelCache.World m n' ts hs bl' fr).
Proof. by intros []; split. Qed.

Lemma good_count m ts fr hs : good p m ts fr hs -> ModelCache.ref_count m = zlen hs.
Proof. intros [[] _]. done. Qed.

Lemma good_held m ts fr hs c :
  good p m ts fr hs -> c ∈ hs -> ModelCache.ctx m = Some c /\ c ∉ ModelCache.freed m.
Proof.
  intros [[_ _ Hh Hc _ _ _] _] Hin. cbn in *. rewrite Forall_forall in Hh.
  specialize (Hh _ Hin). split; [done|]. by apply Hc.
Qed.

Lemma good_fresh m ts fr hs : good p m ts fr hs -> good p m ts (S fr) hs.
Proof.
  intros [[H1 H2 H3 H4 [H5 H5'] H6 H7] Hf]. cbn in *. split; [|done]. split; cbn; try done.
  - intros c Hc. destruct (H4 c Hc). split; [lia|done].
  - split; [done|]. by apply ModelCache.fresh_grows.
Qed.

Lemma good_serves m ts fr hs : good p m ts fr hs -> ModelCache.serves p m.
Proof.
  intros [[H1 H2 H3 H4 H5 H6 H7] _]. unfold ModelCache.serves. cbn in *.
  destruct (ModelCache.ctx m) as [c|] eqn:E.
  - split; [by apply H2|]. rewrite H1. apply zlen_nonneg.
  - rewrite H1. destruct hs as [|c hs]; [done|]. apply Forall_cons in H3 as [H3 _]. congruence.
Qed.

Lemma good_acquire m ts fr hs (loads : bool) res m' :
  good p m ts fr hs -> ModelCache.acquire p (if loads then Some fr else None) m = (res, m') ->
  exists hs', good p m' ts (S fr) hs' /\
    match res with Ok c => hs' = c :: hs | Throw _ => hs' = hs end.
Proof.
  intros [Hi Hf] E.
  pose proof (ModelCache.acquire_inv p loads _ (ModelCache.World m' 0 ts
    (match res with Ok x => x :: hs | Throw _ => hs end) [] (S fr)) Hi) as H.
  cbn [ModelCache.step ModelCache.cache ModelCache.fresh] in H. rewrite E in H.
  eexists. split; [split; [apply H; by destruct res|]|by destruct res].
  pose proof (ModelCache.acquire_future p (if loads then Some fr else None) m) as Ef.
  rewrite E in Ef. cbn in Ef. by rewrite Ef.
Qed.

Lemma good_release m ts fr h hs old b m' :
  good p m ts fr (h :: hs) -> ModelCache.release (length ts) m = (old, b, m') ->
  good p m' (spawned m' ts) fr hs.
Proof.
  intros [Hi Hf] E.
  pose proof (ModelCache.release_future _ _ _ _ _ E) as Ef.
  pose proof (ModelCache.release_ttl (length ts) m) as Et. rewrite E in Et. cbn in Et.
  destruct (ModelCache.step ModelCache.Release (ModelCache.World m 0 ts (h :: hs) [] fr)) as [w|] eqn:Ew;
    cbn [ModelCache.step ModelCache.holders ModelCache.tasks ModelCache.cache] in Ew;
    rewrite E in Ew; [|done].
  assert (ModelCache.inv p w) as Hw.
  { apply (ModelCache.release_inv p _ w Hi).
    cbn [ModelCache.step ModelCache.holders ModelCache.tasks ModelCache.cache]. by rewrite E. }
  injection Ew as <-.
  assert (spawned m' ts = if b then ts ++ [ModelCache.Created (ModelCache.ttl_seconds m)] else ts) as ->.
  { unfold spawned. rewrite Ef, Et. destruct b; [by rewrite decide_True|].
    rewrite decide_False; [done|]. intros H. specialize (Hf _ H). lia. }
  split; [by eapply inv_anywhere|].
  intros id Hid. rewrite Ef in Hid. destruct b; [injection Hid as <-; rewrite length_app; cbn; lia|by apply Hf].
Qed.

Lemma good_task m ts fr hs id k n k' m' :
  good p m ts fr hs -> ts !! id = Some k -> ModelCache.task_step n k m = (k', m') ->
  good p m' (<[id := k']> ts) fr hs.
Proof.
  intros [Hi Hf] Hk E. split.
  - eapply inv_anywhere, (ModelCache.task_inv p id (ModelCache.World m n ts hs [] fr)); [by eapply inv_anywhere|].
    cbn [ModelCache.step ModelCache.tasks ModelCache.now ModelCache.cache]. by rewrite Hk, E.
  - pose proof (ModelCache.task_future n k m) as Ef. rewrite E in Ef. cbn in Ef.
    rewrite Ef, length_insert. done.
Qed.

Lemma good_same m ts fr hs m' ts' fr' hs' c :
  good p m ts fr hs -> good p m' ts' fr' hs' -> c ∈ hs -> c ∈ hs' -> ModelCache.ctx m' = ModelCache.ctx m.
Proof.
  intros H H' Hc Hc'. destruct (good_held _ _ _ _ _ H Hc) as [-> _].
  by destruct (good_held _ _ _ _ _ H' Hc') as [-> _].
Qed.
End cache.

(** *** Sums *)

Section total.
Context {A : Type} (f : A -> Z).

Lemma total_app l k : total f (l ++ k) = total f l + total f k.
Proof. induction l as [|x l IH]; cbn; [done|]. unfold total in *. lia. Qed.

Lemma total_insert l i x y : l !! i = Some x -> total f (<[i := y]> l) = total f l - f x + f y.
Proof.
  revert i. induction l as [|z l IH]; intros [|i] H; simplify_eq/=; [unfold total; lia|].
  specialize (IH i H). unfold total in *. lia.
Qed.

Lemma total_nonneg l : Forall (λ x, 0 <= f x) l -> 0 <= total f l.
Proof. induction 1; cbn in *; [done|]. unfold total in *. lia. Qed.

Lemma total_member l x : Forall (λ x, 0 <= f x) l -> x ∈ l -> f x <= total f l.
Proof.
  intros H Hx. revert H. induction Hx as [x l|x y l Hx IH]; intros [Hy H]%Forall_cons;
    pose proof (total_nonneg _ H); cbn; unfold total in *; [lia|]. specialize (IH H). lia.
Qed.

Lemma total_ext (g : A -> Z) l : (forall x, x ∈ l -> f x = g x) -> total f l = total g l.
Proof.
  induction l as [|x l IH]; intros H; [done|]. cbn. unfold total in *.
  rewrite (H x ltac:(by left)), IH; [done|]. intros y Hy. apply H. by right.
Qed.

Lemma total_zero l : Forall (λ x, f x = 0) l -> total f l = 0.
Proof. induction 1 as [|x l Hx _ IH]; cbn; [done|]. unfold total in *. lia. Qed.
End total.

(** *** What a session's step does to the shared state *)

Section session.
Context {J : JsonLib} (o : opts).

(** A "config" message takes a reference to the model, or leaves the cache to
    [acquire] that failed, or does not get that far. *)
Definition config_effect (v : config_env) (m : ModelCache.t) (s : Session.t)
    (m' : ModelCache.t) (s' : Session.t) (outs : list out) : Prop :=
  (m' = m /\ model_acquired s' = model_acquired s /\ engine s' = engine s /\ existsb is_ready outs = false) \/
  exists res, ModelCache.acquire (model_path o) (e_load v) m = (res, m') /\
    match res with
    | Throw _ => model_acquired s' = model_acquired s /\ engine s' = engine s /\ existsb is_ready outs = false
    | Ok _ => model_acquired s' = true /\
        (existsb is_ready outs = true \/ engine s' = engine s /\ existsb is_ready outs = false)
    end.

Lemma apply_config_effect v msg m s m' s' outs :
  apply_config o v msg m s = (m', s', outs) -> config_effect v m s m' s' outs.
Proof.
  unfold apply_config, config_effect. intros H.
  destruct (if json_contains msg (lit "language") then _ else _) as [lang|what]; [|simplify_eq; by left].
  right. destruct (ModelCache.acquire _ _ _) as [[c|what] m1] eqn:E; [|simplify_eq; by eexists].
  eexists. destruct (Engine.make false (e_state_ok v)) as [e|what]; simplify_eq; (split; [done|]);
    (split; [done|]); [by left|by right].
Qed.

Lemma authenticate_quiet v msg a outs a' : authenticate v msg a = (Ok outs, a') -> existsb is_ready outs = false.
Proof.
  unfold authenticate. intros H. destruct (e_close_throws v); repeat (case_match; simplify_eq/=; try done).
Qed.

Lemma handleJson_effect v message g s g' s' outs :
  handleJsonMessage o v message g s = Handled g' s' outs -> config_effect v (models g) s (models g') s' outs.
Proof.
  unfold handleJsonMessage. intros H.
  destruct (json_parse message) as [msg|what]; [|simplify_eq; by left].
  destruct (negb _); [simplify_eq; by left|].
  destruct (json_string _) as [type|what]; [|done].
  destruct (decide (type = lit "config")).
  - unfold handleConfig in H. destruct (authenticate v msg (auth g)) as [[[|x l]|what] a] eqn:Ea.
    + destruct (apply_config o v msg (models g) s) as [[m s1] outs1] eqn:E. simplify_eq.
      by eapply apply_config_effect.
    + simplify_eq. left. repeat split. by eapply authenticate_quiet.
    + simplify_eq. by left.
  - destruct (negb (configured s)); [simplify_eq; by left|].
    destruct (decide _); [done|]. simplify_eq. by left.
Qed.

Lemma recv_text_effect v message w :
  r w = RRead ->
  config_effect v (models (sh w)) (st w) (models (sh (recv o (Text v message) w)))
    (st (recv o (Text v message) w)) (pending (recv o (Text v message) w)).
Proof.
  intros Hr. cbn [recv]. destruct (handleJsonMessage o v message (sh w) (st w)) as [g s outs| |what] eqn:E;
    [|by left..].
  destruct (send_all_pending outs (set_sh g (set_st s w))) as (E1 & _ & _ & _ & _ & E6 & _).
  rewrite E1, E6. replace (sh (send_all outs _)) with g by (by destruct outs).
  by eapply handleJson_effect.
Qed.

(** The other steps leave the cache alone, or give the session's reference back. *)
Definition quiet (w w' : world) : Prop :=
  sh w' = sh w /\ model_acquired (st w') = model_acquired (st w) /\
  (engine (st w') = None <-> engine (st w) = None).

Definition releases (id : nat) (w w' : world) : Prop :=
  model_acquired (st w) = true /\ models (sh w') = (ModelCache.release id (models (sh w))).2 /\
  model_acquired (st w') = false /\ engine (st w') = None.

Lemma quiet_refl w : quiet w w.
Proof. by repeat split. Qed.

Lemma finish_quiet res n s s' text : finish res n s = Some (s', text) ->
  model_acquired s' = model_acquired s /\ engine s' = engine s.
Proof.
  unfold finish. intros (s1 & E1 & [= -> _])%bind_Some.
  destruct (bool_decide _); [by injection E1 as <-|]. by apply bind_Some in E1 as (e & _ & [= <-]).
Qed.

Lemma conclude_quiet res n w : quiet w (conclude res n w).
Proof.
  unfold conclude. destruct (finish res n (st w)) as [[s [text|]]|] eqn:E; [..|by repeat split].
  all: apply finish_quiet in E as [E1 E2]; repeat split; cbn; congruence.
Qed.

Lemma quiet_trans a b c : quiet a b -> quiet b c -> quiet a c.
Proof. intros (A1 & A2 & A3) (B1 & B2 & B3). split; [congruence|]. split; [congruence|]. by rewrite B3. Qed.

Lemma infer_quiet env n w : quiet w (infer env n w).
Proof.
  unfold infer. destruct (engine (st w)) as [e|] eqn:Ee; [|by repeat split].
  destruct (Engine.transcribeSlidingWindow env [] false e) as [[res|what] e']; [|by repeat split].
  assert (quiet w (set_st (set_engine (Some e') (st w)) w)) as Hq by (repeat split; cbn; congruence).
  destruct (_ && _); [destruct (_ =? 0); exact Hq|].
  eapply quiet_trans; [exact Hq|]. apply conclude_quiet.
Qed.

Lemma cycle_quiet now_idle now sf env w : quiet w (cycle o now_idle now sf env w).
Proof.
  unfold cycle. destruct (watchdog_frame o now_idle (st w)) as (down & b & ->). cbn [configured engine].
  destruct (configured (st w)), (engine (st w)) as [e|] eqn:Ee; try (repeat split; cbn; congruence).
  destruct (_ <? _); [repeat split; cbn; congruence|]. destruct (negb (due _ _ _ _)); [repeat split; cbn; congruence|].
  destruct sf; cbn [negb]; destruct (capacity_degraded _); try (repeat split; cbn; congruence).
  eapply quiet_trans; [|apply infer_quiet]. repeat split; cbn; congruence.
Qed.

Lemma relocked_quiet env k w : quiet w (relocked env k w).
Proof.
  destruct k; cbn [relocked]; try (by repeat split); [apply infer_quiet|].
  eapply quiet_trans; [|apply conclude_quiet]. by repeat split.
Qed.

Lemma handleBinary_quiet now now_audio data s :
  model_acquired (handleBinaryMessage now now_audio data s).1 = model_acquired s /\
  (engine (handleBinaryMessage now now_audio data s).1 = None <-> engine s = None).
Proof.
  unfold handleBinaryMessage, processAudioChunk. repeat case_match; simplify_eq/=; (split; [congruence|split; congruence]).
Qed.

Lemma handleEnd_quiet env sf s s' outs : handleEnd env sf s = Ok (s', outs) ->
  model_acquired s' = model_acquired s /\ (engine s' = None <-> engine s = None).
Proof.
  unfold handleEnd. destruct (engine s) as [e|] eqn:Ee; [destruct sf|].
  - destruct (Engine.transcribeSlidingWindow env [] true e) as [[res|what] e']; cbn; [|done].
    intros [= <- _]. cbn. split; [done|split; congruence].
  - intros [= <- _]. cbn. split; [done|split; congruence].
  - intros [= <- _]. cbn. split; [done|split; congruence].
Qed.

Lemma releaseModel_effect id g s old g' s' : releaseModel id g s = (old, g', s') ->
  (g' = g /\ s' = s) \/
  (model_acquired s = true /\ models g' = (ModelCache.release id (models g)).2 /\
   model_acquired s' = false /\ engine s' = None).
Proof.
  unfold releaseModel. destruct (model_acquired s); [|intros [= <- <- <-]; by left].
  destruct (ModelCache.release id (models g)) as [[? ?] m]. intros [= <- <- <-]. by right.
Qed.

Lemma step_effect ev w w' :
  FlushLoop.step o ev w = Some w' ->
  match ev with
  | Recv (Text v message) => r w = RRead /\ w' = recv o (Text v message) w
  | Leave id | Destroyed id => quiet w w' \/ releases id w w'
  | _ => quiet w w'
  end.
Proof.
  unfold FlushLoop.step. destruct (bool_decide _); [|done].
  destruct ev as [[v message|now now_audio data]| |env sf| |id| | |id| | |now_idle now sf env| |env].
  - destruct (r w); try done. by intros [= <-].
  - destruct (r w); try done. intros [= <-]. cbn [recv].
    pose proof (handleBinary_quiet now now_audio data (st w)) as [E1 E2].
    destruct (handleBinaryMessage now now_audio data (st w)) as [s outs].
    by destruct outs; repeat split; cbn in *; try done; apply E2.
  - destruct (r w) as [|[|m ms] leave| | |old d| | |]; try done. intros [= <-]. by repeat split.
  - destruct (r w), (f w); try done. intros [= <-].
    destruct (handleEnd env sf (st w)) as [[s outs]|] eqn:E; [|by repeat split].
    apply handleEnd_quiet in E as [E1 E2]. by destruct outs; repeat split; cbn in *; try done; apply E2.
  - destruct (r w); try done. intros [= <-]. by repeat split.
  - destruct (r w); try done. destruct (releaseModel id (sh w) (st w)) as [[old g] s] eqn:E. intros [= <-].
    apply releaseModel_effect in E as [[-> ->]|E]; [by left|by right].
  - destruct (r w); try done. intros [= <-]. by repeat split.
  - destruct (r w); try done. intros [= <-]. by repeat split.
  - destruct (r w), (f w); try done. destruct (releaseModel id (sh w) (st w)) as [[old g] s] eqn:E.
    intros [= <-]. apply releaseModel_effect in E as [[-> ->]|E]; [by left|by right].
  - destruct (f w); try done. intros [= <-]. by repeat split.
  - destruct (f w); try done. intros [= <-]. by repeat split.
  - destruct (f w); try done. destruct (mutex_held _); [done|]. intros [= <-]. apply cycle_quiet.
  - destruct (f w) as [| |m k| |]; try done. intros [= <-]. by repeat split.
  - destruct (f w) as [| | |k|]; try done. destruct (mutex_held _); [done|].
    intros [= <-]. apply relocked_quiet.
Qed.

(** *** Slots *)

Lemma conclude_slot res n w : slot (conclude res n w) = true -> slot w = true.
Proof. unfold conclude. by destruct (finish _ _ _) as [[s [text|]]|]. Qed.

Lemma infer_slot env n w : slot (infer env n w) = true -> slot w = true.
Proof.
  unfold infer. destruct (engine _); [|done].
  destruct (Engine.transcribeSlidingWindow _ _ _ _) as [[res|what] e']; [|done].
  destruct (_ && _); [by destruct (_ =? 0)|]. by intros ?%conclude_slot.
Qed.

(** Only an iteration that got past [TryGuard] holds a slot. *)
Lemma cycle_slot now_idle now sf env w :
  slot (cycle o now_idle now sf env w) = true -> reaches_guard o now_idle now (st w) = true /\
    (sf = true \/ slot w = true).
Proof.
  unfold cycle, reaches_guard. destruct (watchdog o now_idle (st w)) as [down s]. cbn [snd].
  destruct (configured s), (engine s) as [e|]; try done.
  destruct (_ <? _); [done|]. destruct (due _ _ _ _); cbn [negb andb]; [|done].
  destruct sf; cbn [negb]; destruct (capacity_degraded _); try done; intros H; split; try done; by auto.
Qed.

Lemma step_slot ev w w' :
  FlushLoop.step o ev w = Some w' -> slot w' = true ->
  match ev with
  | FCycle now_idle now sf _ => reaches_guard o now_idle now (st w) = true /\ (sf = true \/ slot w = true)
  | _ => slot w = true
  end.
Proof.
  unfold FlushLoop.step. destruct (bool_decide _); [|done].
  destruct ev as [fr| |env sf| |id| | |id| | |now_idle now sf env| |env].
  - destruct (r w); try done. intros [= <-]. destruct fr as [v message|now now_audio data]; cbn [recv].
    + destruct (handleJsonMessage _ _ _ _ _) as [g s outs| |what]; [by destruct outs|done..].
    + destruct (handleBinaryMessage _ _ _ _) as [s outs]. by destruct outs.
  - destruct (r w) as [|[|m ms] leave| | |old d| | |]; try done. by intros [= <-].
  - destruct (r w), (f w); try done. intros [= <-].
    destruct (handleEnd env sf (st w)) as [[s outs]|]; [by destruct outs|done].
  - destruct (r w); try done. by intros [= <-].
  - destruct (r w); try done. destruct (releaseModel _ _ _) as [[? ?] ?]. by intros [= <-].
  - destruct (r w); try done. by intros [= <-].
  - destruct (r w); try done. by intros [= <-].
  - destruct (r w), (f w); try done. destruct (releaseModel _ _ _) as [[? ?] ?]. by intros [= <-].
  - destruct (f w); try done. by intros [= <-].
  - destruct (f w); try done. by intros [= <-].
  - destruct (f w); try done. destruct (mutex_held _); [done|]. intros [= <-]. apply cycle_slot.
  - destruct (f w); try done. by intros [= <-].
  - destruct (f w) as [| | |[|n|res n|res n]|]; try done; destruct (mutex_held _); try done;
      intros [= <-]; try done; cbn [relocked].
    + apply infer_slot.
    + by intros ?%conclude_slot.
Qed.

(** The receive thread does not come back from [releaseModel]. *)
Definition gone (p : rpc) : Prop :=
  match p with RWait _ _ | RUnwind | RDestroy | RDone => True | _ => False end.

Lemma step_gone ev w w' :
  FlushLoop.step o ev w = Some w' ->
  match ev with Leave _ | Destroyed _ => gone (r w') | _ => gone (r w) -> gone (r w') end.
Proof.
  unfold FlushLoop.step. destruct (bool_decide _); [|done].
  destruct ev as [fr| |env sf| |id| | |id| | |now_idle now sf env| |env].
  - by destruct (r w).
  - by destruct (r w) as [|[|m ms] leave| | |old d| | |].
  - by destruct (r w).
  - by destruct (r w).
  - destruct (r w); try done. destruct (releaseModel _ _ _) as [[[old|] ?] ?]; by intros [= <-].
  - destruct (r w) as [| | | |old []| | |]; try done; by intros [= <-].
  - destruct (r w); try done. by intros [= <-].
  - destruct (r w), (f w); try done. destruct (releaseModel _ _ _) as [[[old|] ?] ?]; by intros [= <-].
  - destruct (f w); try done. by intros [= <-].
  - destruct (f w); try done. by intros [= <-].
  - destruct (f w) eqn:Ef; try done. destruct (mutex_held _); [done|].
    intros [= <-]. by destruct (cycle_frame o now_idle now sf env w Ef) as (_ & -> & _).
  - destruct (f w); try done. by intros [= <-].
  - destruct (f w) eqn:Ef; try done. destruct (mutex_held _); [done|].
    intros [= <-]. by destruct (relocked_frame env k w Ef) as (_ & -> & _).
Qed.

End session.

End System.
