(* ===== verification/SystemSafety.v ===== *)
(** What holds in every reachable state of the whole process: every engine and every
    request works on the cached model, which has not been freed; every inference
    slot and every model reference in use is accounted for. *)

From stdpp Require Import prelude strings list.
From Stdlib Require Import ZArith Lia.
From S2P Require Import Prelude Transitions Floats Json ApiAuthClient AuthManager.
From S2P Require Import SlotPool InferenceLimiter ModelCache Engine Session FlushLoop SessionEnd System.

Module SystemSafety.
Import Session.
Import FlushLoop.
Import SessionEnd.
Import System.

(** ** The invariant *)

Section system.
Context {J : JsonLib} (o : opts).

Definition on_context (c : option ModelCache.context) (q : request) : Prop :=
  match q with QDone => True | QModel x | QSlot x | QLeaving x => c = Some x end.

(** A session, when [c] is the cached context. *)
Record local_ok (c : option ModelCache.context) (l : local) : Prop := {
  l_engine : engine (st (sess l)) <> None ->
    model_acquired (st (sess l)) = true /\ c <> None /\ made l = c;
  l_acquired : 0 <= acquired l /\ (model_acquired (st (sess l)) = true -> 1 <= acquired l);
  l_gone : model_acquired (st (sess l)) = false -> acquired l = 0 \/ gone (r (sess l));
  l_wf : wf (sess l);
  l_stopped : stopped (sess l);
  l_grab : match grab l with
           | NoGrab => True
           | GCycle now_idle now _ =>
               f (sess l) = FChecked /\ reaches_guard o now_idle now (st (sess l)) = true
           | GEnd _ => r (sess l) = RJoin /\ f (sess l) = FExited /\ engine (st (sess l)) <> None
           end
}.

Record inv (s : sys) : Prop := {
  i_cache : exists hs, good (model_path o) (cache s) (tasks s) (fresh s) hs;
  i_refs : ModelCache.ref_count (cache s) =
    total taken (locals s) + total (λ q, Z.b2z (q_model q)) (reqs s);
  i_locals : Forall (local_ok (ModelCache.ctx (cache s))) (locals s);
  i_reqs : Forall (on_context (ModelCache.ctx (cache s))) (reqs s);
  i_slots : InferenceLimiter.active_count (lim s) =
    total (λ l, Z.b2z (held l)) (locals s) + total (λ q, Z.b2z (q_slot q)) (reqs s);
  i_limit : InferenceLimiter.active_count (lim s) <= InferenceLimiter.max_concurrent (lim s)
}.

Lemma taken_bounds c l : local_ok c l ->
  0 <= taken l /\ (model_acquired (st (sess l)) = true -> 1 <= taken l).
Proof. intros [_ [H1 H2] _ _ _ _]. unfold taken. destruct (model_acquired _); [specialize (H2 eq_refl)|]; split; try done; lia. Qed.

Lemma taken_nonneg c ls : Forall (local_ok c) ls -> Forall (λ l, 0 <= taken l) ls.
Proof. intros H. eapply Forall_impl; [exact H|]. cbn. intros l Hl. by apply (taken_bounds c). Qed.

Lemma b2z_nonneg {A} (g : A -> bool) l : Forall (λ x, 0 <= Z.b2z (g x)) l.
Proof. apply Forall_true. intros x. by destruct (g x). Qed.

(** A model in use is a model with references. *)
Lemma refs_of_local c ls (qs : list request) l :
  Forall (local_ok c) ls -> l ∈ ls -> model_acquired (st (sess l)) = true ->
  1 <= total taken ls + total (λ q, Z.b2z (q_model q)) qs.
Proof.
  intros H Hl Hm. pose proof (total_member taken ls l (taken_nonneg c _ H) Hl).
  pose proof (total_nonneg _ qs (b2z_nonneg q_model qs)). rewrite Forall_forall in H.
  destruct (taken_bounds c l (H _ Hl)) as [_ Ht]. specialize (Ht Hm). lia.
Qed.

Lemma refs_of_request c ls (qs : list request) q :
  Forall (local_ok c) ls -> q ∈ qs -> q_model q = true ->
  1 <= total taken ls + total (λ q, Z.b2z (q_model q)) qs.
Proof.
  intros H Hq Hm. pose proof (total_nonneg _ ls (taken_nonneg c _ H)).
  pose proof (total_member _ qs q (b2z_nonneg q_model qs) Hq) as Hle. cbn in Hle. rewrite Hm in Hle. cbn in Hle. lia.
Qed.

(** While there are references before and after a step of the cache, the cached
    context stays. *)
Lemma ctx_kept m ts fr hs m' ts' fr' hs' :
  good (model_path o) m ts fr hs -> good (model_path o) m' ts' fr' hs' ->
  hs' = hs \/ (exists c, hs' = c :: hs) \/ (exists c, hs = c :: hs') ->
  1 <= ModelCache.ref_count m -> 1 <= ModelCache.ref_count m' -> ModelCache.ctx m' = ModelCache.ctx m.
Proof.
  intros H H' Hm. rewrite (good_count _ _ _ _ _ H), (good_count _ _ _ _ _ H'). intros H1 H1'.
  destruct hs as [|a hs]; [done|]. destruct hs' as [|b hs']; [done|].
  destruct Hm as [E|[[c E]|[c E]]]; simplify_eq.
  - eapply (good_same _ _ _ _ _ _ _ _ _ a); [exact H|exact H'|..]; set_solver.
  - eapply (good_same _ _ _ _ _ _ _ _ _ a); [exact H|exact H'|..]; set_solver.
  - eapply (good_same _ _ _ _ _ _ _ _ _ b); [exact H|exact H'|..]; set_solver.
Qed.

(** A session whose context is still the cached one is still in order. *)
Lemma local_ok_ctx c c' l :
  (model_acquired (st (sess l)) = true -> c' = c) -> local_ok c l -> local_ok c' l.
Proof.
  intros Hc [He Ha Hg Hw Hs Hgr]. split; try done.
  intros Hne. destruct (He Hne) as (Hm & H1 & H2). by rewrite (Hc Hm).
Qed.

(** The cache moved from [m] to [m'] by an operation of somebody else. *)
Lemma others_ok m m' ls qs :
  Forall (local_ok (ModelCache.ctx m)) ls -> Forall (on_context (ModelCache.ctx m)) qs ->
  (forall l, l ∈ ls -> model_acquired (st (sess l)) = true -> ModelCache.ctx m' = ModelCache.ctx m) ->
  (forall q, q ∈ qs -> q_model q = true -> ModelCache.ctx m' = ModelCache.ctx m) ->
  Forall (local_ok (ModelCache.ctx m')) ls /\ Forall (on_context (ModelCache.ctx m')) qs.
Proof.
  rewrite !Forall_forall. intros Hl Hq Hl' Hq'. split.
  - intros l Hin. eapply local_ok_ctx; [|by apply Hl]. intros Hm. by apply (Hl' l).
  - intros q Hin. specialize (Hq q Hin). specialize (Hq' q Hin).
    destruct q; cbn in *; try done; by rewrite Hq'.
Qed.

Lemma inv_boot ttl n a : inv (boot ttl n a).
Proof.
  split; cbn; try done.
  - exists []. split; [|done]. apply (inv_anywhere _ _ 0 0 _ _ [] []), (ModelCache.cache_inv_start _ ttl).
  - unfold InferenceLimiter.setMaxConcurrency. by destruct (n >? 0).
  - unfold InferenceLimiter.setMaxConcurrency. rewrite Z.gtb_ltb. destruct (Z.ltb_spec 0 n); cbn; lia.
Qed.

(** *** The steps of a session *)

(** What a session's step makes of the cache [m] and of its own record [l]. *)
Inductive outcome (m m' : ModelCache.t) (l l' : local) : Prop :=
| Unchanged :
    ModelCache.ref_count m' = ModelCache.ref_count m ->
    model_acquired (st (sess l')) = model_acquired (st (sess l)) ->
    (engine (st (sess l')) = None <-> engine (st (sess l)) = None) ->
    made l' = made l -> acquired l' = acquired l -> outcome m m' l l'
| Took :
    ModelCache.ref_count m' = ModelCache.ref_count m + 1 -> ModelCache.ctx m' <> None ->
    model_acquired (st (sess l')) = true -> acquired l' = acquired l + 1 ->
    (model_acquired (st (sess l)) = false -> ~ gone (r (sess l))) ->
    made l' = ModelCache.ctx m' \/
      (engine (st (sess l')) = engine (st (sess l)) /\ made l' = made l) -> outcome m m' l l'
| Gave :
    ModelCache.ref_count m' = ModelCache.ref_count m - 1 ->
    model_acquired (st (sess l)) = true -> model_acquired (st (sess l')) = false ->
    engine (st (sess l')) = None -> acquired l' = acquired l -> gone (r (sess l')) -> outcome m m' l l'.

Lemma outcome_taken c m m' l l' : local_ok c l -> outcome m m' l l' ->
  taken l' - taken l = ModelCache.ref_count m' - ModelCache.ref_count m.
Proof.
  intros [_ [Ha Ha'] Hg _ _ _] [E1 E2 _ _ E5|E1 _ E3 E4 E5 _|E1 E2 E3 _ E5 _]; unfold taken.
  - rewrite E2, E5. lia.
  - rewrite E3, E4. destruct (model_acquired (st (sess l))); [lia|].
    destruct (Hg eq_refl) as [->|Hgo]; [cbn; lia|]. by destruct E5.
  - rewrite E2, E3, E5. specialize (Ha' E2). lia.
Qed.

Lemma outcome_taken_bounds c m m' l l' : local_ok c l -> outcome m m' l l' ->
  0 <= taken l' /\ (model_acquired (st (sess l')) = true -> 1 <= taken l').
Proof.
  intros [_ [Ha Ha'] _ _ _ _] [_ E2 _ _ E5|_ _ E3 E4 _ _|_ _ E3 _ E5 _]; unfold taken.
  - rewrite E2, E5. destruct (model_acquired (st (sess l))); [specialize (Ha' eq_refl)|]; split; done || lia.
  - rewrite E3, E4. lia.
  - rewrite E3. split; [lia|done].
Qed.

(** The references that are out follow. *)
Definition moved (hs hs' : list ModelCache.context) : Prop :=
  hs' = hs \/ (exists c, hs' = c :: hs) \/ (exists c, hs = c :: hs').

Lemma spawned_none m ts : (forall id, ModelCache.unload_future m = Some id -> (id < length ts)%nat) ->
  spawned m ts = ts.
Proof. intros H. unfold spawned. rewrite decide_False; [done|]. intros E. specialize (H _ E). lia. Qed.

Lemma quiet_outcome s l ev w' :
  quiet (plug s l) w' -> (forall v m, ev <> Recv (Text v m)) ->
  outcome (cache s) (models (sh w')) l (local_after s l ev w').
Proof.
  intros (E1 & E2 & E3) Hev. cbn in E2, E3.
  apply Unchanged; cbn [sess local_after]; try done; try (by rewrite E1).
  - destruct ev as [[]| | | | | | | | | | | |]; try done. by destruct (Hev v message).
  - destruct ev as [[]| | | | | | | | | | | |]; try done. by destruct (Hev v message).
Qed.

Lemma config_outcome s l v message w' hs :
  good (model_path o) (cache s) (tasks s) (fresh s) hs -> r (sess l) = RRead ->
  e_load v = None \/ e_load v = Some (fresh s) ->
  w' = recv o (Text v message) (plug s l) ->
  exists hs', good (model_path o) (models (sh w')) (tasks s) (S (fresh s)) hs' /\ moved hs hs' /\
    outcome (cache s) (models (sh w')) l (local_after s l (Recv (Text v message)) w').
Proof.
  intros Hgood Hr Hv Hw. pose proof (recv_text_effect o v message (plug s l) Hr) as He.
  rewrite <- Hw in He. cbn [plug sh set_sh models st] in He. unfold config_effect in He.
  assert (e_load v = if bool_decide (e_load v = None) then None else Some (fresh s)) as Hload
    by (case_bool_decide; naive_solver).
  destruct He as [(E1 & E2 & E3 & E4)|(res & E & Hres)].
  - exists hs. rewrite E1. split; [by apply good_fresh|]. split; [by left|].
    apply Unchanged; cbn [sess local_after made acquired]; try done; [by rewrite E3|by rewrite E4|].
    rewrite E1. by rewrite (proj2 (Z.eqb_neq _ _)) by lia.
  - pose proof (ModelCache.acquire_future (model_path o) (e_load v) (cache s)) as Hfu.
    assert (e_load v = if negb (bool_decide (e_load v = None)) then Some (fresh s) else None) as Hl2
      by (rewrite Hload at 1; by destruct (bool_decide _)).
    pose proof E as E'. rewrite Hl2 in E'. destruct (good_acquire _ _ _ _ _ _ _ _ Hgood E') as (hs' & Hg' & Hhs).
    exists hs'. split; [done|]. destruct res as [c|what].
    + subst hs'. split; [right; left; by exists c|].
      pose proof (good_count _ _ _ _ _ Hgood) as Hc. pose proof (good_count _ _ _ _ _ Hg') as Hc'.
      rewrite zlen_cons in Hc'. destruct (good_held _ _ _ _ _ c Hg') as [Hctx _]; [by left|].
      destruct Hres as [Hm Hready].
      apply Took; cbn [sess local_after made acquired]; try done; try lia.
      * by rewrite Hctx.
      * by rewrite (proj2 (Z.eqb_eq _ _)) by lia.
      * intros _. rewrite Hr. by intros [].
      * destruct Hready as [->|[Ee ->]]; [by left|by right].
    + subst hs'. split; [by left|]. destruct Hres as (Hm & Ee & Er).
      pose proof (good_count _ _ _ _ _ Hgood) as Hc. pose proof (good_count _ _ _ _ _ Hg') as Hc'.
      apply Unchanged; cbn [sess local_after made acquired]; try done; try lia; [by rewrite Ee|by rewrite Er|].
      by rewrite (proj2 (Z.eqb_neq _ _)) by lia.
Qed.

Lemma release_outcome s l ev id w' hs :
  good (model_path o) (cache s) (tasks s) (fresh s) hs -> 1 <= ModelCache.ref_count (cache s) ->
  ev = Leave id \/ ev = Destroyed id -> id = length (tasks s) -> gone (r w') -> releases id (plug s l) w' ->
  exists hs', good (model_path o) (models (sh w')) (spawned (models (sh w')) (tasks s)) (fresh s) hs' /\
    moved hs hs' /\ outcome (cache s) (models (sh w')) l (local_after s l ev w').
Proof.
  intros Hgood Hrc Hev -> Hgone (E1 & E2 & E3 & E4). cbn [plug sh set_sh models st] in E1, E2.
  rewrite (good_count _ _ _ _ _ Hgood) in Hrc. destruct hs as [|h hs]; [done|].
  destruct (ModelCache.release (length (tasks s)) (cache s)) as [[old b] m] eqn:E. cbn in E2. rewrite E2.
  pose proof (good_release _ _ _ _ _ _ _ _ _ Hgood E) as Hg'.
  exists hs. split; [done|]. split; [right; right; by exists h|].
  pose proof (good_count _ _ _ _ _ Hgood) as Hc. pose proof (good_count _ _ _ _ _ Hg') as Hc'.
  rewrite zlen_cons in Hc.
  apply Gave; cbn [sess local_after made acquired]; try done; try lia. by destruct Hev as [-> | ->].
Qed.

Lemma session_outcome s i l ev w' :
  inv s -> locals s !! i = Some l -> may_step o s l ev = true ->
  FlushLoop.step o ev (plug s l) = Some w' ->
  exists hs hs', good (model_path o) (cache s) (tasks s) (fresh s) hs /\
    good (model_path o) (models (sh w')) (tasks (put_back s i l ev w')) (fresh (put_back s i l ev w')) hs' /\
    moved hs hs' /\ outcome (cache s) (models (sh w')) l (local_after s l ev w').
Proof.
  intros [[hs Hgood] Hrefs Hl _ _ _] Hi Hmay H. exists hs.
  pose proof (step_effect o _ _ _ H) as He. unfold put_back. cbn [locals tasks fresh].
  assert (spawned (cache s) (tasks s) = tasks s) as Hsp by (by apply spawned_none; destruct Hgood).
  assert ((forall v m, ev <> Recv (Text v m)) -> quiet (plug s l) w' ->
    exists hs', good (model_path o) (cache s) (tasks s) (fresh s) hs /\
      good (model_path o) (models (sh w')) (spawned (models (sh w')) (tasks s)) (fresh s) hs' /\
      moved hs hs' /\ outcome (cache s) (models (sh w')) l (local_after s l ev w')) as Hquiet.
  { intros Hev Hq. exists hs. split; [done|]. pose proof Hq as (E & _). rewrite E. cbn [plug sh set_sh models].
    rewrite Hsp. split; [done|]. split; [by left|].
    pose proof (quiet_outcome s l ev w' Hq Hev) as Ho. by rewrite E in Ho. }
  assert (forall id, ev = Leave id \/ ev = Destroyed id -> id = length (tasks s) -> gone (r w') ->
    releases id (plug s l) w' -> exists hs', good (model_path o) (cache s) (tasks s) (fresh s) hs /\
      good (model_path o) (models (sh w')) (spawned (models (sh w')) (tasks s)) (fresh s) hs' /\
      moved hs hs' /\ outcome (cache s) (models (sh w')) l (local_after s l ev w')) as Hrel.
  { intros id Hev Hid Hg Hr. destruct (release_outcome s l ev id w' hs Hgood) as (hs' & ? & ? & ?); try done.
    - rewrite Hrefs. destruct Hr as [Hm _].
      eapply refs_of_local; [exact Hl|by eapply list_elem_of_lookup_2|exact Hm].
    - by exists hs'. }
  pose proof (step_gone o _ _ _ H) as Hgone.
  destruct ev as [[v message|now now_audio data]| |env sf| |id| | |id| | |now_idle now sf env| |env];
    try (by apply Hquiet).
  - destruct He as [Hr Hw]. cbn in Hmay. apply andb_prop in Hmay as [_ Hload].
    apply orb_prop in Hload. rewrite !bool_decide_eq_true in Hload.
    destruct (config_outcome s l v message w' hs Hgood Hr Hload Hw) as (hs' & H1 & H2 & H3).
    exists hs'. split; [done|]. split; [|by split].
    rewrite spawned_none; [done|by destruct H1].
  - cbn in Hmay. apply andb_prop in Hmay as [_ Hid%Nat.eqb_eq].
    destruct He as [He|He]; [by apply Hquiet|]. apply (Hrel id); try done. by left.
  - cbn in Hmay. apply andb_prop in Hmay as [_ Hid%Nat.eqb_eq].
    destruct He as [He|He]; [by apply Hquiet|]. apply (Hrel id); try done. by right.
Qed.

Lemma wf_plug s l : wf (sess l) -> wf (plug s l).
Proof. by intros []; split. Qed.

Lemma stopped_plug s l : stopped (sess l) -> stopped (plug s l).
Proof. by intros []; split. Qed.

(** The mutex keeps the session as the claim found it. *)
Lemma grab_kept s l ev w' c :
  local_ok c l -> may_step o s l ev = true -> FlushLoop.step o ev (plug s l) = Some w' ->
  match grab (local_after s l ev w') with
  | NoGrab => True
  | GCycle now_idle now _ => f w' = FChecked /\ reaches_guard o now_idle now (st w') = true
  | GEnd _ => r w' = RJoin /\ f w' = FExited /\ engine (st w') <> None
  end.
Proof.
  intros [_ _ _ _ _ Hg] Hmay H. cbn [grab local_after]. unfold may_step in Hmay.
  destruct (bool_decide_reflect (grab l = NoGrab)) as [E|E].
  { destruct ev as [[]| | | | | | | | | | | |]; try done; by rewrite E. }
  unfold FlushLoop.step in H. destruct (bool_decide (stat (plug s l) = Running)); [|done].
  cbn [plug set_sh r f st] in H.
  destruct ev as [[v message|now now_audio data]| |env sf| |id| | |id| | |now_idle now sf env| |env]; try done.
  - destruct (r (sess l)) as [|[|m ms] leave| | |old d| | |] eqn:Er; try done. injection H as <-. cbn.
    destruct (grab l); try done. naive_solver.
  - destruct (r (sess l)) eqn:Er; try done. injection H as <-. cbn. destruct (grab l); try done. naive_solver.
  - destruct (r (sess l)) eqn:Er; try done. injection H as <-. cbn. destruct (grab l); try done. naive_solver.
Qed.

Lemma local_after_ok s l ev w' c :
  local_ok c l -> may_step o s l ev = true -> FlushLoop.step o ev (plug s l) = Some w' ->
  outcome (cache s) (models (sh w')) l (local_after s l ev w') ->
  (model_acquired (st (sess l)) = true -> model_acquired (st w') = true ->
   ModelCache.ctx (models (sh w')) = c) ->
  local_ok (ModelCache.ctx (models (sh w'))) (local_after s l ev w').
Proof.
  intros Hok Hmay H Ho Hc. pose proof (grab_kept s l ev w' c Hok Hmay H) as Hgrab.
  destruct Hok as [He [Ha Ha'] Hg Hwf Hst _].
  assert (gone (r (sess l)) -> gone (r w')) as Hgone.
  { pose proof (step_gone o _ _ _ H) as Hgo. intros ?. by destruct ev; try apply Hgo. }
  split; try exact Hgrab; try (eapply step_wf; [by apply wf_plug|exact H]);
    try (eapply step_stopped; [by apply stopped_plug|exact H]);
    destruct Ho as [_ E2 E3 E4 E5|_ E2 E3 E4 _ E6|_ E2 E3 E4 E5 E6]; rewrite ?E4; rewrite ?E3; rewrite ?E2; try done.
  - intros Hne. destruct (He Hne) as (Hm & H1 & H2). rewrite Hc; [done|done|]. by rewrite <- Hm.
  - intros Hne. split; [done|]. split; [done|]. destruct E6 as [?|[E6 ->]]; [done|].
    rewrite E6 in Hne. destruct (He Hne) as (Hm & _ & H2). by rewrite Hc.
  - by rewrite E5.
  - lia.
  - lia.
  - rewrite E5. intros Hm. destruct (Hg Hm); auto.
  - intros _. by right.
Qed.

(** A session gives up its slot at most. *)
Lemma held_after s l ev w' :
  may_step o s l ev = true -> FlushLoop.step o ev (plug s l) = Some w' ->
  held (local_after s l ev w') = true -> held l = true.
Proof.
  unfold held. intros Hmay H Hh. apply orb_true_iff. cbn [sess grab local_after] in Hh.
  apply orb_prop in Hh as [Hs|Hgot].
  - pose proof (step_slot o _ _ _ H Hs) as Hsl.
    destruct ev as [fr| |env sf| |id| | |id| | |now_idle now sf env| |env]; try (by left).
    cbn [plug set_sh st slot] in Hsl. destruct Hsl as [Hreach [-> | ?]]; [|by left].
    cbn in Hmay. apply bool_decide_eq_true in Hmay. rewrite Hreach in Hmay. right. by rewrite Hmay.
  - right. by destruct ev.
Qed.

Definition slots_held (ls : list local) (qs : list request) : Z :=
  total (λ l, Z.b2z (held l)) ls + total (λ q, Z.b2z (q_slot q)) qs.

(** The slots when a holder gives one up. *)
Lemma slots_held_release p n (b b' : bool) :
  InferenceLimiter.active_count p = n -> (b' = true -> b = true) -> (b = true -> 1 <= n) ->
  InferenceLimiter.active_count p <= InferenceLimiter.max_concurrent p ->
  let p' := if b && negb b' then InferenceLimiter.release p else p in
  InferenceLimiter.active_count p' = n - Z.b2z b + Z.b2z b' /\
  InferenceLimiter.active_count p' <= InferenceLimiter.max_concurrent p'.
Proof.
  intros Hn Hb Hpos Hle. destruct b, b'; cbn; try (split; lia).
  specialize (Hpos eq_refl). unfold InferenceLimiter.release. rewrite Z.gtb_ltb.
  rewrite (proj2 (Z.ltb_lt _ _)) by lia. cbn. lia.
Qed.

Lemma held_counts ls qs l : l ∈ ls -> held l = true -> 1 <= slots_held ls qs.
Proof.
  intros Hin Hh. unfold slots_held. pose proof (total_member _ _ l (b2z_nonneg held ls) Hin) as Hle.
  cbn in Hle. rewrite Hh in Hle. cbn in Hle.
  pose proof (total_nonneg _ qs (b2z_nonneg q_slot qs)). lia.
Qed.

Lemma slot_counts ls qs q : q ∈ qs -> q_slot q = true -> 1 <= slots_held ls qs.
Proof.
  intros Hin Hh. unfold slots_held. pose proof (total_member _ _ q (b2z_nonneg q_slot qs) Hin) as Hle.
  cbn in Hle. rewrite Hh in Hle. cbn in Hle.
  pose proof (total_nonneg _ ls (b2z_nonneg held ls)). lia.
Qed.

Lemma session_inv s i l ev w' :
  inv s -> locals s !! i = Some l -> may_step o s l ev = true ->
  FlushLoop.step o ev (plug s l) = Some w' -> inv (put_back s i l ev w').
Proof.
  intros Hinv Hi Hmay H. pose proof Hinv as [_ Hrefs Hl Hq Hs Hlim].
  destruct (session_outcome s i l ev w' Hinv Hi Hmay H) as (hs & hs' & Hg & Hg' & Hmv & Ho).
  pose proof (Forall_lookup_1 _ _ _ _ Hl Hi) as Hok.
  pose proof (outcome_taken _ _ _ _ _ Hok Ho) as Htaken.
  assert (ModelCache.ref_count (models (sh w')) =
    total taken (<[i := local_after s l ev w']> (locals s)) + total (λ q, Z.b2z (q_model q)) (reqs s)) as Hrefs'.
  { rewrite (total_insert _ _ _ l) by done. lia. }
  destruct (outcome_taken_bounds _ _ _ _ _ Hok Ho) as [Ht0 Ht1].
  set (l' := local_after s l ev w') in *.
  assert (Forall (λ l, 0 <= taken l) (<[i := l']> (locals s))) as Hnn
    by (apply Forall_insert; [by eapply taken_nonneg|done]).
  pose proof (total_nonneg _ (reqs s) (b2z_nonneg q_model (reqs s))) as Hqn.
  assert (l ∈ locals s) as Hin by (by eapply list_elem_of_lookup_2).
  assert (forall l1 l2, l1 ∈ locals s -> model_acquired (st (sess l1)) = true ->
    l2 ∈ <[i := l']> (locals s) -> 1 <= taken l2 ->
    ModelCache.ctx (models (sh w')) = ModelCache.ctx (cache s)) as Hkept.
  { intros l1 l2 H1 Hm H2 Ht. eapply ctx_kept; [exact Hg|exact Hg'|exact Hmv|..].
    - rewrite Hrefs. by eapply refs_of_local.
    - rewrite Hrefs'. pose proof (total_member _ _ _ Hnn H2). lia. }
  assert (l' ∈ <[i := l']> (locals s)) as Hin'.
  { apply list_elem_of_lookup_2 with i, list_lookup_insert_eq. by eapply lookup_lt_Some. }
  assert (local_ok (ModelCache.ctx (models (sh w'))) l') as Hself.
  { eapply local_after_ok; try done. intros Hm Hm'. by apply (Hkept l l'); [..|apply Ht1]. }
  unfold put_back. fold l'. split; cbn [cache tasks fresh locals reqs lim]; try done; [by exists hs'|..].
  - apply Forall_lookup. intros j l2 Hj. apply list_lookup_insert_Some in Hj as [(-> & <- & _)|[Hne Hj]]; [done|].
    eapply local_ok_ctx; [|by eapply (Forall_lookup_1 _ _ _ _ Hl)]. intros Hm.
    apply (Hkept l2 l2); try done; [by eapply list_elem_of_lookup_2|..].
    + apply list_elem_of_lookup_2 with j. by rewrite list_lookup_insert_ne.
    + by apply (taken_bounds (ModelCache.ctx (cache s))); [by eapply (Forall_lookup_1 _ _ _ _ Hl)|].
  - apply Forall_forall. intros q Hqin. pose proof Hq as Hq'. rewrite Forall_forall in Hq'. specialize (Hq' q Hqin).
    assert (q_model q = true -> ModelCache.ctx (models (sh w')) = ModelCache.ctx (cache s)) as Hk.
    { intros Hm. eapply ctx_kept; [exact Hg|exact Hg'|exact Hmv|..].
      - rewrite Hrefs. by eapply refs_of_request.
      - rewrite Hrefs'. pose proof (total_nonneg _ _ Hnn).
        pose proof (total_member _ _ q (b2z_nonneg q_model (reqs s)) Hqin) as Hle. cbn in Hle.
        rewrite Hm in Hle. cbn in Hle. lia. }
    destruct q; cbn in *; try done; by rewrite Hk.
  - rewrite (total_insert _ _ _ l) by done.
    destruct (slots_held_release (lim s) _ (held l) (held l') Hs (held_after s l ev w' Hmay H)) as [Hr _];
      [by apply held_counts|done|lia].
  - eapply (slots_held_release (lim s) _ (held l) (held l') Hs (held_after s l ev w' Hmay H)); [|done].
    by apply held_counts.
Qed.

(** *** The other steps *)

(** A session takes a slot, or is refused one. *)
Lemma claim_inv s i l l' p :
  inv s -> locals s !! i = Some l -> taken l' = taken l -> local_ok (ModelCache.ctx (cache s)) l' ->
  InferenceLimiter.active_count p =
    InferenceLimiter.active_count (lim s) - Z.b2z (held l) + Z.b2z (held l') ->
  InferenceLimiter.active_count p <= InferenceLimiter.max_concurrent p -> inv (set_local i l' p s).
Proof.
  intros [Hc Hrefs Hl Hq Hs Hlim] Hi Ht Hok Ha Hm. split; cbn [cache tasks fresh locals reqs lim set_local]; try done.
  - rewrite (total_insert _ _ _ l) by done. lia.
  - by apply Forall_insert.
  - rewrite (total_insert _ _ _ l) by done. lia.
Qed.

Lemma regrab_ok c l g :
  local_ok c l -> (match g with
     | NoGrab => True
     | GCycle now_idle now _ => f (sess l) = FChecked /\ reaches_guard o now_idle now (st (sess l)) = true
     | GEnd _ => r (sess l) = RJoin /\ f (sess l) = FExited /\ engine (st (sess l)) <> None
     end) -> local_ok c (Local (sess l) g (made l) (acquired l)).
Proof. intros [] Hg. by split. Qed.

Lemma try_acquire_counts p ok p' : InferenceLimiter.try_acquire p = (ok, p') ->
  InferenceLimiter.active_count p <= InferenceLimiter.max_concurrent p ->
  InferenceLimiter.active_count p' = InferenceLimiter.active_count p + Z.b2z ok /\
  InferenceLimiter.active_count p' <= InferenceLimiter.max_concurrent p'.
Proof.
  unfold InferenceLimiter.try_acquire. destruct (Z.ltb_spec (InferenceLimiter.active_count p) (InferenceLimiter.max_concurrent p));
    intros [= <- <-]; cbn; lia.
Qed.

(** A request changes its state; the cache stays. *)
Lemma request_inv s k q q' p :
  inv s -> reqs s !! k = Some q -> q_model q' = q_model q -> on_context (ModelCache.ctx (cache s)) q' ->
  InferenceLimiter.active_count p =
    InferenceLimiter.active_count (lim s) - Z.b2z (q_slot q) + Z.b2z (q_slot q') ->
  InferenceLimiter.active_count p <= InferenceLimiter.max_concurrent p -> inv (set_req k q' p s).
Proof.
  intros [Hc Hrefs Hl Hq Hs Hlim] Hk Hm Hok Ha Hle. split; cbn [cache tasks fresh locals reqs lim set_req]; try done.
  - rewrite (total_insert _ _ _ q) by done. rewrite Hm. lia.
  - by apply Forall_insert.
  - rewrite (total_insert _ _ _ q) by done. lia.
Qed.

(** The cache moves, for a request or a timer; the sessions and the other requests
    keep their context. *)
Lemma cache_inv s m' ts' fr' qs' n hs hs' :
  inv s -> good (model_path o) (cache s) (tasks s) (fresh s) hs -> good (model_path o) m' ts' fr' hs' ->
  moved hs hs' ->
  ModelCache.ref_count m' = total taken (locals s) + total (λ q, Z.b2z (q_model q)) qs' ->
  total (λ q, Z.b2z (q_slot q)) qs' = total (λ q, Z.b2z (q_slot q)) (reqs s) ->
  (forall q, q ∈ qs' -> q ∈ reqs s \/ on_context (ModelCache.ctx m') q) ->
  inv (Sys m' n ts' fr' (auth_state s) (lim s) (locals s) qs').
Proof.
  intros [Hc Hrefs Hl Hq Hs Hlim] Hg Hg' Hmv Hrefs' Hslots Hnew.
  assert (forall l, l ∈ locals s -> model_acquired (st (sess l)) = true ->
    ModelCache.ctx m' = ModelCache.ctx (cache s)) as HL.
  { intros l Hin Hm. eapply ctx_kept; [exact Hg|exact Hg'|exact Hmv|..].
    - rewrite Hrefs. by eapply refs_of_local.
    - rewrite Hrefs'. by eapply refs_of_local. }
  assert (forall q, q ∈ reqs s -> q ∈ qs' -> q_model q = true ->
    ModelCache.ctx m' = ModelCache.ctx (cache s)) as HQ.
  { intros q Hin Hin' Hm. eapply ctx_kept; [exact Hg|exact Hg'|exact Hmv|..].
    - rewrite Hrefs. by eapply refs_of_request.
    - rewrite Hrefs'. by eapply refs_of_request. }
  split; cbn [cache tasks fresh locals reqs lim]; try done; [by exists hs'|..].
  - rewrite Forall_forall in Hl. apply Forall_forall. intros l Hin.
    eapply local_ok_ctx; [by apply HL|by apply Hl].
  - rewrite Forall_forall in Hq. apply Forall_forall. intros q Hin.
    destruct (Hnew q Hin) as [Hold|]; [|done]. specialize (Hq q Hold). specialize (HQ q Hold Hin).
    destruct q; cbn in *; try done; by rewrite HQ.
  - by rewrite Hslots.
Qed.

Lemma alive_running s i l : alive s = true -> locals s !! i = Some l -> stat (sess l) = Running.
Proof.
  intros Ha Hi. unfold alive in Ha. rewrite forallb_forall in Ha.
  specialize (Ha l ltac:(by apply list_elem_of_In, list_elem_of_lookup_2 with i)).
  by apply bool_decide_eq_true in Ha.
Qed.

(** A thread between two critical sections holds no slot. *)
Lemma asleep_slot s i l :
  inv s -> alive s = true -> locals s !! i = Some l -> asleep (f (sess l)) = true -> slot (sess l) = false.
Proof.
  intros [_ _ Hl _ _ _] Ha Hi Hf. apply (l_wf _ _ (Forall_lookup_1 _ _ _ _ Hl Hi)); [|done].
  by eapply alive_running.
Qed.

Lemma system_step_inv e s s' : inv s -> step o e s = Some s' -> inv s'.
Proof.
  intros Hinv H. unfold step in H. destruct (alive s) eqn:Halive; [|done].
  pose proof Hinv as [[hs Hg] Hrefs Hl Hq Hs Hlim].
  destruct e as [now|i ev|i now_idle now|i in_time|token get put api|loads|k|k|k|id|d].
  - injection H as <-. split; cbn [cache tasks fresh locals reqs lim]; try done; [by exists hs|..].
    + rewrite total_app. cbn. lia.
    + apply Forall_app. split; [done|]. repeat constructor; cbn; done || lia.
    + rewrite total_app. cbn. lia.
  - apply bind_Some in H as (l & Hi & H). destruct (may_step o s l ev) eqn:Hmay; [|done].
    apply bind_Some in H as (w' & Hw & [= <-]). by apply session_inv.
  - apply bind_Some in H as (l & Hi & H).
    destruct (f (sess l)) eqn:Ef; try done. destruct (grab l) eqn:Eg; try done.
    destruct (reaches_guard o now_idle now (st (sess l))) eqn:Er; [|done].
    destruct (mutex_held (r (sess l))); [done|]. cbn [negb andb] in H.
    destruct (InferenceLimiter.try_acquire (lim s)) as [ok p] eqn:Et. injection H as <-.
    pose proof (Forall_lookup_1 _ _ _ _ Hl Hi) as Hok.
    destruct (try_acquire_counts _ _ _ Et Hlim) as [Ha Hm].
    assert (slot (sess l) = false) as Hslot by (eapply asleep_slot; try done; by rewrite Ef).
    apply (claim_inv s i l); try done; [by apply regrab_ok|].
    unfold held. cbn. rewrite Hslot, Eg. cbn. lia.
  - apply bind_Some in H as (l & Hi & H).
    destruct (r (sess l)) eqn:Er; try done. destruct (f (sess l)) eqn:Ef; try done.
    destruct (grab l) eqn:Eg; try done. destruct (engine (st (sess l))) eqn:Ee; [|done].
    pose proof (Forall_lookup_1 _ _ _ _ Hl Hi) as Hok.
    assert (slot (sess l) = false) as Hslot by (eapply asleep_slot; try done; by rewrite Ef).
    assert (local_ok (ModelCache.ctx (cache s)) (Local (sess l) (GEnd in_time) (made l) (acquired l))) as Hok'
      by (apply regrab_ok; [done|]; by rewrite Ee).
    destruct in_time.
    + destruct (InferenceLimiter.hasCapacity (lim s)) eqn:Ec; [|done]. injection H as <-.
      apply Z.ltb_lt in Ec. apply (claim_inv s i l); try done; [|cbn; lia].
      unfold held. cbn. rewrite Hslot, Eg. cbn. lia.
    + injection H as <-. apply (claim_inv s i l); try done. unfold held. cbn. rewrite Hslot, Eg. cbn. lia.
  - destruct (AuthManager.validate _ _ _ _ _) as [[ok q] a]. injection H as <-. by split; try by exists hs.
  - destruct (ModelCache.acquire _ _ _) as [res m] eqn:E. injection H as <-.
    destruct (good_acquire _ _ _ _ _ _ _ _ Hg E) as (hs' & Hg' & Hhs).
    pose proof (good_count _ _ _ _ _ Hg) as Hc. pose proof (good_count _ _ _ _ _ Hg') as Hc'.
    destruct res as [c|what]; subst hs'.
    + rewrite zlen_cons in Hc'. destruct (good_held _ _ _ _ _ c Hg') as [Hctx _]; [by left|].
      apply (cache_inv s m _ _ _ _ hs (c :: hs)); try done.
      * right. left. by exists c.
      * rewrite total_app. cbn. lia.
      * rewrite total_app. cbn. lia.
      * intros q [Hin|Hin]%elem_of_app; [by left|]. apply list_elem_of_singleton in Hin as ->. by right.
    + apply (cache_inv s m _ _ _ _ hs hs); try done; [by left|lia|by left].
  - destruct (reqs s !! k) as [[c|c|c|]|] eqn:Ek; try done.
    unfold InferenceLimiter.TryGuard_make in H.
    destruct (InferenceLimiter.try_acquire (lim s)) as [ok p] eqn:Et. injection H as <-.
    destruct (try_acquire_counts _ _ _ Et Hlim) as [Ha Hm].
    pose proof (Forall_lookup_1 _ _ _ _ Hq Ek) as Hctx.
    destruct ok; (apply (request_inv s k (QModel c)); [done..|cbn in *; lia|done]).
  - destruct (reqs s !! k) as [[c|c|c|]|] eqn:Ek; try done. injection H as <-.
    pose proof (Forall_lookup_1 _ _ _ _ Hq Ek) as Hctx.
    assert (1 <= slots_held (locals s) (reqs s)) as Hpos
      by (eapply slot_counts; [by eapply list_elem_of_lookup_2|done]).
    destruct (slots_held_release (lim s) _ true false Hs) as [Ha Hm]; [done|done|done|].
    apply (request_inv s k (QSlot c)); try done. cbn in *. lia.
  - destruct (reqs s !! k) as [[c|c|c|]|] eqn:Ek; try done.
    destruct (ModelCache.release (length (tasks s)) (cache s)) as [[old b] m] eqn:E. injection H as <-.
    assert (1 <= ModelCache.ref_count (cache s)) as Hpos.
    { rewrite Hrefs. eapply refs_of_request; [exact Hl|by eapply list_elem_of_lookup_2|done]. }
    rewrite (good_count _ _ _ _ _ Hg) in Hpos. destruct hs as [|h hs]; [done|].
    pose proof (good_release _ _ _ _ _ _ _ _ _ Hg E) as Hg'.
    pose proof (good_count _ _ _ _ _ Hg) as Hc. pose proof (good_count _ _ _ _ _ Hg') as Hc'.
    rewrite zlen_cons in Hc.
    apply (cache_inv s m _ _ _ _ (h :: hs) hs); try done.
    + right. right. by exists h.
    + rewrite (total_insert _ _ _ (QLeaving c)) by done. cbn. lia.
    + rewrite (total_insert _ _ _ (QLeaving c)) by done. cbn. lia.
    + intros q (j & Hj)%list_elem_of_lookup_1.
      apply list_lookup_insert_Some in Hj as [(-> & <- & _)|[_ Hj]]; [by right|left].
      by eapply list_elem_of_lookup_2.
  - destruct (tasks s !! id) as [t|] eqn:Et; [|done].
    destruct (ModelCache.task_step (clock s) t (cache s)) as [t' m] eqn:E. injection H as <-.
    pose proof (good_task _ _ _ _ _ _ _ _ _ _ Hg Et E) as Hg'.
    pose proof (good_count _ _ _ _ _ Hg) as Hc. pose proof (good_count _ _ _ _ _ Hg') as Hc'.
    apply (cache_inv s m _ _ _ _ hs hs); try done; [by left|lia|by left].
  - destruct (0 <=? d); [|done]. injection H as <-.
    apply (cache_inv s (cache s) _ _ _ _ hs hs); try done; [by left|by left].
Qed.

Lemma system_run_inv es ttl n a s : run o es (boot ttl n a) = Some s -> inv s.
Proof.
  apply (Transitions.exec_invariant (step o) inv); [|apply inv_boot].
  intros e v v'. apply system_step_inv.
Qed.

(** A session whose threads have both ended holds nothing. *)
Lemma done_holds_nothing c l :
  local_ok c l -> stat (sess l) = Running -> r (sess l) = RDone ->
  held l = false /\ taken l = Z.max 0 (acquired l - 1).
Proof.
  intros [_ _ _ Hw Hs Hg] Hrun Hr. destruct (st_done _ Hs ltac:(by rewrite Hr)) as [Hf Hm].
  assert (slot (sess l) = false) as Hslot by (apply Hw; [done|by rewrite Hf]).
  split; [|unfold taken; by rewrite Hm]. unfold held. rewrite Hslot.
  destruct (grab l); [done|destruct Hg; congruence|destruct Hg; congruence].
Qed.

End system.

(** ** Properties *)

(** The context a request holds. *)
Definition context_of (q : request) : option ModelCache.context :=
  match q with QModel c | QSlot c | QLeaving c => Some c | QDone => None end.

(** The references that repeated configurations have left behind. *)
Definition leaked (ls : list local) : Z := total (λ l, Z.max 0 (acquired l - 1)) ls.

Definition ended (l : local) : Prop := r (sess l) = RDone /\ stat (sess l) = Running.

(** C2: Every engine runs on a live model.  Whatever the number of sessions and
    requests, in every interleaving of their threads, of the model cache's timers
    and of the clock, as long as the process lives: the context an engine was made
    with is the one in the cache, it has not been freed, and so is the context of
    every request that has one. *)
Theorem engines_on_live_model {J : JsonLib} o es ttl n a s :
  run o es (boot ttl n a) = Some s ->
  (forall l, l ∈ locals s -> engine (st (sess l)) <> None ->
     exists c, made l = Some c /\ ModelCache.ctx (cache s) = Some c /\ c ∉ ModelCache.freed (cache s)) /\
  (forall q c, q ∈ reqs s -> context_of q = Some c ->
     ModelCache.ctx (cache s) = Some c /\ c ∉ ModelCache.freed (cache s)).
Proof.
  intros H. destruct (system_run_inv o es ttl n a s H) as [[hs [Hg _]] _ Hl Hq _ _].
  rewrite Forall_forall in Hl. rewrite Forall_forall in Hq.
  assert (forall c, ModelCache.ctx (cache s) = Some c -> c ∉ ModelCache.freed (cache s)) as Hfree
    by (intros c Hc; by apply Hg).
  split.
  - intros l Hin He. destruct (l_engine _ _ _ (Hl l Hin) He) as (_ & Hc & Hm).
    destruct (ModelCache.ctx (cache s)) as [c|]; [|done]. exists c. auto.
  - intros q c Hin E. specialize (Hq q Hin).
    assert (ModelCache.ctx (cache s) = Some c) as Hc by (destruct q; simplify_eq/=; done). auto.
Qed.

(** C3: The slots are accounted for.  In every reachable state of the process the
    limiter's count is the number of slots held by flush threads, final
    transcriptions and requests, it never exceeds the limit, and the model's
    reference count is the number of references held by sessions and requests. *)
Theorem slots_accounted {J : JsonLib} o es ttl n a s :
  run o es (boot ttl n a) = Some s ->
  InferenceLimiter.active_count (lim s) = slots_held (locals s) (reqs s) /\
  slots_held (locals s) (reqs s) <= InferenceLimiter.max_concurrent (lim s) /\
  ModelCache.ref_count (cache s) = total taken (locals s) + total (λ q, Z.b2z (q_model q)) (reqs s).
Proof. intros H. destruct (system_run_inv o es ttl n a s H) as [_ Hr _ _ Hs Hm]. unfold slots_held. lia. Qed.

(** C14: A quiet process holds nothing.  When every session has been destroyed and
    every request has finished, no inference slot is in use, and the model's
    reference count is what repeated configurations have leaked: zero, if no
    session was configured twice. *)
Theorem quiescent_system {J : JsonLib} o es ttl n a s :
  run o es (boot ttl n a) = Some s ->
  Forall ended (locals s) -> Forall (λ q, q = QDone) (reqs s) ->
  InferenceLimiter.active_count (lim s) = 0 /\
  ModelCache.ref_count (cache s) = leaked (locals s) /\
  (Forall (λ l, acquired l <= 1) (locals s) -> ModelCache.ref_count (cache s) = 0).
Proof.
  intros H He Hd. destruct (system_run_inv o es ttl n a s H) as [_ Hr Hl _ Hs _].
  assert (forall l, l ∈ locals s -> held l = false /\ taken l = Z.max 0 (acquired l - 1)) as Hnone.
  { rewrite Forall_forall in Hl. rewrite Forall_forall in He. intros l Hin. destruct (He l Hin). by eapply done_holds_nothing; [apply Hl|..]. }
  rewrite (total_zero (λ q, Z.b2z (q_model q)) (reqs s)) in Hr
    by (eapply Forall_impl; [exact Hd|]; by intros q ->).
  rewrite (total_zero (λ q, Z.b2z (q_slot q)) (reqs s)) in Hs
    by (eapply Forall_impl; [exact Hd|]; by intros q ->).
  rewrite (total_zero (λ l, Z.b2z (held l)) (locals s)) in Hs
    by (apply Forall_forall; intros l Hin; by rewrite (proj1 (Hnone l Hin))).
  assert (total taken (locals s) = leaked (locals s)) as Ht
    by (apply total_ext; intros l Hin; by apply Hnone).
  split; [lia|]. split; [lia|]. intros H1.
  assert (leaked (locals s) = 0); [|lia]. apply total_zero. eapply Forall_impl; [exact H1|]. cbn. lia.
Qed.

Definition env_with (load : option ModelCache.context) : config_env :=
  ConfigEnv 0 0 0 ApiAuthClient.Denied load true None.

(** Two sessions and a request, one inference slot. *)
Definition busy_system : list event :=
  [SOpen 0; SStep 0 (Recv (Text (env_with (Some 0%nat))
     (lit "type=config,language=es"))); SStep 0 Emit;
   HModel true; HSlot 0; SOpen 1; SStep 1 ReadFails; SStep 1 (Leave 0); SStep 1 Unwind; SStep 1 FCheck;
   SStep 1 (Destroyed 0)].

Definition wind_down : list event :=
  [HGiveBack 0; HEnd 0; SStep 0 (Recv (Text (env_with None) (lit "type=end"))); SStep 0 FCheck; SClaimEnd 0 true;
   SStep 0 (Join no_whisper true); SStep 0 Emit; SStep 0 Emit; SStep 0 (Leave 0); SStep 0 Unwind;
   SStep 0 (Destroyed 1)].

Abbreviation sample_boot := (boot 300 1 (AuthManager.mk ∅ false 0 [])).
Abbreviation busy_run := (run (J := TinyJson.lib) sample_opts busy_system sample_boot).
Abbreviation ended_run := (run (J := TinyJson.lib) sample_opts (busy_system ++ wind_down) sample_boot).

(** What the witnesses look at in a state. *)
Definition engine_made (l : local) : bool := bool_decide (is_Some (engine (st (sess l)))).
Definition has_ended (l : local) : bool :=
  match r (sess l), stat (sess l) with RDone, Running => true | _, _ => false end.
Definition q_done (q : request) : bool := negb (q_model q).

Lemma checked {A} (b : A -> bool) (P : A -> Prop) l :
  (forall x, b x = true -> P x) -> forallb b l = true -> Forall P l.
Proof.
  intros HP H. rewrite forallb_forall in H. apply Forall_forall. intros x Hx. by apply HP, H, list_elem_of_In.
Qed.

Lemma has_ended_spec ls : forallb has_ended ls = true -> Forall ended ls.
Proof.
  apply checked. intros l. unfold has_ended. by destruct (r (sess l)) eqn:E, (stat (sess l)) eqn:E'.
Qed.

Lemma q_done_spec qs : forallb q_done qs = true -> Forall (λ q, q = QDone) qs.
Proof. apply checked. by intros []. Qed.

Lemma engines_on_live_model_witness :
  exists s l, busy_run = Some s /\ l ∈ locals s /\ engine (st (sess l)) <> None /\
    (exists c, made l = Some c /\ ModelCache.ctx (cache s) = Some c /\ c ∉ ModelCache.freed (cache s)).
Proof.
  assert ((λ s, engine_made <$> head (locals s)) <$> busy_run = Some (Some true)) as Hm by (by vm_compute).
  destruct busy_run as [s|] eqn:E; [|done]. injection Hm as Hm.
  destruct (locals s) as [|l ls] eqn:El; [done|]. injection Hm as Hm.
  assert (l ∈ locals s) as Hin by (rewrite El; by left).
  assert (engine (st (sess l)) <> None) as He.
  { apply bool_decide_eq_true in Hm as [e ->]. done. }
  exists s, l. split; [done|]. split; [exact Hin|]. split; [exact He|].
  exact (proj1 (engines_on_live_model sample_opts busy_system 300 1 _ s E) l Hin He).
Defined.

Lemma slots_accounted_witness :
  exists s, busy_run = Some s /\ slots_held (locals s) (reqs s) = 1.
Proof.
  assert (InferenceLimiter.active_count ∘ lim <$> busy_run = Some 1) as Hm by (by vm_compute).
  destruct busy_run as [s|] eqn:E; [|done]. injection Hm as Hm.
  exists s. split; [done|].
  by rewrite <- (proj1 (slots_accounted sample_opts busy_system 300 1 _ s E)).
Defined.

Lemma quiescent_system_witness :
  exists s, ended_run = Some s /\ length (locals s) = 2%nat /\ ModelCache.ref_count (cache s) = 0.
Proof.
  assert ((λ s, (length (locals s), forallb has_ended (locals s), forallb q_done (reqs s),
     forallb (λ l, acquired l <=? 1) (locals s))) <$> ended_run = Some (2%nat, true, true, true)) as Hm
    by (by vm_compute).
  destruct ended_run as [s|] eqn:E; [|done]. injection Hm as Hlen H1%has_ended_spec H2%q_done_spec H3.
  assert (Forall (λ l, acquired l <= 1) (locals s)) as H3'
    by (revert H3; apply checked; intros l; apply Z.leb_le).
  exists s. split; [done|]. split; [done|].
  exact (proj2 (proj2 (quiescent_system sample_opts (busy_system ++ wind_down) 300 1 _ s E H1 H2)) H3').
Defined.

End SystemSafety.
