(* ===== verification/MultipartParser.v ===== *)
(** The multipart/form-data parser, [src/server/MultipartParser.cpp].

    Every search of the parser starts at its current position, so that the
    position is represented by the rest of the body. *)

From stdpp Require Import prelude strings list gmap.
From Stdlib Require Import ZArith Lia.
From S2P Require Import Prelude.

Module MultipartParser.

Definition chr (n : nat) : Ascii.ascii := Ascii.ascii_of_nat n.
Definition CR := chr 13.
Definition LF := chr 10.
Definition quote := chr 34.
Definition equals := chr 61.
Definition space := chr 32.
Definition semicolon := chr 59.
Definition colon := chr 58.
Definition crlf : str := [CR; LF].

Record Part := MkPart { filename : str; content_type : str; data : str }.

(** [while (!b.empty() && p(b.back())) b.pop_back();] on the reversed string. *)
Fixpoint drop_while (p : Ascii.ascii -> bool) (s : str) : str :=
  match s with
  | c :: s' => if p c then drop_while p s' else s
  | [] => []
  end.

Definition pop_back_while (p : Ascii.ascii -> bool) (s : str) : str :=
  reverse (drop_while p (reverse s)).

Definition extractBoundary (content_type : str) : str :=
  match find_first (lit "boundary=") content_type with
  | None => []
  | Some pos =>
      let b := drop (pos + 9) content_type in
      let b :=
        match b with
        | c :: (_ :: _) as b' =>
            if decide (c = quote) then
              match find_first [quote] b' with
              | Some e => take e b'
              | None => b'
              end
            else b
        | _ => b
        end in
      pop_back_while (λ c, bool_decide (c = semicolon \/ c = space \/ c = CR)) b
  end.

Definition extractDispositionParam (header param : str) : str :=
  match find_first (param ++ lit "=" ++ [quote]) header with
  | None => []
  | Some pos =>
      let rest := drop (pos + (length param + 2)) header in
      match find_first [quote] rest with Some e => take e rest | None => [] end
  end.

(** What the headers of a part have set so far: the field's name and the part. *)
Definition parse_header (line : str) (acc : str * Part) : str * Part :=
  let line := match last line with
              | Some c => if decide (c = CR) then take (length line - 1) line else line
              | None => line
              end in
  let line_lc := tolower <$> line in
  if starts_with (lit "content-disposition:") line_lc then
    (extractDispositionParam line (lit "name"),
     MkPart (extractDispositionParam line (lit "filename")) (content_type acc.2) (data acc.2))
  else if starts_with (lit "content-type:") line_lc then
    let value := match find_first [colon] line with
                 | Some i => drop (S i) line
                 | None => line
                 end in
    let trimmed := drop_while (λ c, bool_decide (c = space)) value in
    (acc.1, MkPart (filename acc.2) (if bool_decide (trimmed = []) then value else trimmed)
              (data acc.2))
  else acc.

Definition parse_headers (hdrs : str) : str * Part :=
  foldl (λ acc line, parse_header line acc) ([], MkPart [] [] []) (getlines LF [] hdrs).

Definition first_delim (boundary : str) : str := lit "--" ++ boundary.
Definition part_delim (boundary : str) : str := crlf ++ lit "--" ++ boundary.

(** The loop over the parts, [rest] being the body from [pos].  [None]: out of
    fuel. *)
Fixpoint parse_loop (fuel : nat) (boundary rest : str) (parts : gmap str Part)
    : option (result (gmap str Part)) :=
  match fuel with
  | O => None
  | S fuel =>
      if starts_with (lit "--") rest then Some (Ok parts)
      else if starts_with crlf rest then
        let rest := drop 2 rest in
        match find_first (crlf ++ crlf) rest with
        | None => Some (Throw (lit "MultipartParser: malformed part — no header terminator"))
        | Some hdrs_end =>
            let hdrs := take hdrs_end rest in
            let rest := drop (hdrs_end + 4) rest in
            match find_first (part_delim boundary) rest with
            | None => Some (Throw (lit "MultipartParser: malformed part — no closing boundary"))
            | Some next =>
                let '(field_name, part) := parse_headers hdrs in
                let parts :=
                  if bool_decide (field_name = []) then parts
                  else <[field_name := MkPart (filename part) (content_type part) (take next rest)]>
                         parts in
                parse_loop fuel boundary (drop (next + length (part_delim boundary)) rest) parts
            end
        end
      else Some (Ok parts)
  end.

Definition parse (body boundary : str) : result (gmap str Part) :=
  match find_first (first_delim boundary) body with
  | None => Throw (lit "MultipartParser: boundary not found in body")
  | Some pos =>
      default (Throw [])
        (parse_loop (S (length body)) boundary (drop (pos + length (first_delim boundary)) body) ∅)
  end.

(** ** The encoding a client sends *)

Definition header_line (name : str) (p : Part) : str :=
  lit "Content-Disposition: form-data; name=" ++ [quote] ++ name ++ [quote] ++
  match filename p with
  | [] => []
  | f => lit "; filename=" ++ [quote] ++ f ++ [quote]
  end.

Definition type_line (p : Part) : str :=
  match content_type p with [] => [] | c => crlf ++ lit "Content-Type: " ++ c end.

Definition render_part (name : str) (p : Part) : str :=
  crlf ++ header_line name p ++ type_line p ++ crlf ++ crlf ++ data p.

Fixpoint render_parts (boundary : str) (ps : list (str * Part)) : str :=
  match ps with
  | [] => lit "--" ++ crlf
  | (name, p) :: ps => render_part name p ++ part_delim boundary ++ render_parts boundary ps
  end.

Definition render (boundary : str) (ps : list (str * Part)) : str :=
  first_delim boundary ++ render_parts boundary ps.

(** ** Proofs *)

Lemma starts_with_false p s : starts_with p s = false <-> forall k, s <> p ++ k.
Proof.
  unfold starts_with. rewrite bool_decide_eq_false. split.
  - intros H k ->. apply H. by exists k.
  - intros H [k ->]. by apply (H k).
Qed.

Lemma absent_drop needle s j : absent needle s -> (j <= length s)%nat ->
  starts_with needle (drop j s) = false.
Proof.
  unfold absent. intros H Hj. revert j Hj. induction s as [|c s IH]; intros j Hj; cbn [find_first] in H.
  - destruct j; [|cbn in Hj; lia]. cbn. by destruct (starts_with needle []).
  - destruct (starts_with needle (c :: s)) eqn:E; [done|].
    apply fmap_None in H. destruct j as [|j]; [done|]. apply IH; [done|cbn in Hj; lia].
Qed.

(** A prefix in which no match starts is skipped. *)
Lemma find_first_skip needle a s :
  (forall j, (j < length a)%nat -> starts_with needle (drop j (a ++ s)) = false) ->
  find_first needle (a ++ s) = Nat.add (length a) <$> find_first needle s.
Proof.
  induction a as [|c a IH]; intros H; cbn [length app].
  - destruct (find_first needle s); by cbn.
  - pose proof (H 0%nat ltac:(cbn; lia)) as H0. cbn in H0. cbn [find_first]. rewrite H0.
    rewrite IH by (intros j Hj; apply (H (S j)); cbn; lia).
    by destruct (find_first needle s).
Qed.

Lemma find_first_free c n a s : c ∉ a ->
  find_first (c :: n) (a ++ s) = Nat.add (length a) <$> find_first (c :: n) s.
Proof.
  intros Hc. apply find_first_skip. intros j Hj. apply starts_with_false. intros k E.
  rewrite drop_app_le in E by lia. destruct (drop j a) as [|x a'] eqn:Ed.
  - apply (f_equal length) in Ed. rewrite length_drop in Ed. cbn in Ed. lia.
  - cbn in E. injection E as -> _. apply Hc.
    apply (list_elem_of_lookup_2 a j). rewrite <- (Nat.add_0_r j), <- lookup_drop, Ed. done.
Qed.

Lemma find_first_here needle s : find_first needle (needle ++ s) = Some 0%nat.
Proof. destruct (needle ++ s) eqn:E; cbn [find_first]; rewrite <- E, starts_with_app; done. Qed.

(** A delimiter whose first character does not recur in it is found right
    after a text that does not contain it. *)
Lemma find_first_delim c n d s :
  c ∉ n -> absent (c :: n) d -> find_first (c :: n) (d ++ (c :: n) ++ s) = Some (length d).
Proof.
  intros Hc Hd. rewrite find_first_skip, find_first_here; [cbn; by rewrite Nat.add_0_r|].
  intros j Hj. apply starts_with_false. intros k E. rewrite drop_app_le in E by lia.
  apply app_eq_inv in E as [(k' & E & _)|(k' & E & E')].
  - pose proof (absent_drop _ _ j Hd ltac:(lia)) as H. rewrite E, starts_with_app in H. done.
  - destruct (drop j d) as [|x d'] eqn:Ed.
    + apply (f_equal length) in Ed. rewrite length_drop in Ed. cbn in Ed. lia.
    + destruct k' as [|y k'].
      * pose proof (absent_drop _ _ j Hd ltac:(lia)) as H.
        rewrite app_nil_r in E. rewrite Ed, <- E in H.
        pose proof (starts_with_app (c :: n) []) as H'. rewrite app_nil_r in H'. congruence.
      * injection E' as <- _. injection E as _ ->. apply Hc. apply elem_of_app. right. by left.
Qed.

(** No match of a delimiter containing [c] in a text without [c]. *)
Lemma absent_char c needle s : c ∈ needle -> c ∉ s -> absent needle s.
Proof.
  intros Hn Hs. unfold absent. destruct (find_first needle s) as [i|] eqn:E; [|done].
  apply find_first_Some in E as (H & _). apply starts_with_true in H as [k H].
  exfalso. apply Hs. rewrite <- (take_drop i s), H, !elem_of_app. auto.
Qed.

Lemma getlines_line a s : forall cur, LF ∉ a -> getlines LF cur (a ++ LF :: s) = (cur ++ a) :: getlines LF [] s.
Proof.
  induction a as [|c a IH]; intros cur Ha; cbn [app getlines].
  - rewrite decide_True by done. by rewrite app_nil_r.
  - apply not_elem_of_cons in Ha as [Hc Ha]. rewrite decide_False by done.
    by rewrite IH, <- (assoc_L (++)) by done.
Qed.

Lemma getlines_rest a : forall cur, LF ∉ a -> a <> [] -> getlines LF cur a = [cur ++ a].
Proof.
  induction a as [|c a IH]; intros cur Ha Hne; [done|].
  apply not_elem_of_cons in Ha as [Hc Ha]. cbn [getlines]. rewrite decide_False by done.
  destruct a as [|c' a]; [cbn [getlines]; destruct (cur ++ [c]) eqn:E; [by destruct cur|done]|].
  rewrite IH by done. by rewrite <- (assoc_L (++)).
Qed.

(** Membership of a character in a literal. *)
Ltac char_dec := apply (bool_decide_unpack _); vm_compute; exact I.

(** What a client must respect. *)
Record valid_part (boundary : str) (np : str * Part) : Prop := {
  vp_name : np.1 <> [] /\ Forall (λ c, c <> quote /\ c <> CR /\ c <> LF /\ c <> equals) np.1;
  vp_file : Forall (λ c, c <> quote /\ c <> CR /\ c <> LF) (filename np.2);
  vp_type : Forall (λ c, c <> CR /\ c <> LF) (content_type np.2) /\
            head (content_type np.2) <> Some space;
  vp_data : absent (part_delim boundary) (data np.2)
}.

Lemma quoted s k : quote ∉ s -> find_first [quote] (s ++ quote :: k) = Some (length s).
Proof.
  intros H. change (quote :: k) with ([quote] ++ k). rewrite find_first_free by done.
  rewrite find_first_here. cbn. by rewrite Nat.add_0_r.
Qed.

Lemma param_at header param pre s k :
  header = pre ++ param ++ lit "=" ++ [quote] ++ s ++ [quote] ++ k ->
  find_first (param ++ lit "=" ++ [quote]) header = Some (length pre) -> quote ∉ s ->
  extractDispositionParam header param = s.
Proof.
  intros -> Hf Hs. unfold extractDispositionParam. rewrite Hf.
  assert (pre ++ param ++ lit "=" ++ [quote] ++ s ++ [quote] ++ k =
          (pre ++ param ++ lit "=" ++ [quote]) ++ s ++ [quote] ++ k) as ->
    by (by rewrite <- !(assoc_L (++))).
  rewrite drop_app_length' by (rewrite !length_app; cbn; lia).
  change ([quote] ++ k) with (quote :: k). rewrite quoted by done. by rewrite take_app_length.
Qed.

(** The concrete beginning of the header. *)
Definition prefix : str := lit "Content-Disposition: form-data; ".
Definition prefix_name : str := prefix ++ lit "name=" ++ [quote].

Lemma no_filename_in_prefix s :
  find_first (lit "filename=" ++ [quote]) (prefix_name ++ s) =
    Nat.add (length prefix_name) <$> find_first (lit "filename=" ++ [quote]) s.
Proof.
  apply find_first_skip. intros j Hj. cbn in Hj.
  do 38 (destruct j as [|j]; [reflexivity|]). lia.
Qed.

Lemma name_of_header name p :
  quote ∉ name -> extractDispositionParam (header_line name p) (lit "name") = name.
Proof.
  intros H. eapply (param_at _ _ prefix); [|reflexivity|done].
  unfold header_line. reflexivity.
Qed.

Lemma filename_of_header name p :
  quote ∉ filename p -> equals ∉ name ->
  extractDispositionParam (header_line name p) (lit "filename") = filename p.
Proof.
  intros Hf Hn. unfold header_line. destruct (filename p) as [|c f] eqn:E.
  - unfold extractDispositionParam.
    change (lit "Content-Disposition: form-data; name=" ++ [quote] ++ name ++ [quote] ++ [])
      with (prefix_name ++ name ++ [quote]).
    change (lit "filename" ++ lit "=" ++ [quote]) with (lit "filename=" ++ [quote]).
    rewrite no_filename_in_prefix.
    assert (absent (lit "filename=" ++ [quote]) (name ++ [quote])) as ->; [|done].
    apply (absent_char (equals)); [char_dec|].
    rewrite elem_of_app, list_elem_of_singleton. by intros [?|?].
  - rewrite <- E in *. eapply (param_at _ _ (prefix_name ++ name ++ [quote] ++ lit "; ") _ []); [| |done].
    + rewrite <- !(assoc_L (++)). reflexivity.
    + change (lit "Content-Disposition: form-data; name=" ++ [quote] ++ name ++ [quote] ++
                lit "; filename=" ++ [quote] ++ filename p ++ [quote])
        with (prefix_name ++ name ++ ([quote] ++ lit "; ") ++ (lit "filename=" ++ [quote]) ++
                filename p ++ [quote]).
      change (lit "filename" ++ lit "=" ++ [quote]) with (lit "filename=" ++ [quote]).
      rewrite no_filename_in_prefix, (assoc_L (++) name).
      change (lit "filename=" ++ [quote]) with (Ascii.ascii_of_nat 102 :: lit "ilename=" ++ [quote]).
      rewrite find_first_delim.
      * cbn. f_equal. 
      * char_dec.
      * apply (absent_char (equals)); [char_dec|].
        rewrite elem_of_app. intros [?|H]; [done|]. revert H; char_dec.
Qed.

Lemma not_in_of_Forall (P : Ascii.ascii -> Prop) c (s : str) : Forall P s -> ~ P c -> c ∉ s.
Proof. rewrite Forall_forall. intros H Hc Hin. by apply Hc, H. Qed.

Lemma header_line_clean name p c :
  c ∉ name -> c ∉ filename p ->
  c ∉ lit "Content-Disposition: form-data; name=" -> c ∉ lit "; filename=" -> c <> quote ->
  c ∉ header_line name p.
Proof.
  intros H1 H2 H3 H4 H5. unfold header_line.
  destruct (filename p) as [|x f]; rewrite !elem_of_app, ?list_elem_of_singleton, ?elem_of_nil;
    intuition.
Qed.

Lemma last_snoc_app (a b : str) : b <> [] -> last (a ++ b) = last b.
Proof. intros. rewrite last_app. destruct (last b) eqn:E; [done|]. by apply last_None in E. Qed.

Lemma last_in (l : str) c : last l = Some c -> c ∈ l.
Proof. intros [l' ->]%last_Some. apply elem_of_app. right. by left. Qed.

(** The trailing CR of a line, if any, is dropped. *)
Lemma parse_header_cr line acc : CR ∉ line -> parse_header (line ++ [CR]) acc = parse_header line acc.
Proof.
  intros H. unfold parse_header at 1. rewrite last_snoc, decide_True by done.
  rewrite length_app. cbn [length]. replace (length line + 1 - 1)%nat with (length line) by lia.
  rewrite take_app_length. unfold parse_header. destruct (last line) as [c|] eqn:E; [|done].
  rewrite decide_False; [done|]. intros ->. by apply H, last_in.
Qed.

Lemma header_line_prefix name p : exists k, header_line name p = lit "Content-Disposition:" ++ k.
Proof. eexists (lit " form-data; name=" ++ _). reflexivity. Qed.

Lemma parse_disposition name p acc :
  CR ∉ header_line name p -> quote ∉ name -> equals ∉ name -> quote ∉ filename p ->
  parse_header (header_line name p) acc =
    (name, MkPart (filename p) (content_type acc.2) (data acc.2)).
Proof.
  intros Hcr Hq He Hf. unfold parse_header.
  assert (match last (header_line name p) with
          | Some c => if decide (c = CR) then take (length (header_line name p) - 1) (header_line name p)
                      else header_line name p
          | None => header_line name p
          end = header_line name p) as ->.
  { destruct (last (header_line name p)) as [c|] eqn:E; [|done].
    rewrite decide_False; [done|]. intros ->. by apply Hcr, last_in. }
  assert (starts_with (lit "content-disposition:") (tolower <$> header_line name p) = true) as ->.
  { destruct (header_line_prefix name p) as [k ->]. rewrite fmap_app.
    change (tolower <$> lit "Content-Disposition:") with (lit "content-disposition:").
    apply starts_with_app. }
  by rewrite name_of_header, filename_of_header.
Qed.

Lemma drop_while_stop (p : Ascii.ascii -> bool) s :
  match head s with Some c => p c = false | None => True end -> drop_while p s = s.
Proof. destruct s as [|c s]; cbn; [done|]. by intros ->. Qed.

Lemma parse_type ct acc :
  CR ∉ ct -> ct <> [] -> head ct <> Some space ->
  parse_header (lit "Content-Type: " ++ ct) acc =
    (acc.1, MkPart (filename acc.2) ct (data acc.2)).
Proof.
  intros Hcr Hne Hsp. unfold parse_header.
  assert (match last (lit "Content-Type: " ++ ct) with
          | Some c => if decide (c = CR)
                      then take (length (lit "Content-Type: " ++ ct) - 1) (lit "Content-Type: " ++ ct)
                      else lit "Content-Type: " ++ ct
          | None => lit "Content-Type: " ++ ct
          end = lit "Content-Type: " ++ ct) as ->.
  { rewrite last_snoc_app by done. destruct (last ct) as [c|] eqn:E; [|done].
    rewrite decide_False; [done|]. intros ->. by apply Hcr, last_in. }
  rewrite fmap_app. change (tolower <$> lit "Content-Type: ") with (lit "content-type:" ++ lit " ").
  assert (starts_with (lit "content-disposition:") ((lit "content-type:" ++ lit " ") ++ (tolower <$> ct)) = false)
    as -> by reflexivity.
  rewrite <- (assoc_L (++)), starts_with_app.
  assert (find_first [colon] (lit "Content-Type: " ++ ct) = Some 12%nat) as -> by reflexivity.
  change (drop 13 (lit "Content-Type: " ++ ct)) with (space :: ct). cbn [drop_while].
  rewrite (bool_decide_eq_true_2 (space = space)) by done.
  rewrite drop_while_stop.
  - by rewrite bool_decide_eq_false_2 by done.
  - destruct ct as [|c ct]; [done|]. cbn in *. apply bool_decide_eq_false. congruence.
Qed.

Section part.
Context {boundary name : str} {p : Part} (Hv : valid_part boundary (name, p)).

Lemma name_clean : (quote ∉ name) /\ (equals ∉ name) /\ (CR ∉ name) /\ LF ∉ name.
Proof.
  destruct (vp_name _ _ Hv) as [_ H]. cbn in H.
  repeat split; (eapply not_in_of_Forall; [exact H|]); naive_solver.
Qed.

Lemma file_clean : (quote ∉ filename p) /\ (CR ∉ filename p) /\ LF ∉ filename p.
Proof.
  pose proof (vp_file _ _ Hv) as H. cbn in H.
  repeat split; (eapply not_in_of_Forall; [exact H|]); naive_solver.
Qed.

Lemma type_clean : (CR ∉ content_type p) /\ LF ∉ content_type p.
Proof.
  destruct (vp_type _ _ Hv) as [H _]. cbn in H.
  repeat split; (eapply not_in_of_Forall; [exact H|]); naive_solver.
Qed.

Lemma header_clean : (CR ∉ header_line name p) /\ LF ∉ header_line name p.
Proof.
  destruct name_clean as (_ & _ & ? & ?), file_clean as (_ & ? & ?).
  split; apply header_line_clean; done || char_dec.
Qed.

Lemma header_line_nonempty : header_line name p <> [].
Proof. by destruct (header_line_prefix name p) as [k ->]. Qed.

Lemma parse_headers_part :
  parse_headers (header_line name p ++ type_line p) =
    (name, MkPart (filename p) (content_type p) []).
Proof.
  destruct header_clean as [Hcr Hlf], name_clean as (? & ? & _), file_clean as (? & _).
  destruct type_clean as [Tcr Tlf], (vp_type _ _ Hv) as [_ Tsp]. cbn in Tsp.
  unfold parse_headers, type_line. destruct (content_type p) as [|c ct] eqn:Et.
  - rewrite app_nil_r, getlines_rest by (done || apply header_line_nonempty).
    cbn [foldl app]. by rewrite parse_disposition.
  - rewrite <- Et in *. change (crlf ++ lit "Content-Type: " ++ content_type p)
      with ([CR] ++ LF :: (lit "Content-Type: " ++ content_type p)).
    rewrite (assoc_L (++)), getlines_line.
    2: { rewrite elem_of_app. intros [?|?]; [done|]. revert H2. char_dec. }
    rewrite getlines_rest; [|rewrite elem_of_app; intros [H2|?]; [revert H2; char_dec|done]|done].
    cbn [foldl app]. rewrite parse_header_cr, parse_disposition by done.
    rewrite (parse_type (content_type p)); [done|done|congruence|done].
Qed.

Lemma header_end s :
  find_first (crlf ++ crlf) ((header_line name p ++ type_line p) ++ (crlf ++ crlf) ++ s) =
    Some (length (header_line name p ++ type_line p)).
Proof.
  destruct header_clean as [Hcr _], type_clean as [Tcr _].
  rewrite <- (assoc_L (++)). change (crlf ++ crlf) with (CR :: [LF; CR; LF]).
  rewrite find_first_free by done. rewrite length_app.
  assert (find_first (CR :: [LF; CR; LF]) (type_line p ++ (CR :: [LF; CR; LF]) ++ s) =
          Some (length (type_line p))) as ->; [|done].
  unfold type_line. destruct (content_type p) as [|c ct] eqn:Et;
    [exact (find_first_here (CR :: [LF; CR; LF]) s)|].
  rewrite <- Et in *. rewrite <- !(assoc_L (++)). rewrite find_first_skip.
  - rewrite (assoc_L (++) (lit "Content-Type: ")), find_first_free, find_first_here.
    + cbn. by rewrite Nat.add_0_r.
    + rewrite elem_of_app. intros [H|?]; [revert H; char_dec|done].
  - intros j Hj. cbn in Hj. do 2 (destruct j as [|j]; [reflexivity|]). lia.
Qed.

Lemma parse_part fuel rest acc :
  CR ∉ boundary ->
  parse_loop (S fuel) boundary (render_part name p ++ part_delim boundary ++ rest) acc =
    parse_loop fuel boundary rest (<[name := p]> acc).
Proof.
  intros Hb. cbn [parse_loop]. unfold render_part.
  assert (exists s, s = data p ++ part_delim boundary ++ rest) as [s Es] by eauto.
  assert ((crlf ++ header_line name p ++ type_line p ++ crlf ++ crlf ++ data p) ++
          part_delim boundary ++ rest =
          crlf ++ (header_line name p ++ type_line p) ++ (crlf ++ crlf) ++ s) as ->
    by (subst s; by rewrite <- !(assoc_L (++))).
  assert (starts_with (lit "--") (crlf ++ (header_line name p ++ type_line p) ++ (crlf ++ crlf) ++ s)
          = false) as -> by reflexivity.
  rewrite starts_with_app.
  change (drop 2 (crlf ++ ?x)) with x. rewrite header_end, take_app_length.
  rewrite (assoc_L (++) _ (crlf ++ crlf)), drop_app_length' by (by rewrite (length_app _ (crlf ++ crlf))).
  subst s. unfold part_delim at 1. change (crlf ++ lit "--" ++ boundary) with
    (CR :: (LF :: lit "--" ++ boundary)).
  rewrite find_first_delim; [..|exact (vp_data _ _ Hv)].
  2: { change (LF :: lit "--" ++ boundary) with ((LF :: lit "--") ++ boundary).
       rewrite elem_of_app. intros [H|?]; [revert H; char_dec|done]. }
  rewrite parse_headers_part, bool_decide_eq_false_2 by apply (vp_name _ _ Hv).
  cbn [filename content_type]. rewrite take_app_length.
  assert (MkPart (filename p) (content_type p) (data p) = p) as -> by by destruct p.
  by rewrite (assoc_L (++) (data p)), drop_app_length' by (by rewrite length_app).
Qed.
End part.

Lemma parse_parts boundary ps : forall fuel acc,
  CR ∉ boundary -> Forall (valid_part boundary) ps -> (length ps < fuel)%nat ->
  parse_loop fuel boundary (render_parts boundary ps) acc =
    Some (Ok (foldl (λ m np, <[np.1 := np.2]> m) acc ps)).
Proof.
  induction ps as [|[name p] ps IH]; intros fuel acc Hb Hv Hf.
  - destruct fuel as [|fuel]; [lia|]. cbn [parse_loop render_parts]. by rewrite starts_with_app.
  - apply Forall_cons in Hv as [Hv Hvs]. destruct fuel as [|fuel]; [lia|].
    cbn [render_parts]. rewrite (parse_part Hv) by done. apply IH; [done|done|cbn in Hf; lia].
Qed.

Lemma length_render_parts boundary ps : (length ps < length (render_parts boundary ps))%nat.
Proof.
  induction ps as [|[name p] ps IH]; cbn [render_parts length]; [by cbn; lia|].
  unfold render_part. rewrite !length_app. cbn [length crlf]. lia.
Qed.

(** Every iteration consumes the CRLF it starts with. *)
Lemma parse_loop_fuel boundary fuel : forall rest acc,
  (length rest < fuel)%nat -> parse_loop fuel boundary rest acc <> None.
Proof.
  induction fuel as [|fuel IH]; intros rest acc Hf; [lia|]. cbn [parse_loop].
  destruct (starts_with (lit "--") rest); [done|].
  destruct (starts_with crlf rest) eqn:E; [|done].
  destruct (find_first (crlf ++ crlf) (drop 2 rest)) as [he|]; [|done].
  destruct (find_first (part_delim boundary) (drop (he + 4) (drop 2 rest))) as [next|]; [|done].
  destruct (parse_headers (take he (drop 2 rest))) as [fname part]. apply IH.
  apply starts_with_true in E as [k ->]. rewrite !length_drop, !length_app in *. cbn in *. lia.
Qed.

Lemma parse_loop_errors boundary fuel : forall rest acc w,
  parse_loop fuel boundary rest acc = Some (Throw w) ->
  w = lit "MultipartParser: malformed part — no header terminator" \/
  w = lit "MultipartParser: malformed part — no closing boundary".
Proof.
  induction fuel as [|fuel IH]; intros rest acc w; cbn [parse_loop]; [done|].
  destruct (starts_with (lit "--") rest); [done|]. destruct (starts_with crlf rest); [|done].
  destruct (find_first (crlf ++ crlf) (drop 2 rest)) as [he|]; [|intros [= <-]; by left].
  destruct (find_first (part_delim boundary) (drop (he + 4) (drop 2 rest))) as [next|];
    [|intros [= <-]; by right].
  destruct (parse_headers (take he (drop 2 rest))) as [fname part]. apply IH.
Qed.

(** ** Properties *)

(** C21: Round trip.  A form encoded as RFC 7578 prescribes - parts with or
    without a file name and a content type, arbitrary bytes as data as long as
    the delimiter does not occur in them - is parsed back to exactly its fields,
    a repeated name keeping its last part; the parser never runs out of fuel. *)
Theorem parse_render boundary ps :
  CR ∉ boundary -> Forall (valid_part boundary) ps ->
  parse (render boundary ps) boundary = Ok (foldl (λ m np, <[np.1 := np.2]> m) ∅ ps).
Proof.
  intros Hb Hv. unfold parse, render. rewrite find_first_here. cbn [Nat.add].
  rewrite drop_app_length, parse_parts; [done|done|done|].
  rewrite length_app. pose proof (length_render_parts boundary ps). lia.
Qed.

Definition form : list (str * Part) :=
  [(lit "model", MkPart [] [] (lit "whisper-1"));
   (lit "file", MkPart (lit "a.ogg") (lit "audio/ogg") (lit "OggS" ++ [CR; LF; CR; LF]))].

Lemma parse_render_witness :
  (CR ∉ lit "XyZ") /\
  parse (render (lit "XyZ") form) (lit "XyZ") = Ok (foldl (λ m np, <[np.1 := np.2]> m) ∅ form).
Proof.
  assert (CR ∉ lit "XyZ") as Hb by char_dec. split; [done|].
  apply parse_render; [done|].
  repeat (apply Forall_cons; split); try by apply Forall_nil.
  all: split; cbn [fst snd filename content_type data]; try done;
    try (split; [done|]); try (vm_compute; reflexivity);
    try (apply (bool_decide_unpack _); vm_compute; exact I).
Defined.

(** C22: Termination.  On every body and boundary the parser ends, within one
    iteration more than the body has bytes, with a result or with one of its
    three diagnostics; it never runs out of fuel. *)
Theorem parse_terminates body boundary w :
  parse body boundary = Throw w ->
  w = lit "MultipartParser: boundary not found in body" \/
  w = lit "MultipartParser: malformed part — no header terminator" \/
  w = lit "MultipartParser: malformed part — no closing boundary".
Proof.
  unfold parse. destruct (find_first (first_delim boundary) body) as [pos|]; [|intros [= <-]; by left].
  set (rest := drop (pos + length (first_delim boundary)) body).
  destruct (parse_loop (S (length body)) boundary rest ∅) as [r|] eqn:E.
  - cbn. intros ->. right. by eapply parse_loop_errors.
  - apply parse_loop_fuel in E; [done|]. unfold rest. rewrite length_drop. lia.
Qed.

Lemma parse_terminates_witness :
  parse (lit "no delimiter") (lit "XyZ") = Throw (lit "MultipartParser: boundary not found in body") /\
  exists w, parse (lit "no delimiter") (lit "XyZ") = Throw w /\
    (w = lit "MultipartParser: boundary not found in body" \/
     w = lit "MultipartParser: malformed part — no header terminator" \/
     w = lit "MultipartParser: malformed part — no closing boundary").
Proof.
  assert (parse (lit "no delimiter") (lit "XyZ") = Throw (lit "MultipartParser: boundary not found in body"))
    as E by (vm_compute; reflexivity).
  split; [exact E|]. eexists. split; [exact E|]. exact (parse_terminates _ _ _ E).
Defined.

(** A file name before the field name hijacks it.  The field name is found
    by searching for [name=], which also occurs in [filename=]: a disposition
    that lists the file name first yields the file name as the field's name. *)
Theorem filename_first_is_the_name name file :
  quote ∉ file ->
  extractDispositionParam
    (lit "Content-Disposition: form-data; filename=" ++ [quote] ++ file ++ [quote] ++
     lit "; name=" ++ [quote] ++ name ++ [quote]) (lit "name") = file.
Proof.
  intros H. eapply (param_at _ _ (lit "Content-Disposition: form-data; file")); [|reflexivity|done].
  reflexivity.
Qed.

Lemma filename_first_is_the_name_witness :
  extractDispositionParam
    (lit "Content-Disposition: form-data; filename=" ++ [quote] ++ lit "a.ogg" ++ [quote] ++
     lit "; name=" ++ [quote] ++ lit "file" ++ [quote]) (lit "name") = lit "a.ogg".
Proof. apply filename_first_is_the_name. char_dec. Defined.

End MultipartParser.
