(* ===== verification/Config.v ===== *)
(** The configuration: [src/server/ServerConfig.h] and the part of
    [src/server.cpp] that fills it from a ".env" file, the environment and the
    command line. *)

From stdpp Require Import prelude strings list gmap.
From Stdlib Require Import ZArith Lia SpecFloat.
From S2P Require Import Prelude Floats Numbers.

Module Config.

Definition FLT_MAX : float32 := S754_finite false 16777215 104.

Record ServerConfig := MkConfig {
  model_path : str;
  bind_address : str;
  port : Z;
  cert_path : str;
  key_path : str;
  max_connections : Z;
  max_connections_per_ip : Z;
  trusted_proxy_hosts : str;
  trusted_proxy_refresh_sec : Z;
  session_timeout_sec : Z;
  handshake_timeout_sec : Z;
  auth_token : str;
  auth_api_url : str;
  auth_api_secret : str;
  auth_cache_ttl : Z;
  auth_api_timeout : Z;
  whisper_beam_size : Z;
  whisper_threads : Z;
  max_concurrent_inference : Z;
  model_cache_ttl : Z;
  whisper_initial_prompt : str;
  whisper_temperature : float32;
  whisper_temperature_inc : float32;
  whisper_no_speech_thold : float32;
  whisper_logprob_thold : float32;
  flush_min_new_audio_ms : Z;
  vad_model_path : str;
  vad_threshold : float32;
  vad_min_speech_ms : Z;
  vad_min_silence_ms : Z;
  vad_max_speech_s : float32;
  vad_speech_pad_ms : Z;
  vad_samples_overlap : float32;
  shutdown_timeout_sec : Z;
  max_upload_bytes : Z;
  max_audio_duration_sec : Z;
  whisper_temperature_inc_http : float32
}.

(** [ServerConfig{}] *)
Definition defaults : ServerConfig := {|
  model_path := lit "third_party/whisper.cpp/models/ggml-small.bin";
  bind_address := lit "0.0.0.0";
  port := 9001;
  cert_path := [];
  key_path := [];
  max_connections := 8;
  max_connections_per_ip := 2;
  trusted_proxy_hosts := [];
  trusted_proxy_refresh_sec := 30;
  session_timeout_sec := 30;
  handshake_timeout_sec := 10;
  auth_token := [];
  auth_api_url := [];
  auth_api_secret := [];
  auth_cache_ttl := 300;
  auth_api_timeout := 5;
  whisper_beam_size := 1;
  whisper_threads := 4;
  max_concurrent_inference := 4;
  model_cache_ttl := 300;
  whisper_initial_prompt := [];
  whisper_temperature := F32.zero;
  whisper_temperature_inc := F32.zero;
  whisper_no_speech_thold := F32.lit 3 10;
  whisper_logprob_thold := F32.lit (-7) 10;
  flush_min_new_audio_ms := 500;
  vad_model_path := lit "third_party/whisper.cpp/models/ggml-silero-v5.1.2.bin";
  vad_threshold := F32.lit 1 2;
  vad_min_speech_ms := 250;
  vad_min_silence_ms := 2000;
  vad_max_speech_s := FLT_MAX;
  vad_speech_pad_ms := 400;
  vad_samples_overlap := F32.lit 1 10;
  shutdown_timeout_sec := 10;
  max_upload_bytes := 25 * 1024 * 1024;
  max_audio_duration_sec := 600;
  whisper_temperature_inc_http := F32.lit 2 10
|}.

(** Assignment to one member. *)
Definition set_model_path (v : str) (c : ServerConfig) : ServerConfig :=
  MkConfig v (bind_address c) (port c) (cert_path c) (key_path c) (max_connections c)
  (max_connections_per_ip c) (trusted_proxy_hosts c) (trusted_proxy_refresh_sec c)
  (session_timeout_sec c) (handshake_timeout_sec c) (auth_token c) (auth_api_url c)
  (auth_api_secret c) (auth_cache_ttl c) (auth_api_timeout c) (whisper_beam_size c)
  (whisper_threads c) (max_concurrent_inference c) (model_cache_ttl c)
  (whisper_initial_prompt c) (whisper_temperature c) (whisper_temperature_inc c)
  (whisper_no_speech_thold c) (whisper_logprob_thold c) (flush_min_new_audio_ms c)
  (vad_model_path c) (vad_threshold c) (vad_min_speech_ms c) (vad_min_silence_ms c)
  (vad_max_speech_s c) (vad_speech_pad_ms c) (vad_samples_overlap c) (shutdown_timeout_sec
  c) (max_upload_bytes c) (max_audio_duration_sec c) (whisper_temperature_inc_http c).
Definition set_bind_address (v : str) (c : ServerConfig) : ServerConfig :=
  MkConfig (model_path c) v (port c) (cert_path c) (key_path c) (max_connections c)
  (max_connections_per_ip c) (trusted_proxy_hosts c) (trusted_proxy_refresh_sec c)
  (session_timeout_sec c) (handshake_timeout_sec c) (auth_token c) (auth_api_url c)
  (auth_api_secret c) (auth_cache_ttl c) (auth_api_timeout c) (whisper_beam_size c)
  (whisper_threads c) (max_concurrent_inference c) (model_cache_ttl c)
  (whisper_initial_prompt c) (whisper_temperature c) (whisper_temperature_inc c)
  (whisper_no_speech_thold c) (whisper_logprob_thold c) (flush_min_new_audio_ms c)
  (vad_model_path c) (vad_threshold c) (vad_min_speech_ms c) (vad_min_silence_ms c)
  (vad_max_speech_s c) (vad_speech_pad_ms c) (vad_samples_overlap c) (shutdown_timeout_sec
  c) (max_upload_bytes c) (max_audio_duration_sec c) (whisper_temperature_inc_http c).
Definition set_port (v : Z) (c : ServerConfig) : ServerConfig :=
  MkConfig (model_path c) (bind_address c) v (cert_path c) (key_path c) (max_connections c)
  (max_connections_per_ip c) (trusted_proxy_hosts c) (trusted_proxy_refresh_sec c)
  (session_timeout_sec c) (handshake_timeout_sec c) (auth_token c) (auth_api_url c)
  (auth_api_secret c) (auth_cache_ttl c) (auth_api_timeout c) (whisper_beam_size c)
  (whisper_threads c) (max_concurrent_inference c) (model_cache_ttl c)
  (whisper_initial_prompt c) (whisper_temperature c) (whisper_temperature_inc c)
  (whisper_no_speech_thold c) (whisper_logprob_thold c) (flush_min_new_audio_ms c)
  (vad_model_path c) (vad_threshold c) (vad_min_speech_ms c) (vad_min_silence_ms c)
  (vad_max_speech_s c) (vad_speech_pad_ms c) (vad_samples_overlap c) (shutdown_timeout_sec
  c) (max_upload_bytes c) (max_audio_duration_sec c) (whisper_temperature_inc_http c).
Definition set_cert_path (v : str) (c : ServerConfig) : ServerConfig :=
  MkConfig (model_path c) (bind_address c) (port c) v (key_path c) (max_connections c)
  (max_connections_per_ip c) (trusted_proxy_hosts c) (trusted_proxy_refresh_sec c)
  (session_timeout_sec c) (handshake_timeout_sec c) (auth_token c) (auth_api_url c)
  (auth_api_secret c) (auth_cache_ttl c) (auth_api_timeout c) (whisper_beam_size c)
  (whisper_threads c) (max_concurrent_inference c) (model_cache_ttl c)
  (whisper_initial_prompt c) (whisper_temperature c) (whisper_temperature_inc c)
  (whisper_no_speech_thold c) (whisper_logprob_thold c) (flush_min_new_audio_ms c)
  (vad_model_path c) (vad_threshold c) (vad_min_speech_ms c) (vad_min_silence_ms c)
  (vad_max_speech_s c) (vad_speech_pad_ms c) (vad_samples_overlap c) (shutdown_timeout_sec
  c) (max_upload_bytes c) (max_audio_duration_sec c) (whisper_temperature_inc_http c).
Definition set_key_path (v : str) (c : ServerConfig) : ServerConfig :=
  MkConfig (model_path c) (bind_address c) (port c) (cert_path c) v (max_connections c)
  (max_connections_per_ip c) (trusted_proxy_hosts c) (trusted_proxy_refresh_sec c)
  (session_timeout_sec c) (handshake_timeout_sec c) (auth_token c) (auth_api_url c)
  (auth_api_secret c) (auth_cache_ttl c) (auth_api_timeout c) (whisper_beam_size c)
  (whisper_threads c) (max_concurrent_inference c) (model_cache_ttl c)
  (whisper_initial_prompt c) (whisper_temperature c) (whisper_temperature_inc c)
  (whisper_no_speech_thold c) (whisper_logprob_thold c) (flush_min_new_audio_ms c)
  (vad_model_path c) (vad_threshold c) (vad_min_speech_ms c) (vad_min_silence_ms c)
  (vad_max_speech_s c) (vad_speech_pad_ms c) (vad_samples_overlap c) (shutdown_timeout_sec
  c) (max_upload_bytes c) (max_audio_duration_sec c) (whisper_temperature_inc_http c).
Definition set_max_connections (v : Z) (c : ServerConfig) : ServerConfig :=
  MkConfig (model_path c) (bind_address c) (port c) (cert_path c) (key_path c) v
  (max_connections_per_ip c) (trusted_proxy_hosts c) (trusted_proxy_refresh_sec c)
  (session_timeout_sec c) (handshake_timeout_sec c) (auth_token c) (auth_api_url c)
  (auth_api_secret c) (auth_cache_ttl c) (auth_api_timeout c) (whisper_beam_size c)
  (whisper_threads c) (max_concurrent_inference c) (model_cache_ttl c)
  (whisper_initial_prompt c) (whisper_temperature c) (whisper_temperature_inc c)
  (whisper_no_speech_thold c) (whisper_logprob_thold c) (flush_min_new_audio_ms c)
  (vad_model_path c) (vad_threshold c) (vad_min_speech_ms c) (vad_min_silence_ms c)
  (vad_max_speech_s c) (vad_speech_pad_ms c) (vad_samples_overlap c) (shutdown_timeout_sec
  c) (max_upload_bytes c) (max_audio_duration_sec c) (whisper_temperature_inc_http c).
Definition set_max_connections_per_ip (v : Z) (c : ServerConfig) : ServerConfig :=
  MkConfig (model_path c) (bind_address c) (port c) (cert_path c) (key_path c)
  (max_connections c) v (trusted_proxy_hosts c) (trusted_proxy_refresh_sec c)
  (session_timeout_sec c) (handshake_timeout_sec c) (auth_token c) (auth_api_url c)
  (auth_api_secret c) (auth_cache_ttl c) (auth_api_timeout c) (whisper_beam_size c)
  (whisper_threads c) (max_concurrent_inference c) (model_cache_ttl c)
  (whisper_initial_prompt c) (whisper_temperature c) (whisper_temperature_inc c)
  (whisper_no_speech_thold c) (whisper_logprob_thold c) (flush_min_new_audio_ms c)
  (vad_model_path c) (vad_threshold c) (vad_min_speech_ms c) (vad_min_silence_ms c)
  (vad_max_speech_s c) (vad_speech_pad_ms c) (vad_samples_overlap c) (shutdown_timeout_sec
  c) (max_upload_bytes c) (max_audio_duration_sec c) (whisper_temperature_inc_http c).
Definition set_trusted_proxy_hosts (v : str) (c : ServerConfig) : ServerConfig :=
  MkConfig (model_path c) (bind_address c) (port c) (cert_path c) (key_path c)
  (max_connections c) (max_connections_per_ip c) v (trusted_proxy_refresh_sec c)
  (session_timeout_sec c) (handshake_timeout_sec c) (auth_token c) (auth_api_url c)
  (auth_api_secret c) (auth_cache_ttl c) (auth_api_timeout c) (whisper_beam_size c)
  (whisper_threads c) (max_concurrent_inference c) (model_cache_ttl c)
  (whisper_initial_prompt c) (whisper_temperature c) (whisper_temperature_inc c)
  (whisper_no_speech_thold c) (whisper_logprob_thold c) (flush_min_new_audio_ms c)
  (vad_model_path c) (vad_threshold c) (vad_min_speech_ms c) (vad_min_silence_ms c)
  (vad_max_speech_s c) (vad_speech_pad_ms c) (vad_samples_overlap c) (shutdown_timeout_sec
  c) (max_upload_bytes c) (max_audio_duration_sec c) (whisper_temperature_inc_http c).
Definition set_trusted_proxy_refresh_sec (v : Z) (c : ServerConfig) : ServerConfig :=
  MkConfig (model_path c) (bind_address c) (port c) (cert_path c) (key_path c)
  (max_connections c) (max_connections_per_ip c) (trusted_proxy_hosts c) v
  (session_timeout_sec c) (handshake_timeout_sec c) (auth_token c) (auth_api_url c)
  (auth_api_secret c) (auth_cache_ttl c) (auth_api_timeout c) (whisper_beam_size c)
  (whisper_threads c) (max_concurrent_inference c) (model_cache_ttl c)
  (whisper_initial_prompt c) (whisper_temperature c) (whisper_temperature_inc c)
  (whisper_no_speech_thold c) (whisper_logprob_thold c) (flush_min_new_audio_ms c)
  (vad_model_path c) (vad_threshold c) (vad_min_speech_ms c) (vad_min_silence_ms c)
  (vad_max_speech_s c) (vad_speech_pad_ms c) (vad_samples_overlap c) (shutdown_timeout_sec
  c) (max_upload_bytes c) (max_audio_duration_sec c) (whisper_temperature_inc_http c).
Definition set_session_timeout_sec (v : Z) (c : ServerConfig) : ServerConfig :=
  MkConfig (model_path c) (bind_address c) (port c) (cert_path c) (key_path c)
  (max_connections c) (max_connections_per_ip c) (trusted_proxy_hosts c)
  (trusted_proxy_refresh_sec c) v (handshake_timeout_sec c) (auth_token c) (auth_api_url c)
  (auth_api_secret c) (auth_cache_ttl c) (auth_api_timeout c) (whisper_beam_size c)
  (whisper_threads c) (max_concurrent_inference c) (model_cache_ttl c)
  (whisper_initial_prompt c) (whisper_temperature c) (whisper_temperature_inc c)
  (whisper_no_speech_thold c) (whisper_logprob_thold c) (flush_min_new_audio_ms c)
  (vad_model_path c) (vad_threshold c) (vad_min_speech_ms c) (vad_min_silence_ms c)
  (vad_max_speech_s c) (vad_speech_pad_ms c) (vad_samples_overlap c) (shutdown_timeout_sec
  c) (max_upload_bytes c) (max_audio_duration_sec c) (whisper_temperature_inc_http c).
Definition set_handshake_timeout_sec (v : Z) (c : ServerConfig) : ServerConfig :=
  MkConfig (model_path c) (bind_address c) (port c) (cert_path c) (key_path c)
  (max_connections c) (max_connections_per_ip c) (trusted_proxy_hosts c)
  (trusted_proxy_refresh_sec c) (session_timeout_sec c) v (auth_token c) (auth_api_url c)
  (auth_api_secret c) (auth_cache_ttl c) (auth_api_timeout c) (whisper_beam_size c)
  (whisper_threads c) (max_concurrent_inference c) (model_cache_ttl c)
  (whisper_initial_prompt c) (whisper_temperature c) (whisper_temperature_inc c)
  (whisper_no_speech_thold c) (whisper_logprob_thold c) (flush_min_new_audio_ms c)
  (vad_model_path c) (vad_threshold c) (vad_min_speech_ms c) (vad_min_silence_ms c)
  (vad_max_speech_s c) (vad_speech_pad_ms c) (vad_samples_overlap c) (shutdown_timeout_sec
  c) (max_upload_bytes c) (max_audio_duration_sec c) (whisper_temperature_inc_http c).
Definition set_auth_token (v : str) (c : ServerConfig) : ServerConfig :=
  MkConfig (model_path c) (bind_address c) (port c) (cert_path c) (key_path c)
  (max_connections c) (max_connections_per_ip c) (trusted_proxy_hosts c)
  (trusted_proxy_refresh_sec c) (session_timeout_sec c) (handshake_timeout_sec c) v
  (auth_api_url c) (auth_api_secret c) (auth_cache_ttl c) (auth_api_timeout c)
  (whisper_beam_size c) (whisper_threads c) (max_concurrent_inference c) (model_cache_ttl c)
  (whisper_initial_prompt c) (whisper_temperature c) (whisper_temperature_inc c)
  (whisper_no_speech_thold c) (whisper_logprob_thold c) (flush_min_new_audio_ms c)
  (vad_model_path c) (vad_threshold c) (vad_min_speech_ms c) (vad_min_silence_ms c)
  (vad_max_speech_s c) (vad_speech_pad_ms c) (vad_samples_overlap c) (shutdown_timeout_sec
  c) (max_upload_bytes c) (max_audio_duration_sec c) (whisper_temperature_inc_http c).
Definition set_auth_api_url (v : str) (c : ServerConfig) : ServerConfig :=
  MkConfig (model_path c) (bind_address c) (port c) (cert_path c) (key_path c)
  (max_connections c) (max_connections_per_ip c) (trusted_proxy_hosts c)
  (trusted_proxy_refresh_sec c) (session_timeout_sec c) (handshake_timeout_sec c)
  (auth_token c) v (auth_api_secret c) (auth_cache_ttl c) (auth_api_timeout c)
  (whisper_beam_size c) (whisper_threads c) (max_concurrent_inference c) (model_cache_ttl c)
  (whisper_initial_prompt c) (whisper_temperature c) (whisper_temperature_inc c)
  (whisper_no_speech_thold c) (whisper_logprob_thold c) (flush_min_new_audio_ms c)
  (vad_model_path c) (vad_threshold c) (vad_min_speech_ms c) (vad_min_silence_ms c)
  (vad_max_speech_s c) (vad_speech_pad_ms c) (vad_samples_overlap c) (shutdown_timeout_sec
  c) (max_upload_bytes c) (max_audio_duration_sec c) (whisper_temperature_inc_http c).
Definition set_auth_api_secret (v : str) (c : ServerConfig) : ServerConfig :=
  MkConfig (model_path c) (bind_address c) (port c) (cert_path c) (key_path c)
  (max_connections c) (max_connections_per_ip c) (trusted_proxy_hosts c)
  (trusted_proxy_refresh_sec c) (session_timeout_sec c) (handshake_timeout_sec c)
  (auth_token c) (auth_api_url c) v (auth_cache_ttl c) (auth_api_timeout c)
  (whisper_beam_size c) (whisper_threads c) (max_concurrent_inference c) (model_cache_ttl c)
  (whisper_initial_prompt c) (whisper_temperature c) (whisper_temperature_inc c)
  (whisper_no_speech_thold c) (whisper_logprob_thold c) (flush_min_new_audio_ms c)
  (vad_model_path c) (vad_threshold c) (vad_min_speech_ms c) (vad_min_silence_ms c)
  (vad_max_speech_s c) (vad_speech_pad_ms c) (vad_samples_overlap c) (shutdown_timeout_sec
  c) (max_upload_bytes c) (max_audio_duration_sec c) (whisper_temperature_inc_http c).
Definition set_auth_cache_ttl (v : Z) (c : ServerConfig) : ServerConfig :=
  MkConfig (model_path c) (bind_address c) (port c) (cert_path c) (key_path c)
  (max_connections c) (max_connections_per_ip c) (trusted_proxy_hosts c)
  (trusted_proxy_refresh_sec c) (session_timeout_sec c) (handshake_timeout_sec c)
  (auth_token c) (auth_api_url c) (auth_api_secret c) v (auth_api_timeout c)
  (whisper_beam_size c) (whisper_threads c) (max_concurrent_inference c) (model_cache_ttl c)
  (whisper_initial_prompt c) (whisper_temperature c) (whisper_temperature_inc c)
  (whisper_no_speech_thold c) (whisper_logprob_thold c) (flush_min_new_audio_ms c)
  (vad_model_path c) (vad_threshold c) (vad_min_speech_ms c) (vad_min_silence_ms c)
  (vad_max_speech_s c) (vad_speech_pad_ms c) (vad_samples_overlap c) (shutdown_timeout_sec
  c) (max_upload_bytes c) (max_audio_duration_sec c) (whisper_temperature_inc_http c).
Definition set_auth_api_timeout (v : Z) (c : ServerConfig) : ServerConfig :=
  MkConfig (model_path c) (bind_address c) (port c) (cert_path c) (key_path c)
  (max_connections c) (max_connections_per_ip c) (trusted_proxy_hosts c)
  (trusted_proxy_refresh_sec c) (session_timeout_sec c) (handshake_timeout_sec c)
  (auth_token c) (auth_api_url c) (auth_api_secret c) (auth_cache_ttl c) v
  (whisper_beam_size c) (whisper_threads c) (max_concurrent_inference c) (model_cache_ttl c)
  (whisper_initial_prompt c) (whisper_temperature c) (whisper_temperature_inc c)
  (whisper_no_speech_thold c) (whisper_logprob_thold c) (flush_min_new_audio_ms c)
  (vad_model_path c) (vad_threshold c) (vad_min_speech_ms c) (vad_min_silence_ms c)
  (vad_max_speech_s c) (vad_speech_pad_ms c) (vad_samples_overlap c) (shutdown_timeout_sec
  c) (max_upload_bytes c) (max_audio_duration_sec c) (whisper_temperature_inc_http c).
Definition set_whisper_beam_size (v : Z) (c : ServerConfig) : ServerConfig :=
  MkConfig (model_path c) (bind_address c) (port c) (cert_path c) (key_path c)
  (max_connections c) (max_connections_per_ip c) (trusted_proxy_hosts c)
  (trusted_proxy_refresh_sec c) (session_timeout_sec c) (handshake_timeout_sec c)
  (auth_token c) (auth_api_url c) (auth_api_secret c) (auth_cache_ttl c) (auth_api_timeout
  c) v (whisper_threads c) (max_concurrent_inference c) (model_cache_ttl c)
  (whisper_initial_prompt c) (whisper_temperature c) (whisper_temperature_inc c)
  (whisper_no_speech_thold c) (whisper_logprob_thold c) (flush_min_new_audio_ms c)
  (vad_model_path c) (vad_threshold c) (vad_min_speech_ms c) (vad_min_silence_ms c)
  (vad_max_speech_s c) (vad_speech_pad_ms c) (vad_samples_overlap c) (shutdown_timeout_sec
  c) (max_upload_bytes c) (max_audio_duration_sec c) (whisper_temperature_inc_http c).
Definition set_whisper_threads (v : Z) (c : ServerConfig) : ServerConfig :=
  MkConfig (model_path c) (bind_address c) (port c) (cert_path c) (key_path c)
  (max_connections c) (max_connections_per_ip c) (trusted_proxy_hosts c)
  (trusted_proxy_refresh_sec c) (session_timeout_sec c) (handshake_timeout_sec c)
  (auth_token c) (auth_api_url c) (auth_api_secret c) (auth_cache_ttl c) (auth_api_timeout
  c) (whisper_beam_size c) v (max_concurrent_inference c) (model_cache_ttl c)
  (whisper_initial_prompt c) (whisper_temperature c) (whisper_temperature_inc c)
  (whisper_no_speech_thold c) (whisper_logprob_thold c) (flush_min_new_audio_ms c)
  (vad_model_path c) (vad_threshold c) (vad_min_speech_ms c) (vad_min_silence_ms c)
  (vad_max_speech_s c) (vad_speech_pad_ms c) (vad_samples_overlap c) (shutdown_timeout_sec
  c) (max_upload_bytes c) (max_audio_duration_sec c) (whisper_temperature_inc_http c).
Definition set_max_concurrent_inference (v : Z) (c : ServerConfig) : ServerConfig :=
  MkConfig (model_path c) (bind_address c) (port c) (cert_path c) (key_path c)
  (max_connections c) (max_connections_per_ip c) (trusted_proxy_hosts c)
  (trusted_proxy_refresh_sec c) (session_timeout_sec c) (handshake_timeout_sec c)
  (auth_token c) (auth_api_url c) (auth_api_secret c) (auth_cache_ttl c) (auth_api_timeout
  c) (whisper_beam_size c) (whisper_threads c) v (model_cache_ttl c) (whisper_initial_prompt
  c) (whisper_temperature c) (whisper_temperature_inc c) (whisper_no_speech_thold c)
  (whisper_logprob_thold c) (flush_min_new_audio_ms c) (vad_model_path c) (vad_threshold c)
  (vad_min_speech_ms c) (vad_min_silence_ms c) (vad_max_speech_s c) (vad_speech_pad_ms c)
  (vad_samples_overlap c) (shutdown_timeout_sec c) (max_upload_bytes c)
  (max_audio_duration_sec c) (whisper_temperature_inc_http c).
Definition set_model_cache_ttl (v : Z) (c : ServerConfig) : ServerConfig :=
  MkConfig (model_path c) (bind_address c) (port c) (cert_path c) (key_path c)
  (max_connections c) (max_connections_per_ip c) (trusted_proxy_hosts c)
  (trusted_proxy_refresh_sec c) (session_timeout_sec c) (handshake_timeout_sec c)
  (auth_token c) (auth_api_url c) (auth_api_secret c) (auth_cache_ttl c) (auth_api_timeout
  c) (whisper_beam_size c) (whisper_threads c) (max_concurrent_inference c) v
  (whisper_initial_prompt c) (whisper_temperature c) (whisper_temperature_inc c)
  (whisper_no_speech_thold c) (whisper_logprob_thold c) (flush_min_new_audio_ms c)
  (vad_model_path c) (vad_threshold c) (vad_min_speech_ms c) (vad_min_silence_ms c)
  (vad_max_speech_s c) (vad_speech_pad_ms c) (vad_samples_overlap c) (shutdown_timeout_sec
  c) (max_upload_bytes c) (max_audio_duration_sec c) (whisper_temperature_inc_http c).
Definition set_whisper_initial_prompt (v : str) (c : ServerConfig) : ServerConfig :=
  MkConfig (model_path c) (bind_address c) (port c) (cert_path c) (key_path c)
  (max_connections c) (max_connections_per_ip c) (trusted_proxy_hosts c)
  (trusted_proxy_refresh_sec c) (session_timeout_sec c) (handshake_timeout_sec c)
  (auth_token c) (auth_api_url c) (auth_api_secret c) (auth_cache_ttl c) (auth_api_timeout
  c) (whisper_beam_size c) (whisper_threads c) (max_concurrent_inference c) (model_cache_ttl
  c) v (whisper_temperature c) (whisper_temperature_inc c) (whisper_no_speech_thold c)
  (whisper_logprob_thold c) (flush_min_new_audio_ms c) (vad_model_path c) (vad_threshold c)
  (vad_min_speech_ms c) (vad_min_silence_ms c) (vad_max_speech_s c) (vad_speech_pad_ms c)
  (vad_samples_overlap c) (shutdown_timeout_sec c) (max_upload_bytes c)
  (max_audio_duration_sec c) (whisper_temperature_inc_http c).
Definition set_whisper_temperature (v : float32) (c : ServerConfig) : ServerConfig :=
  MkConfig (model_path c) (bind_address c) (port c) (cert_path c) (key_path c)
  (max_connections c) (max_connections_per_ip c) (trusted_proxy_hosts c)
  (trusted_proxy_refresh_sec c) (session_timeout_sec c) (handshake_timeout_sec c)
  (auth_token c) (auth_api_url c) (auth_api_secret c) (auth_cache_ttl c) (auth_api_timeout
  c) (whisper_beam_size c) (whisper_threads c) (max_concurrent_inference c) (model_cache_ttl
  c) (whisper_initial_prompt c) v (whisper_temperature_inc c) (whisper_no_speech_thold c)
  (whisper_logprob_thold c) (flush_min_new_audio_ms c) (vad_model_path c) (vad_threshold c)
  (vad_min_speech_ms c) (vad_min_silence_ms c) (vad_max_speech_s c) (vad_speech_pad_ms c)
  (vad_samples_overlap c) (shutdown_timeout_sec c) (max_upload_bytes c)
  (max_audio_duration_sec c) (whisper_temperature_inc_http c).
Definition set_whisper_temperature_inc (v : float32) (c : ServerConfig) : ServerConfig :=
  MkConfig (model_path c) (bind_address c) (port c) (cert_path c) (key_path c)
  (max_connections c) (max_connections_per_ip c) (trusted_proxy_hosts c)
  (trusted_proxy_refresh_sec c) (session_timeout_sec c) (handshake_timeout_sec c)
  (auth_token c) (auth_api_url c) (auth_api_secret c) (auth_cache_ttl c) (auth_api_timeout
  c) (whisper_beam_size c) (whisper_threads c) (max_concurrent_inference c) (model_cache_ttl
  c) (whisper_initial_prompt c) (whisper_temperature c) v (whisper_no_speech_thold c)
  (whisper_logprob_thold c) (flush_min_new_audio_ms c) (vad_model_path c) (vad_threshold c)
  (vad_min_speech_ms c) (vad_min_silence_ms c) (vad_max_speech_s c) (vad_speech_pad_ms c)
  (vad_samples_overlap c) (shutdown_timeout_sec c) (max_upload_bytes c)
  (max_audio_duration_sec c) (whisper_temperature_inc_http c).
Definition set_whisper_no_speech_thold (v : float32) (c : ServerConfig) : ServerConfig :=
  MkConfig (model_path c) (bind_address c) (port c) (cert_path c) (key_path c)
  (max_connections c) (max_connections_per_ip c) (trusted_proxy_hosts c)
  (trusted_proxy_refresh_sec c) (session_timeout_sec c) (handshake_timeout_sec c)
  (auth_token c) (auth_api_url c) (auth_api_secret c) (auth_cache_ttl c) (auth_api_timeout
  c) (whisper_beam_size c) (whisper_threads c) (max_concurrent_inference c) (model_cache_ttl
  c) (whisper_initial_prompt c) (whisper_temperature c) (whisper_temperature_inc c) v
  (whisper_logprob_thold c) (flush_min_new_audio_ms c) (vad_model_path c) (vad_threshold c)
  (vad_min_speech_ms c) (vad_min_silence_ms c) (vad_max_speech_s c) (vad_speech_pad_ms c)
  (vad_samples_overlap c) (shutdown_timeout_sec c) (max_upload_bytes c)
  (max_audio_duration_sec c) (whisper_temperature_inc_http c).
Definition set_whisper_logprob_thold (v : float32) (c : ServerConfig) : ServerConfig :=
  MkConfig (model_path c) (bind_address c) (port c) (cert_path c) (key_path c)
  (max_connections c) (max_connections_per_ip c) (trusted_proxy_hosts c)
  (trusted_proxy_refresh_sec c) (session_timeout_sec c) (handshake_timeout_sec c)
  (auth_token c) (auth_api_url c) (auth_api_secret c) (auth_cache_ttl c) (auth_api_timeout
  c) (whisper_beam_size c) (whisper_threads c) (max_concurrent_inference c) (model_cache_ttl
  c) (whisper_initial_prompt c) (whisper_temperature c) (whisper_temperature_inc c)
  (whisper_no_speech_thold c) v (flush_min_new_audio_ms c) (vad_model_path c) (vad_threshold
  c) (vad_min_speech_ms c) (vad_min_silence_ms c) (vad_max_speech_s c) (vad_speech_pad_ms c)
  (vad_samples_overlap c) (shutdown_timeout_sec c) (max_upload_bytes c)
  (max_audio_duration_sec c) (whisper_temperature_inc_http c).
Definition set_flush_min_new_audio_ms (v : Z) (c : ServerConfig) : ServerConfig :=
  MkConfig (model_path c) (bind_address c) (port c) (cert_path c) (key_path c)
  (max_connections c) (max_connections_per_ip c) (trusted_proxy_hosts c)
  (trusted_proxy_refresh_sec c) (session_timeout_sec c) (handshake_timeout_sec c)
  (auth_token c) (auth_api_url c) (auth_api_secret c) (auth_cache_ttl c) (auth_api_timeout
  c) (whisper_beam_size c) (whisper_threads c) (max_concurrent_inference c) (model_cache_ttl
  c) (whisper_initial_prompt c) (whisper_temperature c) (whisper_temperature_inc c)
  (whisper_no_speech_thold c) (whisper_logprob_thold c) v (vad_model_path c) (vad_threshold
  c) (vad_min_speech_ms c) (vad_min_silence_ms c) (vad_max_speech_s c) (vad_speech_pad_ms c)
  (vad_samples_overlap c) (shutdown_timeout_sec c) (max_upload_bytes c)
  (max_audio_duration_sec c) (whisper_temperature_inc_http c).
Definition set_vad_model_path (v : str) (c : ServerConfig) : ServerConfig :=
  MkConfig (model_path c) (bind_address c) (port c) (cert_path c) (key_path c)
  (max_connections c) (max_connections_per_ip c) (trusted_proxy_hosts c)
  (trusted_proxy_refresh_sec c) (session_timeout_sec c) (handshake_timeout_sec c)
  (auth_token c) (auth_api_url c) (auth_api_secret c) (auth_cache_ttl c) (auth_api_timeout
  c) (whisper_beam_size c) (whisper_threads c) (max_concurrent_inference c) (model_cache_ttl
  c) (whisper_initial_prompt c) (whisper_temperature c) (whisper_temperature_inc c)
  (whisper_no_speech_thold c) (whisper_logprob_thold c) (flush_min_new_audio_ms c) v
  (vad_threshold c) (vad_min_speech_ms c) (vad_min_silence_ms c) (vad_max_speech_s c)
  (vad_speech_pad_ms c) (vad_samples_overlap c) (shutdown_timeout_sec c) (max_upload_bytes
  c) (max_audio_duration_sec c) (whisper_temperature_inc_http c).
Definition set_vad_threshold (v : float32) (c : ServerConfig) : ServerConfig :=
  MkConfig (model_path c) (bind_address c) (port c) (cert_path c) (key_path c)
  (max_connections c) (max_connections_per_ip c) (trusted_proxy_hosts c)
  (trusted_proxy_refresh_sec c) (session_timeout_sec c) (handshake_timeout_sec c)
  (auth_token c) (auth_api_url c) (auth_api_secret c) (auth_cache_ttl c) (auth_api_timeout
  c) (whisper_beam_size c) (whisper_threads c) (max_concurrent_inference c) (model_cache_ttl
  c) (whisper_initial_prompt c) (whisper_temperature c) (whisper_temperature_inc c)
  (whisper_no_speech_thold c) (whisper_logprob_thold c) (flush_min_new_audio_ms c)
  (vad_model_path c) v (vad_min_speech_ms c) (vad_min_silence_ms c) (vad_max_speech_s c)
  (vad_speech_pad_ms c) (vad_samples_overlap c) (shutdown_timeout_sec c) (max_upload_bytes
  c) (max_audio_duration_sec c) (whisper_temperature_inc_http c).
Definition set_vad_min_speech_ms (v : Z) (c : ServerConfig) : ServerConfig :=
  MkConfig (model_path c) (bind_address c) (port c) (cert_path c) (key_path c)
  (max_connections c) (max_connections_per_ip c) (trusted_proxy_hosts c)
  (trusted_proxy_refresh_sec c) (session_timeout_sec c) (handshake_timeout_sec c)
  (auth_token c) (auth_api_url c) (auth_api_secret c) (auth_cache_ttl c) (auth_api_timeout
  c) (whisper_beam_size c) (whisper_threads c) (max_concurrent_inference c) (model_cache_ttl
  c) (whisper_initial_prompt c) (whisper_temperature c) (whisper_temperature_inc c)
  (whisper_no_speech_thold c) (whisper_logprob_thold c) (flush_min_new_audio_ms c)
  (vad_model_path c) (vad_threshold c) v (vad_min_silence_ms c) (vad_max_speech_s c)
  (vad_speech_pad_ms c) (vad_samples_overlap c) (shutdown_timeout_sec c) (max_upload_bytes
  c) (max_audio_duration_sec c) (whisper_temperature_inc_http c).
Definition set_vad_min_silence_ms (v : Z) (c : ServerConfig) : ServerConfig :=
  MkConfig (model_path c) (bind_address c) (port c) (cert_path c) (key_path c)
  (max_connections c) (max_connections_per_ip c) (trusted_proxy_hosts c)
  (trusted_proxy_refresh_sec c) (session_timeout_sec c) (handshake_timeout_sec c)
  (auth_token c) (auth_api_url c) (auth_api_secret c) (auth_cache_ttl c) (auth_api_timeout
  c) (whisper_beam_size c) (whisper_threads c) (max_concurrent_inference c) (model_cache_ttl
  c) (whisper_initial_prompt c) (whisper_temperature c) (whisper_temperature_inc c)
  (whisper_no_speech_thold c) (whisper_logprob_thold c) (flush_min_new_audio_ms c)
  (vad_model_path c) (vad_threshold c) (vad_min_speech_ms c) v (vad_max_speech_s c)
  (vad_speech_pad_ms c) (vad_samples_overlap c) (shutdown_timeout_sec c) (max_upload_bytes
  c) (max_audio_duration_sec c) (whisper_temperature_inc_http c).
Definition set_vad_max_speech_s (v : float32) (c : ServerConfig) : ServerConfig :=
  MkConfig (model_path c) (bind_address c) (port c) (cert_path c) (key_path c)
  (max_connections c) (max_connections_per_ip c) (trusted_proxy_hosts c)
  (trusted_proxy_refresh_sec c) (session_timeout_sec c) (handshake_timeout_sec c)
  (auth_token c) (auth_api_url c) (auth_api_secret c) (auth_cache_ttl c) (auth_api_timeout
  c) (whisper_beam_size c) (whisper_threads c) (max_concurrent_inference c) (model_cache_ttl
  c) (whisper_initial_prompt c) (whisper_temperature c) (whisper_temperature_inc c)
  (whisper_no_speech_thold c) (whisper_logprob_thold c) (flush_min_new_audio_ms c)
  (vad_model_path c) (vad_threshold c) (vad_min_speech_ms c) (vad_min_silence_ms c) v
  (vad_speech_pad_ms c) (vad_samples_overlap c) (shutdown_timeout_sec c) (max_upload_bytes
  c) (max_audio_duration_sec c) (whisper_temperature_inc_http c).
Definition set_vad_speech_pad_ms (v : Z) (c : ServerConfig) : ServerConfig :=
  MkConfig (model_path c) (bind_address c) (port c) (cert_path c) (key_path c)
  (max_connections c) (max_connections_per_ip c) (trusted_proxy_hosts c)
  (trusted_proxy_refresh_sec c) (session_timeout_sec c) (handshake_timeout_sec c)
  (auth_token c) (auth_api_url c) (auth_api_secret c) (auth_cache_ttl c) (auth_api_timeout
  c) (whisper_beam_size c) (whisper_threads c) (max_concurrent_inference c) (model_cache_ttl
  c) (whisper_initial_prompt c) (whisper_temperature c) (whisper_temperature_inc c)
  (whisper_no_speech_thold c) (whisper_logprob_thold c) (flush_min_new_audio_ms c)
  (vad_model_path c) (vad_threshold c) (vad_min_speech_ms c) (vad_min_silence_ms c)
  (vad_max_speech_s c) v (vad_samples_overlap c) (shutdown_timeout_sec c) (max_upload_bytes
  c) (max_audio_duration_sec c) (whisper_temperature_inc_http c).
Definition set_vad_samples_overlap (v : float32) (c : ServerConfig) : ServerConfig :=
  MkConfig (model_path c) (bind_address c) (port c) (cert_path c) (key_path c)
  (max_connections c) (max_connections_per_ip c) (trusted_proxy_hosts c)
  (trusted_proxy_refresh_sec c) (session_timeout_sec c) (handshake_timeout_sec c)
  (auth_token c) (auth_api_url c) (auth_api_secret c) (auth_cache_ttl c) (auth_api_timeout
  c) (whisper_beam_size c) (whisper_threads c) (max_concurrent_inference c) (model_cache_ttl
  c) (whisper_initial_prompt c) (whisper_temperature c) (whisper_temperature_inc c)
  (whisper_no_speech_thold c) (whisper_logprob_thold c) (flush_min_new_audio_ms c)
  (vad_model_path c) (vad_threshold c) (vad_min_speech_ms c) (vad_min_silence_ms c)
  (vad_max_speech_s c) (vad_speech_pad_ms c) v (shutdown_timeout_sec c) (max_upload_bytes c)
  (max_audio_duration_sec c) (whisper_temperature_inc_http c).
Definition set_shutdown_timeout_sec (v : Z) (c : ServerConfig) : ServerConfig :=
  MkConfig (model_path c) (bind_address c) (port c) (cert_path c) (key_path c)
  (max_connections c) (max_connections_per_ip c) (trusted_proxy_hosts c)
  (trusted_proxy_refresh_sec c) (session_timeout_sec c) (handshake_timeout_sec c)
  (auth_token c) (auth_api_url c) (auth_api_secret c) (auth_cache_ttl c) (auth_api_timeout
  c) (whisper_beam_size c) (whisper_threads c) (max_concurrent_inference c) (model_cache_ttl
  c) (whisper_initial_prompt c) (whisper_temperature c) (whisper_temperature_inc c)
  (whisper_no_speech_thold c) (whisper_logprob_thold c) (flush_min_new_audio_ms c)
  (vad_model_path c) (vad_threshold c) (vad_min_speech_ms c) (vad_min_silence_ms c)
  (vad_max_speech_s c) (vad_speech_pad_ms c) (vad_samples_overlap c) v (max_upload_bytes c)
  (max_audio_duration_sec c) (whisper_temperature_inc_http c).
Definition set_max_upload_bytes (v : Z) (c : ServerConfig) : ServerConfig :=
  MkConfig (model_path c) (bind_address c) (port c) (cert_path c) (key_path c)
  (max_connections c) (max_connections_per_ip c) (trusted_proxy_hosts c)
  (trusted_proxy_refresh_sec c) (session_timeout_sec c) (handshake_timeout_sec c)
  (auth_token c) (auth_api_url c) (auth_api_secret c) (auth_cache_ttl c) (auth_api_timeout
  c) (whisper_beam_size c) (whisper_threads c) (max_concurrent_inference c) (model_cache_ttl
  c) (whisper_initial_prompt c) (whisper_temperature c) (whisper_temperature_inc c)
  (whisper_no_speech_thold c) (whisper_logprob_thold c) (flush_min_new_audio_ms c)
  (vad_model_path c) (vad_threshold c) (vad_min_speech_ms c) (vad_min_silence_ms c)
  (vad_max_speech_s c) (vad_speech_pad_ms c) (vad_samples_overlap c) (shutdown_timeout_sec
  c) v (max_audio_duration_sec c) (whisper_temperature_inc_http c).
Definition set_max_audio_duration_sec (v : Z) (c : ServerConfig) : ServerConfig :=
  MkConfig (model_path c) (bind_address c) (port c) (cert_path c) (key_path c)
  (max_connections c) (max_connections_per_ip c) (trusted_proxy_hosts c)
  (trusted_proxy_refresh_sec c) (session_timeout_sec c) (handshake_timeout_sec c)
  (auth_token c) (auth_api_url c) (auth_api_secret c) (auth_cache_ttl c) (auth_api_timeout
  c) (whisper_beam_size c) (whisper_threads c) (max_concurrent_inference c) (model_cache_ttl
  c) (whisper_initial_prompt c) (whisper_temperature c) (whisper_temperature_inc c)
  (whisper_no_speech_thold c) (whisper_logprob_thold c) (flush_min_new_audio_ms c)
  (vad_model_path c) (vad_threshold c) (vad_min_speech_ms c) (vad_min_silence_ms c)
  (vad_max_speech_s c) (vad_speech_pad_ms c) (vad_samples_overlap c) (shutdown_timeout_sec
  c) (max_upload_bytes c) v (whisper_temperature_inc_http c).
Definition set_whisper_temperature_inc_http (v : float32) (c : ServerConfig) : ServerConfig :=
  MkConfig (model_path c) (bind_address c) (port c) (cert_path c) (key_path c)
  (max_connections c) (max_connections_per_ip c) (trusted_proxy_hosts c)
  (trusted_proxy_refresh_sec c) (session_timeout_sec c) (handshake_timeout_sec c)
  (auth_token c) (auth_api_url c) (auth_api_secret c) (auth_cache_ttl c) (auth_api_timeout
  c) (whisper_beam_size c) (whisper_threads c) (max_concurrent_inference c) (model_cache_ttl
  c) (whisper_initial_prompt c) (whisper_temperature c) (whisper_temperature_inc c)
  (whisper_no_speech_thold c) (whisper_logprob_thold c) (flush_min_new_audio_ms c)
  (vad_model_path c) (vad_threshold c) (vad_min_speech_ms c) (vad_min_silence_ms c)
  (vad_max_speech_s c) (vad_speech_pad_ms c) (vad_samples_overlap c) (shutdown_timeout_sec
  c) (max_upload_bytes c) (max_audio_duration_sec c) v.

(** How a member is read from a string. *)
Definition reader := str -> ServerConfig -> result ServerConfig.
Definition text (set : str -> ServerConfig -> ServerConfig) : reader := λ v c, Ok (set v c).
Definition int (set : Z -> ServerConfig -> ServerConfig) : reader :=
  λ v c, n ← Numbers.stoi v; Ok (set n c).
Definition size (conv : str -> result Z) (set : Z -> ServerConfig -> ServerConfig) : reader :=
  λ v c, n ← conv v; Ok (set n c).
Definition real (set : float32 -> ServerConfig -> ServerConfig) : reader :=
  λ v c, x ← Numbers.stof v; Ok (set x c).
(** [static_cast<unsigned short>(std::stoul(v))] *)
Definition ushort (set : Z -> ServerConfig -> ServerConfig) : reader :=
  λ v c, n ← Numbers.stoul v; Ok (set (n mod 2 ^ 16) c).

(** ** The environment *)

Abbreviation environment := (gmap str str).

Definition env (g : environment) (var : string) : str := default [] (g !! lit var).

(** [if (auto v = env(var); !v.empty()) ...] *)
Definition from_env (g : environment) (var : string) (f : reader) (c : ServerConfig)
    : result ServerConfig :=
  let v := env g var in if bool_decide (v = []) then Ok c else f v c.

(** The variables in the order in which they are read. *)
Definition env_table : list (string * reader) := [
  ("MODEL_PATH"%string, text set_model_path);
  ("BIND_ADDRESS"%string, text set_bind_address);
  ("PORT"%string, ushort set_port);
  ("AUTH_TOKEN"%string, text set_auth_token);
  ("AUTH_API_URL"%string, text set_auth_api_url);
  ("AUTH_API_SECRET"%string, text set_auth_api_secret);
  ("AUTH_CACHE_TTL"%string, int set_auth_cache_ttl);
  ("AUTH_API_TIMEOUT"%string, int set_auth_api_timeout);
  ("TLS_CERT"%string, text set_cert_path);
  ("TLS_KEY"%string, text set_key_path);
  ("MAX_CONNECTIONS"%string, size Numbers.stoul set_max_connections);
  ("MAX_CONNECTIONS_PER_IP"%string, size Numbers.stoul set_max_connections_per_ip);
  ("TRUSTED_PROXY_HOSTS"%string, text set_trusted_proxy_hosts);
  ("TRUSTED_PROXY_REFRESH_SEC"%string, int set_trusted_proxy_refresh_sec);
  ("WHISPER_BEAM_SIZE"%string, int set_whisper_beam_size);
  ("WHISPER_THREADS"%string, int set_whisper_threads);
  ("MAX_CONCURRENT_INFERENCE"%string, int set_max_concurrent_inference);
  ("MODEL_CACHE_TTL"%string, int set_model_cache_ttl);
  ("WHISPER_INITIAL_PROMPT"%string, text set_whisper_initial_prompt);
  ("SESSION_TIMEOUT_SEC"%string, int set_session_timeout_sec);
  ("HANDSHAKE_TIMEOUT_SEC"%string, int set_handshake_timeout_sec);
  ("WHISPER_TEMPERATURE"%string, real set_whisper_temperature);
  ("WHISPER_TEMPERATURE_INC"%string, real set_whisper_temperature_inc);
  ("WHISPER_TEMPERATURE_INC_HTTP"%string, real set_whisper_temperature_inc_http);
  ("WHISPER_NO_SPEECH_THOLD"%string, real set_whisper_no_speech_thold);
  ("WHISPER_LOGPROB_THOLD"%string, real set_whisper_logprob_thold);
  ("FLUSH_MIN_NEW_AUDIO_MS"%string, int set_flush_min_new_audio_ms);
  ("SHUTDOWN_TIMEOUT_SEC"%string, int set_shutdown_timeout_sec);
  ("MAX_UPLOAD_BYTES"%string, size Numbers.stoull set_max_upload_bytes);
  ("MAX_AUDIO_DURATION_SEC"%string, int set_max_audio_duration_sec)
].

Fixpoint read_env (g : environment) (table : list (string * reader)) (c : ServerConfig)
    : result ServerConfig :=
  match table with
  | [] => Ok c
  | (var, f) :: table => c ← from_env g var f c; read_env g table c
  end.

Definition configFromEnv (g : environment) : result ServerConfig := read_env g env_table defaults.

(** ** The command line *)

(** The options that take a value; "--env-file" is skipped here. *)
Definition option_table : list (string * reader) := [
  ("--env-file"%string, λ _ c, Ok c);
  ("--model"%string, text set_model_path);
  ("--bind"%string, text set_bind_address);
  ("--port"%string, ushort set_port);
  ("--auth-token"%string, text set_auth_token);
  ("--auth-api-url"%string, text set_auth_api_url);
  ("--auth-api-secret"%string, text set_auth_api_secret);
  ("--auth-cache-ttl"%string, int set_auth_cache_ttl);
  ("--auth-api-timeout"%string, int set_auth_api_timeout);
  ("--cert"%string, text set_cert_path);
  ("--key"%string, text set_key_path);
  ("--max-connections"%string, size Numbers.stoul set_max_connections);
  ("--max-connections-per-ip"%string, size Numbers.stoul set_max_connections_per_ip);
  ("--trusted-proxy-hosts"%string, text set_trusted_proxy_hosts);
  ("--trusted-proxy-refresh-sec"%string, int set_trusted_proxy_refresh_sec);
  ("--whisper-beam-size"%string, int set_whisper_beam_size);
  ("--whisper-threads"%string, int set_whisper_threads);
  ("--max-concurrent-inference"%string, int set_max_concurrent_inference);
  ("--model-cache-ttl"%string, int set_model_cache_ttl);
  ("--whisper-initial-prompt"%string, text set_whisper_initial_prompt);
  ("--session-timeout-sec"%string, int set_session_timeout_sec);
  ("--handshake-timeout-sec"%string, int set_handshake_timeout_sec);
  ("--shutdown-timeout-sec"%string, int set_shutdown_timeout_sec);
  ("--whisper-temperature"%string, real set_whisper_temperature);
  ("--whisper-temperature-inc"%string, real set_whisper_temperature_inc);
  ("--whisper-temperature-inc-http"%string, real set_whisper_temperature_inc_http);
  ("--whisper-no-speech-thold"%string, real set_whisper_no_speech_thold);
  ("--whisper-logprob-thold"%string, real set_whisper_logprob_thold);
  ("--flush-min-new-audio-ms"%string, int set_flush_min_new_audio_ms);
  ("--vad-model"%string, text set_vad_model_path);
  ("--vad-threshold"%string, real set_vad_threshold);
  ("--vad-min-speech-ms"%string, int set_vad_min_speech_ms);
  ("--vad-min-silence-ms"%string, int set_vad_min_silence_ms);
  ("--vad-max-speech-s"%string, real set_vad_max_speech_s);
  ("--vad-speech-pad-ms"%string, int set_vad_speech_pad_ms);
  ("--vad-samples-overlap"%string, real set_vad_samples_overlap);
  ("--max-upload-bytes"%string, size Numbers.stoull set_max_upload_bytes);
  ("--max-audio-duration-sec"%string, int set_max_audio_duration_sec)
].

Fixpoint find_option (table : list (string * reader)) (arg : str) : option reader :=
  match table with
  | [] => None
  | (name, f) :: table => if decide (arg = lit name) then Some f else find_option table arg
  end.

(** [parseArgs] returns, or it exits the process with a status. *)
Inductive outcome := Parsed (c : ServerConfig) | Exit (status : Z).

Fixpoint parse_args (args : list str) (c : ServerConfig) : result outcome :=
  match args with
  | [] => Ok (Parsed c)
  | arg :: rest =>
      if decide (arg = lit "--help") then Ok (Exit 0)
      else
        let flag :=
          if decide (arg = lit "--thread-safe") then parse_args rest c
          else if negb (starts_with (lit "--") arg) &&
                  bool_decide (model_path c = model_path defaults)
          then parse_args rest (set_model_path arg c)
          else Ok (Exit 1) in
        match find_option option_table arg, rest with
        | Some f, v :: rest' => c' ← f v c; parse_args rest' c'
        | _, _ => flag
        end
  end.

Definition parseArgs (g : environment) (args : list str) : result outcome :=
  c ← configFromEnv g; parse_args args c.

(** ** The ".env" file *)

Fixpoint extractEnvFile (args : list str) : str :=
  match args with
  | arg :: ((v :: _) as rest) => if decide (arg = lit "--env-file") then v else extractEnvFile rest
  | _ => lit ".env"
  end.

Definition chr (n : nat) : Ascii.ascii := Ascii.ascii_of_nat n.

(** A pair of equal quotes around a value is removed. *)
Definition unquote (value : str) : str :=
  match value, last value with
  | q :: (_ :: _), Some q' =>
      if decide ((q = chr 34 \/ q = chr 39) /\ q' = q)
      then take (length value - 2) (drop 1 value) else value
  | _, _ => value
  end.

(** The binding of one line, if it has one. *)
Definition dotenv_line (line : str) : option (str * str) :=
  let line := match last line with
              | Some c => if decide (c = chr 13) then take (length line - 1) line else line
              | None => line
              end in
  match line with
  | [] => None
  | c :: _ =>
      if decide (c = chr 35) then None
      else
        match find_first [chr 61] line with
        | None => None
        | Some eq =>
            let key := take eq line in
            if bool_decide (key = []) then None else Some (key, unquote (drop (S eq) line))
        end
  end.

Definition set_if_unset (g : environment) (kv : str * str) : environment :=
  match g !! kv.1 with None => <[kv.1 := kv.2]> g | Some _ => g end.

(** [None]: the file cannot be opened. *)
Definition loadDotEnv (file : option str) (g : environment) : environment :=
  match file with
  | None => g
  | Some s => foldl set_if_unset g (omap dotenv_line (getlines (chr 10) [] s))
  end.

(** The beginning of [main]: the file is chosen by the command line, the
    environment wins over the file, the command line over the environment. *)
Definition configure (read_file : str -> option str) (g : environment) (args : list str)
    : result outcome :=
  parseArgs (loadDotEnv (read_file (extractEnvFile args)) g) args.


(** ** Proofs *)

(** The first binding of a key. *)
Fixpoint first_binding (k : str) (l : list (str * str)) : option str :=
  match l with
  | [] => None
  | (k', v) :: l => if decide (k = k') then Some v else first_binding k l
  end.

Lemma set_all_lookup k l : forall g,
  foldl set_if_unset g l !! k = match g !! k with Some v => Some v | None => first_binding k l end.
Proof.
  induction l as [|[k' v] l IH]; intros g; cbn [foldl first_binding]; [by destruct (g !! k)|].
  rewrite IH. unfold set_if_unset. cbn [fst snd]. destruct (g !! k') as [w|] eqn:E.
  - destruct (g !! k) eqn:E'; [done|]. rewrite decide_False; [done|]. congruence.
  - destruct (decide (k = k')) as [->|Hne].
    + by rewrite lookup_insert_eq, E.
    + by rewrite lookup_insert_ne.
Qed.

(** Arguments that have all been used up can be followed by others. *)
Lemma parse_args_app_aux n : forall args, (length args <= n)%nat -> forall more c c',
  parse_args args c = Ok (Parsed c') -> parse_args (args ++ more) c = parse_args more c'.
Proof.
  induction n as [|n IH]; intros args Hn more c c' H.
  { destruct args; [by simplify_eq/=|cbn in Hn; lia]. }
  destruct args as [|arg rest]; [by simplify_eq/=|]. cbn [length] in Hn.
  cbn [parse_args app] in H |- *.
  destruct (decide (arg = lit "--help")); [done|].
  destruct (find_option option_table arg) as [f|] eqn:Ef.
  - destruct rest as [|v rest'].
    + destruct (decide (arg = lit "--thread-safe")) as [->|]; [by vm_compute in Ef|].
      exfalso. destruct (negb (starts_with (lit "--") arg)) eqn:Es; [|done].
      assert (forall a g, find_option option_table a = Some g -> starts_with (lit "--") a = true) as Hopt.
      { clear. intros a g. unfold option_table. cbn [find_option].
        repeat (destruct (decide _) as [->|_]; [reflexivity|]). done. }
      by rewrite (Hopt _ _ Ef) in Es.
    + cbn [app]. destruct (f v c) as [c1|w]; [|done]. cbn in H |- *.
      cbn [length] in Hn. apply IH; [lia|done].
  - destruct (decide (arg = lit "--thread-safe")); [apply IH; [lia|done]|].
    destruct (negb (starts_with (lit "--") arg) && _); [apply IH; [lia|done]|done].
Qed.

(** ** Properties *)

(** The ".env" file never overrides the environment.  After loading it a
    variable has the value it had, or, if it was not set, the one of its first
    binding in the file. *)
Theorem dotenv_lookup s g k :
  loadDotEnv (Some s) g !! k =
    match g !! k with
    | Some v => Some v
    | None => first_binding k (omap dotenv_line (getlines (chr 10) [] s))
    end.
Proof. apply set_all_lookup. Qed.

(** Options apply from left to right, the last one winning.  If a command
    line is accepted and yields a configuration, then the same command line
    followed by one more option applies that option's reader to that
    configuration, whatever the environment and the ".env" file say. *)
Theorem last_option_wins read_file g args c opt v f :
  configure read_file g args = Ok (Parsed c) ->
  extractEnvFile (args ++ [opt; v]) = extractEnvFile args ->
  find_option option_table opt = Some f ->
  configure read_file g (args ++ [opt; v]) = c' ← f v c; Ok (Parsed c').
Proof.
  unfold configure, parseArgs. intros H -> Hf.
  destruct (configFromEnv _) as [c0|w]; [|done]. cbn in H |- *.
  rewrite (parse_args_app_aux (length args) args ltac:(lia) _ _ _ H). cbn [parse_args].
  rewrite decide_False by (intros ->; by vm_compute in Hf). by rewrite Hf.
Qed.

Lemma last_option_wins_witness :
  exists c, configure (λ _, Some (lit "PORT=8000")) ∅ [lit "--port"; lit "9000"] = Ok (Parsed c) /\
            port c = 9000 /\
            configure (λ _, Some (lit "PORT=8000")) ∅ [lit "--port"; lit "9000"; lit "--port"; lit "70000"]
              = Ok (Parsed (set_port 4464 c)).
Proof.
  destruct (configure (λ _, Some (lit "PORT=8000")) ∅ [lit "--port"; lit "9000"])
    as [[c|]|] eqn:E; [|by vm_compute in E..].
  exists c. split; [done|]. split; [vm_compute in E; by injection E as <-|].
  exact (last_option_wins (λ _, Some (lit "PORT=8000")) ∅ [lit "--port"; lit "9000"] c
    (lit "--port") (lit "70000") _ E eq_refl eq_refl).
Defined.

End Config.
