(* ===== verification/AudioDecoder.v ===== *)
(** Decoding of uploaded audio, [src/audio/AudioDecoder.cpp].

    FFmpeg is the environment: whether each allocation and initialisation
    succeeds, the streams of the file, the packets it reads, the frames the
    decoder yields and the samples the resampler yields.  What the source does
    itself - the in-memory reader FFmpeg calls back, the order of calls, the
    release of the objects, the conversion of the samples - is modelled.  So are
    the three allocations whose result the source does not look at, and the
    [std::bad_alloc] of its vectors, which skips the cleanup when it comes out of
    the decoding loop. *)

From stdpp Require Import prelude strings list gmap.
From Stdlib Require Import ZArith Lia.
From S2P Require Import Prelude Floats Engine.

Module AudioDecoder.

(** ** The in-memory reader *)

Record ReadState := Reader { base : str; pos : Z }.

Definition size (s : ReadState) : Z := zlen (base s).

(** The bytes copied; [None] is [AVERROR_EOF]. *)
Definition readPacket (buf_size : Z) (s : ReadState) : option str * ReadState :=
  let n := Z.min (u64 buf_size) (usub (size s) (pos s)) in
  if n <=? 0 then (None, s)
  else (Some (take (Z.to_nat n) (drop (Z.to_nat (pos s)) (base s))), Reader (base s) (pos s + n)).

Definition AVSEEK_SIZE : Z := 65536.
Definition AVSEEK_FORCE : Z := 131072.

(** The sum of the position, or the size, and the offset is an [int64_t] in the
    source; one that does not fit is rejected either way. *)
Definition seekPacket (offset whence : Z) (s : ReadState) : Z * ReadState :=
  let direction := Z.ldiff whence AVSEEK_FORCE in
  if direction =? AVSEEK_SIZE then (size s, s)
  else
    let target := if direction =? 0 then Some offset
                  else if direction =? 1 then Some (pos s + offset)
                  else if direction =? 2 then Some (size s + offset)
                  else None in
    match target with
    | None => (-1, s)
    | Some new_pos =>
        if (new_pos <? 0) || (size s <? new_pos) then (-1, s)
        else (new_pos, Reader (base s) new_pos)
    end.

(** ** The decoding loop *)

(** A codec and a resampler: [send] tells whether the decoder's buffer was
    full, [receive] delivers frames until it has no more; [resample] yields
    samples, or [None] when a vector for them cannot be allocated. *)
Record codec (packet frame : Type) := Codec {
  cstate : Type;
  rstate : Type;
  send : packet -> cstate -> bool * cstate;
  receive : cstate -> list frame * cstate;
  resample : option frame -> rstate -> option (list Z) * rstate
}.
Arguments Codec {packet frame}.
Arguments cstate {packet frame}.
Arguments rstate {packet frame}.
Arguments send {packet frame}.
Arguments receive {packet frame}.
Arguments resample {packet frame}.

Section loop.
Context {packet frame : Type} (k : codec packet frame).

(** [s16], the decoder and the resampler. *)
Definition dec : Type := list Z * cstate k * rstate k.

(** [None]: [std::bad_alloc] is thrown. *)
Definition drain_swr (f : option frame) (d : dec) : option dec :=
  let '(s16, c, r) := d in
  let '(out, r') := resample k f r in
  out ← out; Some (s16 ++ out, c, r').

(** [while (avcodec_receive_frame(...) == 0) drain_swr(frame)] *)
Definition drain_frames (d : dec) : option dec :=
  let '(s16, c, r) := d in
  let '(frames, c') := receive k c in
  foldl (λ d f, d ← d; drain_swr (Some f) d) (Some (s16, c', r)) frames.

Definition decode_packet (audio_idx : nat) (d : dec) (ip : nat * packet) : option dec :=
  if bool_decide (ip.1 = audio_idx) then
    let '(s16, c, r) := d in
    let '(full, c1) := send k ip.2 c in
    let d := (s16, c1, r) in
    d ← (if full then
           '(s16, c2, r) ← drain_frames d;
           Some (s16, (send k ip.2 c2).2, r)
         else Some d);
    drain_frames d
  else Some d.

Definition decode_loop (audio_idx : nat) (packets : list (nat * packet)) (d : dec) : option (list Z) :=
  d ← foldl (λ d ip, d ← d; decode_packet audio_idx d ip) (Some d) packets;
  d ← drain_swr None d;
  Some d.1.1.
End loop.

(** ** The whole of [decode] *)

Inductive resource := AvioBuf | AvioCtx | FmtCtx | CodecCtx | Swr | Packet | Frame.
Inductive mem_event := Alloc (r : resource) | Free (r : resource).

#[export] Instance resource_eq_dec : EqDecision resource.
Proof. solve_decision. Defined.

(** The answers of FFmpeg. *)
Record ffmpeg (packet frame : Type) := FFmpeg {
  malloc_ok : bool;
  avio_ok : bool;
  open_ok : bool;
  info_ok : bool;
  streams : list bool;  (** is the stream audio? *)
  codec_id : Z;
  codec_found : bool;
  context_ok : bool;
  params_ok : bool;
  codec_open_ok : bool;
  swr_ok : bool;
  swr_init_ok : bool;
  pcm_ok : bool;  (** the vector of the result can be allocated *)
  packets : list (nat * packet);
  the_codec : codec packet frame;
  codec_init : cstate the_codec;
  swr_start : rstate the_codec
}.
Arguments FFmpeg {packet frame}.
Arguments malloc_ok {packet frame}.
Arguments avio_ok {packet frame}.
Arguments open_ok {packet frame}.
Arguments info_ok {packet frame}.
Arguments streams {packet frame}.
Arguments codec_id {packet frame}.
Arguments codec_found {packet frame}.
Arguments context_ok {packet frame}.
Arguments params_ok {packet frame}.
Arguments codec_open_ok {packet frame}.
Arguments swr_ok {packet frame}.
Arguments swr_init_ok {packet frame}.
Arguments pcm_ok {packet frame}.
Arguments packets {packet frame}.
Arguments the_codec {packet frame}.
Arguments codec_init {packet frame}.
Arguments swr_start {packet frame}.

(** The allocations that are not checked: [avformat_alloc_context],
    [av_packet_alloc] and [av_frame_alloc]. *)
Record unchecked := Unchecked { fmt_there : bool; packet_there : bool; frame_there : bool }.

Definition all_there : unchecked := Unchecked true true true.

Definition bad_alloc : str := lit "std::bad_alloc".

Section decode.
Context {packet frame : Type} (ff : ffmpeg packet frame).

(** The index of the first audio stream. *)
Fixpoint first_audio (i : nat) (l : list bool) : option nat :=
  match l with
  | [] => None
  | b :: l => if b then Some i else first_audio (S i) l
  end.

Definition free_avio : list mem_event := [Free AvioBuf; Free AvioCtx].

Definition frame_event (u : unchecked) (e : mem_event) : list mem_event :=
  if frame_there u then [e] else [].

(** The loop and what follows it: everything is freed, and the samples are
    converted; unless the loop throws. *)
Definition finish (u : unchecked) (s16 : option (list Z)) (evs : list mem_event)
    : result (list float32) * list mem_event :=
  match s16 with
  | None => (Throw bad_alloc, evs)
  | Some s16 =>
      let evs := evs ++ frame_event u (Free Frame) ++ [Free Packet; Free Swr] ++
                 [Free CodecCtx; Free FmtCtx] ++ free_avio in
      if bool_decide (s16 = []) then (Throw (lit "AudioDecoder: decoded audio is empty"), evs)
      else if negb (pcm_ok ff) then (Throw bad_alloc, evs)
      else (Ok (Engine.convertInt16ToFloat32 s16), evs)
  end.

(** The result, and what was allocated and freed on the way.  [None]: a null
    pointer is dereferenced, by the source or by the FFmpeg function it is passed
    to, and the process is gone. *)
Definition decode (u : unchecked) (data : str) : option (result (list float32)) * list mem_event :=
  let fail (what : str) (evs : list mem_event) := (Some (Throw (lit "AudioDecoder: " ++ what)), evs) in
  if bool_decide (data = []) then fail (lit "empty input") []
  else if negb (malloc_ok ff) then fail (lit "av_malloc failed") []
  else
    let evs := [Alloc AvioBuf] in
    if negb (avio_ok ff) then fail (lit "avio_alloc_context failed") (evs ++ [Free AvioBuf])
    else
      let evs := evs ++ [Alloc AvioCtx] in
      if negb (fmt_there u) then (None, evs)
      else
      let evs := evs ++ [Alloc FmtCtx] in
      (* a failing avformat_open_input frees the format context itself *)
      if negb (open_ok ff)
      then fail (lit "failed to open input — unrecognised format") (evs ++ [Free FmtCtx] ++ free_avio)
      else if negb (info_ok ff)
      then fail (lit "failed to find stream info") (evs ++ [Free FmtCtx] ++ free_avio)
      else
        match first_audio 0 (streams ff) with
        | None => fail (lit "no audio stream found") (evs ++ [Free FmtCtx] ++ free_avio)
        | Some audio_idx =>
            if negb (codec_found ff)
            then fail (lit "no decoder found for codec id " ++ to_string (codec_id ff))
                      (evs ++ [Free FmtCtx] ++ free_avio)
            else if negb (context_ok ff)
            then fail (lit "avcodec_alloc_context3 failed") (evs ++ [Free FmtCtx] ++ free_avio)
            else
              let evs := evs ++ [Alloc CodecCtx] in
              let free_codec := [Free CodecCtx; Free FmtCtx] ++ free_avio in
              if negb (params_ok ff)
              then fail (lit "avcodec_parameters_to_context failed") (evs ++ free_codec)
              else if negb (codec_open_ok ff)
              then fail (lit "failed to open codec") (evs ++ free_codec)
              else if negb (swr_ok ff) then fail (lit "swr_alloc failed") (evs ++ free_codec)
              else
                let evs := evs ++ [Alloc Swr] in
                if negb (swr_init_ok ff)
                then fail (lit "swr_init failed") (evs ++ [Free Swr] ++ free_codec)
                else
                  (* [av_read_frame] needs the packet, [avcodec_receive_frame] the frame *)
                  if negb (packet_there u) then (None, evs ++ frame_event u (Alloc Frame))
                  else
                    let evs := evs ++ [Alloc Packet] ++ frame_event u (Alloc Frame) in
                    if negb (frame_there u) && existsb (λ ip, bool_decide (ip.1 = audio_idx)) (packets ff)
                    then (None, evs)
                    else
                      let '(r, evs) := finish u (decode_loop (the_codec ff) audio_idx (packets ff)
                                                   ([], codec_init ff, swr_start ff)) evs in
                      (Some r, evs)
        end.

(** The result of a call in which those allocations succeed. *)
Definition decoded (data : str) : result (list float32) :=
  default (Throw []) (decode all_there data).1.
End decode.

(** ** Proofs *)

(** Replaying the events on the objects alive: an object is allocated once and
    freed while it is alive. *)
Fixpoint replay (evs : list mem_event) (live : list resource) : option (list resource) :=
  match evs with
  | [] => Some live
  | Alloc r :: evs => if decide (r ∈ live) then None else replay evs (r :: live)
  | Free r :: evs => if decide (r ∈ live) then replay evs (filter (λ x, x <> r) live) else None
  end.

Definition in_range (s : ReadState) : Prop := 0 <= pos s <= size s /\ size s < 2 ^ 63.

Lemma readPacket_in_range n s : 0 <= n < 2 ^ 31 -> in_range s ->
  in_range (readPacket n s).2 /\
  match (readPacket n s).1 with
  | Some b => b = take (Z.to_nat n) (drop (Z.to_nat (pos s)) (base s)) /\ b <> [] /\
              pos (readPacket n s).2 = pos s + zlen b
  | None => n = 0 \/ pos s = size s
  end.
Proof.
  intros Hn [Hp Hs]. unfold readPacket.
  assert (u64 n = n) as -> by (apply Z.mod_small; lia).
  rewrite usub_small by lia.
  destruct (Z.leb_spec (Z.min n (size s - pos s)) 0); cbn [fst snd]; [split; [done|lia]|].
  set (b := take _ _).
  assert (zlen b = Z.min n (size s - pos s)) as Hb.
  { unfold b, size, zlen in *. rewrite length_take, length_drop. lia. }
  split; [unfold in_range, size in *; cbn [pos base]; lia|]. split; [|split; [|cbn [pos]; lia]].
  - subst b. destruct (Z.min_spec n (size s - pos s)) as [[? ->]|[? ->]]; [done|].
    rewrite !take_ge; [done|..]; rewrite length_drop; unfold size, zlen in *; lia.
  - intros E. rewrite E in Hb. rewrite zlen_nil in Hb. lia.
Qed.

(** ** Properties *)

(** C32: The reader never leaves the buffer.  Whatever FFmpeg asks for, the
    position stays within the uploaded bytes; a read delivers exactly the bytes
    at the position, at least one unless none was asked for or the end is
    reached; a seek moves to an offset within the buffer or changes nothing. *)
Theorem reader_in_bounds n offset whence s :
  0 <= n < 2 ^ 31 -> in_range s ->
  (in_range (readPacket n s).2 /\
   match (readPacket n s).1 with
   | Some b => b = take (Z.to_nat n) (drop (Z.to_nat (pos s)) (base s)) /\ b <> [] /\
               pos (readPacket n s).2 = pos s + zlen b
   | None => n = 0 \/ pos s = size s
   end) /\
  in_range (seekPacket offset whence s).2 /\
  ((seekPacket offset whence s).2 = s \/
   (seekPacket offset whence s).1 = pos (seekPacket offset whence s).2).
Proof.
  intros Hn Hs. split; [by apply readPacket_in_range|].
  unfold seekPacket. destruct (_ =? AVSEEK_SIZE); [by auto|].
  destruct (if _ =? 0 then _ else _) as [new_pos|]; [|by auto].
  destruct (Z.ltb_spec new_pos 0); [by auto|]. destruct (Z.ltb_spec (size s) new_pos); [by auto|].
  cbn. split; [|by right]. destruct Hs. unfold in_range, size in *. cbn. lia.
Qed.

Lemma reader_in_bounds_witness :
  in_range (seekPacket (-2) 2 (Reader (lit "abcdef") 1)).2.
Proof.
  assert (in_range (Reader (lit "abcdef") 1)) as Hr by (by vm_compute).
  apply (reader_in_bounds 4 (-2) 2 (Reader (lit "abcdef") 1)); [lia|exact Hr].
Defined.

(** The objects alive when the decoding loop throws. *)
Definition held (u : unchecked) : list resource :=
  (if frame_there u then [Frame] else []) ++ [Packet; Swr; CodecCtx; FmtCtx; AvioCtx; AvioBuf].

(** Does the loop throw, if it is reached? *)
Definition loop_throws {packet frame} (ff : ffmpeg packet frame) : bool :=
  match first_audio 0 (streams ff) with
  | Some audio_idx =>
      bool_decide (decode_loop (the_codec ff) audio_idx (packets ff) ([], codec_init ff, swr_start ff) = None)
  | None => false
  end.

Lemma decode_all_there {packet frame} (ff : ffmpeg packet frame) data :
  (decode ff all_there data).1 = Some (decoded ff data).
Proof.
  unfold decoded. assert (is_Some (decode ff all_there data).1) as [r ->]; [|done].
  unfold decode. repeat (case_match; simplify_eq/=; try by eexists).
Qed.

(** C33: What [decode] releases.  On every path that returns, and on every failure
    that [decode] itself reports, each FFmpeg object is allocated at most once,
    freed only while alive, and all are freed.  The one path that frees nothing is
    an allocation failure of a vector inside the decoding loop: [std::bad_alloc]
    leaves the function past its manual cleanup, and all the objects then alive,
    seven of them, leak.  The call gets nowhere only when an allocation that it
    does not check fails. *)
Theorem decode_releases_all {packet frame} (ff : ffmpeg packet frame) u data :
  match decode ff u data with
  | (Some (Ok _), evs) => replay evs [] = Some []
  | (Some (Throw e), evs) =>
      replay evs [] = Some [] /\ (e = bad_alloc \/ exists what, e = lit "AudioDecoder: " ++ what) \/
      loop_throws ff = true /\ e = bad_alloc /\ replay evs [] = Some (held u)
  | (None, _) => u <> all_there
  end.
Proof.
  assert (forall what evs, replay evs [] = Some [] ->
    replay evs [] = Some [] /\ (lit "AudioDecoder: " ++ what = bad_alloc \/
      exists what', lit "AudioDecoder: " ++ what = lit "AudioDecoder: " ++ what') \/
    loop_throws ff = true /\ lit "AudioDecoder: " ++ what = bad_alloc /\ replay evs [] = Some (held u)) as Hfail.
  { intros what evs H. left. split; [done|]. right. by exists what. }
  unfold decode. destruct (bool_decide (data = [])); [by apply Hfail|].
  destruct (malloc_ok ff); [|by apply Hfail]. destruct (avio_ok ff); [|by apply Hfail]. cbn [negb].
  destruct (fmt_there u) eqn:Efmt; cbn [negb]; [|by intros ->].
  destruct (open_ok ff); [|by apply Hfail]. destruct (info_ok ff); [|by apply Hfail]. cbn [negb].
  destruct (first_audio 0 (streams ff)) as [idx|] eqn:Ei; [|by apply Hfail].
  destruct (codec_found ff); [|by apply Hfail]. destruct (context_ok ff); [|by apply Hfail]. cbn [negb].
  destruct (params_ok ff); [|by apply Hfail]. destruct (codec_open_ok ff); [|by apply Hfail].
  destruct (swr_ok ff); [|by apply Hfail]. destruct (swr_init_ok ff); [|by apply Hfail]. cbn [negb].
  destruct (packet_there u) eqn:Ep; cbn [negb]; [|by intros ->].
  destruct (negb (frame_there u) && _) eqn:Ef; [by intros ->|].
  destruct (decode_loop _ _ _ _) as [s16|] eqn:El; unfold finish, frame_event, held.
  - destruct (bool_decide (s16 = [])).
    { left. split; [by destruct (frame_there u)|]. right. by exists (lit "decoded audio is empty"). }
    destruct (pcm_ok ff); cbn [negb]; destruct (frame_there u); try done; left; by split; [|left].
  - right. unfold loop_throws. rewrite Ei, bool_decide_eq_true_2 by done. by destruct (frame_there u).
Qed.

(** A codec that holds one packet back until the next one, or a flush, arrives. *)
Definition delayed_codec : codec Z Z :=
  Codec (option Z * list Z) unit
    (λ p c, (false, (Some p, match c.1 with Some q => [q] | None => [] end)))
    (λ c, (c.2, (c.1, [])))
    (λ f _, (Some (match f with Some z => [z] | None => [] end), tt)).

(** The decoder is not flushed.  [decode] flushes the resampler but never
    sends the decoder the null packet that ends a stream: with a codec that
    holds one packet back, the samples of the last packet are lost. *)
Theorem last_packet_lost idx ps p :
  decode_loop delayed_codec idx (pair idx <$> ps ++ [p]) ([], (None, []), tt) = Some ps.
Proof.
  assert (forall qs s16 held,
    foldl (λ d ip, d ← d; decode_packet delayed_codec idx d ip) (Some (s16, (held, []), tt)) (pair idx <$> qs) =
    Some (s16 ++ removelast (option_list held ++ qs), (last (option_list held ++ qs), []), tt)) as H.
  { induction qs as [|q qs IH]; intros s16 held.
    - destruct held; cbn; by rewrite app_nil_r.
    - rewrite fmap_cons. cbn [foldl mbind option_bind]. unfold decode_packet at 2.
      rewrite bool_decide_eq_true_2 by done.
      cbn. destruct held as [h|]; cbn; rewrite IH; cbn; [|done].
      rewrite <- (assoc_L (++)). done. }
  unfold decode_loop. rewrite H. cbn. rewrite app_nil_r. f_equal.
  induction ps as [|q ps IH]; [done|]. cbn. destruct (ps ++ [p]) eqn:E; [by destruct ps|].
  f_equal. done.
Qed.

End AudioDecoder.
