(* ===== verification/HttpRouter.v ===== *)
(** HTTP messages as the handlers see them, and the router of
    [src/server/HttpRouter.cpp].

    A handler sends its responses through [send]; here it returns them in order
    with the new state of the process, or throws.  The server header is left
    out of the responses. *)

From stdpp Require Import prelude strings list.
From Stdlib Require Import ZArith Lia.
From S2P Require Import Prelude.

Module HttpRouter.

Inductive verb := Get | Post | OtherVerb (name : str).

#[export] Instance verb_eq_dec : EqDecision verb.
Proof. solve_decision. Defined.

Record request := Request {
  method : verb;
  target : str;
  version : Z;
  authorization : str;
  req_content_type : str;
  req_body : str;
  upgrade : bool  (** [websocket::is_upgrade] *)
}.

Record response := Response {
  resp_version : Z;
  status : Z;
  content_type : str;
  body : str
}.

Section router.
Context {W : Type}.

Definition handler : Type := request -> W -> result (list response) * W.
Definition route : Type := verb * str * handler.

Definition add (m : verb) (path : str) (h : handler) (routes : list route) : list route :=
  routes ++ [(m, path, h)].

(** The responses sent when a route matched, [None] when none did. *)
Fixpoint dispatch (routes : list route) (req : request) (s : W)
    : result (option (list response)) * W :=
  match routes with
  | [] => (Ok None, s)
  | (m, path, h) :: routes =>
      if decide (m = method req /\ target req = path) then
        let '(r, s') := h req s in
        (match r with Ok rs => Ok (Some rs) | Throw w => Throw w end, s')
      else dispatch routes req s
  end.

(** ** Properties *)

(** The first matching route handles the request.  If a route matches and no
    earlier one does, its handler alone runs; if none matches nothing runs. *)
Theorem dispatch_first_match before m path h after req s :
  Forall (λ rt : route, ~ (rt.1.1 = method req /\ target req = rt.1.2)) before ->
  dispatch before req s = (Ok None, s) /\
  (m = method req -> target req = path ->
   dispatch (before ++ (m, path, h) :: after) req s =
     (match (h req s).1 with Ok rs => Ok (Some rs) | Throw w => Throw w end, (h req s).2)).
Proof.
  intros Hb. induction Hb as [|[[m' p'] h'] before Hne _ IH]; cbn [dispatch app].
  - split; [done|]. intros Hm Hp. rewrite decide_True by done. by destruct (h req s).
  - cbn in Hne. rewrite !decide_False by done. exact IH.
Qed.
End router.

Definition ping (req : request) (n : nat) : result (list response) * nat :=
  (Ok [Response (version req) 200 [] []], S n).

Definition get_ping : request := Request Get (lit "/ping") 11 [] [] [] false.

Lemma dispatch_first_match_witness :
  dispatch ([(Post, lit "/ping", ping)] ++ (Get, lit "/ping", ping) :: []) get_ping 0%nat =
    (Ok (Some [Response 11 200 [] []]), 1%nat).
Proof.
  assert (Forall (λ rt : route, ~ (rt.1.1 = method get_ping /\ target get_ping = rt.1.2))
            [(Post, lit "/ping", ping)]) as Hb by (repeat constructor; by intros [? _]).
  exact (proj2 (dispatch_first_match _ Get (lit "/ping") ping [] get_ping 0%nat Hb) eq_refl eq_refl).
Defined.

End HttpRouter.
