(* ===== verification/HandleTranscribe.v ===== *)
(** POST /v1/audio/transcriptions, [src/server/handlers/HandleTranscribe.cpp].

    The inference slots are any implementation of [SlotPool].  The environment
    holds the answers of the auth API, of FFmpeg, of the VAD model, of
    whisper.cpp, of the clock and of the random generator during the call, and
    [json::dump], which throws on text that is not UTF-8.  FFmpeg's answer is that
    of a call in which the allocations that [AudioDecoder::decode] does not check
    succeed ([AudioDecoder.decoded]); otherwise the process dies in that call.

    When the peer is gone [send] throws, which ends the handler, with one
    exception: the reply to an out-of-range temperature is sent inside a [try]
    block whose [catch (...)] ignores the failure. *)

From stdpp Require Import prelude strings list gmap.
From Stdlib Require Import ZArith Lia.
From S2P Require Import Prelude Floats Numbers ApiAuthClient AuthManager SlotPool ModelCache VadGate.
From S2P Require Import Config InferenceLimiter MultipartParser AudioDecoder HttpRouter.

Module HandleTranscribe.
Import HttpRouter.
Import (hints) InferenceLimiter.

(** The JSON documents the handler prints. *)
Record segment := Segment { s_start : float32; s_end : float32; s_text : str; no_speech_prob : float32 }.

Inductive document :=
| ErrorDoc (message type : str)
| TextDoc (text : str)
| VerboseDoc (id created_at task language : str) (duration : float32) (text : str)
             (segments : list segment).

Record whisper_params := WhisperParams {
  w_language : str;
  w_n_threads : Z;
  w_translate : bool;
  w_temperature : float32;
  w_temperature_inc : float32;
  w_no_speech_thold : float32;
  w_logprob_thold : float32;
  w_beam_size : option Z;
  w_initial_prompt : option str
}.

(** One segment of whisper's answer: text (possibly null), times, probability. *)
Record raw_segment := RawSegment { r_text : option str; r_t0 : Z; r_t1 : Z; r_nsp : float32 }.

Record env := Env {
  packet : Type;
  frame : Type;
  ffmpeg : AudioDecoder.ffmpeg packet frame;
  auth_get : Z;
  auth_put : Z;
  auth_api : ApiAuthClient.AuthResult;
  vad_loads : bool;
  vad_detect : VadGate.vad_params -> list float32 -> option (list (float32 * float32));
  lround_unspecified : float64 -> Z;
  load : option ModelCache.context;
  state_ok : bool;
  whisper : whisper_params -> list float32 -> Z * list raw_segment;
  unload_task : nat;
  random_id : str;
  timestamp : str;
  dump : document -> result str;
  delivery : result unit  (** of writing a response to the peer *)
}.

Section handler.
Context {P : Type} `{SlotPool P}.

(** The process: the auth manager ([None] is the null pointer), the slots, the
    model cache and the live [whisper_state]s. *)
Record server := Server {
  auth : option AuthManager.t;
  slots : P;
  models : ModelCache.t;
  states : Z
}.

(** A reply before it is printed. *)
Inductive reply := Json (status : Z) (d : document) | PlainText (s : str).

Definition error (status : Z) (message type : string) : reply :=
  Json status (ErrorDoc (lit message) (lit type)).

Definition bad_request (message : str) : reply :=
  Json 400 (ErrorDoc message (lit "invalid_request_error")).

(** [makeJson] prints a reply ... *)
Definition print_reply (w : env) (req : request) (r : reply) : result response :=
  match r with
  | PlainText t => Ok (Response (version req) 200 (lit "text/plain; charset=utf-8") t)
  | Json st d => b ← dump w d; Ok (Response (version req) st (lit "application/json") b)
  end.

(** ... and [send] writes it. *)
Definition send_reply (w : env) (req : request) (r : reply) : result (list response) :=
  x ← print_reply w req r; _ ← delivery w; Ok [x].

(** Step 1. *)
Definition authorize (cfg : Config.ServerConfig) (w : env) (req : request) (s : server)
    : option reply * server :=
  let auth_configured := negb (bool_decide (Config.auth_token cfg = [])) ||
                         negb (bool_decide (Config.auth_api_url cfg = [])) in
  match auth s with
  | None => (if auth_configured then Some (error 500 "Internal server error" "server_error") else None, s)
  | Some a =>
      if AuthManager.isAuthEnabled a then
        let token := if starts_with (lit "Bearer ") (authorization req)
                     then drop 7 (authorization req) else [] in
        let '(ok, _, a') := AuthManager.validate token (auth_get w) (auth_put w) (auth_api w) a in
        (if ok then None
         else Some (error 401 "Invalid or missing authorization token" "invalid_request_error"),
         Server (Some a') (slots s) (models s) (states s))
      else (None, s)
  end.

Definition field (parts : gmap str MultipartParser.Part) (name : string) : option str :=
  MultipartParser.data <$> parts !! lit name.

(** What steps 2 to 4c extract from the request. *)
Record job := Job {
  response_format : str;
  pcm : list float32;
  language : str;
  task : str;
  temperature_override : option float32;
  prompt : option str
}.

Definition supported (fmt : str) : bool :=
  bool_decide (fmt = lit "json" \/ fmt = lit "text" \/ fmt = lit "verbose_json").

(** The temperature field: an error reply, or the override. *)
Definition parse_temperature (field : option str) : reply + option float32 :=
  match field with
  | None => inr None
  | Some t =>
      match Numbers.stof t with
      | Throw _ => inr None
      | Ok val =>
          if F32.ltb val F32.zero || F32.gtb val (F32.of_Z 1)
          then inl (bad_request (lit "temperature must be between 0.0 and 1.0"))
          else inr (Some val)
      end
  end.

(** Its [try] block: a rejection that cannot be sent is forgotten. *)
Definition temperature_of (w : env) (req : request) (field : option str) : reply + option float32 :=
  match parse_temperature field with
  | inl r => if is_ok (send_reply w req r) then inl r else inr None
  | inr t => inr t
  end.

(** Does the decoded audio last longer than the configured maximum? *)
Definition too_long (cfg : Config.ServerConfig) (samples : list float32) : bool :=
  F64.gtb (F64.div (F64.of_Z (zlen samples)) (F64.of_Z 16000))
          (F64.of_Z (Config.max_audio_duration_sec cfg)).

Definition read_request (cfg : Config.ServerConfig) (w : env) (req : request) : reply + job :=
  let boundary := MultipartParser.extractBoundary (req_content_type req) in
  if bool_decide (boundary = [])
  then inl (bad_request (lit "Content-Type must be multipart/form-data with a boundary"))
  else
    match MultipartParser.parse (req_body req) boundary with
    | Throw e => inl (bad_request (lit "Failed to parse multipart body: " ++ e))
    | Ok parts =>
        match field parts "file", field parts "model" with
        | None, _ => inl (bad_request (lit "Missing required field: file"))
        | _, None => inl (bad_request (lit "Missing required field: model"))
        | Some file, Some _ =>
            if Config.max_upload_bytes cfg <? zlen (req_body req)
            then inl (error 413 "Request body exceeds maximum upload size" "payload_too_large_error")
            else
              let fmt := default (lit "json") (field parts "response_format") in
              if negb (supported fmt)
              then inl (bad_request (lit "response_format '" ++ fmt ++ lit "' is not supported. " ++
                                     lit "Supported values: json, text, verbose_json"))
              else
                match AudioDecoder.decoded (ffmpeg w) file with
                | Throw e => inl (bad_request (lit "Failed to decode audio: " ++ e))
                | Ok samples =>
                    if too_long cfg samples
                    then inl (Json 413 (ErrorDoc (lit "Decoded audio exceeds maximum duration of " ++
                           to_string (Config.max_audio_duration_sec cfg) ++ lit " seconds")
                           (lit "payload_too_large_error")))
                    else
                      match temperature_of w req (field parts "temperature") with
                      | inl r => inl r
                      | inr t =>
                          inr (Job fmt samples (default (lit "auto") (field parts "language"))
                                 (default (lit "transcribe") (field parts "task")) t
                                 (field parts "prompt"))
                      end
                end
        end
    end.

(** Step 4d: the samples to decode ([None]: only silence) and the gate. *)
Definition gate_audio (cfg : Config.ServerConfig) (w : env) (samples : list float32)
    : reply + (option (list float32) * option VadGate.t) :=
  if bool_decide (Config.vad_model_path cfg = []) then inr (Some samples, None)
  else
    let v := VadGate.create (Config.vad_model_path cfg) (Config.vad_threshold cfg)
               (Config.vad_min_speech_ms cfg) (Config.vad_min_silence_ms cfg)
               (Config.vad_max_speech_s cfg) (Config.vad_speech_pad_ms cfg)
               (Config.vad_samples_overlap cfg) (Config.whisper_threads cfg) in
    match VadGate.gate (lround_unspecified w) (vad_loads w) (vad_detect w) samples v with
    | (Throw _, _) => inl (error 500 "VAD gating failed" "server_error")
    | (Ok g, v') => inr (if VadGate.had_speech g then Some (VadGate.samples g) else None, Some v')
    end.

Definition params_of (cfg : Config.ServerConfig) (j : job) : whisper_params := {|
  w_language := language j;
  w_n_threads := Config.whisper_threads cfg;
  w_translate := bool_decide (task j = lit "translate");
  w_temperature := default (Config.whisper_temperature cfg) (temperature_override j);
  w_temperature_inc := Config.whisper_temperature_inc_http cfg;
  w_no_speech_thold := Config.whisper_no_speech_thold cfg;
  w_logprob_thold := Config.whisper_logprob_thold cfg;
  w_beam_size := if Config.whisper_beam_size cfg >? 1 then Some (Config.whisper_beam_size cfg) else None;
  w_initial_prompt :=
    match prompt j with
    | Some p => Some p
    | None => if bool_decide (Config.whisper_initial_prompt cfg = []) then None
              else Some (Config.whisper_initial_prompt cfg)
    end
|}.

(** A segment's time in seconds of the uploaded audio. *)
Definition seconds_of (v : option VadGate.t) (t : Z) : float32 :=
  match v with
  | Some v => F32.div (F32.of_Z (VadGate.toOriginalSamples v t)) (F32.of_Z 16000)
  | None => F32.div (F32.of_Z t) (F32.of_Z 100)
  end.

Definition collect (fmt : str) (v : option VadGate.t) (raw : list raw_segment) : str * list segment :=
  (concat ((λ r, default [] (r_text r)) <$> raw),
   if decide (fmt = lit "verbose_json") then
     omap (λ r, (λ x, Segment (seconds_of v (r_t0 r)) (seconds_of v (r_t1 r)) x (r_nsp r)) <$> r_text r) raw
   else []).

(** Step 7 while the model reference is held: the slot, the state, the
    inference.  The last component is the whisper call made, if any. *)
Definition run_inference (cfg : Config.ServerConfig) (w : env) (j : job) (samples : list float32)
    (v : option VadGate.t) (p : P) (live : Z)
    : (reply + (str * list segment)) * Z * option (whisper_params * list float32) * P :=
  with_guard (λ acquired q,
    if negb acquired
    then (inl (error 503 "Server is at maximum inference capacity, try again later" "server_error"),
          live, None, q)
    else if negb (state_ok w)
    then (inl (error 500 "Failed to initialize whisper state" "server_error"), live, None, q)
    else
      let live := live + 1 in
      let prm := params_of cfg j in
      let '(rc, raw) := whisper w prm samples in
      if negb (rc =? 0)
      then (inl (error 500 "Whisper inference failed" "server_error"), live - 1, Some (prm, samples), q)
      else (inr (collect (response_format j) v raw), live - 1, Some (prm, samples), q)) p.

(** The reply of a finished transcription. *)
Definition is_blank (c : Ascii.ascii) : bool :=
  bool_decide (Ascii.nat_of_ascii c ∈ [32; 9; 13; 10]%nat).

Definition render (w : env) (j : job) (text : str) (segs : list segment) : reply :=
  if decide (response_format j = lit "text")
  then PlainText (MultipartParser.pop_back_while is_blank (MultipartParser.drop_while is_blank text))
  else if decide (response_format j = lit "json") then Json 200 (TextDoc text)
  else Json 200 (VerboseDoc (random_id w) (timestamp w) (task j) (language j)
                   (match last segs with Some g => s_end g | None => F32.zero end) text segs).

(** The handler up to its reply, with the whisper call it made. *)
Definition handle_core (cfg : Config.ServerConfig) (w : env) (req : request) (s : server)
    : reply * option (whisper_params * list float32) * server :=
  let '(denied, s) := authorize cfg w req s in
  match denied with
  | Some r => (r, None, s)
  | None =>
      match read_request cfg w req with
      | inl r => (r, None, s)
      | inr j =>
          match gate_audio cfg w (pcm j) with
          | inl r => (r, None, s)
          | inr (None, _) => (render w j [] [], None, s)
          | inr (Some samples, v) =>
              match ModelCache.acquire (Config.model_path cfg) (load w) (models s) with
              | (Throw _, m) =>
                  (error 500 "Failed to load model" "server_error", None,
                   Server (auth s) (slots s) m (states s))
              | (Ok _, m) =>
                  let '(r, live, call, p) := run_inference cfg w j samples v (slots s) (states s) in
                  let '(_, _, m) := ModelCache.release (unload_task w) m in
                  (match r with inl e => e | inr (text, segs) => render w j text segs end, call,
                   Server (auth s) p m live)
              end
          end
      end
  end.

Definition handle (cfg : Config.ServerConfig) (w : env) : handler (W := server) := λ req s,
  let '(r, _, s') := handle_core cfg w req s in (send_reply w req r, s').

(** ** Proofs *)

Lemma authorize_frame cfg w req s r s' :
  authorize cfg w req s = (r, s') ->
  slots s' = slots s /\ models s' = models s /\ states s' = states s.
Proof.
  unfold authorize. destruct (auth s) as [a|]; [|by intros [= _ <-]].
  destruct (AuthManager.isAuthEnabled a); [|by intros [= _ <-]].
  destruct (AuthManager.validate _ _ _ _ a) as [[ok q] a']. by intros [= _ <-].
Qed.

(** A reply is sent as one response, or printing or writing it throws. *)
Lemma send_reply_one w req r :
  match send_reply w req r with
  | Ok rs => exists x, rs = [x] /\ resp_version x = version req
  | Throw e => (exists d, dump w d = Throw e) \/ delivery w = Throw e
  end.
Proof.
  unfold send_reply, print_reply. destruct r as [st d|t]; [destruct (dump w d) eqn:E|]; cbn;
    [destruct (delivery w) as [[]|] eqn:Ed|..|destruct (delivery w) as [[]|] eqn:Ed]; cbn; eauto.
Qed.

Lemma send_reply_status w req r rs x :
  send_reply w req r = Ok rs -> x ∈ rs -> status x = match r with Json st _ => st | PlainText _ => 200 end.
Proof.
  unfold send_reply, print_reply. destruct r as [st d|t]; [destruct (dump w d); cbn; [|done]|cbn];
    (destruct (delivery w); cbn; [|done]); intros [= <-] Hx; by apply list_elem_of_singleton in Hx as ->.
Qed.

(** A call of the handler that returns has sent one response. *)
Lemma send_one cfg w req s :
  match (handle cfg w req s).1 with
  | Ok rs => exists x, rs = [x] /\ resp_version x = version req
  | Throw e => (exists d, dump w d = Throw e) \/ delivery w = Throw e
  end.
Proof.
  unfold handle. destruct (handle_core cfg w req s) as [[rep call] s']. apply send_reply_one.
Qed.

Lemma run_inference_live cfg w j samples v p live :
  (run_inference cfg w j samples v p live).1.1.2 = live.
Proof.
  unfold run_inference, with_guard. destruct (try_take p) as [[] q]; cbn [negb]; [|done].
  destruct (state_ok w); cbn [negb]; [|done].
  destruct (whisper w (params_of cfg j) samples) as [rc raw].
  destruct (negb (rc =? 0)); cbn; lia.
Qed.

Context `{!SlotPoolLaws P}.

Lemma run_inference_balanced cfg w j samples v p live :
  0 <= in_use p -> in_use (run_inference cfg w j samples v p live).2 = in_use p.
Proof.
  intros Hp. unfold run_inference. apply with_guard_balanced; [done|].
  intros b q. destruct b; cbn [negb]; [|done]. destruct (state_ok w); cbn [negb]; [|done].
  destruct (whisper w (params_of cfg j) samples) as [rc raw]. by destruct (negb (rc =? 0)).
Qed.

(** A whisper call is made only with a free slot, and with these parameters. *)
Lemma run_inference_call cfg w j samples v p live r l call p' :
  run_inference cfg w j samples v p live = (r, l, Some call, p') ->
  in_use p < limit p /\ call = (params_of cfg j, samples).
Proof.
  unfold run_inference, with_guard. destruct (try_take p) as [[] q] eqn:E; cbn [negb]; [|done].
  apply try_take_yes in E as (E & _). destruct (state_ok w); cbn [negb]; [|done].
  destruct (whisper w (params_of cfg j) samples) as [rc raw].
  destruct (negb (rc =? 0)); intros; by simplify_eq.
Qed.

Lemma read_request_job cfg w req j :
  read_request cfg w req = inr j ->
  zlen (req_body req) <= Config.max_upload_bytes cfg /\ supported (response_format j) = true /\
  too_long cfg (pcm j) = false /\
  exists file, AudioDecoder.decoded (ffmpeg w) file = Ok (pcm j).
Proof.
  unfold read_request. intros H0.
  destruct (bool_decide _); [done|]. destruct (MultipartParser.parse _ _) as [parts|]; [|done].
  destruct (field parts "file") as [file|]; [|done]. destruct (field parts "model"); [|done].
  destruct (Z.ltb_spec (Config.max_upload_bytes cfg) (zlen (req_body req))); [done|].
  destruct (supported _) eqn:Es; cbn [negb] in H0; [|done].
  destruct (AudioDecoder.decoded (ffmpeg w) file) as [samples|] eqn:Ed; [|done].
  destruct (too_long cfg samples) eqn:El; [done|].
  destruct (temperature_of _ _ _); [done|]. injection H0 as <-. cbn. eauto.
Qed.

(** A rejected temperature does not stop the request of a peer that is gone: the
    exception of [send] is swallowed and the request goes on to the inference with
    the default temperature. *)
Lemma undelivered_rejection_ignored w req f r e :
  parse_temperature f = inl r -> delivery w = Throw e -> temperature_of w req f = inr None.
Proof.
  intros Hp Hd. unfold temperature_of, send_reply. rewrite Hp, Hd.
  by destruct (print_reply w req r).
Qed.

(** ** Properties *)

(** C16: The handler gives everything back.  Whatever the request and whatever
    fails, when the handler returns or throws, the slots in use, the model's
    reference count and the number of live whisper states are what they were
    before; and it sends exactly one response unless printing or writing it throws. *)
Theorem handle_balanced cfg w req s :
  0 <= in_use (slots s) -> ModelCache.serves (Config.model_path cfg) (models s) ->
  let '(r, s') := handle cfg w req s in
  in_use (slots s') = in_use (slots s) /\ states s' = states s /\
  ModelCache.ref_count (models s') = ModelCache.ref_count (models s) /\
  match r with
  | Ok rs => exists x, rs = [x]
  | Throw e => (exists d, dump w d = Throw e) \/ delivery w = Throw e
  end.
Proof.
  intros Hp Hm. unfold handle.
  assert (forall rep, match send_reply w req rep with
    | Ok rs => exists x, rs = [x]
    | Throw e => (exists d, dump w d = Throw e) \/ delivery w = Throw e end) as Hsend.
  { intros rep. pose proof (send_reply_one w req rep) as Hone.
    destruct (send_reply w req rep); [destruct Hone as (x & -> & _); eauto|done]. }
  assert (in_use (slots (handle_core cfg w req s).2) = in_use (slots s) /\
          states (handle_core cfg w req s).2 = states s /\
          ModelCache.ref_count (models (handle_core cfg w req s).2) = ModelCache.ref_count (models s))
    as Hcore.
  2: { destruct (handle_core cfg w req s) as [[rep call] s']. naive_solver. }
  unfold handle_core. destruct (authorize cfg w req s) as [denied s1] eqn:Ea.
  apply authorize_frame in Ea as (E1 & E2 & E3).
  destruct denied; [cbn; by rewrite E1, E2, E3|].
  destruct (read_request cfg w req) as [rep|j]; [cbn; by rewrite E1, E2, E3|].
  destruct (gate_audio cfg w (pcm j)) as [rep|[[samples|] v]]; [cbn; by rewrite E1, E2, E3| |cbn; by rewrite E1, E2, E3].
  rewrite E2. destruct (ModelCache.acquire _ _ (models s)) as [[c|e] m] eqn:Eq.
  - apply ModelCache.acquire_ref in Eq as [_ Er]; [|done].
    pose proof (ModelCache.serves_nonneg _ _ Hm).
    pose proof (ModelCache.release_ref (unload_task w) m ltac:(lia)) as Hrel.
    pose proof (run_inference_balanced cfg w j samples v (slots s1) (states s1) ltac:(by rewrite E1)) as Hb.
    pose proof (run_inference_live cfg w j samples v (slots s1) (states s1)) as Hl.
    destruct (run_inference cfg w j samples v (slots s1) (states s1)) as [[[r live] call] p].
    destruct (ModelCache.release (unload_task w) m) as [[old started] m']. cbn in *.
    rewrite <- E1. repeat split; [done|congruence|lia].
  - apply ModelCache.acquire_fail in Eq; [|done]. cbn. by rewrite E1, E3.
Qed.

(** C17: What an inference requires.  Whisper is called only for a request that
    was authorised, whose body respects the upload limit, whose format is
    supported and whose file decodes to no more than the maximum duration, while
    a slot was free; it is called with the parameters of that request, on the
    decoded audio or on what the silence gate kept of it. *)
Theorem inference_requires cfg w req s r prm samples s' :
  handle_core cfg w req s = (r, Some (prm, samples), s') ->
  (authorize cfg w req s).1 = None /\ in_use (slots s) < limit (slots s) /\
  zlen (req_body req) <= Config.max_upload_bytes cfg /\
  exists j v file, read_request cfg w req = inr j /\ prm = params_of cfg j /\
    AudioDecoder.decoded (ffmpeg w) file = Ok (pcm j) /\
    supported (response_format j) = true /\ too_long cfg (pcm j) = false /\
    gate_audio cfg w (pcm j) = inr (Some samples, v).
Proof.
  unfold handle_core. destruct (authorize cfg w req s) as [denied s1] eqn:Ea. cbn [fst].
  apply authorize_frame in Ea as (E1 & _).
  destruct denied as [?|]; [done|]. destruct (read_request cfg w req) as [?|j] eqn:Er; [done|].
  destruct (gate_audio cfg w (pcm j)) as [?|[[samples0|] v]] eqn:Eg; [done| |done].
  destruct (ModelCache.acquire _ _ (models s1)) as [[c|e] m]; [|done].
  destruct (run_inference cfg w j samples0 v (slots s1) (states s1)) as [[[r0 live] call] p] eqn:Ei.
  destruct (ModelCache.release (unload_task w) m) as [[old started] m']. intros E.
  injection E as _ -> _. apply run_inference_call in Ei as [Hlt Hc]. injection Hc as -> ->.
  rewrite E1 in Hlt. destruct (read_request_job _ _ _ _ Er) as (Hsz & Hs & Ht & file & Hf).
  repeat split; try done. by exists j, v, file.
Qed.

(** A saturated server answers 503.  A request that is otherwise fit for an
    inference, arriving when every slot is in use, gets status 503 without any
    whisper call. *)
Theorem saturated_503 cfg w req s j samples v c m :
  (authorize cfg w req s).1 = None -> read_request cfg w req = inr j ->
  gate_audio cfg w (pcm j) = inr (Some samples, v) ->
  ModelCache.acquire (Config.model_path cfg) (load w) (models s) = (Ok c, m) ->
  limit (slots s) <= in_use (slots s) ->
  (handle_core cfg w req s).1 =
    (error 503 "Server is at maximum inference capacity, try again later" "server_error", None).
Proof.
  intros Ha Hr Hg Hm Hfull. unfold handle_core.
  destruct (authorize cfg w req s) as [denied s1] eqn:Ea. cbn in Ha. subst denied.
  apply authorize_frame in Ea as (E1 & E2 & _). rewrite Hr, Hg, E2, Hm. unfold run_inference, with_guard.
  destruct (try_take (slots s1)) as [[] q] eqn:E.
  - apply try_take_yes in E as [E _]. rewrite E1 in E. lia.
  - cbn [negb]. by destruct (ModelCache.release (unload_task w) m) as [[old started] m'].
Qed.
End handler.

(** A request with two decodable packets, on an idle and on a saturated server. *)
Definition upload : request :=
  Request Post (lit "/v1/audio/transcriptions") 11 (lit "Bearer secret")
    (lit "multipart/form-data; boundary=XyZ")
    (MultipartParser.render (lit "XyZ") MultipartParser.form) false.

Definition two_packets : AudioDecoder.ffmpeg Z Z :=
  AudioDecoder.FFmpeg true true true true [true] 0 true true true true true true true
    [(0%nat, 100); (0%nat, 200)] AudioDecoder.delayed_codec (None, []) tt.

Definition sample_env : env :=
  Env Z Z two_packets 0 0 ApiAuthClient.Denied true (λ _ _, None) (λ _, 0) (Some 7%nat) true
    (λ _ _, (0, [RawSegment (Some (lit " hola")) 0 1 F32.zero])) 0 (lit "id") (lit "now")
    (λ d, match d with TextDoc t => Ok t | ErrorDoc m _ => Ok m | VerboseDoc _ _ _ _ _ t _ => Ok t end)
    (Ok tt).

Definition sample_cfg : Config.ServerConfig := Config.set_vad_model_path [] Config.defaults.

Definition idle : server (P := InferenceLimiter.t) :=
  Server (Some (AuthManager.mk ∅ true 0 (lit "secret"))) (InferenceLimiter.mk 0 4) ModelCache.init 0.
Definition saturated : server (P := InferenceLimiter.t) :=
  Server (Some (AuthManager.mk ∅ true 0 (lit "secret"))) (InferenceLimiter.mk 4 4) ModelCache.init 0.

Lemma handle_balanced_witness :
  (handle sample_cfg sample_env upload idle).1 =
    Ok [Response 11 200 (lit "application/json") (lit " hola")] /\
  in_use (slots (handle sample_cfg sample_env upload idle).2) = 0 /\
  ModelCache.ref_count (models (handle sample_cfg sample_env upload idle).2) = 0.
Proof.
  assert (0 <= in_use (slots idle)) as Hp by done.
  assert (ModelCache.serves (Config.model_path sample_cfg) (models idle)) as Hm by reflexivity.
  pose proof (handle_balanced sample_cfg sample_env upload idle Hp Hm) as Hb.
  split; [vm_compute; reflexivity|].
  destruct (handle sample_cfg sample_env upload idle) as [r s']. destruct Hb as (H1 & _ & H3 & _).
  split; [exact H1|exact H3].
Defined.

Lemma inference_requires_witness :
  exists r prm samples s',
    handle_core sample_cfg sample_env upload idle = (r, Some (prm, samples), s') /\
    (authorize sample_cfg sample_env upload idle).1 = None.
Proof.
  destruct (handle_core sample_cfg sample_env upload idle) as [[r [[prm samples]|]] s'] eqn:E;
    [|by vm_compute in E].
  exists r, prm, samples, s'. split; [done|].
  exact (proj1 (inference_requires _ _ _ _ _ _ _ _ E)).
Defined.

Lemma saturated_503_witness :
  exists j samples v c m,
    read_request sample_cfg sample_env upload = inr j /\
    gate_audio sample_cfg sample_env (pcm j) = inr (Some samples, v) /\
    ModelCache.acquire (Config.model_path sample_cfg) (load sample_env) (models saturated) = (Ok c, m) /\
    (handle_core sample_cfg sample_env upload saturated).1 =
      (error 503 "Server is at maximum inference capacity, try again later" "server_error", None).
Proof.
  destruct (read_request sample_cfg sample_env upload) as [r|j] eqn:Er; [by vm_compute in Er|].
  destruct (gate_audio sample_cfg sample_env (pcm j)) as [r|[[samples|] v]] eqn:Eg; [done| |done].
  destruct (ModelCache.acquire (Config.model_path sample_cfg) (load sample_env) (models saturated))
    as [[c|e] m] eqn:Em; [|by vm_compute in Em].
  assert ((authorize sample_cfg sample_env upload saturated).1 = None) as Ha by (vm_compute; reflexivity).
  assert (limit (slots saturated) <= in_use (slots saturated)) as Hf by done.
  exists j, samples, v, c, m. split; [done|]. split; [exact Eg|]. split; [done|].
  exact (saturated_503 _ _ _ _ _ _ _ _ _ Ha Er Eg Em Hf).
Defined.

End HandleTranscribe.
