(* ===== verification/SystemRequests.v ===== *)
(** [HandleTranscribe] and [System] agree: what the handler of a transcription
    request does to the inference slots and to the model cache, in one piece, is a
    sequence of the request steps of the whole process. *)

From stdpp Require Import prelude strings list gmap.
From Stdlib Require Import ZArith Lia.
From S2P Require Import Prelude Transitions Floats Json ApiAuthClient AuthManager SlotPool.
From S2P Require Import InferenceLimiter ModelCache VadGate Session FlushLoop System.
From S2P Require Import Config HttpRouter HandleTranscribe.

Module SystemRequests.
Import (hints) InferenceLimiter.

(** The shared state of the handler is that of the process. *)
Record same_shared (s : System.sys) (srv : HandleTranscribe.server (P := InferenceLimiter.t)) : Prop := {
  same_auth : HandleTranscribe.auth srv = Some (System.auth_state s);
  same_slots : HandleTranscribe.slots srv = System.lim s;
  same_models : HandleTranscribe.models srv = System.cache s
}.

(** The environment of the handler is what the process offers: a load gives a
    fresh context, a timer gets the next task number. *)
Record fits (s : System.sys) (w : HandleTranscribe.env) : Prop := {
  fits_load : HandleTranscribe.load w = None \/ HandleTranscribe.load w = Some (System.fresh s);
  fits_task : HandleTranscribe.unload_task w = length (System.tasks s)
}.

(** The steps of requests. *)
Definition of_request (e : System.event) : Prop :=
  match e with
  | System.HAuth _ _ _ _ | System.HModel _ | System.HSlot _ | System.HGiveBack _ | System.HEnd _ => True
  | _ => False
  end.

(** The requests in progress. *)
Definition in_progress (qs : list System.request) : list System.request :=
  filter (λ q, System.q_model q = true) qs.

(** Some request steps lead from [s] to the shared state of [srv]; the sessions do
    not notice, and the requests in progress are the same. *)
Definition matched {J : JsonLib} (o : Session.opts) (s : System.sys)
    (srv : HandleTranscribe.server (P := InferenceLimiter.t)) : Prop :=
  exists es s', Forall of_request es /\ System.run o es s = Some s' /\ same_shared s' srv /\
    System.locals s' = System.locals s /\
    in_progress (System.reqs s') = in_progress (System.reqs s).

Section proofs.
Context {J : JsonLib} (o : Session.opts).

Lemma matched_here s srv : same_shared s srv -> matched o s srv.
Proof. intros H. by exists [], s. Qed.

Lemma load_flag s w : fits s w ->
  exists loads : bool, HandleTranscribe.load w = if loads then Some (System.fresh s) else None.
Proof. intros [[-> | ->] _]; [by exists false|by exists true]. Qed.

Lemma authorize_matched cfg w req s srv denied srv' :
  System.alive s = true -> same_shared s srv -> HandleTranscribe.authorize cfg w req srv = (denied, srv') ->
  exists es s', Forall of_request es /\ System.run o es s = Some s' /\ same_shared s' srv' /\
    System.locals s' = System.locals s /\ System.reqs s' = System.reqs s /\
    System.fresh s' = System.fresh s /\ System.tasks s' = System.tasks s.
Proof.
  intros Ha [H1 H2 H3]. unfold HandleTranscribe.authorize. rewrite H1.
  destruct (AuthManager.isAuthEnabled _); [|intros [= _ <-]; by exists [], s].
  set (token := if starts_with _ _ then _ else _).
  destruct (AuthManager.validate token _ _ _ _) as [[ok q] a'] eqn:E. intros [= _ <-].
  exists [System.HAuth token (HandleTranscribe.auth_get w) (HandleTranscribe.auth_put w) (HandleTranscribe.auth_api w)].
  eexists. split; [by repeat constructor|].
  split; [apply Transitions.exec_one; unfold System.step; rewrite Ha, E; done|]. by repeat split.
Qed.

(** The slots after an inference: taken if one was free, and given back. *)
Lemma run_inference_slots cfg w j samples v (p : InferenceLimiter.t) live :
  (HandleTranscribe.run_inference cfg w j samples v p live).2 =
  let '(ok, p') := InferenceLimiter.try_acquire p in if ok then InferenceLimiter.release p' else p'.
Proof.
  unfold HandleTranscribe.run_inference, with_guard. cbn [try_take give_back InferenceLimiter.pool].
  destruct (InferenceLimiter.try_acquire p) as [[] p']; cbn [negb]; [|done].
  destruct (HandleTranscribe.state_ok w); cbn [negb]; [|done].
  destruct (HandleTranscribe.whisper w _ samples) as [rc raw]. by destruct (negb (rc =? 0)).
Qed.

Lemma set_last {A} (l : list A) x y : <[length l := y]> (l ++ [x]) = l ++ [y].
Proof. by rewrite insert_app_r_alt, Nat.sub_diag by lia. Qed.

Lemma last_set {A} (l : list A) (x : A) : (l ++ [x]) !! length l = Some x.
Proof. by rewrite lookup_app_r, Nat.sub_diag by lia. Qed.

Lemma in_progress_done qs : in_progress (qs ++ [System.QDone]) = in_progress qs.
Proof. unfold in_progress. rewrite filter_app. cbn. by rewrite app_nil_r. Qed.

(** The steps of a request that gets the model, from the state [s]. *)
Definition request_steps (loads ok : bool) (k : nat) : list System.event :=
  [System.HModel loads; System.HSlot k] ++ (if ok then [System.HGiveBack k] else []) ++ [System.HEnd k].

Lemma run_step e es s s1 :
  System.step o e s = Some s1 -> System.run o (e :: es) s = System.run o es s1.
Proof. intros H. unfold System.run. cbn [Transitions.exec]. by rewrite H. Qed.

(** The steps of a request, the last in the list. *)
Section last.
Context (s : System.sys) (qs : list System.request) (Ha : System.alive s = true).

Definition with_last (m : ModelCache.t) (ts : list ModelCache.task) (fr : ModelCache.context)
    (p : InferenceLimiter.t) (q : System.request) : System.sys :=
  System.Sys m (System.clock s) ts fr (System.auth_state s) p (System.locals s) (qs ++ [q]).

Lemma request_step_slot m ts fr p c ok p' :
  InferenceLimiter.try_acquire p = (ok, p') ->
  System.step o (System.HSlot (length qs)) (with_last m ts fr p (System.QModel c)) =
    Some (with_last m ts fr p' (if ok then System.QSlot c else System.QLeaving c)).
Proof.
  intros E. unfold System.step. change (System.alive (with_last _ _ _ _ _)) with (System.alive s).
  rewrite Ha. cbn [System.reqs System.lim with_last]. rewrite last_set. unfold InferenceLimiter.TryGuard_make.
  rewrite E. unfold System.set_req. cbn [System.reqs with_last]. by rewrite set_last.
Qed.

Lemma step_give_back m ts fr p c :
  System.step o (System.HGiveBack (length qs)) (with_last m ts fr p (System.QSlot c)) =
    Some (with_last m ts fr (InferenceLimiter.release p) (System.QLeaving c)).
Proof.
  unfold System.step. change (System.alive (with_last _ _ _ _ _)) with (System.alive s).
  rewrite Ha. cbn [System.reqs System.lim with_last]. rewrite last_set.
  unfold System.set_req. cbn [System.reqs System.lim with_last]. by rewrite set_last.
Qed.

Lemma step_end m ts fr p c old b m' :
  ModelCache.release (length ts) m = (old, b, m') ->
  System.step o (System.HEnd (length qs)) (with_last m ts fr p (System.QLeaving c)) =
    Some (with_last m' (System.spawned m' ts) fr p System.QDone).
Proof.
  intros E. unfold System.step. change (System.alive (with_last _ _ _ _ _)) with (System.alive s).
  rewrite Ha. cbn [System.reqs System.tasks System.cache with_last]. rewrite last_set, E.
  by rewrite set_last.
Qed.
End last.

Lemma request_run s (loads : bool) c m (ok : bool) p old b m' :
  System.alive s = true ->
  ModelCache.acquire (Session.model_path o) (if loads then Some (System.fresh s) else None) (System.cache s) = (Ok c, m) ->
  InferenceLimiter.try_acquire (System.lim s) = (ok, p) ->
  ModelCache.release (length (System.tasks s)) m = (old, b, m') ->
  System.run o (request_steps loads ok (length (System.reqs s))) s =
    Some (with_last s (System.reqs s) m' (System.spawned m' (System.tasks s)) (S (System.fresh s))
            (if ok then InferenceLimiter.release p else p) System.QDone).
Proof.
  intros Ha E1 E2 E3. unfold request_steps. cbn [app].
  assert (System.step o (System.HModel loads) s =
    Some (with_last s (System.reqs s) m (System.tasks s) (S (System.fresh s)) (System.lim s) (System.QModel c))) as H1
    by (unfold System.step; by rewrite Ha, E1).
  rewrite (run_step _ _ _ _ H1), (run_step _ _ _ _ (request_step_slot s _ Ha _ _ _ _ _ _ _ E2)).
  destruct ok; cbn [app].
  - rewrite (run_step _ _ _ _ (step_give_back s _ Ha _ _ _ _ _)).
    by rewrite (run_step _ _ _ _ (step_end s _ Ha _ _ _ _ _ _ _ _ E3)).
  - by rewrite (run_step _ _ _ _ (step_end s _ Ha _ _ _ _ _ _ _ _ E3)).
Qed.

Lemma failed_run s (loads : bool) what m :
  System.alive s = true ->
  ModelCache.acquire (Session.model_path o) (if loads then Some (System.fresh s) else None) (System.cache s) =
    (Throw what, m) ->
  System.run o [System.HModel loads] s =
    Some (System.Sys m (System.clock s) (System.tasks s) (S (System.fresh s)) (System.auth_state s)
            (System.lim s) (System.locals s) (System.reqs s)).
Proof. intros Ha E. apply Transitions.exec_one. unfold System.step. by rewrite Ha, E. Qed.

End proofs.
(** ** Properties *)

(** C12: The request handler refines the request steps of the process.  Whatever the
    request and whatever fails, what the handler does to the authentication state,
    to the inference slots and to the model cache is what a sequence of the
    process's request steps does (authentication, model, slot, and both given
    back), with no request left in progress; so the theorems about the process
    hold with the handler for these steps. *)
Theorem handle_refines_steps {J : JsonLib} o cfg w req s srv :
  System.alive s = true -> same_shared s srv -> fits s w ->
  Session.model_path o = Config.model_path cfg ->
  matched o s (HandleTranscribe.handle_core cfg w req srv).2.
Proof.
  intros Ha Hsame Hfits Hpath. unfold HandleTranscribe.handle_core.
  destruct (HandleTranscribe.authorize cfg w req srv) as [denied srv1] eqn:Eauth.
  destruct (authorize_matched o cfg w req s srv denied srv1 Ha Hsame Eauth)
    as (es & s1 & He & Hrun & Hsame1 & Hl & Hq & Hf & Ht).
  assert (matched o s srv1) as Hearly by (exists es, s1; repeat split; try apply Hsame1; by rewrite ?Hq).
  destruct denied as [x|]; [exact Hearly|].
  destruct (HandleTranscribe.read_request cfg w req) as [x|j]; [exact Hearly|].
  destruct (HandleTranscribe.gate_audio cfg w _) as [x|[[samples|] v]]; [exact Hearly| |exact Hearly].
  assert (System.alive s1 = true) as Ha1 by (unfold System.alive in *; by rewrite Hl).
  destruct (load_flag s w Hfits) as [loads Hload]. destruct Hsame1 as [S1 S2 S3].
  rewrite S3, <- Hpath, Hload, <- Hf.
  destruct (ModelCache.acquire _ _ (System.cache s1)) as [[c|what] m] eqn:E1.
  - pose proof (run_inference_slots cfg w j samples v (HandleTranscribe.slots srv1) (HandleTranscribe.states srv1)) as Hs.
    destruct (HandleTranscribe.run_inference _ _ _ _ _ _ _) as [[[x live] call] p]. cbn [snd] in Hs.
    rewrite S2 in Hs. destruct (InferenceLimiter.try_acquire (System.lim s1)) as [ok p'] eqn:E2.
    rewrite (fits_task _ _ Hfits), <- Ht.
    destruct (ModelCache.release (length (System.tasks s1)) m) as [[old b] m'] eqn:E3.
    exists (es ++ request_steps loads ok (length (System.reqs s1))).
    eexists. split; [apply Forall_app; split; [done|by destruct ok; repeat constructor]|].
    split; [eapply Transitions.exec_trans; [exact Hrun|by apply (request_run o s1 loads c m ok p' old b m')]|].
    repeat split; cbn; try done. rewrite in_progress_done. by rewrite Hq.
  - exists (es ++ [System.HModel loads]). eexists.
    split; [apply Forall_app; split; [done|by repeat constructor]|].
    split; [eapply Transitions.exec_trans; [exact Hrun|by apply (failed_run o s1 loads what)]|].
    repeat split; cbn; try done. by rewrite Hq.
Qed.

(** The configuration of the samples, as the sessions see it. *)
Definition sample_session : Session.opts :=
  Session.Opts (Config.model_path HandleTranscribe.sample_cfg) 5 4 [] 30 F32.zero F32.zero F32.zero F32.zero
    500 [] F32.zero 250 2000 F32.zero 400 F32.zero.

(** The process in the state in which [HandleTranscribe.idle] shows it. *)
Definition sample_state : System.sys :=
  System.Sys ModelCache.init 0 [] 7%nat (AuthManager.mk ∅ true 0 (lit "secret")) (InferenceLimiter.mk 0 4) [] [].

Lemma handle_refines_steps_witness :
  matched (J := TinyJson.lib) sample_session sample_state
    (HandleTranscribe.handle_core HandleTranscribe.sample_cfg HandleTranscribe.sample_env HandleTranscribe.upload
       HandleTranscribe.idle).2.
Proof.
  exact (handle_refines_steps (J := TinyJson.lib) sample_session HandleTranscribe.sample_cfg
    HandleTranscribe.sample_env HandleTranscribe.upload sample_state HandleTranscribe.idle eq_refl
    (Build_same_shared sample_state HandleTranscribe.idle eq_refl eq_refl eq_refl)
    (Build_fits sample_state HandleTranscribe.sample_env (or_intror eq_refl) eq_refl) eq_refl).
Defined.

End SystemRequests.
