(* ===== verification/HandshakeWatchdog.v ===== *)
(** The handshake watchdog, [src/server/HandshakeWatchdog.h], and the lifetime of
    the descriptor it watches in [src/server/SessionHandler.cpp].

    The watchdog thread waits for [disarm] or for its deadline and then, in one
    critical section, tests [armed_] and shuts the descriptor down.  The owner is
    the rest of [handleSession], as the sequence of its relevant actions:
    destructors run in the reverse order of construction. *)

From stdpp Require Import prelude list.
From Stdlib Require Import ZArith Lia.
From S2P Require Import Prelude Transitions.

Module HandshakeWatchdog.

Inductive action :=
| Disarm    (** [disarm()] *)
| CloseFd   (** the stream that owns the descriptor is destroyed *)
| JoinIt.   (** the end of [~HandshakeWatchdog] *)

Record world := World {
  armed : bool;
  waiting : bool;        (** the watchdog thread has not finished *)
  fd_open : bool;
  shutdowns : list bool; (** the forced shutdowns: was the descriptor open? *)
  todo : list action
}.

Inductive event :=
| Own      (** the owner's next action *)
| Wake     (** the watchdog wakes up, notified or spuriously *)
| Timeout. (** its deadline passes *)

Definition step (e : event) (w : world) : option world :=
  match e with
  | Own =>
      match todo w with
      | Disarm :: l => Some (World false (waiting w) (fd_open w) (shutdowns w) l)
      | CloseFd :: l => Some (World (armed w) (waiting w) false (shutdowns w) l)
      | JoinIt :: l => if waiting w then None
                       else Some (World (armed w) false (fd_open w) (shutdowns w) l)
      | [] => None
      end
  | Wake =>
      if waiting w then
        if armed w then Some w
        else Some (World false false (fd_open w) (shutdowns w) (todo w))
      else None
  | Timeout =>
      if waiting w then
        if armed w
        then Some (World false false (fd_open w) (shutdowns w ++ [fd_open w]) (todo w))
        else Some (World false false (fd_open w) (shutdowns w) (todo w))
      else None
  end.

Definition run : list event -> world -> option world := Transitions.exec step.

(** The constructor. *)
Definition start (owner : list action) : world := World true true true [] owner.

(** How [handleSession] can end: the TLS handshake or the read of the request
    fails, the request is answered, or it becomes a WebSocket session, which
    owns the stream. *)
Inductive ending := HandshakeFails | HttpReply | WebSocket.

(** The plain branch: the socket is a parameter of the function, destroyed after
    its local variables; in the TLS branch the stream is a local variable of the
    try block and the socket has been moved into it. *)
Definition owner (tls : bool) (e : ending) : list action :=
  match tls, e with
  | false, HandshakeFails => [Disarm; JoinIt; CloseFd]
  | false, HttpReply => [Disarm; Disarm; JoinIt; CloseFd]
  | false, WebSocket => [Disarm; CloseFd; Disarm; JoinIt]
  | true, HandshakeFails => [CloseFd; Disarm; JoinIt]
  | true, HttpReply => [Disarm; CloseFd; Disarm; JoinIt]
  | true, WebSocket => [Disarm; CloseFd; Disarm; JoinIt]
  end.

(** ** Proofs *)

(** A program that disarms before it closes. *)
Fixpoint disarms_first (l : list action) : bool :=
  match l with
  | [] => true
  | Disarm :: _ => true
  | CloseFd :: _ => false
  | JoinIt :: l => disarms_first l
  end.

Record inv (w : world) : Prop := {
  inv_armed : armed w = true -> fd_open w = true /\ disarms_first (todo w) = true;
  inv_open : Forall (λ b, b = true) (shutdowns w);
  inv_once : (length (shutdowns w) <= (if armed w then 0 else 1))%nat
}.

Lemma watchdog_step_inv e w w' : inv w -> step e w = Some w' -> inv w'.
Proof.
  intros [Ha Ho Hn] H. destruct w as [a wt fd sd td]. cbn in *.
  destruct e; cbn in H.
  - destruct td as [|[] td]; simplify_eq/=.
    + split; cbn; [done|done|]. destruct a; lia.
    + split; cbn; try done. intros Ht. by destruct (Ha Ht) as [_ ?].
    + destruct wt; simplify_eq/=. split; cbn; done.
  - destruct wt, a; simplify_eq/=; done.
  - destruct wt; [|done]. destruct a; simplify_eq/=.
    + destruct (Ha eq_refl) as [-> _]. split; cbn; [done| |].
      * apply Forall_app. by repeat constructor.
      * rewrite length_app. cbn. lia.
    + done.
Qed.

Lemma watchdog_run_inv es w w' : inv w -> run es w = Some w' -> inv w'.
Proof. apply Transitions.exec_invariant. intros e v v'. apply watchdog_step_inv. Qed.

(** ** Properties *)

(** C31: The watchdog hits only its own connection.  Except when a TLS handshake
    or request fails, in every interleaving of the watchdog thread with
    [handleSession] there is at most one forced shutdown and it acts on a
    descriptor that is still open; once [disarm] has run there is none. *)
Theorem watchdog_safe tls e es w :
  (tls = true -> e <> HandshakeFails) -> run es (start (owner tls e)) = Some w ->
  Forall (λ open, open = true) (shutdowns w) /\ (length (shutdowns w) <= 1)%nat /\
  (armed w = false -> forall es' w', run es' w = Some w' -> shutdowns w' = shutdowns w).
Proof.
  intros Hc H.
  assert (inv (start (owner tls e))) as Hs.
  { split; cbn; [|done|lia]. intros _. split; [done|].
    destruct tls, e; try done. by destruct (Hc eq_refl). }
  destruct (watchdog_run_inv _ _ _ Hs H) as [_ Ho Hn].
  split; [done|]. split; [destruct (armed w); lia|]. clear Hs H Ho Hn.
  intros Ha es'. revert w Ha. induction es' as [|ev es' IH]; intros w Ha w' H; cbn -[step] in H;
    [by simplify_eq|].
  apply bind_Some in H as (w1 & H1 & H2).
  assert (armed w1 = false /\ shutdowns w1 = shutdowns w) as [Ha1 <-]; [|by apply (IH w1)].
  destruct w as [a wt fd sd td]. cbn in Ha. subst a.
  destruct ev; cbn in H1; [destruct td as [|[] td]|..]; try destruct wt; by simplify_eq/=.
Qed.

Lemma watchdog_safe_witness :
  exists w, run [Wake; Timeout; Own; Own; Own] (start (owner false HandshakeFails)) = Some w /\
            shutdowns w = [true] /\ Forall (λ open, open = true) (shutdowns w).
Proof.
  eexists. split; [reflexivity|]. split; [reflexivity|].
  refine (proj1 (watchdog_safe false HandshakeFails [Wake; Timeout; Own; Own; Own] _ _ eq_refl)).
  done.
Defined.

(** A failing TLS handshake opens a window.  The TLS stream, which owns the
    descriptor, is destroyed before the watchdog is disarmed: a deadline that
    passes in between shuts down a descriptor number that has been closed and
    may already belong to another connection. *)
Theorem tls_shutdown_after_close :
  exists w, run [Own; Timeout; Own; Own] (start (owner true HandshakeFails)) = Some w /\
            shutdowns w = [false] /\ todo w = [].
Proof. eexists. by repeat split. Qed.

End HandshakeWatchdog.
