(* ===== verification/SessionHandler.v ===== *)
(** One connection from its first byte to the release of its slot:
    [src/server/SessionHandler.cpp], the routes of [buildRouter] in
    [src/server.cpp] and the handlers behind them.

    The TLS handshake, the parser of HTTP requests and the socket are Boost.Beast:
    a [connection] records what they answer.  A WebSocket session is the subject of
    [Session] and [FlushLoop]; here it is any transformation of the shared state. *)

From stdpp Require Import prelude strings list gmap pretty.
From Stdlib Require Import ZArith Lia.
From S2P Require Import Prelude Config ConnectionLimiter SlotPool InferenceLimiter ModelCache.
From S2P Require Import AudioDecoder VadGate AuthManager MultipartParser HttpRouter HandleTranscribe.

Module SessionHandler.
Import HttpRouter.
Import (hints) InferenceLimiter.

Abbreviation tserver := (HandleTranscribe.server (P := InferenceLimiter.t)).

(** What the handlers share: the connection limiter and the rest. *)
Record process := Process { conns : ConnectionLimiter.t; srv : tserver }.

Definition quoted (s : string) : str := [MultipartParser.quote] ++ lit s ++ [MultipartParser.quote].
Definition newline : str := [Ascii.ascii_of_nat 10].

Definition status_doc (s : string) : str :=
  lit "{" ++ quoted "status" ++ lit ": " ++ quoted s ++ lit "}".

Definition HandleHealth : handler (W := process) := λ req p,
  (Ok [Response (version req) 200 (lit "application/json") (status_doc "ok")], p).

Definition HandleReady : handler (W := process) := λ req p,
  let busy := negb (InferenceLimiter.hasCapacity (HandleTranscribe.slots (srv p))) in
  (Ok [Response (version req) (if busy then 503 else 200) (lit "application/json")
         (status_doc (if busy then "busy" else "ready"))], p).

Definition metrics_text (p : process) : str :=
  lit "# HELP transcription_active_inferences Number of concurrent inferences" ++ newline ++
  lit "# TYPE transcription_active_inferences gauge" ++ newline ++
  InferenceLimiter.getMetrics (HandleTranscribe.slots (srv p)) ++
  lit "# HELP transcription_model_loaded Whether the model is currently in memory (1=yes, 0=no)" ++
  newline ++
  lit "# TYPE transcription_model_loaded gauge" ++ newline ++
  ModelCache.getMetrics (HandleTranscribe.models (srv p)) ++
  lit "# HELP transcription_active_connections Number of active WebSocket connections" ++ newline ++
  lit "# TYPE transcription_active_connections gauge" ++ newline ++
  ConnectionLimiter.getMetrics (conns p).

Definition HandleMetrics : handler (W := process) := λ req p,
  (Ok [Response (version req) 200 (lit "text/plain; version=0.0.4") (metrics_text p)], p).

Definition transcriptions (cfg : Config.ServerConfig) (w : HandleTranscribe.env)
    : handler (W := process) := λ req p,
  let '(r, s) := HandleTranscribe.handle cfg w req (srv p) in (r, Process (conns p) s).

Definition buildRouter (cfg : Config.ServerConfig) (w : HandleTranscribe.env) : list (route (W := process)) :=
  add Post (lit "/v1/audio/transcriptions") (transcriptions cfg w)
    (add Get (lit "/metrics") HandleMetrics
      (add Get (lit "/ready") HandleReady
        (add Get (lit "/health") HandleHealth []))).

(** What the outside does to one connection. *)
Record connection := Connection {
  watchdog_starts : bool;    (** the [std::thread] of [HandshakeWatchdog] *)
  tls : bool;
  handshake : result unit;   (** of the TLS stream *)
  incoming : result request; (** the request the peer sends, before the body limit *)
  world : HandleTranscribe.env;
  session : request -> tserver -> result unit * tserver
}.

(** Writing a response to the peer. *)
Definition delivery (c : connection) : result unit := HandleTranscribe.delivery (world c).

(** [http::read] with [parser.body_limit(config.max_upload_bytes)]. *)
Definition read (cfg : Config.ServerConfig) (c : connection) : result request :=
  req ← incoming c;
  if zlen (req_body req) >? Config.max_upload_bytes cfg
  then Throw (lit "body limit exceeded") else Ok req.

Definition write (c : connection) (rs : list response) : result (list response) :=
  match rs with [] => Ok [] | _ => _ ← delivery c; Ok rs end.

Definition send404 (req : request) : response :=
  Response (version req) 404 (lit "application/json")
    (lit "{" ++ quoted "error" ++ lit ":{" ++ quoted "message" ++ lit ":" ++ quoted "Not found" ++
     lit "," ++ quoted "type" ++ lit ":" ++ quoted "not_found" ++ lit "}}").

(** The body of the [try] block: the HTTP responses that reach the peer. *)
Definition serve (cfg : Config.ServerConfig) (c : connection) (p : process)
    : result (list response) * process :=
  match (if tls c then handshake c else Ok tt), read cfg c with
  | Throw e, _ => (Throw e, p)
  | Ok _, Throw e => (Throw e, p)
  | Ok _, Ok req =>
      match dispatch (buildRouter cfg (world c)) req p with
      | (Throw e, p) => (Throw e, p)
      | (Ok (Some rs), p) => (write c rs, p)
      | (Ok None, p) =>
          if negb (upgrade req) then (write c [send404 req], p)
          else let '(r, s) := session c req (srv p) in (_ ← r; Ok [], Process (conns p) s)
      end
  end.

(** The guard of the connection's slot is dropped on every path, and an exception
    of the [try] block is logged and ends the connection.  [None]: the constructor
    of the watchdog, which comes before the [try] block, cannot start its thread; its
    exception leaves the thread function, hence [std::terminate]. *)
Definition handleSession (ip : str) (cfg : Config.ServerConfig) (c : connection) (p : process)
    : option (list response * process) :=
  let guard := ConnectionLimiter.guard_make ip in
  if negb (watchdog_starts c) then None
  else
    let '(r, p) := serve cfg c p in
    Some (match r with Ok rs => rs | Throw _ => [] end,
          Process (ConnectionLimiter.guard_drop guard (conns p)) (srv p)).

(** ** Proofs *)

(** What [dispatch] makes of a handler's answer. *)
Definition answered (x : result (list response) * process) : result (option (list response)) * process :=
  (match x.1 with Ok rs => Ok (Some rs) | Throw e => Throw e end, x.2).

(** The routes, as one case analysis. *)
Lemma dispatch_routes cfg w req p :
  dispatch (buildRouter cfg w) req p =
    match method req with
    | Get =>
        if decide (target req = lit "/health") then answered (HandleHealth req p)
        else if decide (target req = lit "/ready") then answered (HandleReady req p)
        else if decide (target req = lit "/metrics") then answered (HandleMetrics req p)
        else (Ok None, p)
    | Post =>
        if decide (target req = lit "/v1/audio/transcriptions")
        then answered (transcriptions cfg w req p) else (Ok None, p)
    | OtherVerb _ => (Ok None, p)
    end.
Proof.
  unfold buildRouter, add, answered. cbn [app dispatch]. destruct (method req) eqn:Em.
  - repeat (case_decide as Hd; [destruct Hd as [Hm Ht]; try done; rewrite ?Ht; by rewrite ?decide_True by done|]).
    repeat case_decide; naive_solver.
  - repeat (rewrite decide_False by (by intros [? _])). repeat case_decide; try naive_solver.
    by destruct (transcriptions cfg w req p) as [[] ?].
  - by repeat (rewrite decide_False by (by intros [? _])).
Qed.

(** No handler touches the connection limiter. *)
Lemma dispatch_conns cfg w req p : conns (dispatch (buildRouter cfg w) req p).2 = conns p.
Proof.
  rewrite dispatch_routes. unfold answered, transcriptions.
  repeat case_match; naive_solver.
Qed.

Lemma serve_conns cfg c p : conns (serve cfg c p).2 = conns p.
Proof.
  unfold serve. destruct (if tls c then _ else _); [|done]. destruct (read cfg c) as [req|]; [|done].
  pose proof (dispatch_conns cfg (world c) req p) as Hd.
  destruct (dispatch _ req p) as [[[rs|]|e] p']; cbn in Hd; try done.
  destruct (negb (upgrade req)); [done|]. by destruct (session c req (srv p')).
Qed.

Lemma read_ok cfg c req :
  read cfg c = Ok req -> incoming c = Ok req /\ zlen (req_body req) <= Config.max_upload_bytes cfg.
Proof.
  unfold read. destruct (incoming c) as [r|]; cbn; [|done]. zcase; [done|]. intros [= ->]. auto.
Qed.

Lemma write_in c rs rs' x : write c rs = Ok rs' -> x ∈ rs' -> rs' = rs.
Proof. unfold write. destruct rs; [by intros [= <-]|]. destruct (delivery c); cbn; naive_solver. Qed.

(** The transcription handler reports 413 for a body within the limit only when
    the decoded audio is too long. *)
Lemma read_request_413 cfg w req d :
  zlen (req_body req) <= Config.max_upload_bytes cfg ->
  HandleTranscribe.read_request cfg w req = inl (HandleTranscribe.Json 413 d) ->
  exists file samples, AudioDecoder.decoded (HandleTranscribe.ffmpeg w) file = Ok samples /\
    HandleTranscribe.too_long cfg samples = true.
Proof.
  intros Hsz. unfold HandleTranscribe.read_request, HandleTranscribe.temperature_of, HandleTranscribe.parse_temperature.
  intros H. repeat (case_match; try (by simplify_eq)); try (zcase_in H; lia); eauto.
Qed.

Lemma run_inference_413 cfg w j samples v (p : InferenceLimiter.t) live d :
  (HandleTranscribe.run_inference cfg w j samples v p live).1.1.1 <> inl (HandleTranscribe.Json 413 d).
Proof.
  unfold HandleTranscribe.run_inference, with_guard. destruct (try_take p) as [[] q]; cbn [negb]; [|done].
  destruct (HandleTranscribe.state_ok w); cbn [negb]; [|done].
  destruct (HandleTranscribe.whisper w _ samples) as [rc raw]. by destruct (negb (rc =? 0)).
Qed.

Lemma handle_413 cfg w req (s : tserver) rs x :
  zlen (req_body req) <= Config.max_upload_bytes cfg ->
  (HandleTranscribe.handle cfg w req s).1 = Ok rs -> x ∈ rs -> status x = 413 ->
  exists file samples, AudioDecoder.decoded (HandleTranscribe.ffmpeg w) file = Ok samples /\
    HandleTranscribe.too_long cfg samples = true.
Proof.
  intros Hsz Hr Hx Hs.
  assert (exists d, (HandleTranscribe.handle_core cfg w req s).1.1 = HandleTranscribe.Json 413 d) as [d Hd].
  { revert Hr. unfold HandleTranscribe.handle.
    destruct (HandleTranscribe.handle_core cfg w req s) as [[rep call] s']. cbn [fst]. intros Hr.
    pose proof (HandleTranscribe.send_reply_status _ _ _ _ _ Hr Hx) as E. rewrite Hs in E.
    destruct rep as [st d|t]; [|done]. exists d. by rewrite E. }
  clear Hr Hx Hs x rs. revert Hd. unfold HandleTranscribe.handle_core.
  destruct (HandleTranscribe.authorize cfg w req s) as [[rep|] s1] eqn:Ea.
  { intros [= ->]. unfold HandleTranscribe.authorize in Ea. repeat case_match; simplify_eq. }
  destruct (HandleTranscribe.read_request cfg w req) as [rep|j] eqn:Er.
  { intros [= ->]. by eapply read_request_413. }
  destruct (HandleTranscribe.gate_audio cfg w _) as [rep|[[samples|] v]] eqn:Eg.
  - intros [= ->]. unfold HandleTranscribe.gate_audio in Eg. repeat case_match; simplify_eq.
  - destruct (ModelCache.acquire _ _ _) as [[c|e] m]; [|done].
    pose proof (run_inference_413 cfg w j samples v (HandleTranscribe.slots s1) (HandleTranscribe.states s1) d).
    destruct (HandleTranscribe.run_inference _ _ _ _ _ _ _) as [[[r live] call] q].
    destruct (ModelCache.release _ m) as [[old started] m']. cbn in *. intros Hd.
    destruct r as [e|[tx sg]]; [congruence|]. unfold HandleTranscribe.render in Hd. repeat case_match; done.
  - unfold HandleTranscribe.render. cbn. intros Hd. repeat case_match; done.
Qed.

(** A served response comes from a route or is the 404. *)
Lemma serve_response cfg c p rs x :
  (serve cfg c p).1 = Ok rs -> x ∈ rs ->
  exists req, read cfg c = Ok req /\ length rs = 1%nat /\ resp_version x = version req /\
    (status x = 413 -> (HandleTranscribe.handle cfg (world c) req (srv p)).1 = Ok rs).
Proof.
  unfold serve. destruct (if tls c then _ else _); [|done]. destruct (read cfg c) as [req|]; [|done].
  assert (forall y, y ∈ [send404 req] -> resp_version y = version req /\ status y = 404) as H404
    by (intros y ->%list_elem_of_singleton; done).
  intros Hs Hx. exists req. split; [done|]. revert Hs. rewrite dispatch_routes.
  assert (forall p', (if negb (upgrade req) then (write c [send404 req], p')
     else let '(r, s) := session c req (srv p') in (_ ← r; Ok [], Process (conns p') s)).1 = Ok rs ->
    length rs = 1%nat /\ resp_version x = version req /\
    (status x = 413 -> (HandleTranscribe.handle cfg (world c) req (srv p)).1 = Ok rs)) as Hfall.
  { intros p'. destruct (negb (upgrade req)); cbn [fst].
    - intros Hw. pose proof (write_in _ _ _ _ Hw Hx) as ->. apply H404 in Hx as [-> ->]. done.
    - destruct (session c req (srv p')) as [[]]; cbn; [|done]. intros [= <-]. by apply elem_of_nil in Hx. }
  assert (forall y, write c [y] = Ok rs -> x = y /\ rs = [y]) as Hone.
  { intros y Hw. pose proof (write_in _ _ _ _ Hw Hx) as ->. by apply list_elem_of_singleton in Hx. }
  unfold answered, HandleHealth, HandleReady, HandleMetrics, transcriptions.
  destruct (method req) eqn:Em; [repeat case_decide; cbn [fst snd]; [..|apply Hfall]| |apply Hfall].
  1-3: intros [-> ->]%Hone; repeat case_match; done.
  case_decide; [|apply Hfall].
  pose proof (HandleTranscribe.send_one cfg (world c) req (srv p)) as H1.
  destruct (HandleTranscribe.handle cfg (world c) req (srv p)) as [[rs'|e] s'] eqn:Eh; cbn in *; [|done].
  intros Hw. pose proof (write_in _ _ _ _ Hw Hx) as ->. destruct H1 as (y & -> & Hv).
  apply list_elem_of_singleton in Hx as ->. done.
Qed.

(** ** Properties *)

(** C27: A connection gives back its slot.  Whatever the peer sends, whichever
    handler runs and whatever throws, when [handleSession] ends the limiter has
    exactly released the connection's slot; the peer has received at most one
    HTTP response, in the version of its request.  It ends so unless the watchdog's
    thread could not be started, which takes the process down. *)
Theorem handleSession_releases ip cfg c p :
  match handleSession ip cfg c p with
  | Some (rs, p') =>
      conns p' = ConnectionLimiter.release ip (conns p) /\ (length rs <= 1)%nat /\
      forall x, x ∈ rs -> exists req, incoming c = Ok req /\ resp_version x = version req
  | None => watchdog_starts c = false
  end.
Proof.
  unfold handleSession. destruct (watchdog_starts c); cbn [negb]; [|done]. pose proof (serve_conns cfg c p) as Hc.
  pose proof (serve_response cfg c p) as Hr.
  destruct (serve cfg c p) as [[rs|e] p']; cbn in *; rewrite Hc; (split; [done|]).
  - split.
    + destruct rs as [|x rs]; [cbn; lia|]. destruct (Hr _ x eq_refl ltac:(by left)) as (_ & _ & -> & _). lia.
    + intros x Hx. destruct (Hr _ _ eq_refl Hx) as (req & [? _]%read_ok & _ & ? & _). eauto.
  - split; [lia|]. by intros x ?%elem_of_nil.
Qed.

(** An upload over a plain connection, on an otherwise idle server. *)
Definition client : connection :=
  Connection true false (Ok tt) (Ok HandleTranscribe.upload) HandleTranscribe.sample_env
    (λ _ s, (Ok tt, s)).

Definition one_open : process :=
  Process (ConnectionLimiter.tryAcquire (lit "a") false (ConnectionLimiter.init 8 2)).2 HandleTranscribe.idle.

Lemma handleSession_releases_witness :
  exists rs p', handleSession (lit "a") HandleTranscribe.sample_cfg client one_open = Some (rs, p') /\
    status <$> rs = [200] /\ conns p' = ConnectionLimiter.release (lit "a") (conns one_open) /\
    ConnectionLimiter.total (conns p') = 0.
Proof.
  pose proof (handleSession_releases (lit "a") HandleTranscribe.sample_cfg client one_open) as H.
  destruct (handleSession (lit "a") HandleTranscribe.sample_cfg client one_open) as [[rs p']|] eqn:E;
    [|discriminate H].
  exists rs, p'. split; [done|]. split; [|split; [exact (proj1 H)|]].
  - assert (match handleSession (lit "a") HandleTranscribe.sample_cfg client one_open with
            | Some x => bool_decide (status <$> x.1 = [200])
            | None => false
            end = true) as Hs by (vm_compute; reflexivity).
    rewrite E in Hs. exact (bool_decide_eq_true_1 _ Hs).
  - rewrite (proj1 H). by vm_compute.
Defined.

(** C28: The upload limit acts before the handler.  A request whose body exceeds
    [max_upload_bytes] is dropped without any response or effect besides the
    release of the slot; a 413 is only ever sent for audio that decodes to more
    than the maximum duration, so the handler's own size check never fires. *)
Theorem oversized_upload_dropped ip cfg c p :
  (forall req, incoming c = Ok req -> Config.max_upload_bytes cfg < zlen (req_body req) ->
     handleSession ip cfg c p =
       if watchdog_starts c then Some ([], Process (ConnectionLimiter.release ip (conns p)) (srv p)) else None) /\
  (forall rs p' x, handleSession ip cfg c p = Some (rs, p') -> x ∈ rs -> status x = 413 ->
     exists req file samples, incoming c = Ok req /\ zlen (req_body req) <= Config.max_upload_bytes cfg /\
       AudioDecoder.decoded (HandleTranscribe.ffmpeg (world c)) file = Ok samples /\
       HandleTranscribe.too_long cfg samples = true).
Proof.
  split.
  - intros req Hi Hbig. unfold handleSession, serve, read. rewrite Hi. cbn. destruct (watchdog_starts c); [|done].
    cbn. zcase; [|lia]. by destruct (if tls c then handshake c else Ok tt).
  - unfold handleSession. intros rs p' x. destruct (watchdog_starts c); [|done]. cbn [negb].
    destruct (serve cfg c p) as [[rs'|e] q] eqn:Es; cbn; intros [= <- _] Hx Hs; [|by apply elem_of_nil in Hx].
    rename rs' into rs.
    destruct (serve_response cfg c p rs x) as (req & Hr & _ & _ & H413); [by rewrite Es|done|].
    apply read_ok in Hr as [Hi Hsz]. destruct (handle_413 _ _ _ _ _ _ Hsz (H413 Hs) Hx Hs) as (f & sm & ? & ?).
    exists req, f, sm. done.
Qed.

Lemma oversized_upload_dropped_witness :
  handleSession (lit "a") (Config.set_max_upload_bytes 10 HandleTranscribe.sample_cfg) client one_open =
    Some ([], Process (ConnectionLimiter.release (lit "a") (conns one_open)) (srv one_open)).
Proof.
  refine (proj1 (oversized_upload_dropped (lit "a")
    (Config.set_max_upload_bytes 10 HandleTranscribe.sample_cfg) client one_open)
    HandleTranscribe.upload eq_refl _).
  by vm_compute.
Defined.

(** The probes tell the truth and change nothing.  GET /ready answers 200
    exactly when an inference started at that moment would get a slot, 503
    otherwise; it and the other probes leave the process as it is. *)
Theorem ready_iff_slot cfg w req p :
  method req = Get -> target req ∈ [lit "/health"; lit "/ready"; lit "/metrics"] ->
  exists x, dispatch (buildRouter cfg w) req p = (Ok (Some [x]), p) /\
    (target req = lit "/ready" ->
     status x = if (InferenceLimiter.try_acquire (HandleTranscribe.slots (srv p))).1 then 200 else 503).
Proof.
  intros Hm Ht. rewrite dispatch_routes, Hm. unfold answered.
  rewrite !elem_of_cons, elem_of_nil in Ht.
  assert (lit "/health" <> lit "/ready") as N1 by done. assert (lit "/metrics" <> lit "/ready") as N2 by done.
  repeat case_decide; [..|naive_solver]; (eexists; split; [reflexivity|]); intros Hr; [congruence| |congruence].
  cbn [status]. unfold InferenceLimiter.try_acquire, InferenceLimiter.hasCapacity. by destruct (_ <? _).
Qed.

Definition ready_request : request := Request Get (lit "/ready") 11 [] [] [] false.

Lemma ready_iff_slot_witness :
  exists x, dispatch (buildRouter HandleTranscribe.sample_cfg HandleTranscribe.sample_env) ready_request
              (Process (conns one_open) HandleTranscribe.saturated) =
            (Ok (Some [x]), Process (conns one_open) HandleTranscribe.saturated) /\ status x = 503.
Proof.
  destruct (ready_iff_slot HandleTranscribe.sample_cfg HandleTranscribe.sample_env ready_request
              (Process (conns one_open) HandleTranscribe.saturated) eq_refl) as (x & Hx & Hs).
  { right. left. }
  exists x. split; [exact Hx|]. rewrite (Hs eq_refl). by vm_compute.
Defined.

End SessionHandler.
