(* ===== verification/Server.v ===== *)
(** The process of [src/server.cpp]: the accept loop of [main], the session threads
    it keeps, the signal handler, the thread that refreshes the trusted proxies
    and the shutdown, with [src/server/SessionTracker.h].

    A session thread runs [SessionHandler.handleSession]; what matters here is when
    it owns a [StreamingSession], which registers itself with the tracker, and
    when it returns, which releases its slot.  A session is named by its index in
    [session_threads]. *)

From stdpp Require Import prelude strings list gmap gmultiset.
From Stdlib Require Import ZArith Lia.
From S2P Require Import Prelude Transitions Config ConnectionLimiter TrustedProxyResolver.

Module Server.

Inductive stage :=
| Handling    (** in [handleSession], before a [StreamingSession] exists *)
| Streaming   (** its [StreamingSession] exists *)
| Closing     (** the [StreamingSession] has been destroyed *)
| Finished.   (** the thread's function has returned *)

Record thread := Thread { peer : str; at_stage : stage }.

Inductive phase_t :=
| Accepting       (** in the accept loop *)
| Joining         (** the loop has ended *)
| Exited          (** every thread was joined *)
| ForcedExit      (** the shutdown watchdog called [std::exit(0)] *)
| Terminated.     (** an exception left the [try] block with joinable threads alive *)

#[export] Instance stage_eq_dec : EqDecision stage.
Proof. solve_decision. Defined.
#[export] Instance phase_eq_dec : EqDecision phase_t.
Proof. solve_decision. Defined.

(** [SessionTracker]; [shut] are the sessions [shutdown()] was called on. *)
Record tracker_t := Tracker { sessions_ : gset nat; shut : gset nat }.

Definition tracker_add (i : nat) (t : tracker_t) : tracker_t := Tracker ({[i]} ∪ sessions_ t) (shut t).
Definition tracker_remove (i : nat) (t : tracker_t) : tracker_t := Tracker (sessions_ t ∖ {[i]}) (shut t).
Definition shutdownAll (t : tracker_t) : tracker_t := Tracker (sessions_ t) (sessions_ t ∪ shut t).

Record world := World {
  phase : phase_t;
  acceptor_open : bool;
  stop_trusted_refresh : bool;
  trusted_resolver : TrustedProxyResolver.t;
  limiter : ConnectionLimiter.t;
  tracker : tracker_t;
  session_threads : list thread
}.

Definition set_phase (p : phase_t) (w : world) : world :=
  World p (acceptor_open w) (stop_trusted_refresh w) (trusted_resolver w) (limiter w) (tracker w)
    (session_threads w).
Definition set_sessions (l : ConnectionLimiter.t) (t : tracker_t) (ts : list thread) (w : world) : world :=
  World (phase w) (acceptor_open w) (stop_trusted_refresh w) (trusted_resolver w) l t ts.

Inductive accept_error := Aborted | Interrupted | OtherError.

Inductive event :=
| Connect (client_ip : option str) (spawned : bool)
    (** [accept] returns a connection; [None]: [remote_endpoint] throws because
        the peer is already gone; [spawned]: a thread could be created *)
| AcceptFails (e : accept_error)
| Begin (i : nat)       (** thread [i] constructs its [StreamingSession] *)
| End (i : nat)         (** ... and destroys it *)
| Return (i : nat)      (** thread [i] returns from [handleSession] *)
| Refresh (answers : list (list str))
| Signal                (** the handler of [async_wait] runs *)
| JoinAll               (** the main thread has joined every thread *)
| ShutdownTimeout.

(** The head of [while (acceptor.is_open())]. *)
Definition loop_head (w : world) : world :=
  if acceptor_open w then w else set_phase Joining w.

Definition on_connect (client_ip : option str) (spawned : bool) (w : world) : world :=
  match client_ip with
  | None => set_phase Terminated w
  | Some ip =>
      let trusted := TrustedProxyResolver.isTrusted ip (trusted_resolver w) in
      let '(ok, l) := ConnectionLimiter.tryAcquire ip trusted (limiter w) in
      loop_head
        (if negb ok then set_sessions l (tracker w) (session_threads w) w
         else if spawned
         then set_sessions l (tracker w) (session_threads w ++ [Thread ip Handling]) w
         else set_sessions (ConnectionLimiter.release ip l) (tracker w) (session_threads w) w)
  end.

Definition on_signal (w : world) : world :=
  World (phase w) false true (trusted_resolver w) (limiter w) (shutdownAll (tracker w))
    (session_threads w).

(** May [main] have joined everything?  The refresh thread only ends once the
    signal handler has set its flag. *)
Definition joinable_done (w : world) : bool :=
  forallb (λ t, bool_decide (at_stage t = Finished)) (session_threads w) &&
  (stop_trusted_refresh w || negb (TrustedProxyResolver.enabled (trusted_resolver w))).

Definition running (w : world) : bool := bool_decide (phase w = Accepting \/ phase w = Joining).

Definition step (e : event) (w : world) : option world :=
  if negb (running w) then None
  else
    match e with
    | Connect ip spawned => if decide (phase w = Accepting) then Some (on_connect ip spawned w) else None
    | AcceptFails e =>
        if decide (phase w = Accepting) then
          Some (match e with OtherError => loop_head w | _ => set_phase Joining w end)
        else None
    | Begin i =>
        match session_threads w !! i with
        | Some (Thread ip Handling) =>
            Some (set_sessions (limiter w) (tracker_add i (tracker w))
                    (<[i := Thread ip Streaming]> (session_threads w)) w)
        | _ => None
        end
    | End i =>
        match session_threads w !! i with
        | Some (Thread ip Streaming) =>
            Some (set_sessions (limiter w) (tracker_remove i (tracker w))
                    (<[i := Thread ip Closing]> (session_threads w)) w)
        | _ => None
        end
    | Return i =>
        match session_threads w !! i with
        | Some (Thread ip Handling) | Some (Thread ip Closing) =>
            Some (set_sessions (ConnectionLimiter.release ip (limiter w)) (tracker w)
                    (<[i := Thread ip Finished]> (session_threads w)) w)
        | _ => None
        end
    | Refresh answers =>
        Some (World (phase w) (acceptor_open w) (stop_trusted_refresh w)
                (TrustedProxyResolver.refresh answers (trusted_resolver w)) (limiter w) (tracker w)
                (session_threads w))
    | Signal => if stop_trusted_refresh w then None else Some (on_signal w)
    | JoinAll =>
        if decide (phase w = Joining) then
          if joinable_done w then Some (set_phase Exited w) else None
        else None
    | ShutdownTimeout => if decide (phase w = Joining) then Some (set_phase ForcedExit w) else None
    end.

Definition run : list event -> world -> option world := Transitions.exec step.

(** [main] up to the loop. *)
Definition start (cfg : Config.ServerConfig) : world :=
  World Accepting true false (TrustedProxyResolver.make (Config.trusted_proxy_hosts cfg))
    (ConnectionLimiter.init (Config.max_connections cfg) (Config.max_connections_per_ip cfg))
    (Tracker ∅ ∅) [].

(** ** Proofs *)

(** The address whose slot a thread still holds. *)
Definition held (t : thread) : option str :=
  match at_stage t with Finished => None | _ => Some (peer t) end.

Definition open_from (ts : list thread) : gmultiset str := list_to_set_disj (omap held ts).

Lemma open_from_snoc ts t :
  open_from (ts ++ [t]) = from_option (λ ip, {[+ ip +]}) ∅ (held t) ⊎ open_from ts.
Proof.
  unfold open_from. rewrite omap_app, list_to_set_disj_app. cbn [omap list_omap].
  destruct (held t) as [ip|]; cbn [from_option list_to_set_disj];
    rewrite !(right_id_L ∅ (⊎)), ?(left_id_L ∅ (⊎)); [apply (comm_L (⊎))|done].
Qed.

Lemma open_from_insert ts i t t' :
  ts !! i = Some t ->
  exists rest, open_from ts = from_option (λ ip, {[+ ip +]}) ∅ (held t) ⊎ rest /\
               open_from (<[i := t']> ts) = from_option (λ ip, {[+ ip +]}) ∅ (held t') ⊎ rest.
Proof.
  intros Hi. exists (open_from (take i ts ++ drop (S i) ts)).
  assert (i < length ts)%nat as Hl by (by apply lookup_lt_Some in Hi).
  assert (forall u, open_from (take i ts ++ u :: drop (S i) ts) =
    from_option (λ ip, {[+ ip +]}) ∅ (held u) ⊎ open_from (take i ts ++ drop (S i) ts)) as Hm.
  { intros u. unfold open_from. rewrite !omap_app, !list_to_set_disj_app. cbn [omap list_omap].
    destruct (held u); cbn [from_option list_to_set_disj]; [|by rewrite (left_id_L ∅ (⊎))].
    by rewrite !(assoc_L (⊎)), (comm_L (⊎) {[+ _ +]}). }
  split.
  - rewrite <- (take_drop_middle ts i t Hi) at 1. apply Hm.
  - rewrite insert_take_drop by done. apply Hm.
Qed.

(** The limiter holds exactly the slots [X], within its caps; [pure] says that no
    address is trusted. *)
Record slots_ok (mt mp : Z) (pure : Prop) (l : ConnectionLimiter.t) (X : gmultiset str) : Prop := {
  sl_rep : ConnectionLimiter.represents l X;
  sl_mt : ConnectionLimiter.max_total l = mt;
  sl_mp : ConnectionLimiter.max_per_ip l = mp;
  sl_total : ConnectionLimiter.total l <= mt;
  sl_ip : pure -> forall ip, ConnectionLimiter.count_of l ip <= mp
}.

Lemma slots_acquire mt mp pure l X ip trusted :
  slots_ok mt mp pure l X -> (pure -> trusted = false) ->
  slots_ok mt mp pure (ConnectionLimiter.tryAcquire ip trusted l).2
    (if (ConnectionLimiter.tryAcquire ip trusted l).1 then {[+ ip +]} ⊎ X else X).
Proof.
  intros [Hr <- <- Ht Hi] Hp.
  pose proof (ConnectionLimiter.tryAcquire_refines l X ip trusted) as Ha.
  pose proof (λ a, ConnectionLimiter.apply_caps l X (ConnectionLimiter.Accept ip trusted)
    (ConnectionLimiter.tryAcquire ip trusted l).2
    (if (ConnectionLimiter.tryAcquire ip trusted l).1 then {[+ ip +]} ⊎ X else X) a Hr) as Hc.
  unfold ConnectionLimiter.apply in Hc.
  destruct (ConnectionLimiter.tryAcquire ip trusted l) as [ok l'].
  destruct (Ha _ _ Hr eq_refl) as (_ & ? & ? & ?).
  split; [done|done|done| |].
  - by apply (Hc ip eq_refl).
  - intros HP a. apply (Hc a eq_refl); [|by apply Hi]. rewrite (Hp HP). by intros [].
Qed.

Lemma slots_release mt mp pure l ip X :
  slots_ok mt mp pure l ({[+ ip +]} ⊎ X) -> slots_ok mt mp pure (ConnectionLimiter.release ip l) X.
Proof.
  intros [Hr <- <- Ht Hi].
  assert (ip ∈ {[+ ip +]} ⊎ X) as Hin by (apply gmultiset_elem_of_disj_union; left; by apply gmultiset_elem_of_singleton).
  assert (({[+ ip +]} ⊎ X) ∖ {[+ ip +]} = X) as HX.
  { apply gmultiset_eq. intros a. rewrite multiplicity_difference, multiplicity_disj_union. lia. }
  assert (ConnectionLimiter.apply (ConnectionLimiter.Close ip) (l, {[+ ip +]} ⊎ X) =
    Some (ConnectionLimiter.release ip l, X)) as Ha.
  { unfold ConnectionLimiter.apply. rewrite decide_True by done. by rewrite HX. }
  pose proof (λ a, ConnectionLimiter.apply_caps _ _ _ _ _ a Hr Ha) as Hc.
  pose proof (ConnectionLimiter.apply_inv _ _ _ _ _ Hr Ha) as (? & ? & ?).
  split; [done|done|done| |].
  - by apply (Hc []).
  - intros HP a. apply (Hc a); [by intros []|by apply Hi].
Qed.

Record inv (mt mp : Z) (hs : list str) (w : world) : Prop := {
  inv_slots : slots_ok mt mp (hs = []) (limiter w) (open_from (session_threads w));
  inv_tracker : forall i, i ∈ sessions_ (tracker w) <->
                          exists ip, session_threads w !! i = Some (Thread ip Streaming);
  inv_hosts : TrustedProxyResolver.hosts (trusted_resolver w) = hs
}.

(** The control components play no part in the invariant. *)
Lemma inv_control mt mp hs w w' :
  inv mt mp hs w -> limiter w' = limiter w -> session_threads w' = session_threads w ->
  sessions_ (tracker w') = sessions_ (tracker w) ->
  TrustedProxyResolver.hosts (trusted_resolver w') = hs -> inv mt mp hs w'.
Proof. intros [] El Es Et Eh. split; [by rewrite El, Es|by rewrite Es, Et|done]. Qed.

Lemma loop_head_inv mt mp hs w : inv mt mp hs w -> inv mt mp hs (loop_head w).
Proof.
  intros H. unfold loop_head. destruct (acceptor_open w); [done|].
  apply (inv_control _ _ _ w); try done. apply H.
Qed.

Lemma on_connect_inv mt mp hs ip spawned w : inv mt mp hs w -> inv mt mp hs (on_connect ip spawned w).
Proof.
  intros H. unfold on_connect. destruct ip as [ip|];
    [|apply (inv_control _ _ _ w); try done; apply H].
  destruct H as [Hs Ht Hh].
  pose proof (slots_acquire _ _ _ _ _ ip (TrustedProxyResolver.isTrusted ip (trusted_resolver w)) Hs) as Ha.
  assert (hs = [] -> TrustedProxyResolver.isTrusted ip (trusted_resolver w) = false) as Hp.
  { intros E. unfold TrustedProxyResolver.isTrusted. rewrite Hh. by rewrite decide_True by done. }
  specialize (Ha Hp). destruct (ConnectionLimiter.tryAcquire _ _ _) as [ok l]. cbn [fst snd] in Ha.
  apply loop_head_inv. destruct ok; cbn [negb]; [|by split].
  destruct spawned; (split; cbn [set_sessions limiter session_threads tracker trusted_resolver]; [|..|done]).
  - rewrite open_from_snoc. exact Ha.
  - intros i. rewrite Ht. split; intros [a Hi]; exists a.
    + by apply lookup_app_l_Some.
    + apply lookup_app_Some in Hi as [?|[_ Hi]]; [done|].
      apply list_lookup_singleton_Some in Hi as [_ ?]. done.
  - by apply slots_release in Ha.
  - done.
Qed.

(** A thread that moves on: its slot and its registration follow its stage. *)
Lemma thread_inv mt mp hs w i ip st st' t' l' :
  inv mt mp hs w -> session_threads w !! i = Some (Thread ip st) ->
  l' = (if decide (st' = Finished) then ConnectionLimiter.release ip (limiter w) else limiter w) ->
  st <> Finished ->
  (forall j, j ∈ sessions_ t' <-> if decide (j = i) then st' = Streaming else j ∈ sessions_ (tracker w)) ->
  inv mt mp hs (set_sessions l' t' (<[i := Thread ip st']> (session_threads w)) w).
Proof.
  intros [Hs Ht Hh] Hi -> Hne Htr. pose proof (lookup_lt_Some _ _ _ Hi) as Hlt.
  split; cbn [set_sessions limiter session_threads tracker trusted_resolver]; [| |done].
  - destruct (open_from_insert _ _ _ (Thread ip st') Hi) as (rest & E & ->). rewrite E in Hs.
    assert (held (Thread ip st) = Some ip) as Eh by (by destruct st). rewrite Eh in Hs. cbn in Hs.
    case_decide as Hf.
    + subst st'. change (from_option _ ∅ (held (Thread ip Finished))) with (∅ : gmultiset str).
      rewrite (left_id_L ∅ (⊎)). by apply slots_release.
    + by destruct st'.
  - intros j. rewrite Htr. case_decide as E; [subst j|].
    + rewrite list_lookup_insert_eq by done. split; [intros ->; eauto|]. by intros (a & [= _ ->]).
    + by rewrite list_lookup_insert_ne, Ht by done.
Qed.

Lemma server_step_inv mt mp hs e w w' : inv mt mp hs w -> step e w = Some w' -> inv mt mp hs w'.
Proof.
  intros H Hst. unfold step in Hst. destruct (negb (running w)); [done|].
  pose proof (inv_tracker _ _ _ _ H) as Ht.
  destruct e.
  - case_decide; [|done]. injection Hst as <-. by apply on_connect_inv.
  - case_decide; [|done]. injection Hst as <-.
    destruct e; [| |by apply loop_head_inv]; apply (inv_control _ _ _ w); try done; apply H.
  - destruct (session_threads w !! i) as [[ip []]|] eqn:Hi; try done. injection Hst as <-.
    eapply thread_inv; [done|done|done|done|]. intros j. cbn. case_decide; set_solver.
  - destruct (session_threads w !! i) as [[ip []]|] eqn:Hi; try done. injection Hst as <-.
    eapply thread_inv; [done|done|done|done|]. intros j. cbn. case_decide; set_solver.
  - destruct (session_threads w !! i) as [[ip []]|] eqn:Hi; try done; injection Hst as <-.
    all: refine (thread_inv _ _ _ _ _ _ _ Finished _ _ H Hi _ _ _); [done|done|].
    all: intros j; case_decide; [subst|done]; rewrite Ht, Hi; naive_solver.
  - injection Hst as <-. apply (inv_control _ _ _ w); try done. cbn.
    unfold TrustedProxyResolver.refresh. rewrite <- (inv_hosts _ _ _ _ H). by case_decide.
  - destruct (stop_trusted_refresh w); [done|]. injection Hst as <-.
    apply (inv_control _ _ _ w); try done. apply H.
  - case_decide; [|done]. destruct (joinable_done w); [|done]. injection Hst as <-.
    apply (inv_control _ _ _ w); try done. apply H.
  - case_decide; [|done]. injection Hst as <-. apply (inv_control _ _ _ w); try done. apply H.
Qed.

Lemma server_run_inv mt mp hs es w w' : inv mt mp hs w -> run es w = Some w' -> inv mt mp hs w'.
Proof. apply Transitions.exec_invariant. intros e v v'. apply server_step_inv. Qed.

Lemma server_start_inv cfg :
  0 <= Config.max_connections cfg -> 0 <= Config.max_connections_per_ip cfg ->
  inv (Config.max_connections cfg) (Config.max_connections_per_ip cfg)
    (TrustedProxyResolver.hosts (TrustedProxyResolver.make (Config.trusted_proxy_hosts cfg))) (start cfg).
Proof.
  intros ??. split; [split|..]; [apply ConnectionLimiter.init_represents|done..| |done].
  cbn. intros i. rewrite lookup_nil. set_solver.
Qed.

Lemma size_of_list (l : list str) : Z.of_nat (size (list_to_set_disj l : gmultiset str)) = zlen l.
Proof.
  induction l as [|x l IH]; [done|]. cbn [list_to_set_disj].
  rewrite gmultiset_size_disj_union, gmultiset_size_singleton, zlen_cons, <- IH. lia.
Qed.

Lemma multiplicity_of_list ip (l : list str) :
  multiplicity ip (list_to_set_disj l : gmultiset str) = length (filter (λ x, x = ip) l).
Proof.
  induction l as [|x l IH]; [apply multiplicity_empty|]. cbn [list_to_set_disj].
  rewrite multiplicity_disj_union, filter_cons, IH. case_decide as E; cbn [length].
  - rewrite E, multiplicity_singleton_eq. lia.
  - by rewrite multiplicity_singleton_ne by congruence.
Qed.

Lemma on_connect_threads ip spawned w :
  session_threads w `prefix_of` session_threads (on_connect ip spawned w) /\
  tracker (on_connect ip spawned w) = tracker w /\
  stop_trusted_refresh (on_connect ip spawned w) = stop_trusted_refresh w /\
  (phase w = Accepting -> phase (on_connect ip spawned w) <> Exited).
Proof.
  unfold on_connect, loop_head. destruct ip as [ip|]; [|by repeat split; try done; exists []; rewrite app_nil_r].
  destruct (ConnectionLimiter.tryAcquire _ _ _) as [[] l]; cbn; destruct spawned; cbn;
    destruct (acceptor_open w); cbn; repeat split; try done; try congruence;
    first [by exists []; rewrite app_nil_r | by eexists].
Qed.

Ltac stable := cbn; repeat split; intros; try done; try congruence; eauto.

(** What no step undoes: a thread stays in the vector, the signal stays handled
    and no further session is shut down, and [Exited] is entered only when
    everything has been joined. *)
Lemma step_stable e w w' :
  step e w = Some w' ->
  (forall i t, session_threads w !! i = Some t -> is_Some (session_threads w' !! i)) /\
  (stop_trusted_refresh w = true -> stop_trusted_refresh w' = true /\ shut (tracker w') = shut (tracker w)) /\
  (stop_trusted_refresh w' = false -> shut (tracker w') = shut (tracker w) /\ stop_trusted_refresh w = false) /\
  (phase w' = Exited -> joinable_done w' = true).
Proof.
  unfold step. destruct (negb (running w)) eqn:Er; [done|].
  assert (phase w <> Exited) as Hx.
  { intros E. apply negb_false_iff, bool_decide_eq_true in Er as [?|?]; congruence. }
  assert (forall i (k : nat) u t, session_threads w !! i = Some t ->
    is_Some (<[k := u]> (session_threads w) !! i)) as Hins.
  { intros i k u t Hi. apply lookup_lt_is_Some. rewrite length_insert. by apply lookup_lt_Some in Hi. }
  destruct e.
  - case_decide; [|done]. intros [= <-].
    destruct (on_connect_threads client_ip spawned w) as ([k E] & Et & Es & Hp). rewrite E, Et, Es.
    repeat split; try done; [|by intros ?%Hp].
    intros i t Hi. exists t. by apply lookup_app_l_Some.
  - case_decide; [|done]. intros [= <-].
    destruct e; unfold loop_head; try destruct (acceptor_open w); stable.
  - destruct (session_threads w !! i) as [[ip []]|]; try done. intros [= <-]. stable.
  - destruct (session_threads w !! i) as [[ip []]|]; try done. intros [= <-]. stable.
  - destruct (session_threads w !! i) as [[ip []]|]; try done; intros [= <-]; stable.
  - intros [= <-]. stable.
  - destruct (stop_trusted_refresh w); [done|]. intros [= <-]. stable.
  - case_decide; [|done]. destruct (joinable_done w) eqn:Ej; [|done]. intros [= <-]. stable.
  - case_decide; [|done]. intros [= <-]. stable.
Qed.

Lemma run_stable es : forall w w',
  run es w = Some w' ->
  (forall i t, session_threads w !! i = Some t -> is_Some (session_threads w' !! i)) /\
  (stop_trusted_refresh w = true -> shut (tracker w') = shut (tracker w)) /\
  (stop_trusted_refresh w' = false -> shut (tracker w') = shut (tracker w) /\ stop_trusted_refresh w = false) /\
  (phase w <> Exited -> phase w' = Exited -> joinable_done w' = true).
Proof.
  induction es as [|e es IH]; intros w w' H; cbn -[step] in H; [simplify_eq; by repeat split; eauto|].
  apply bind_Some in H as (w1 & H1 & H2).
  destruct (IH _ _ H2) as (A1 & A2 & A3 & A4). destruct (step_stable _ _ _ H1) as (B1 & B2 & B3 & B4).
  repeat split.
  - intros i t [t1 Ht]%B1. by eapply A1.
  - intros E. destruct (B2 E) as [? <-]. by apply A2.
  - destruct (A3 H) as [-> E]. by apply B3.
  - destruct (A3 H) as [_ E]. by apply B3.
  - intros _ E. destruct (decide (phase w1 = Exited)) as [Ex|]; [|by apply A4].
    destruct es as [|e' es]; cbn -[step] in H2; [injection H2 as <-; by apply B4|].
    unfold step, running in H2. rewrite Ex, (bool_decide_eq_false_2 _) in H2 by naive_solver. done.
Qed.

Lemma run_app es es' w : run (es ++ es') w = run es w ≫= run es'.
Proof. apply Transitions.exec_app. Qed.

Lemma joinable_done_finished w i t :
  joinable_done w = true -> session_threads w !! i = Some t -> at_stage t = Finished.
Proof.
  unfold joinable_done. intros [Hf _]%andb_true_iff Hi. rewrite forallb_forall in Hf.
  specialize (Hf t). rewrite bool_decide_eq_true in Hf. apply Hf.
  by apply list_elem_of_In, (list_elem_of_lookup_2 _ i).
Qed.

(** [n] clients that connect and leave one after the other. *)
Fixpoint visits (ip : str) (n : nat) : list event :=
  match n with O => [] | S n => visits ip n ++ [Connect (Some ip) true; Return n] end.

Lemma step_admit ip w l :
  phase w = Accepting -> acceptor_open w = true ->
  ConnectionLimiter.tryAcquire ip (TrustedProxyResolver.isTrusted ip (trusted_resolver w)) (limiter w) = (true, l) ->
  step (Connect (Some ip) true) w =
    Some (set_sessions l (tracker w) (session_threads w ++ [Thread ip Handling]) w).
Proof.
  intros Hp Ho Ha. unfold step, running, on_connect. rewrite Hp, Ha, bool_decide_eq_true_2 by auto.
  cbn [negb]. rewrite decide_True by done. unfold loop_head. cbn [acceptor_open set_sessions]. by rewrite Ho.
Qed.

Lemma step_return i w ip :
  phase w = Accepting -> session_threads w !! i = Some (Thread ip Handling) ->
  step (Return i) w =
    Some (set_sessions (ConnectionLimiter.release ip (limiter w)) (tracker w)
            (<[i := Thread ip Finished]> (session_threads w)) w).
Proof. intros Hp Hi. unfold step, running. by rewrite Hp, Hi, bool_decide_eq_true_2 by auto. Qed.

Lemma visits_run cfg ip n :
  1 <= Config.max_connections cfg -> 1 <= Config.max_connections_per_ip cfg ->
  exists w, run (visits ip n) (start cfg) = Some w /\ phase w = Accepting /\ acceptor_open w = true /\
    session_threads w = replicate n (Thread ip Finished) /\
    ConnectionLimiter.represents (limiter w) ∅ /\
    ConnectionLimiter.max_total (limiter w) = Config.max_connections cfg /\
    ConnectionLimiter.max_per_ip (limiter w) = Config.max_connections_per_ip cfg.
Proof.
  intros Ht Hp. induction n as [|n (w & Hw & Hph & Ho & Hs & Hr & E1 & E2)].
  { exists (start cfg). repeat split; cbn; done || apply multiplicity_empty. }
  destruct (ConnectionLimiter.tryAcquire ip (TrustedProxyResolver.isTrusted ip (trusted_resolver w))
              (limiter w)) as [ok l] eqn:Ea.
  destruct (ConnectionLimiter.tryAcquire_refines _ _ _ _ _ _ Hr Ea) as (-> & Hr' & F1 & F2).
  unfold ConnectionLimiter.SlotSpec_admits in *.
  rewrite gmultiset_size_empty, multiplicity_empty, E1, E2 in *.
  rewrite (proj2 (Z.ltb_lt _ (Config.max_connections cfg))) in * by lia.
  rewrite (proj2 (Z.ltb_lt _ (Config.max_connections_per_ip cfg))), orb_true_r in * by lia. cbn [andb] in *.
  cbn [visits]. rewrite run_app, Hw. cbn [mbind option_bind run Transitions.exec]. unfold run. cbn [Transitions.exec].
  rewrite (step_admit _ _ l), Hs by done. cbn [mbind option_bind].
  rewrite (step_return _ _ ip);
    [|done|cbn; by rewrite lookup_app_r, length_replicate, Nat.sub_diag by (rewrite length_replicate; lia)].
  eexists. split; [reflexivity|]. cbn [set_sessions phase acceptor_open session_threads limiter].
  split; [done|]. split; [done|]. split; [|split; [|by rewrite <- F1, <- F2]].
  - rewrite insert_app_r_alt, length_replicate, Nat.sub_diag by (rewrite length_replicate; lia).
    cbn. by rewrite replicate_cons_app.
  - pose proof (ConnectionLimiter.release_refines _ _ ip Hr') as Hrel.
    replace (({[+ ip +]} ⊎ ∅) ∖ {[+ ip +]}) with (∅ : gmultiset str) in Hrel.
    { apply Hrel, gmultiset_elem_of_disj_union. left. by apply gmultiset_elem_of_singleton. }
    symmetry. apply gmultiset_eq. intros a. rewrite multiplicity_difference, multiplicity_disj_union. lia.
Qed.

(** ** Properties *)

(** C15: Slots are the live connections.  In every reachable state of the process
    the limiter counts exactly the threads that have not returned, in total and
    by address; they are at most [max_connections], and at most
    [max_connections_per_ip] for each address when no proxy is trusted; the
    session tracker holds exactly the sessions that exist; and after a clean
    shutdown every slot is free and no session is registered. *)
Theorem slots_match_threads cfg es w :
  0 <= Config.max_connections cfg -> 0 <= Config.max_connections_per_ip cfg ->
  run es (start cfg) = Some w ->
  let open := omap held (session_threads w) in
  ConnectionLimiter.total (limiter w) = zlen open /\
  (forall ip, ConnectionLimiter.count_of (limiter w) ip = zlen (filter (λ x, x = ip) open)) /\
  zlen open <= Config.max_connections cfg /\
  (TrustedProxyResolver.hosts (TrustedProxyResolver.make (Config.trusted_proxy_hosts cfg)) = [] ->
   forall ip, zlen (filter (λ x, x = ip) open) <= Config.max_connections_per_ip cfg) /\
  (forall i, i ∈ sessions_ (tracker w) <-> exists ip, session_threads w !! i = Some (Thread ip Streaming)) /\
  (phase w = Exited -> open = [] /\ sessions_ (tracker w) = ∅).
Proof.
  intros Hc Hi Hr open.
  destruct (server_run_inv _ _ _ _ _ _ (server_start_inv cfg Hc Hi) Hr) as [[[Ht Hm] _ _ Hcap Hip] Htr _].
  destruct (run_stable _ _ _ Hr) as (_ & _ & _ & Hx).
  unfold open_from in *. fold open in Ht, Hm.
  assert (forall ip, ConnectionLimiter.count_of (limiter w) ip = zlen (filter (λ x, x = ip) open)) as Hn
    by (intros ip; by rewrite Hm, multiplicity_of_list).
  rewrite size_of_list in Ht. split; [done|]. split; [done|]. split; [lia|].
  split; [intros E ip; rewrite <- Hn; by apply Hip|]. split; [done|].
  intros E. pose proof (joinable_done_finished w) as Hf. rewrite (Hx ltac:(done) E) in Hf. split.
  - apply elem_of_nil_inv. intros ip (t & (j & Hj)%list_elem_of_lookup & Hh)%list_elem_of_omap.
    specialize (Hf j t eq_refl Hj). unfold held in Hh. by rewrite Hf in Hh.
  - apply set_eq. intros j. rewrite Htr. split; [|set_solver].
    intros (ip & Hj). by specialize (Hf _ _ eq_refl Hj).
Qed.

Definition one_session : list event :=
  [Connect (Some (lit "a")) true; Begin 0; Signal; AcceptFails Aborted; End 0; Return 0; JoinAll].

Lemma slots_match_threads_witness :
  exists w, run one_session (start Config.defaults) = Some w /\ phase w = Exited /\
    omap held (session_threads w) = [] /\ sessions_ (tracker w) = ∅.
Proof.
  destruct (run one_session (start Config.defaults)) as [w|] eqn:E; [|by vm_compute in E].
  assert (0 <= Config.max_connections Config.defaults) as H1 by done.
  assert (0 <= Config.max_connections_per_ip Config.defaults) as H2 by done.
  assert (phase w = Exited) as Hp.
  { enough (phase <$> run one_session (start Config.defaults) = Some Exited) as H
      by (rewrite E in H; by injection H).
    by vm_compute. }
  exists w. split; [done|]. split; [done|].
  exact (proj2 (proj2 (proj2 (proj2 (proj2 (slots_match_threads _ _ _ H1 H2 E))))) Hp).
Defined.

(** C26: A connection that is not yet a session outlives the shutdown.  The signal
    handler shuts down exactly the sessions that exist at that moment; a thread
    still in the TLS handshake, the request or an HTTP handler is never shut
    down, also not when it becomes a session later, and a clean exit waits for
    it to end by itself. *)
Theorem shutdown_misses_handshakes cfg es w i ip es' w' :
  run (es ++ [Signal]) (start cfg) = Some w ->
  (forall j, j ∈ shut (tracker w) <-> j ∈ sessions_ (tracker w)) /\
  (0 <= Config.max_connections cfg -> 0 <= Config.max_connections_per_ip cfg ->
   session_threads w !! i = Some (Thread ip Handling) -> run es' w = Some w' ->
   (i ∉ shut (tracker w')) /\
   (phase w <> Exited -> phase w' = Exited ->
    exists t, session_threads w' !! i = Some t /\ at_stage t = Finished)).
Proof.
  intros Hrun. pose proof Hrun as Hall.
  rewrite run_app in Hrun. apply bind_Some in Hrun as (w0 & H0 & H1).
  cbn -[step] in H1. apply bind_Some in H1 as (w1 & H1 & [= ->]).
  unfold step in H1. destruct (negb (running w0)); [done|].
  destruct (stop_trusted_refresh w0) eqn:Es; [done|]. injection H1 as <-.
  destruct (run_stable _ _ _ H0) as (_ & _ & A & _). destruct (A Es) as [Hs _]. cbn in Hs.
  split; [intros j; cbn; rewrite Hs; set_solver|]. intros Hc Hp Hi H2.
  pose proof (server_run_inv _ _ _ _ _ _ (server_start_inv cfg Hc Hp) H0) as [_ Htr _].
  destruct (run_stable _ _ _ H2) as (B1 & B2 & _ & B4). split.
  - rewrite (B2 eq_refl). cbn in *. rewrite Hs, elem_of_union, Htr, Hi. intros [(a & E)|E]; set_solver.
  - intros Hne E. destruct (B1 _ _ Hi) as [t Ht]. exists t. split; [done|].
    eapply joinable_done_finished; [by apply B4|done].
Qed.

Definition two_clients : list event :=
  [Connect (Some (lit "a")) true; Connect (Some (lit "b")) true; Begin 0].

Lemma shutdown_misses_handshakes_witness :
  exists w w', run (two_clients ++ [Signal]) (start Config.defaults) = Some w /\
    run [AcceptFails Aborted; Begin 1; End 0; Return 0] w = Some w' /\
    (1%nat ∉ shut (tracker w')) /\
    session_threads w' !! 1%nat = Some (Thread (lit "b") Streaming).
Proof.
  destruct (run (two_clients ++ [Signal]) (start Config.defaults)) as [w|] eqn:E; [|by vm_compute in E].
  assert (session_threads w !! 1%nat = Some (Thread (lit "b") Handling)) as Hi.
  { enough ((λ w, session_threads w !! 1%nat) <$> run (two_clients ++ [Signal]) (start Config.defaults) =
            Some (Some (Thread (lit "b") Handling))) as H by (rewrite E in H; by injection H).
    by vm_compute. }
  destruct (run [AcceptFails Aborted; Begin 1; End 0; Return 0] w) as [w'|] eqn:E'.
  - exists w, w'. split; [done|]. split; [done|].
    assert (0 <= Config.max_connections Config.defaults) as H1 by done.
    assert (0 <= Config.max_connections_per_ip Config.defaults) as H2 by done.
    split; [exact (proj1 (proj2 (shutdown_misses_handshakes _ _ _ _ _ _ _ E) H1 H2 Hi E'))|].
    enough (run (two_clients ++ [Signal]) (start Config.defaults) ≫=
            (λ w, run [AcceptFails Aborted; Begin 1; End 0; Return 0] w ≫= λ w', session_threads w' !! 1%nat) =
            Some (Thread (lit "b") Streaming)) as H by (rewrite E in H; cbn -[run] in H; by rewrite E' in H).
    by vm_compute.
  - enough (is_Some (run (two_clients ++ [Signal]) (start Config.defaults) ≫=
            run [AcceptFails Aborted; Begin 1; End 0; Return 0])) as [? H]
      by (rewrite E in H; cbn -[run] in H; by rewrite E' in H).
    by eexists; vm_compute.
Defined.

(** Finished threads are never reclaimed.  The vector of threads only grows,
    and with any limits that admit a connection at all, any number of clients
    that come and go leave as many joinable threads behind, with no connection
    open and the loop still accepting. *)
Theorem threads_accumulate cfg ip n :
  1 <= Config.max_connections cfg -> 1 <= Config.max_connections_per_ip cfg ->
  (exists w, run (visits ip n) (start cfg) = Some w /\ phase w = Accepting /\
     length (session_threads w) = n /\ ConnectionLimiter.total (limiter w) = 0) /\
  (forall es w w', run es w = Some w' ->
     (length (session_threads w) <= length (session_threads w'))%nat).
Proof.
  intros Hc Hp. split.
  - destruct (visits_run cfg ip n Hc Hp) as (w & Hw & Hph & _ & Hs & [Ht _] & _).
    exists w. split; [done|]. split; [done|]. rewrite Hs, length_replicate. split; [done|].
    by rewrite Ht, gmultiset_size_empty.
  - intros es w w' H. destruct (run_stable _ _ _ H) as (B & _).
    destruct (decide (length (session_threads w) = 0%nat)) as [|Hne]; [lia|].
    destruct (lookup_lt_is_Some_2 (session_threads w) (length (session_threads w) - 1)) as [u Hu]; [lia|].
    apply B, lookup_lt_is_Some in Hu. lia.
Qed.

Lemma threads_accumulate_witness :
  exists w, run (visits (lit "a") 20) (start Config.defaults) = Some w /\ phase w = Accepting /\
    length (session_threads w) = 20%nat /\ ConnectionLimiter.total (limiter w) = 0.
Proof.
  assert (1 <= Config.max_connections Config.defaults) as H1 by done.
  assert (1 <= Config.max_connections_per_ip Config.defaults) as H2 by done.
  exact (proj1 (threads_accumulate Config.defaults (lit "a") 20 H1 H2)).
Defined.

End Server.
