(* ===== verification/Startup.v ===== *)
(** The start of [main] in [src/server.cpp], from the command line to the accept
    loop, the exit status, and the usage text of [printUsage].

    The configuration is that of [Config]; the loading of certificates, the
    address, the binding of the port and the creation of threads are the
    environment.  A started process is the initial state of [Server] with that of
    [System]. *)

From stdpp Require Import prelude strings list gmap.
From Stdlib Require Import ZArith Lia.
From S2P Require Import Prelude Floats ApiAuthClient AuthManager InferenceLimiter ModelCache System.
From S2P Require Import Config TrustedProxyResolver Server.

Module Startup.

(** ** The usage text *)

(** What follows the name of the program in the first line. *)
Definition synopsis : list string := [
  " [--model path] [--bind address] [--port N]"%string;
  " [--auth-token TOKEN]"%string;
  " [--auth-api-url URL] [--auth-api-secret SECRET]"%string;
  " [--auth-cache-ttl N] [--auth-api-timeout N]"%string;
  " [--cert cert.pem] [--key key.pem]"%string;
  " [--max-connections N] [--max-connections-per-ip N]"%string;
  " [--trusted-proxy-hosts HOSTS] [--trusted-proxy-refresh-sec N]"%string;
  " [--whisper-beam-size N] [--whisper-threads N]"%string;
  " [--max-concurrent-inference N] [--model-cache-ttl N]"%string;
  " [--whisper-initial-prompt TEXT] [--session-timeout-sec N] [--handshake-timeout-sec N] [--shutdown-timeout-sec N]"%string;
  " [--flush-min-new-audio-ms N]"%string;
  " [--whisper-temperature-inc-http F]"%string;
  " [--vad-model PATH] [--vad-threshold F] [--vad-min-speech-ms N]"%string;
  " [--vad-min-silence-ms N] [--vad-max-speech-s F] [--vad-speech-pad-ms N]"%string;
  " [--vad-samples-overlap F]"%string;
  " [--env-file path]"%string;
  " [--max-upload-bytes N]"%string;
  " [--max-audio-duration-sec N]"%string
].

(** The description of the VAD options. *)
Definition vad_help : list string := [
  "  --vad-model PATH           VAD (Silero) model file (default: third_party/whisper.cpp/models/ggml-silero-v5.1.2.bin)"%string;
  "  --vad-threshold F          VAD speech probability threshold (default: 0.5)"%string;
  "  --vad-min-speech-ms N      min speech segment duration (default: 250)"%string;
  "  --vad-min-silence-ms N     silence >= this is trimmed before Whisper (default: 2000)"%string;
  "  --vad-max-speech-s F       max speech segment before forced split (default: unlimited)"%string;
  "  --vad-speech-pad-ms N      audio kept each side of a kept segment (default: 400)"%string;
  "  --vad-samples-overlap F    overlap seconds between segments (default: 0.1)"%string
].

(** The environment variables. *)
Definition variables : list string := [
  "  MODEL_PATH, BIND_ADDRESS, PORT,"%string;
  "  AUTH_TOKEN, AUTH_API_URL, AUTH_API_SECRET, AUTH_CACHE_TTL, AUTH_API_TIMEOUT,"%string;
  "  TLS_CERT, TLS_KEY, MAX_CONNECTIONS, MAX_CONNECTIONS_PER_IP,"%string;
  "  TRUSTED_PROXY_HOSTS, TRUSTED_PROXY_REFRESH_SEC,"%string;
  "  WHISPER_BEAM_SIZE, WHISPER_THREADS, MAX_CONCURRENT_INFERENCE,"%string;
  "  MODEL_CACHE_TTL, WHISPER_INITIAL_PROMPT, SESSION_TIMEOUT_SEC, HANDSHAKE_TIMEOUT_SEC, SHUTDOWN_TIMEOUT_SEC,"%string;
  "  WHISPER_TEMPERATURE, WHISPER_TEMPERATURE_INC, WHISPER_TEMPERATURE_INC_HTTP,"%string;
  "  WHISPER_NO_SPEECH_THOLD, WHISPER_LOGPROB_THOLD"%string;
  "  FLUSH_MIN_NEW_AUDIO_MS"%string;
  "  MAX_UPLOAD_BYTES, MAX_AUDIO_DURATION_SEC"%string
].

Definition newline : str := [Ascii.ascii_of_nat 10].

(** The lines, each with its line feed. *)
Definition lines (l : list string) : str := concat ((λ s, lit s ++ newline) <$> l).

Definition printUsage (binary : str) : str :=
  lit "Usage: " ++ binary ++ concat (lit <$> synopsis) ++ newline ++
  lines vad_help ++
  lit "All options can also be set via environment variables (or a .env file):" ++ newline ++
  lines variables ++
  lit "CLI arguments override environment variables." ++ newline.

(** The words of a text, at blanks, commas, brackets and line feeds. *)
Definition separator (c : Ascii.ascii) : bool :=
  bool_decide (Ascii.nat_of_ascii c ∈ [32; 44; 91; 93; 10]%nat).

Fixpoint words (cur s : str) : list str :=
  match s with
  | [] => if bool_decide (cur = []) then [] else [cur]
  | c :: s =>
      if separator c then (if bool_decide (cur = []) then words [] s else cur :: words [] s)
      else words (cur ++ [c]) s
  end.

Definition options_in (s : str) : list str := filter (λ w, starts_with (lit "--") w = true) (words [] s).

(** ** The start of [main] *)

(** What the system answers: loading the certificate and the key, parsing the
    address, binding the port, creating the threads, registering
    the signal handler. *)
Record machine := Machine {
  ssl_load : result unit;
  make_address : result unit;
  bind_port : result unit;
  spawn_refresh : result unit;
  spawn_ioc : result unit;
  install_signals : result unit
}.

(** A process that has reached the accept loop. *)
Record process := Process {
  use_ssl : bool;
  server : Server.world;
  shared : System.sys;
  log : list str
}.

(** [std::terminate] is called when an exception meets a running thread. *)
Inductive started := Exited (status : Z) | Aborted | Serving (p : process).

Definition tls_configured (c : Config.ServerConfig) : bool :=
  negb (bool_decide (Config.cert_path c = [])) && negb (bool_decide (Config.key_path c = [])).

Definition auth_config (c : Config.ServerConfig) : ApiAuthClient.ApiAuthConfig := {|
  ApiAuthClient.static_token := Config.auth_token c;
  ApiAuthClient.api_base_url := Config.auth_api_url c;
  ApiAuthClient.api_secret_key := Config.auth_api_secret c;
  ApiAuthClient.cache_ttl_seconds := Config.auth_cache_ttl c;
  ApiAuthClient.timeout_seconds := Config.auth_api_timeout c
|}.

(** Is the thread started that refreshes the trusted proxies? *)
Definition refreshing (c : Config.ServerConfig) : bool :=
  TrustedProxyResolver.enabled (TrustedProxyResolver.make (Config.trusted_proxy_hosts c)).

Section main.
(** [std::to_string] of a [float]. *)
Context (real_text : float32 -> str).

(** The lines logged before the process listens. *)
Definition banner (c : Config.ServerConfig) : list str :=
  [lit "Model:   " ++ Config.model_path c;
   lit "Bind:    " ++ Config.bind_address c ++ lit ":" ++ to_string (Config.port c);
   lit "SSL:     " ++ (if tls_configured c then lit "enabled" else lit "disabled");
   (if negb (bool_decide (Config.auth_api_url c = []))
    then lit "Auth:    API " ++ Config.auth_api_url c ++
         lit "  cache=" ++ to_string (Config.auth_cache_ttl c) ++ lit "s" ++
         lit "  timeout=" ++ to_string (Config.auth_api_timeout c) ++ lit "s"
    else lit "Auth:    disabled");
   lit "Limits:  " ++ to_string (Config.max_connections c) ++ lit " total, " ++
     to_string (Config.max_connections_per_ip c) ++ lit " per IP";
   lit "Whisper: beam_size=" ++ to_string (Config.whisper_beam_size c) ++
     lit "  threads=" ++ to_string (Config.whisper_threads c) ++
     lit "  max_concurrent=" ++ to_string (Config.max_concurrent_inference c) ++
     lit "  cache_ttl=" ++ to_string (Config.model_cache_ttl c) ++ lit "s";
   lit "Whisper: temperature=" ++ real_text (Config.whisper_temperature c) ++
     lit "  temperature_inc=" ++ real_text (Config.whisper_temperature_inc c) ++
     lit "  no_speech_thold=" ++ real_text (Config.whisper_no_speech_thold c) ++
     lit "  logprob_thold=" ++ real_text (Config.whisper_logprob_thold c);
   lit "Flush:   min_new_audio_ms=" ++ to_string (Config.flush_min_new_audio_ms c)] ++
  (if bool_decide (Config.whisper_initial_prompt c = []) then []
   else [lit "Whisper: initial_prompt=" ++ [Ascii.ascii_of_nat 34] ++ Config.whisper_initial_prompt c ++ [Ascii.ascii_of_nat 34]]).

(** The process once everything has succeeded. *)
Definition serving (c : Config.ServerConfig) : process :=
  Process (tls_configured c) (Server.start c)
    (System.boot (Config.model_cache_ttl c) (Config.max_concurrent_inference c)
       (AuthManager.make (auth_config c))) (banner c).

(** From the configuration to the accept loop.  An exception that reaches the
    [catch] of [main] gives status 1, unless one of its threads is running. *)
Definition start (m : machine) (c : Config.ServerConfig) : started :=
  match (if tls_configured c then ssl_load m else Ok tt) with
  | Throw _ => Exited 1
  | Ok _ =>
      match (_ ← make_address m; bind_port m) with
      | Throw _ => Exited 1
      | Ok _ =>
          match (if refreshing c then spawn_refresh m else Ok tt) with
          | Throw _ => Exited 1
          | Ok _ =>
              match spawn_ioc m with
              | Throw _ => if refreshing c then Aborted else Exited 1
              | Ok _ => match install_signals m with Throw _ => Aborted | Ok _ => Serving (serving c) end
              end
          end
      end
  end.

Definition main (read_file : str -> option str) (g : gmap str str) (args : list str) (m : machine) : started :=
  match Config.configure read_file g args with
  | Throw _ => Exited 1
  | Ok (Config.Exit n) => Exited n
  | Ok (Config.Parsed c) => start m c
  end.
End main.

(** The status with which a process that got to the accept loop ends, if it ends
    by itself. *)
Definition exit_status (p : Server.phase_t) : option Z :=
  match p with Server.Exited | Server.ForcedExit => Some 0 | _ => None end.

(** ** Properties *)

Definition option_names : list str := (λ x, lit x.1) <$> Config.option_table.
Definition variable_names : list str := (λ x, lit x.1) <$> Config.env_table.

(** What the usage text names, and what it leaves out. *)
Definition documented_options : list str := options_in (concat (lit <$> synopsis)).
Definition undocumented_options : list str :=
  [lit "--whisper-temperature"; lit "--whisper-temperature-inc"; lit "--whisper-no-speech-thold";
   lit "--whisper-logprob-thold"].
Definition documented_variables : list str := words [] (lines variables).

Lemma find_option_name table w f : Config.find_option table w = Some f -> w ∈ (λ x, lit x.1) <$> table.
Proof.
  induction table as [|[name g] table IH]; cbn; [done|].
  destruct (decide (w = lit name)) as [->|]; [left|right; by apply IH].
Qed.

Lemma option_table_names :
  Forall (λ w, is_Some (Config.find_option Config.option_table w)) (documented_options ++ undocumented_options) /\
  Forall (λ w, w ∈ documented_options ++ undocumented_options) option_names.
Proof. split; apply (bool_decide_eq_true_1 _); by vm_compute. Qed.

Lemma variable_table_names :
  Forall (λ w, w ∈ variable_names) documented_variables /\
  Forall (λ w, w ∈ documented_variables) variable_names.
Proof. split; apply (bool_decide_eq_true_1 _); by vm_compute. Qed.

(** Reading the environment depends on the variables of the table only. *)
Lemma read_env_ext g g' table : (forall x, x ∈ table -> g !! lit x.1 = g' !! lit x.1) ->
  forall c, Config.read_env g table c = Config.read_env g' table c.
Proof.
  induction table as [|[name f] table IH]; intros H c; [done|]. cbn [Config.read_env].
  assert (Config.from_env g name f c = Config.from_env g' name f c) as ->.
  { unfold Config.from_env, Config.env. pose proof (H (name, f) ltac:(left)) as E. cbn [fst] in E. by rewrite E. }
  destruct (Config.from_env g' name f c); [|done]. cbn. apply IH. intros x Hx. apply H. by right.
Qed.

(** Each of them changes something. *)
Lemma variables_matter :
  Forall (λ w, Config.configFromEnv {[w := lit "77"]} <> Config.configFromEnv ∅) variable_names.
Proof. repeat constructor; intros H; vm_compute in H; discriminate H. Qed.

(** C40: The usage text and the parser agree.  After any arguments that were
    accepted, an option that the synopsis names, or one of four options of
    whisper's that it leaves out, is read with the argument that follows it; every
    other word that begins with two dashes, but for "--help" and the idle
    "--thread-safe", ends the program with status 1.  The environment acts through
    the variables that the text lists, and each of them makes a difference. *)
Theorem usage_matches_parser :
  (forall w, w ∈ documented_options ++ undocumented_options -> exists f, forall args c0 c v rest,
     Config.parse_args args c0 = Ok (Config.Parsed c) ->
     Config.parse_args (args ++ w :: v :: rest) c0 = c' ← f v c; Config.parse_args rest c') /\
  (forall w args c0 c rest,
     starts_with (lit "--") w = true -> w ∉ documented_options ++ undocumented_options ->
     w <> lit "--help" -> w <> lit "--thread-safe" ->
     Config.parse_args args c0 = Ok (Config.Parsed c) ->
     Config.parse_args (args ++ w :: rest) c0 = Ok (Config.Exit 1)) /\
  (forall g g', (forall w, w ∈ documented_variables -> g !! w = g' !! w) ->
     Config.configFromEnv g = Config.configFromEnv g') /\
  (forall w, w ∈ documented_variables ->
     exists v, Config.configFromEnv {[w := v]} <> Config.configFromEnv ∅).
Proof.
  destruct option_table_names as [H1 H2]. destruct variable_table_names as [H3 H4].
  rewrite Forall_forall in H1, H2, H3, H4. split; [|split; [|split]].
  - intros w Hw. destruct (H1 w Hw) as [f Hf]. exists f. intros args c0 c v rest Ha.
    rewrite (Config.parse_args_app_aux (length args) args ltac:(lia) _ _ _ Ha). cbn [Config.parse_args].
    rewrite decide_False by (intros ->; by vm_compute in Hf). by rewrite Hf.
  - intros w args c0 c rest Hd Hn Hh Ht Ha.
    rewrite (Config.parse_args_app_aux (length args) args ltac:(lia) _ _ _ Ha). cbn [Config.parse_args].
    rewrite decide_False by done. destruct (Config.find_option Config.option_table w) as [f|] eqn:Ef.
    { by apply find_option_name, H2 in Ef. }
    by rewrite decide_False, Hd by done.
  - intros g g' H. apply read_env_ext. intros x Hx. apply H, H4.
    apply (list_elem_of_fmap_2 (λ x, lit x.1)), Hx.
  - intros w Hw%H3. exists (lit "77"). revert w Hw. apply Forall_forall, variables_matter.
Qed.

(** An option that the usage text does not name, after a port. *)
Lemma usage_matches_parser_witness :
  Config.parse_args [lit "--port"; lit "9000"; lit "--vad"; lit "x"] Config.defaults = Ok (Config.Exit 1).
Proof.
  refine (proj1 (proj2 usage_matches_parser) (lit "--vad") [lit "--port"; lit "9000"] Config.defaults
    (Config.set_port 9000 Config.defaults) [lit "x"] eq_refl _ _ _ _).
  - apply (bool_decide_eq_true_1 _). by vm_compute.
  - discriminate.
  - discriminate.
  - by vm_compute.
Defined.

(** No variable sets a VAD option, although the usage text says that all options
    can be set that way. *)
Lemma vad_has_no_variable :
  Forall (λ w, starts_with (lit "VAD") w = false) variable_names /\
  lit "--vad-model" ∈ option_names.
Proof. split; apply (bool_decide_eq_true_1 _); by vm_compute. Qed.

(** When the server serves.  [main] reaches the accept loop exactly when the
    command line, the environment and the ".env" file yield a configuration, the
    certificate loads if both files are named, and the address, the port and the
    threads can be had; the process then is in the initial state of the theorems
    about connections and about sessions, with the configured limits. *)
Theorem main_serves real_text read_file g args m p :
  main real_text read_file g args m = Serving p <->
  exists c, Config.configure read_file g args = Ok (Config.Parsed c) /\
    (tls_configured c = true -> ssl_load m = Ok tt) /\
    make_address m = Ok tt /\ bind_port m = Ok tt /\
    (refreshing c = true -> spawn_refresh m = Ok tt) /\
    spawn_ioc m = Ok tt /\ install_signals m = Ok tt /\ p = serving real_text c.
Proof.
  unfold main. split.
  - destruct (Config.configure read_file g args) as [[c|n]|w]; [|done..]. unfold start.
    intros H. exists c. split; [done|].
    destruct (tls_configured c); [destruct (ssl_load m) as [[]|]; [|done]|];
      (destruct (make_address m) as [[]|]; cbn in H; [|done]); (destruct (bind_port m) as [[]|]; [|done]);
      (destruct (refreshing c); [destruct (spawn_refresh m) as [[]|]; [|done]|]);
      (destruct (spawn_ioc m) as [[]|]; [|done]); (destruct (install_signals m) as [[]|]; [|done]);
      by injection H as <-.
  - intros (c & -> & Hssl & Ha & Hb & Hr & Hi & Hs & ->). unfold start. rewrite Ha, Hb, Hi, Hs. cbn.
    destruct (tls_configured c); [rewrite Hssl by done|]; (destruct (refreshing c); [by rewrite Hr|done]).
Qed.

(** A machine on which everything succeeds. *)
Definition good_machine : machine := Machine (Ok tt) (Ok tt) (Ok tt) (Ok tt) (Ok tt) (Ok tt).

Lemma main_serves_witness :
  exists p, main (λ _, []) (λ _, None) ∅ [lit "--port"; lit "9100"] good_machine = Serving p.
Proof.
  destruct (Config.configure (λ _, None) ∅ [lit "--port"; lit "9100"]) as [[c|n]|w] eqn:E;
    [|by vm_compute in E..].
  exists (serving (λ _, []) c).
  apply (main_serves (λ _, []) (λ _, None) ∅ [lit "--port"; lit "9100"] good_machine (serving (λ _, []) c)).
  by exists c.
Defined.

(** A certificate without a key, or a key without a certificate, is ignored: the
    server listens without TLS. *)
Lemma half_configured_tls_is_plain real_text c m p :
  bool_decide (Config.cert_path c = []) <> bool_decide (Config.key_path c = []) ->
  start real_text m c = Serving p -> use_ssl p = false.
Proof.
  intros Hne H.
  assert (tls_configured c = false) as Ht.
  { unfold tls_configured. by destruct (bool_decide (Config.cert_path c = [])), (bool_decide (Config.key_path c = [])). }
  unfold start in H. rewrite Ht in H. repeat (case_match; try done); injection H as <-; exact Ht.
Qed.

(** With a static token and no API the log says that authentication is disabled,
    while every session must present the token. *)
Lemma auth_log_misleads real_text c :
  Config.auth_token c <> [] -> Config.auth_api_url c = [] ->
  lit "Auth:    disabled" ∈ banner real_text c /\
  AuthManager.isAuthEnabled (System.auth_state (shared (serving real_text c))) = true.
Proof.
  intros Ht Hu. split.
  - unfold banner. rewrite Hu. cbn [app bool_decide negb]. rewrite bool_decide_eq_true_2 by done. cbn [negb].
    do 3 right. left.
  - unfold AuthManager.isAuthEnabled. cbn. by rewrite (bool_decide_eq_false_2 (Config.auth_token c = [])), orb_true_r by done.
Qed.

End Startup.
